(** * pydoctor: the object model (model.py) and annotation rewriting (astutils.py)

    A shallow embedding of the parts of [pydoctor/model.py] and
    [pydoctor/astutils.py] that carry the name index, the duplicate and
    reparenting protocols, name expansion, constructor detection, the
    inheritance fallback and the privacy rules.

    Python objects are mutable and shared, so every [Documentable] lives in
    an object store ([heap]) and is referred to by its identity ([oid]).
    Python exceptions are results of the functions; functions that mutate
    the system return the state they leave behind, also when they raise. *)

From stdpp Require Import gmap strings list fin_maps pretty.
From Stdlib Require Import Ascii ZArith Lia.
From Stdlib Require String.

Local Open Scope Z_scope.
Local Open Scope nat_scope.

(** ** Python strings *)

Module pystr.

(** ['.'] as a character. *)
Definition dot : ascii := "."%char.

Definition is_dot (c : ascii) : bool := bool_decide (c = dot).

(** [s.split('.')]: never empty, [''.split('.') == ['']]. *)
Fixpoint split (s : string) : list string :=
  match s with
  | EmptyString => [EmptyString]
  | String c s' =>
      if is_dot c then EmptyString :: split s'
      else match split s' with
           | [] => [String c EmptyString]
           | h :: t => String c h :: t
           end
  end.

(** [s.split('.', 1)]: the text before the first dot and, when there is a
    dot, the text after it. *)
Fixpoint split1 (s : string) : string * option string :=
  match s with
  | EmptyString => (EmptyString, None)
  | String c s' =>
      if is_dot c then (EmptyString, Some s')
      else let '(h, t) := split1 s' in (String c h, t)
  end.

(** ['.'.join(l)] *)
Fixpoint join (l : list string) : string :=
  match l with
  | [] => ""
  | [x] => x
  | x :: rest => x +:+ "." +:+ join rest
  end.

(** No ['.'] occurs in [s]. *)
Fixpoint dotfree (s : string) : bool :=
  match s with
  | EmptyString => true
  | String c s' => negb (is_dot c) && dotfree s'
  end.

Definition startswith (s p : string) : bool := String.prefix p s.

Definition endswith (s p : string) : bool :=
  String.prefix (String.rev p) (String.rev s).

(** [str(n)] for a non-negative [int]. *)
Definition str_of_nat (n : nat) : string := pretty n.

(** [repr(s)] for the strings that name objects: text without quotes,
    backslashes or control characters, which [repr] wraps in single
    quotes. *)
Definition repr (s : string) : string := "'" +:+ s +:+ "'".

End pystr.

(** ** Exceptions and results *)

Inductive exn : Type :=
  | RecursionError
  | KeyError (key : string)
  | IndexError
  | AttributeError
  | AssertionError
  | LookupError (what : string)
  | ValueError (what : string)
  | NoSuchObject.
(** [NoSuchObject] has no Python counterpart: it is what the model answers
    when an identity is not in the object store, which a Python reference
    cannot be. *)

Inductive res (A : Type) : Type :=
  | Ok (a : A)
  | Raise (e : exn).
Arguments Ok {A} a.
Arguments Raise {A} e.

Definition rbind {A B} (r : res A) (k : A → res B) : res B :=
  match r with
  | Ok a => k a
  | Raise e => Raise e
  end.

Notation "'let*' x ':=' r 'in' k" := (rbind r (fun x => k))
  (at level 10, x pattern, r at level 100, k at level 200, only parsing).

Definition is_ok {A} (r : res A) : bool :=
  match r with Ok _ => true | Raise _ => false end.

Fixpoint rmapM {A B} (f : A → res B) (l : list A) : res (list B) :=
  match l with
  | [] => Ok []
  | x :: xs => let* y := f x in let* ys := rmapM f xs in Ok (y :: ys)
  end.

(** ** Python dictionaries that keep insertion order *)

Module pydict.
Section dict.
Context {V : Type}.

Definition t := list (string * V).

Fixpoint get (k : string) (d : t) : option V :=
    match d with
    | [] => None
    | (k', v) :: d' => if bool_decide (k' = k) then Some v else get k d'
    end.

Definition mem (k : string) (d : t) : bool :=
    match get k d with Some _ => true | None => false end.

  (** [d[k] = v]: an existing key keeps its position. *)
Fixpoint set (k : string) (v : V) (d : t) : t :=
    match d with
    | [] => [(k, v)]
    | (k', v') :: d' =>
        if bool_decide (k' = k) then (k, v) :: d' else (k', v') :: set k v d'
    end.

  (** [del d[k]] on a present key. *)
Definition del (k : string) (d : t) : t :=
    filter (λ kv, kv.1 ≠ k) d.

Definition values (d : t) : list V := map snd d.
Definition keys (d : t) : list string := map fst d.
End dict.
Arguments t : clear implicits.
End pydict.

(** ** The syntax of annotation expressions (module [ast]) *)

Module ast.

Inductive constant : Type :=
  | CNone
  | CEllipsis
  | CBool (b : bool)
  | CInt (z : Z)
  | CStr (s : string).

Inductive operator : Type := BitOr | BitAnd | Add | Sub.

(** The expression nodes an annotation is made of. The [ctx] field and the
    source positions ([lineno], [col_offset]) are not kept, so
    [ast.copy_location] and [ast.fix_missing_locations] are the identity
    here. *)
#[warnings="-register-all"]
Inductive expr : Type :=
  | Name (id : string)
  | Attribute (value : expr) (attr : string)
  | Subscript (value : expr) (slice : expr)
  | Tuple (elts : list expr)
  | List (elts : list expr)
  | Constant (value : constant)
  | BinOp (left_ : expr) (op : operator) (right_ : expr).

End ast.

(** ** astutils.py *)

Module astutils.
Import ast.

(** [node2dottedname]: the names of an [Attribute]/[Name] chain, or [None]. *)
Fixpoint node2dottedname_rev (node : expr) : option (list string) :=
  match node with
  | Attribute value attr =>
      match node2dottedname_rev value with
      | Some parts => Some (attr :: parts)
      | None => None
      end
  | Name id => Some [id]
  | _ => None
  end.

Definition node2dottedname (node : option expr) : option (list string) :=
  match node with
  | None => None
  | Some e =>
      match node2dottedname_rev e with
      | Some parts => Some (rev parts)
      | None => None
      end
  end.

(** [node2fullname(expr, expandName=...)] with a name expansion that may
    raise. *)
Definition node2fullname (expandName : string → res string)
    (e : option expr) : res (option string) :=
  match node2dottedname e with
  | None => Ok None
  | Some dottedname => let* r := expandName (pystr.join dottedname) in Ok (Some r)
  end.

Definition DEPRECATED_TYPING_ALIAS_BUILTINS : list (string * string) :=
  [ ("typing.Text", "str"); ("typing.Dict", "dict");
    ("typing.Tuple", "tuple"); ("typing.Type", "type");
    ("typing.List", "list"); ("typing.Set", "set");
    ("typing.FrozenSet", "frozenset") ].

(** [*others, right = args] *)
Fixpoint unsnoc {A} (l : list A) : option (list A * A) :=
  match l with
  | [] => None
  | x :: l' =>
      match unsnoc l' with
      | None => Some ([], x)
      | Some (others, right_) => Some (x :: others, right_)
      end
  end.

(** [_UpgradeDeprecatedAnnotations._union_args_to_bitor]; the recursion is
    on [others], one element shorter at each call, so [length args + 1]
    calls are enough. *)
Fixpoint _union_args_to_bitor_go (n : nat) (args : list expr) : res expr :=
  match n with
  | 0 => Raise RecursionError
  | S n' =>
      if negb (1 <? length args) then Raise AssertionError
      else match unsnoc args with
           | None => Raise AssertionError
           | Some (others, right_) =>
               if length others =? 1 then
                 match others with
                 | o :: _ => Ok (BinOp o BitOr right_)
                 | [] => Raise IndexError
                 end
               else
                 let* l := _union_args_to_bitor_go n' others in
                 Ok (BinOp l BitOr right_)
           end
  end.

Definition _union_args_to_bitor (args : list expr) : res expr :=
  _union_args_to_bitor_go (S (length args)) args.

Section upgrade.
  (** [ctx.expandAnnotationName], the name expansion of the object the
      annotation belongs to. *)
Variable expandAnnotationName : string → string.

Definition _node2fullname (node : expr) : option string :=
    match node2fullname (λ s, Ok (expandAnnotationName s)) (Some node) with
    | Ok r => r
    | Raise _ => None
    end.

  (** [visit_Name], which is also [visit_Attribute]. *)
Definition visit_Name (node : expr) : expr :=
    match _node2fullname node with
    | Some fullName =>
        match pydict.get fullName DEPRECATED_TYPING_ALIAS_BUILTINS with
        | Some builtin => Name builtin
        | None => node
        end
    | None => node
    end.

  (** [isinstance(slice_, (ast.Attribute, ast.Name, ast.Subscript, ast.BinOp))] *)
Definition is_annotation_node (e : expr) : bool :=
    match e with
    | Attribute _ _ | Name _ | Subscript _ _ | BinOp _ _ _ => true
    | _ => false
    end.

  (** [visit_Subscript] once [node.value] and [node.slice] are visited. *)
Definition visit_Subscript_post (value slice : expr) : res expr :=
    let node := Subscript value slice in
    let fullName := _node2fullname value in
    if bool_decide (fullName = Some "typing.Union") then
      match slice with
      | Tuple args =>
          if 1 <? length args then _union_args_to_bitor args
          else if length args =? 1 then
            match args with a :: _ => Ok a | [] => Raise IndexError end
          else Ok node
      | _ => if is_annotation_node slice then Ok slice else Ok node
      end
    else if bool_decide (fullName = Some "typing.Optional") then
      if is_annotation_node slice then
        _union_args_to_bitor [slice; Constant CNone]
      else Ok node
    else Ok node.

  (** [_UpgradeDeprecatedAnnotations.visit]: [ast.NodeTransformer]
      dispatches on the node class and falls back to [generic_visit],
      which visits the child expressions in field order. *)
Fixpoint visit (node : expr) : res expr :=
    let fix visit_list (l : list expr) : res (list expr) :=
      match l with
      | [] => Ok []
      | x :: xs => let* x' := visit x in let* xs' := visit_list xs in Ok (x' :: xs')
      end in
    match node with
    | Name _ | Attribute _ _ => Ok (visit_Name node)
    | Subscript value slice =>
        let* value' := visit value in
        let* slice' := visit slice in
        visit_Subscript_post value' slice'
    | Tuple elts => let* elts' := visit_list elts in Ok (Tuple elts')
    | List elts => let* elts' := visit_list elts in Ok (List elts')
    | Constant c => Ok (Constant c)
    | BinOp l op r => let* l' := visit l in let* r' := visit r in Ok (BinOp l' op r')
    end.

  (** [upgrade_annotation(node, ctx)] *)
Definition upgrade_annotation (node : expr) : res expr := visit node.
End upgrade.

(** ** astutils.py: docstrings and inferred types *)

(** [doc.count('\n')] *)
Fixpoint count_newlines (doc : string) : Z :=
  match doc with
  | EmptyString => 0%Z
  | String ch rest =>
      ((if bool_decide (ch = ascii_of_nat 10) then 1 else 0)
       + count_newlines rest)%Z
  end.

(** The loop [for ch in doc] of [extract_docstring_linenum]; [isspace] is
    [str.isspace] on one character. *)
Fixpoint skip_blank_lines (isspace : ascii → bool) (doc : string) (lineno : Z)
    : Z :=
  match doc with
  | EmptyString => lineno
  | String ch rest =>
      if bool_decide (ch = ascii_of_nat 10)
      then skip_blank_lines isspace rest (lineno + 1)%Z
      else if negb (isspace ch) then lineno
      else skip_blank_lines isspace rest lineno
  end.

(** [extract_docstring_linenum(node)] for a node with the text [doc] at the
    line [lineno]; [_string_lineno_is_end] is the constant of the module,
    which depends on the version of the interpreter. *)
Definition extract_docstring_linenum (_string_lineno_is_end : bool)
    (isspace : ascii → bool) (doc : string) (lineno : Z) : Z :=
  let lineno :=
    if _string_lineno_is_end then (lineno - count_newlines doc)%Z
    else lineno in
  skip_blank_lines isspace doc lineno.

(** The values [ast.literal_eval] gives. The elements of a [set] and the
    items of a [dict] are listed in the order of iteration; of a number, a
    string or a byte string only the type matters below. *)
#[warnings="-register-all"]
Inductive pyvalue : Type :=
  | VNone
  | VEllipsis
  | VBool (b : bool)
  | VInt (n : Z)
  | VFloat (repr : string)
  | VComplex (repr : string)
  | VStr (s : string)
  | VBytes (b : string)
  | VList (elts : list pyvalue)
  | VTuple (elts : list pyvalue)
  | VSet (elts : list pyvalue)
  | VDict (items : list (pyvalue * pyvalue)).

(** [type(value).__name__] *)
Definition type_name (value : pyvalue) : string :=
  match value with
  | VNone => "NoneType"
  | VEllipsis => "ellipsis"
  | VBool _ => "bool"
  | VInt _ => "int"
  | VFloat _ => "float"
  | VComplex _ => "complex"
  | VStr _ => "str"
  | VBytes _ => "bytes"
  | VList _ => "list"
  | VTuple _ => "tuple"
  | VSet _ => "set"
  | VDict _ => "dict"
  end.

(** The end of [_annotation_for_elements]: [names] is what the loop has
    collected, or [None] when the loop has returned early. *)
Definition name_of_names (names : option (gset string)) : option expr :=
  match names with
  | Some names =>
      match elements names with
      | [name] => Some (Name name)
      | _ => None
      end
  | None => None
  end.

(** The end of [_annotation_for_value] for a container of the type
    [name]. *)
Definition container_annotation (name : string) (ann_elem : option expr)
    : option expr :=
  match ann_elem with
  | Some ann_elem =>
      let ann_elem :=
        if bool_decide (name = "tuple")
        then Tuple [ann_elem; Constant CEllipsis] else ann_elem in
      Some (Subscript (Name name) ann_elem)
  | None => Some (Name name)
  end.

(** [_annotation_for_value]; the loops of [_annotation_for_elements] over
    the elements of a container, over the keys and over the values of a
    [dict] are local, as the recursion goes through them. *)
Fixpoint _annotation_for_value (value : pyvalue) : option expr :=
  let fix loop (sequence : list pyvalue) (names : gset string)
      : option (gset string) :=
    match sequence with
    | [] => Some names
    | elem :: rest =>
        match _annotation_for_value elem with
        | Some (Name id) => loop rest ({[id]} ∪ names)
        | _ => None
        end
    end in
  let fix loop_keys (items : list (pyvalue * pyvalue)) (names : gset string)
      : option (gset string) :=
    match items with
    | [] => Some names
    | (elem, _) :: rest =>
        match _annotation_for_value elem with
        | Some (Name id) => loop_keys rest ({[id]} ∪ names)
        | _ => None
        end
    end in
  let fix loop_values (items : list (pyvalue * pyvalue)) (names : gset string)
      : option (gset string) :=
    match items with
    | [] => Some names
    | (_, elem) :: rest =>
        match _annotation_for_value elem with
        | Some (Name id) => loop_values rest ({[id]} ∪ names)
        | _ => None
        end
    end in
  match value with
  | VNone => None
  | VList elts | VTuple elts | VSet elts =>
      container_annotation (type_name value) (name_of_names (loop elts ∅))
  | VDict items =>
      let ann_elem := name_of_names (loop_keys items ∅) in
      let ann_value := name_of_names (loop_values items ∅) in
      let ann_elem :=
        match ann_value with
        | None => None
        | Some ann_value =>
            match ann_elem with
            | Some ann_elem => Some (Tuple [ann_elem; ann_value])
            | None => None
            end
        end in
      container_annotation (type_name value) ann_elem
  | _ => Some (Name (type_name value))
  end.

(** The loop of [_annotation_for_elements], with the names collected so
    far. *)
Fixpoint _annotation_for_elements_loop (sequence : list pyvalue)
    (names : gset string) : option (gset string) :=
  match sequence with
  | [] => Some names
  | elem :: rest =>
      match _annotation_for_value elem with
      | Some (Name id) => _annotation_for_elements_loop rest ({[id]} ∪ names)
      | _ => None
      end
  end.

(** [_annotation_for_elements] *)
Definition _annotation_for_elements (sequence : list pyvalue) : option expr :=
  name_of_names (_annotation_for_elements_loop sequence ∅).

End astutils.

(** ** model.py: the data *)

Module model.

(** The identity of a Python object. *)
Definition oid := nat.

Inductive ProcessingState : Type := UNPROCESSED | PROCESSING | PROCESSED.

Inductive PrivacyClass : Type := HIDDEN | PRIVATE | PUBLIC.

Inductive DocumentableKind : Type :=
  | PACKAGE | MODULE | CLASS | INTERFACE | EXCEPTION | CLASS_METHOD
  | STATIC_METHOD | METHOD | FUNCTION | CONSTANT | TYPE_VARIABLE
  | TYPE_ALIAS | CLASS_VARIABLE | SCHEMA_FIELD | ATTRIBUTE
  | INSTANCE_VARIABLE | PROPERTY | VARIABLE.

(** The concrete classes of [Documentable]; [Package] derives from
    [Module], [Module] and [Class] from [CanContainImportsDocumentable],
    [Function] and [Attribute] from [Inheritable]. *)
Inductive pyclass : Type := ModuleT | PackageT | ClassT | FunctionT | AttributeT.

#[global] Instance ProcessingState_eq_dec : EqDecision ProcessingState.
Proof. solve_decision. Defined.
#[global] Instance PrivacyClass_eq_dec : EqDecision PrivacyClass.
Proof. solve_decision. Defined.
#[global] Instance DocumentableKind_eq_dec : EqDecision DocumentableKind.
Proof. solve_decision. Defined.
#[global] Instance pyclass_eq_dec : EqDecision pyclass.
Proof. solve_decision. Defined.

Definition is_Module (c : pyclass) : bool :=
  match c with ModuleT | PackageT => true | _ => false end.
Definition is_Package (c : pyclass) : bool :=
  match c with PackageT => true | _ => false end.
Definition is_Class (c : pyclass) : bool :=
  match c with ClassT => true | _ => false end.
Definition is_Function (c : pyclass) : bool :=
  match c with FunctionT => true | _ => false end.
Definition is_CanContainImportsDocumentable (c : pyclass) : bool :=
  match c with ModuleT | PackageT | ClassT => true | _ => false end.

(** [self.__class__.__name__] *)
Definition class_name (c : pyclass) : string :=
  match c with
  | ModuleT => "Module" | PackageT => "Package" | ClassT => "Class"
  | FunctionT => "Function" | AttributeT => "Attribute"
  end.

(** The attributes of a [Documentable] and of its subclasses. Attributes a
    subclass adds hold their initial value in the objects of the other
    classes. *)
Record Documentable : Type := mkDocumentable {
  py_class : pyclass;
  name : string;
  parent : option oid;
  parentMod : option oid;
  source_path : option string;
  kind : option DocumentableKind;
  linenumber : nat;
  docstring_lineno : nat;
  contents : pydict.t oid;
  (* CanContainImportsDocumentable *)
  _localNameToFullName_map : pydict.t string;
  (* Module *)
  _is_c_module : bool;
  state : ProcessingState;
  _py_string : option string;
  (* Class *)
  rawbases : list string;
  _initialbases : list string;
  _initialbaseobjects : list (option oid);
  _finalbaseobjects : option (list (option oid));
  _finalbases : option (list string);
  _mro : option (list (oid + string));
  constructors : list oid;
  (* Function *)
  annotations : pydict.t (option ast.expr)
}.

Definition set_name (v : string) (o : Documentable) : Documentable :=
  mkDocumentable (py_class o) v (parent o) (parentMod o) (source_path o)
    (kind o) (linenumber o) (docstring_lineno o) (contents o)
    (_localNameToFullName_map o) (_is_c_module o) (state o) (_py_string o)
    (rawbases o) (_initialbases o) (_initialbaseobjects o)
    (_finalbaseobjects o) (_finalbases o) (_mro o) (constructors o)
    (annotations o).

Definition set_parent (v : option oid) (o : Documentable) : Documentable :=
  mkDocumentable (py_class o) (name o) v (parentMod o) (source_path o)
    (kind o) (linenumber o) (docstring_lineno o) (contents o)
    (_localNameToFullName_map o) (_is_c_module o) (state o) (_py_string o)
    (rawbases o) (_initialbases o) (_initialbaseobjects o)
    (_finalbaseobjects o) (_finalbases o) (_mro o) (constructors o)
    (annotations o).

Definition set_parentMod (v : option oid) (o : Documentable) : Documentable :=
  mkDocumentable (py_class o) (name o) (parent o) v (source_path o)
    (kind o) (linenumber o) (docstring_lineno o) (contents o)
    (_localNameToFullName_map o) (_is_c_module o) (state o) (_py_string o)
    (rawbases o) (_initialbases o) (_initialbaseobjects o)
    (_finalbaseobjects o) (_finalbases o) (_mro o) (constructors o)
    (annotations o).

Definition set_contents (v : pydict.t oid) (o : Documentable) : Documentable :=
  mkDocumentable (py_class o) (name o) (parent o) (parentMod o) (source_path o)
    (kind o) (linenumber o) (docstring_lineno o) v
    (_localNameToFullName_map o) (_is_c_module o) (state o) (_py_string o)
    (rawbases o) (_initialbases o) (_initialbaseobjects o)
    (_finalbaseobjects o) (_finalbases o) (_mro o) (constructors o)
    (annotations o).

Definition set_localNameToFullName_map (v : pydict.t string)
    (o : Documentable) : Documentable :=
  mkDocumentable (py_class o) (name o) (parent o) (parentMod o) (source_path o)
    (kind o) (linenumber o) (docstring_lineno o) (contents o)
    v (_is_c_module o) (state o) (_py_string o)
    (rawbases o) (_initialbases o) (_initialbaseobjects o)
    (_finalbaseobjects o) (_finalbases o) (_mro o) (constructors o)
    (annotations o).

Definition set_state (v : ProcessingState) (o : Documentable) : Documentable :=
  mkDocumentable (py_class o) (name o) (parent o) (parentMod o) (source_path o)
    (kind o) (linenumber o) (docstring_lineno o) (contents o)
    (_localNameToFullName_map o) (_is_c_module o) v (_py_string o)
    (rawbases o) (_initialbases o) (_initialbaseobjects o)
    (_finalbaseobjects o) (_finalbases o) (_mro o) (constructors o)
    (annotations o).

Definition set_finalbases (objs : option (list (option oid)))
    (names : option (list string)) (o : Documentable) : Documentable :=
  mkDocumentable (py_class o) (name o) (parent o) (parentMod o) (source_path o)
    (kind o) (linenumber o) (docstring_lineno o) (contents o)
    (_localNameToFullName_map o) (_is_c_module o) (state o) (_py_string o)
    (rawbases o) (_initialbases o) (_initialbaseobjects o)
    objs names (_mro o) (constructors o)
    (annotations o).

Definition set_mro (v : option (list (oid + string)))
    (o : Documentable) : Documentable :=
  mkDocumentable (py_class o) (name o) (parent o) (parentMod o) (source_path o)
    (kind o) (linenumber o) (docstring_lineno o) (contents o)
    (_localNameToFullName_map o) (_is_c_module o) (state o) (_py_string o)
    (rawbases o) (_initialbases o) (_initialbaseobjects o)
    (_finalbaseobjects o) (_finalbases o) v (constructors o)
    (annotations o).

Definition set_constructors (v : list oid) (o : Documentable) : Documentable :=
  mkDocumentable (py_class o) (name o) (parent o) (parentMod o) (source_path o)
    (kind o) (linenumber o) (docstring_lineno o) (contents o)
    (_localNameToFullName_map o) (_is_c_module o) (state o) (_py_string o)
    (rawbases o) (_initialbases o) (_initialbaseobjects o)
    (_finalbaseobjects o) (_finalbases o) (_mro o) v
    (annotations o).

(** The object store. *)
Abbreviation heap := (gmap oid Documentable).

(** One call of [System.msg]. The log of these calls is what the reporting
    sink has received, whatever the verbosity lets through to the output. *)
Record Message : Type := mkMessage {
  msg_section : string;
  msg_text : string;
  msg_thresh : Z
}.

(** [System]; [options] is reduced to the two options this part reads.
    [stdout_isatty] is what [sys.stdout.isatty()] answers. *)
Record System : Type := mkSystem {
  objects : heap;
  allobjects : gmap string oid;
  modules : gmap string oid;
  rootobjects : list oid;
  unprocessed_modules : list oid;
  processing_modules : list string;
  module_count : nat;
  violations : nat;
  needsnl : bool;
  once_msgs : list (string * string);
  _privacyClassCache : gmap string PrivacyClass;
  options_verbosity : Z;
  options_privacy : list (PrivacyClass * string);
  stdout : list string;
  msg_log : list Message;
  stdout_isatty : bool
}.

Definition set_objects (v : heap) (s : System) : System :=
  mkSystem v (allobjects s) (modules s) (rootobjects s)
    (unprocessed_modules s) (processing_modules s) (module_count s)
    (violations s) (needsnl s) (once_msgs s) (_privacyClassCache s)
    (options_verbosity s) (options_privacy s) (stdout s) (msg_log s) (stdout_isatty s).

Definition set_allobjects (v : gmap string oid) (s : System) : System :=
  mkSystem (objects s) v (modules s) (rootobjects s)
    (unprocessed_modules s) (processing_modules s) (module_count s)
    (violations s) (needsnl s) (once_msgs s) (_privacyClassCache s)
    (options_verbosity s) (options_privacy s) (stdout s) (msg_log s) (stdout_isatty s).

Definition set_modules (v : gmap string oid) (s : System) : System :=
  mkSystem (objects s) (allobjects s) v (rootobjects s)
    (unprocessed_modules s) (processing_modules s) (module_count s)
    (violations s) (needsnl s) (once_msgs s) (_privacyClassCache s)
    (options_verbosity s) (options_privacy s) (stdout s) (msg_log s) (stdout_isatty s).

Definition set_rootobjects (v : list oid) (s : System) : System :=
  mkSystem (objects s) (allobjects s) (modules s) v
    (unprocessed_modules s) (processing_modules s) (module_count s)
    (violations s) (needsnl s) (once_msgs s) (_privacyClassCache s)
    (options_verbosity s) (options_privacy s) (stdout s) (msg_log s) (stdout_isatty s).

Definition set_unprocessed_modules (v : list oid) (s : System) : System :=
  mkSystem (objects s) (allobjects s) (modules s) (rootobjects s)
    v (processing_modules s) (module_count s)
    (violations s) (needsnl s) (once_msgs s) (_privacyClassCache s)
    (options_verbosity s) (options_privacy s) (stdout s) (msg_log s) (stdout_isatty s).

Definition set_processing_modules (v : list string) (s : System) : System :=
  mkSystem (objects s) (allobjects s) (modules s) (rootobjects s)
    (unprocessed_modules s) v (module_count s)
    (violations s) (needsnl s) (once_msgs s) (_privacyClassCache s)
    (options_verbosity s) (options_privacy s) (stdout s) (msg_log s) (stdout_isatty s).

Definition set_module_count (v : nat) (s : System) : System :=
  mkSystem (objects s) (allobjects s) (modules s) (rootobjects s)
    (unprocessed_modules s) (processing_modules s) v
    (violations s) (needsnl s) (once_msgs s) (_privacyClassCache s)
    (options_verbosity s) (options_privacy s) (stdout s) (msg_log s) (stdout_isatty s).

Definition set_privacyClassCache (v : gmap string PrivacyClass)
    (s : System) : System :=
  mkSystem (objects s) (allobjects s) (modules s) (rootobjects s)
    (unprocessed_modules s) (processing_modules s) (module_count s)
    (violations s) (needsnl s) (once_msgs s) v
    (options_verbosity s) (options_privacy s) (stdout s) (msg_log s) (stdout_isatty s).

(** The five fields [System.msg] writes. *)
Definition set_reporting (viol : nat) (nl : bool) (once : list (string * string))
    (out : list string) (log : list Message) (s : System) : System :=
  mkSystem (objects s) (allobjects s) (modules s) (rootobjects s)
    (unprocessed_modules s) (processing_modules s) (module_count s)
    viol nl once (_privacyClassCache s)
    (options_verbosity s) (options_privacy s) out log (stdout_isatty s).

(** [o.attr = v] for the object [o]. *)
Definition update (o : oid) (f : Documentable → Documentable)
    (s : System) : System :=
  set_objects (alter f o (objects s)) s.

(** ** Computations that change the system *)

Inductive outcome (A : Type) : Type :=
  | Return (a : A) (s : System)
  | Throw (e : exn) (s : System).
Arguments Return {A} a s.
Arguments Throw {A} e s.

Definition M (A : Type) : Type := System → outcome A.

Definition ret {A} (a : A) : M A := λ s, Return a s.
Definition throw {A} (e : exn) : M A := λ s, Throw e s.

Definition bind {A B} (m : M A) (k : A → M B) : M B :=
  λ s, match m s with
       | Return a s' => k a s'
       | Throw e s' => Throw e s'
       end.

(** A computation that only reads the system. *)
Definition lift {A} (f : System → res A) : M A :=
  λ s, match f s with Ok a => Return a s | Raise e => Throw e s end.

Definition modify (f : System → System) : M unit := λ s, Return tt (f s).

Definition final_state {A} (r : outcome A) : System :=
  match r with Return _ s => s | Throw _ s => s end.

Definition returns {A} (r : outcome A) : bool :=
  match r with Return _ _ => true | Throw _ _ => false end.

Notation "'let+' x ':=' m 'in' k" := (bind m (fun x => k))
  (at level 10, x pattern, m at level 100, k at level 200, only parsing).
Notation "m ';;' k" := (bind m (fun _ => k))
  (at level 100, k at level 200, right associativity, only parsing).

(** [for x in l: body(x)] *)
Fixpoint for_each {A} (body : A → M unit) (l : list A) : M unit :=
  match l with
  | [] => ret tt
  | x :: l' => body x ;; for_each body l'
  end.

(** ** model.py: reading the object graph *)

Definition getobj (h : heap) (o : oid) : res Documentable :=
  match h !! o with
  | Some ob => Ok ob
  | None => Raise NoSuchObject
  end.

(** [Documentable.fullName]. The recursion follows [parent]; a chain that
    does not come back to itself visits at most [size h] objects, so
    running out of calls is Python's unbounded recursion on a cyclic
    chain. *)
Fixpoint fullName_go (n : nat) (h : heap) (o : oid) : res string :=
  match n with
  | 0 => Raise RecursionError
  | S n' =>
      let* ob := getobj h o in
      match parent ob with
      | None => Ok (name ob)
      | Some p =>
          let* pn := fullName_go n' h p in
          Ok (pn +:+ "." +:+ name ob)
      end
  end.

Definition fullName (h : heap) (o : oid) : res string :=
  fullName_go (S (size h)) h o.

(** [Documentable.__repr__], which [str(obj)] uses. *)
Definition repr (h : heap) (o : oid) : res string :=
  let* ob := getobj h o in
  let* fn := fullName h o in
  Ok (class_name (py_class ob) +:+ " " +:+ pystr.repr fn).

(** [_localNameToFullName] of [Module], [Class] and [Inheritable]. *)
Fixpoint _localNameToFullName_go (n : nat) (h : heap) (o : oid)
    (nm : string) : res string :=
  match n with
  | 0 => Raise RecursionError
  | S n' =>
      let* ob := getobj h o in
      let in_parent :=
        match parent ob with
        | None => Raise AttributeError
        | Some p => _localNameToFullName_go n' h p nm
        end in
      match py_class ob with
      | ModuleT | PackageT =>
          match pydict.get nm (contents ob) with
          | Some c => fullName h c
          | None =>
              match pydict.get nm (_localNameToFullName_map ob) with
              | Some full => Ok full
              | None => Ok nm
              end
          end
      | ClassT =>
          match pydict.get nm (contents ob) with
          | Some c => fullName h c
          | None =>
              match pydict.get nm (_localNameToFullName_map ob) with
              | Some full => Ok full
              | None => in_parent
              end
          end
      | FunctionT | AttributeT => in_parent
      end
  end.

Definition _localNameToFullName (h : heap) (o : oid) (nm : string) : res string :=
  _localNameToFullName_go (S (size h)) h o nm.

(** [Class.bases] and [Class.baseobjects] *)
Definition bases (ob : Documentable) : list string :=
  match _finalbases ob with
  | Some l => l
  | None => _initialbases ob
  end.

Definition baseobjects (ob : Documentable) : list (option oid) :=
  match _finalbaseobjects ob with
  | Some l => l
  | None => _initialbaseobjects ob
  end.

(** [list(cls.allbases(include_self))] *)
Fixpoint allbases_go (n : nat) (h : heap) (c : oid)
    (include_self : bool) : res (list oid) :=
  match n with
  | 0 => Raise RecursionError
  | S n' =>
      let* ob := getobj h c in
      let fix over (bs : list (option oid)) : res (list oid) :=
        match bs with
        | [] => Ok []
        | None :: bs' => over bs'
        | Some b :: bs' =>
            let* l := allbases_go n' h b true in
            let* r := over bs' in
            Ok (l ++ r)
        end in
      let* r := over (baseobjects ob) in
      Ok ((if include_self then [c] else []) ++ r)
  end.

Definition allbases (h : heap) (c : oid) (include_self : bool) : res (list oid) :=
  allbases_go (S (size h)) h c include_self.

Definition is_external (x : oid + string) : bool :=
  match x with inl _ => false | inr _ => true end.

(** [Class.mro(include_external, include_self)] *)
Definition mro (h : heap) (c : oid) (include_external include_self : bool)
    : res (list (oid + string)) :=
  let* ob := getobj h c in
  match _mro ob with
  | None =>
      let* l := allbases h c include_self in
      Ok (map inl l)
  | Some m =>
      let m1 := if include_external then m
                else filter (λ x, is_external x = false) m in
      Ok (if include_self then m1 else tail m1)
  end.

(** [Class.find] *)
Fixpoint find_in (h : heap) (l : list (oid + string)) (nm : string)
    : res (option oid) :=
  match l with
  | [] => Ok None
  | inr _ :: _ => Raise AttributeError
  | inl b :: l' =>
      let* bob := getobj h b in
      match pydict.get nm (contents bob) with
      | Some x => Ok (Some x)
      | None => find_in h l' nm
      end
  end.

Definition find (h : heap) (c : oid) (nm : string) : res (option oid) :=
  let* l := mro h c false true in
  find_in h l nm.

Section expandName.
  (** [self.system.objForFullName], one call deeper. *)
Variable lookup : string → res (option oid).
Variable h : heap.

  (** The body of the loop of [Documentable.expandName] up to the [try]:
      the full name of the part [p] seen from [obj], and whether the loop
      breaks there. *)
Definition expandName_part (obj : oid) (i : nat) (p : string)
      : res (string * bool) :=
    let* full_name := _localNameToFullName h obj p in
    if bool_decide (full_name = p) && negb (i =? 0) then
      let* ob := getobj h obj in
      let* full_name :=
        (if is_Class (py_class ob) then
           let* inherited := find h obj p in
           match inherited with
           | Some x => fullName h x
           | None => Ok full_name
           end
         else Ok full_name) in
      if bool_decide (full_name = p) then
        let* on := fullName h obj in
        Ok (on +:+ "." +:+ p, true)
      else Ok (full_name, false)
    else Ok (full_name, false).

  (** The loop over [enumerate(parts)] from index [i] on, and the final
      ['.'.join([full_name] + parts[i + 1:])]. *)
Fixpoint expandName_loop (obj : oid) (i : nat) (parts : list string)
      : res string :=
    match parts with
    | [] => Raise IndexError
    | p :: rest =>
        let* r := expandName_part obj i p in
        let '(full_name, brk) := r in
        if brk : bool then Ok (pystr.join (full_name :: rest))
        else
          match lookup full_name with
          | Raise RecursionError => Ok (pystr.join (full_name :: rest))
          | Raise e => Raise e
          | Ok None => Ok (pystr.join (full_name :: rest))
          | Ok (Some nxt) =>
              match rest with
              | [] => Ok (pystr.join [full_name])
              | _ :: _ => expandName_loop nxt (S i) rest
              end
          end
    end.
End expandName.

(** [System.objForFullName]; [d] is the number of nested calls the
    interpreter still allows. *)
Fixpoint objForFullName (d : nat) (s : System) (full_name : string)
    (raise_missing : bool) : res (option oid) :=
  match d with
  | 0 => Raise RecursionError
  | S d' =>
      match allobjects s !! full_name with
      | Some o => Ok (Some o)
      | None =>
          let name_parts := pystr.split1 full_name in
          let fix over_roots (roots : list oid) : res (option oid) :=
            match roots with
            | [] => Ok None
            | root_obj :: roots' =>
                let* rob := getobj (objects s) root_obj in
                if bool_decide (name rob = name_parts.1) then
                  match name_parts.2 with
                  | None => Raise IndexError
                  | Some rest =>
                      let* e := expandName_loop
                                  (λ fn, objForFullName d' s fn false)
                                  (objects s) root_obj 0 (pystr.split rest) in
                      match allobjects s !! e with
                      | Some o => Ok (Some o)
                      | None =>
                          if raise_missing then Raise (LookupError full_name)
                          else Ok None
                      end
                  end
                else over_roots roots'
            end in
          over_roots (rootobjects s)
      end
  end.

(** [Documentable.expandName] *)
Definition expandName (d : nat) (s : System) (ctx : oid) (nm : string)
    : res string :=
  expandName_loop (λ fn, objForFullName d s fn false) (objects s) ctx 0
    (pystr.split nm).

(** [Documentable.resolveName] *)
Definition resolveName (d : nat) (s : System) (ctx : oid) (nm : string)
    : res (option oid) :=
  let* e := expandName d s ctx nm in
  objForFullName d s e false.

(** [Documentable.module] *)
Definition module (h : heap) (o : oid) : res oid :=
  let* ob := getobj h o in
  if is_Module (py_class ob) then Ok o
  else match parentMod ob with
       | Some m => Ok m
       | None => Raise AssertionError
       end.

(** [Documentable.description] *)
Definition description (h : heap) (o : oid) : res string :=
  let* ob := getobj h o in
  match source_path ob with
  | None => let* m := module h o in fullName h m
  | Some path => Ok path
  end.

(** ** model.py: reporting *)

Definition newline : string := String (ascii_of_nat 10) EmptyString.

(** [System.msg]. Every call the [once] filter lets through is appended to
    [msg_log]; the text reaches [stdout] only when the verbosity lies
    between [thresh] and [topthresh]. *)
Definition msg (section text : string) (thresh topthresh : Z)
    (nonl wantsnl once : bool) : M unit :=
  λ s,
    if once && bool_decide ((section, text) ∈ once_msgs s) then Return tt s
    else
      let once' := if once then (section, text) :: once_msgs s
                   else once_msgs s in
      let viol := if (thresh <? 0)%Z then S (violations s) else violations s in
      let log := msg_log s ++ [mkMessage section text thresh] in
      if ((thresh <=? options_verbosity s)%Z
          && (options_verbosity s <=? topthresh)%Z)%bool then
        let out1 := if needsnl s && wantsnl then stdout s ++ [newline]
                    else stdout s in
        let out2 := out1 ++ [text] in
        if nonl then Return tt (set_reporting viol true once' out2 log s)
        else Return tt (set_reporting viol false once' (out2 ++ [newline]) log s)
      else Return tt (set_reporting viol (needsnl s) once' (stdout s) log s).

(** [System.progress]. Its test [d == n] compares a string with a number
    or [None] and never holds, so [needsnl] is set whenever something is
    printed. *)
Definition progress (section : string) (i : Z) (n : option nat)
    (text : string) : M unit :=
  λ s,
    let d := match n with
             | None => pretty i
             | Some n => pretty i +:+ "/" +:+ pystr.str_of_nat n
             end in
    if ((options_verbosity s =? 0)%Z && stdout_isatty s)%bool then
      Return tt
        (set_reporting (violations s) true (once_msgs s)
           (stdout s ++ [String (ascii_of_nat 13) d +:+ " " +:+ text])
           (msg_log s) s)
    else Return tt s.

(** [Documentable.report] *)
Definition report (o : oid) (descr section : string) (lineno_offset : nat)
    (thresh : Z) : M unit :=
  let+ ob := lift (λ s, getobj (objects s) o) in
  let linenumber :=
    if bool_decide (section = "docstring")
       || bool_decide (section = "resolve_identifier_xref")
    then (if docstring_lineno ob =? 0 then linenumber ob
          else docstring_lineno ob)
    else linenumber ob in
  let+ shown :=
    (if negb (linenumber =? 0) then
       ret (pystr.str_of_nat (linenumber + lineno_offset))
     else if negb (lineno_offset =? 0) then
       let+ m := lift (λ s, module (objects s) o) in
       if bool_decide (m = o) then ret (pystr.str_of_nat lineno_offset)
       else ret "???"
     else ret "???") in
  let+ d := lift (λ s, description (objects s) o) in
  msg section (d +:+ ":" +:+ shown +:+ ": " +:+ descr) thresh 100
    false true false.

(** ** model.py: the index *)

(** [del self.allobjects[key]] *)
Definition del_allobjects (key : string) : M unit :=
  λ s, match allobjects s !! key with
       | Some _ => Return tt (set_allobjects (delete key (allobjects s)) s)
       | None => Throw (KeyError key) s
       end.

(** [self.allobjects[key] = o] *)
Definition set_allobject (key : string) (o : oid) : M unit :=
  modify (λ s, set_allobjects (<[key := o]> (allobjects s)) s).

(** [System._remove] *)
Fixpoint _remove_go (n : nat) (o : oid) : M unit :=
  match n with
  | 0 => throw RecursionError
  | S n' =>
      let+ fn := lift (λ s, fullName (objects s) o) in
      del_allobjects fn ;;
      let+ ob := lift (λ s, getobj (objects s) o) in
      let oc := pydict.values (contents ob) in
      for_each (_remove_go n') oc
  end.

Definition _remove (o : oid) : M unit :=
  λ s, _remove_go (S (size (objects s))) o s.

(** The local function [readd] of [System.handleDuplicate]. *)
Fixpoint readd_go (n : nat) (o : oid) : M unit :=
  match n with
  | 0 => throw RecursionError
  | S n' =>
      let+ fn := lift (λ s, fullName (objects s) o) in
      set_allobject fn o ;;
      let+ ob := lift (λ s, getobj (objects s) o) in
      for_each (readd_go n') (pydict.values (contents ob))
  end.

Definition readd (o : oid) : M unit :=
  λ s, readd_go (S (size (objects s))) o s.

(** The [while] loop of [handleDuplicate]: the first [i] from [i0] on for
    which [fullName + ' ' + str(i)] is not a key. The keys tried are
    pairwise different, so one of the first [size allobjects + 1] is
    free. *)
Definition dup_key (full : string) (i : nat) : string :=
  full +:+ " " +:+ pystr.str_of_nat i.

Fixpoint free_index_go (n : nat) (all : gmap string oid) (full : string)
    (i : nat) : nat :=
  match n with
  | 0 => i
  | S n' =>
      match all !! dup_key full i with
      | Some _ => free_index_go n' all full (S i)
      | None => i
      end
  end.

Definition free_index (all : gmap string oid) (full : string) : nat :=
  free_index_go (S (size all)) all full 0.

(** [System.handleDuplicate] *)
Definition handleDuplicate (obj : oid) : M unit :=
  let+ full := lift (λ s, fullName (objects s) obj) in
  let+ i := lift (λ s, Ok (free_index (allobjects s) full)) in
  let+ prev := lift (λ s, match allobjects s !! full with
                          | Some p => Ok p
                          | None => Raise (KeyError full)
                          end) in
  let+ prev_str := lift (λ s, repr (objects s) prev) in
  report obj ("duplicate " +:+ prev_str) "parsing" 0 1%Z ;;
  _remove prev ;;
  let+ ob := lift (λ s, getobj (objects s) obj) in
  modify (update prev (set_name (name ob +:+ " " +:+ pystr.str_of_nat i))) ;;
  readd prev ;;
  set_allobject full obj.

(** [System.addObject] *)
Definition addObject (obj : oid) : M unit :=
  let+ ob := lift (λ s, getobj (objects s) obj) in
  (if is_Module (py_class ob) then
     let+ fn := lift (λ s, fullName (objects s) obj) in
     modify (λ s, set_modules (<[fn := obj]> (modules s)) s)
   else ret tt) ;;
  match parent ob with
  | Some p =>
      modify (update p (λ pob,
        set_contents (pydict.set (name ob) obj (contents pob)) pob))
  | None =>
      if is_Module (py_class ob) then
        modify (λ s, set_rootobjects (rootobjects s ++ [obj]) s)
      else
        let+ r := lift (λ s, repr (objects s) obj) in
        throw (ValueError ("Top-level object is not a module: " +:+ r))
  end ;;
  let+ fn := lift (λ s, fullName (objects s) obj) in
  let+ first := (λ s,
    match allobjects s !! fn with
    | Some f => Return f s
    | None => Return obj (set_allobjects (<[fn := obj]> (allobjects s)) s)
    end) in
  if bool_decide (obj = first) then ret tt else handleDuplicate obj.

(** [Documentable._handle_reparenting_pre] and [_post] *)
Fixpoint _handle_reparenting_pre_go (n : nat) (o : oid) : M unit :=
  match n with
  | 0 => throw RecursionError
  | S n' =>
      let+ fn := lift (λ s, fullName (objects s) o) in
      del_allobjects fn ;;
      let+ ob := lift (λ s, getobj (objects s) o) in
      for_each (_handle_reparenting_pre_go n') (pydict.values (contents ob))
  end.

Definition _handle_reparenting_pre (o : oid) : M unit :=
  λ s, _handle_reparenting_pre_go (S (size (objects s))) o s.

Fixpoint _handle_reparenting_post_go (n : nat) (o : oid) : M unit :=
  match n with
  | 0 => throw RecursionError
  | S n' =>
      let+ fn := lift (λ s, fullName (objects s) o) in
      set_allobject fn o ;;
      let+ ob := lift (λ s, getobj (objects s) o) in
      for_each (_handle_reparenting_post_go n') (pydict.values (contents ob))
  end.

Definition _handle_reparenting_post (o : oid) : M unit :=
  λ s, _handle_reparenting_post_go (S (size (objects s))) o s.

(** [Documentable.reparent]. The text of the report is what the source's
    expression evaluates to: the adjacent literals are joined before the
    conditional is applied. *)
Definition reparent (self new_parent : oid) (new_name : string) : M unit :=
  let+ ob := lift (λ s, getobj (objects s) self) in
  let old_name := name ob in
  let+ npob := lift (λ s, getobj (objects s) new_parent) in
  (match pydict.get new_name (contents npob) with
   | Some existing =>
       handleDuplicate existing ;;
       let+ self_str := lift (λ s, repr (objects s) self) in
       let+ np_str := lift (λ s, repr (objects s) new_parent) in
       report self
         (if bool_decide (new_name = old_name)
          then "introduced by re-exporting " +:+ self_str +:+ " into " +:+ np_str
          else " as " +:+ pystr.repr new_name)
         "parsing" 0 1%Z
   | None => ret tt
   end) ;;
  _handle_reparenting_pre self ;;
  let+ ob1 := lift (λ s, getobj (objects s) self) in
  match parent ob1 with
  | None => throw AssertionError
  | Some old_parent =>
      let+ opob := lift (λ s, getobj (objects s) old_parent) in
      if negb (is_CanContainImportsDocumentable (py_class opob)) then
        throw AssertionError
      else
        modify (update self (λ o,
          set_name new_name (set_parentMod (Some new_parent)
            (set_parent (Some new_parent) o)))) ;;
        _handle_reparenting_post self ;;
        let+ opob1 := lift (λ s, getobj (objects s) old_parent) in
        (if pydict.mem old_name (contents opob1) then
           modify (update old_parent (λ o,
             set_contents (pydict.del old_name (contents o)) o))
         else throw (KeyError old_name)) ;;
        let+ fn := lift (λ s, fullName (objects s) self) in
        modify (update old_parent (λ o,
          set_localNameToFullName_map
            (pydict.set old_name fn (_localNameToFullName_map o)) o)) ;;
        modify (update new_parent (λ o,
          set_contents (pydict.set new_name self (contents o)) o)) ;;
        _handle_reparenting_post self
  end.

(** ** model.py: modules *)

(** [list.remove(x)] *)
Fixpoint list_remove (x : oid) (l : list oid) : option (list oid) :=
  match l with
  | [] => None
  | y :: l' =>
      if bool_decide (y = x) then Some l'
      else match list_remove x l' with
           | Some r => Some (y :: r)
           | None => None
           end
  end.

(** [System._addUnprocessedModule] and [System._handleDuplicateModule],
    which call each other. Each round trip deletes a key of [allobjects]
    before it starts over, so [size allobjects + 2] calls are enough. *)
Fixpoint _addUnprocessedModule_go (n : nat) (mod_ : oid) : M unit :=
  match n with
  | 0 => throw RecursionError
  | S n' =>
      let+ mob := lift (λ s, getobj (objects s) mod_) in
      if negb (bool_decide (state mob = UNPROCESSED)) then throw AssertionError
      else
        let+ fn := lift (λ s, fullName (objects s) mod_) in
        let+ first := lift (λ s, Ok (allobjects s !! fn)) in
        match first with
        | Some first =>
            let+ fob := lift (λ s, getobj (objects s) first) in
            if negb (is_Module (py_class fob)) then throw AssertionError
            else
              (* _handleDuplicateModule(first, dup = mod_) *)
              let+ first_str := lift (λ s, repr (objects s) first) in
              report mod_ ("duplicate " +:+ first_str) "parsing" 0 1%Z ;;
              if _is_c_module fob && negb (is_Package (py_class mob)) then
                ret tt
              else if is_Package (py_class fob)
                      && negb (is_Package (py_class mob)) then
                ret tt
              else
                _remove first ;;
                (λ s, match list_remove first (unprocessed_modules s) with
                      | Some l => Return tt (set_unprocessed_modules l s)
                      | None => Throw (ValueError "list.remove(x): x not in list") s
                      end) ;;
                _addUnprocessedModule_go n' mod_
        | None =>
            modify (λ s, set_unprocessed_modules
                           (unprocessed_modules s ++ [mod_]) s) ;;
            addObject mod_ ;;
            (λ s, progress "analyzeModule" (Z.of_nat (size (allobjects s))) None
                    "modules and packages discovered" s) ;;
            modify (λ s, set_module_count (S (module_count s)) s)
        end
  end.

Definition _addUnprocessedModule (mod_ : oid) : M unit :=
  λ s, _addUnprocessedModule_go (S (S (size (allobjects s)))) mod_ s.

(** [System._handleDuplicateModule], as a function of its own. *)
Definition _handleDuplicateModule (first dup : oid) : M unit :=
  let+ fob := lift (λ s, getobj (objects s) first) in
  let+ dob := lift (λ s, getobj (objects s) dup) in
  let+ first_str := lift (λ s, repr (objects s) first) in
  report dup ("duplicate " +:+ first_str) "parsing" 0 1%Z ;;
  if _is_c_module fob && negb (is_Package (py_class dob)) then ret tt
  else if is_Package (py_class fob) && negb (is_Package (py_class dob)) then
    ret tt
  else
    _remove first ;;
    (λ s, match list_remove first (unprocessed_modules s) with
          | Some l => Return tt (set_unprocessed_modules l s)
          | None => Throw (ValueError "list.remove(x): x not in list") s
          end) ;;
    _addUnprocessedModule dup.

(** [Documentable.__init__] and [Module.setup] for a new module object. *)
Definition new_module (is_package : bool) (nm : string) (par : option oid)
    (path : option string) (h : heap) : Documentable :=
  let inherited_path :=
    match path, par with
    | None, Some p =>
        match h !! p with Some pob => source_path pob | None => None end
    | _, _ => path
    end in
  mkDocumentable (if is_package then PackageT else ModuleT) nm par None
    inherited_path (Some (if is_package then PACKAGE else MODULE)) 0 0 []
    [] false UNPROCESSED None [] [] [] None None None [] [].

(** The object a constructor call creates gets an identity no object of
    the store has. *)
Definition alloc (ob : Documentable) : M oid :=
  λ s, let o := fresh (dom (objects s)) in
       Return o (set_objects (<[o := ob]> (objects s)) s).

(** [SystemBuilder.addModuleString]; [textwrap.dedent] is not applied to
    the text. *)
Definition addModuleString (text modname : string)
    (parent_name : option string) (is_package : bool) : M unit :=
  let+ par :=
    match parent_name with
    | None => ret None
    | Some pn =>
        let+ p := lift (λ s, match allobjects s !! pn with
                             | Some p => Ok p
                             | None => Raise (KeyError pn)
                             end) in
        let+ pob := lift (λ s, getobj (objects s) p) in
        if is_Package (py_class pob) then ret (Some p)
        else throw AssertionError
    end in
  let+ ob := lift (λ s, Ok (new_module is_package modname par None (objects s))) in
  let+ mod_ := alloc ob in
  modify (update mod_ (λ o,
    mkDocumentable (py_class o) (name o) (parent o) (parentMod o)
      (source_path o) (kind o) (linenumber o) (docstring_lineno o)
      (contents o) (_localNameToFullName_map o) (_is_c_module o) (state o)
      (Some text) (rawbases o) (_initialbases o) (_initialbaseobjects o)
      (_finalbaseobjects o) (_finalbases o) (_mro o) (constructors o)
      (annotations o))) ;;
  _addUnprocessedModule mod_.

(** [System.__init__] for the fields of the model. *)
Definition new_System (verbosity : Z) (privacy : list (PrivacyClass * string))
    (isatty : bool) : System :=
  mkSystem ∅ ∅ ∅ [] [] [] 0 0 false [] ∅ verbosity privacy [] [] isatty.

Section processing.
  (** What [pydoctor.astbuilder] and the extension system contribute:
      [builder.parseString]/[parseFile] (whether a tree came out),
      [builder.processModuleAST], the introspection of a live extension
      module behind [_introspectThing], and the post-processors. *)
Variable parse : oid → M bool.
Variable processModuleAST : oid → M unit.
Variable introspect : oid → M unit.
Variable postProcess : M unit.

  (** [repr] of a list of strings, as ["%s" % (l)] prints it. *)
Definition repr_list (l : list string) : string :=
    "[" +:+ foldr (λ x acc, if bool_decide (acc = "") then x
                            else x +:+ ", " +:+ acc) "" (map pystr.repr l)
        +:+ "]".

  (** [head = self.processing_modules.pop(); assert head == mod.fullName()] *)
Definition pop_processing (expected : string) : M unit :=
    λ s, match astutils.unsnoc (processing_modules s) with
         | Some (l, head) =>
             if bool_decide (head = expected)
             then Return tt (set_processing_modules l s)
             else Throw AssertionError (set_processing_modules l s)
         | None => Throw IndexError s
         end.

  (** [System.processModule] *)
Definition processModule (mod_ : oid) : M unit :=
    let+ mob := lift (λ s, getobj (objects s) mod_) in
    if negb (bool_decide (state mob = UNPROCESSED)) then throw AssertionError
    else
      let+ queue := lift (λ s, Ok (unprocessed_modules s)) in
      match list_remove mod_ queue with
      | None => throw AssertionError
      | Some queue' =>
          modify (update mod_ (set_state PROCESSING)) ;;
          modify (set_unprocessed_modules queue') ;;
          (match source_path mob, _py_string mob with
           | None, None => throw AssertionError
           | _, _ => ret tt
           end) ;;
          (if _is_c_module mob then
             let+ fn := lift (λ s, fullName (objects s) mod_) in
             modify (λ s, set_processing_modules (processing_modules s ++ [fn]) s) ;;
             let+ stack := lift (λ s, Ok (processing_modules s)) in
             msg "processModule" ("processing " +:+ repr_list stack) 1%Z 100%Z
               false true false ;;
             introspect mod_ ;;
             modify (update mod_ (set_state PROCESSED)) ;;
             let+ fn' := lift (λ s, fullName (objects s) mod_) in
             pop_processing fn'
           else
             let+ tree := parse mod_ in
             if tree : bool then
               let+ fn1 := lift (λ s, fullName (objects s) mod_) in
               modify (λ s, set_processing_modules
                              (processing_modules s ++ [fn1]) s) ;;
               (match _py_string mob with
                | None =>
                    let+ stack := lift (λ s, Ok (processing_modules s)) in
                    msg "processModule" ("processing " +:+ repr_list stack)
                      1%Z 100%Z false true false
                | Some _ => ret tt
                end) ;;
               processModuleAST mod_ ;;
               modify (update mod_ (set_state PROCESSED)) ;;
               let+ fn' := lift (λ s, fullName (objects s) mod_) in
               pop_processing fn'
             else ret tt) ;;
          (λ s, progress "process"
                  (Z.of_nat (module_count s)
                   - Z.of_nat (length (unprocessed_modules s)))%Z
                  (Some (module_count s))
                  ("modules processed, " +:+ pystr.str_of_nat (violations s)
                   +:+ " warnings") s)
      end.

  (** [System.getProcessedModule] *)
Definition getProcessedModule (modname : string) : M (option oid) :=
    let+ found := lift (λ s, Ok (allobjects s !! modname)) in
    match found with
    | None => ret None
    | Some mod_ =>
        let+ mob := lift (λ s, getobj (objects s) mod_) in
        if negb (is_Module (py_class mob)) then ret None
        else
          (if bool_decide (state mob = UNPROCESSED) then processModule mod_
           else ret tt) ;;
          let+ mob' := lift (λ s, getobj (objects s) mod_) in
          if bool_decide (state mob' = UNPROCESSED) then throw AssertionError
          else ret (Some mod_)
    end.

  (** [System.process]: the [while] loop, at most [n] times round, then
      [postProcess]. *)
Fixpoint process (n : nat) : M unit :=
    match n with
    | 0 => throw RecursionError
    | S n' =>
        let+ queue := lift (λ s, Ok (unprocessed_modules s)) in
        match queue with
        | [] => postProcess
        | mod_ :: _ => processModule mod_ ;; process n'
        end
    end.
End processing.

(** ** model.py: privacy *)

Section privacy.
  (** [qnmatch.qnmatch(name, pattern)] *)
Variable qnmatch : string → string → bool.

  (** The two [for ... in reversed(self.options.privacy)] loops. *)
Definition last_exact_match (rules : list (PrivacyClass * string))
      (full : string) : option PrivacyClass :=
    fst <$> List.find (λ r, bool_decide (full = r.2)) (rev rules).

Definition last_qnmatch (rules : list (PrivacyClass * string))
      (full : string) : option PrivacyClass :=
    fst <$> List.find (λ r, qnmatch full r.2) (rev rules).

  (** [System.privacyClass] *)
Definition System_privacyClass (ob : oid) : M PrivacyClass :=
    let+ ob_fullName := lift (λ s, fullName (objects s) ob) in
    let+ cached := lift (λ s, Ok (_privacyClassCache s !! ob_fullName)) in
    match cached with
    | Some cached_privacy => ret cached_privacy
    | None =>
        let+ o := lift (λ s, getobj (objects s) ob) in
        match kind o with
        | None => ret HIDDEN
        | Some _ =>
            let default :=
              if pystr.startswith (name o) "_"
                 && negb (pystr.startswith (name o) "__"
                          && pystr.endswith (name o) "__")
              then PRIVATE else PUBLIC in
            let+ rules := lift (λ s, Ok (options_privacy s)) in
            let privacy :=
              match last_exact_match rules ob_fullName with
              | Some priv => priv
              | None =>
                  match last_qnmatch rules ob_fullName with
                  | Some priv => priv
                  | None => default
                  end
              end in
            modify (λ s, set_privacyClassCache
                           (<[ob_fullName := privacy]> (_privacyClassCache s)) s) ;;
            ret privacy
        end
    end.

  (** The property [privacyClass]: [Module.privacyClass] for modules and
      packages, [Documentable.privacyClass] for the rest. *)
Definition privacyClass (ob : oid) : M PrivacyClass :=
    let+ o := lift (λ s, getobj (objects s) ob) in
    if is_Module (py_class o) then
      if bool_decide (name o = "__main__") then ret PRIVATE
      else System_privacyClass ob
    else System_privacyClass ob.

  (** [Documentable.isPrivate] *)
Definition isPrivate (ob : oid) : M bool :=
    let+ p := privacyClass ob in
    ret (negb (bool_decide (p = PUBLIC))).
End privacy.

(** ** model.py: inheritance *)

(** [sep.join(l)] *)
Fixpoint sep_join (sep : string) (l : list string) : string :=
  match l with
  | [] => ""
  | [x] => x
  | x :: rest => x +:+ sep +:+ sep_join sep rest
  end.

(** [l.index(x)] *)
Fixpoint list_index (x : oid) (l : list oid) : option nat :=
  match l with
  | [] => None
  | y :: l' => if bool_decide (y = x) then Some 0
               else S <$> list_index x l'
  end.

Definition isinstance_Class (h : heap) (o : option oid) : bool :=
  match o with
  | Some c => match h !! c with
              | Some ob => is_Class (py_class ob)
              | None => false
              end
  | None => false
  end.

(** The local functions [localbases] and [getbases] of [compute_mro]. *)
Definition localbases (h : heap) (o : oid) : list (oid + string) :=
  match h !! o with
  | None => []
  | Some ob =>
      map (λ sb : string * option oid,
             if isinstance_Class h sb.2
             then match sb.2 with Some b => inl b | None => inr sb.1 end
             else inr sb.1)
          (zip (bases ob) (baseobjects ob))
  end.

Definition getbases (h : heap) (x : oid + string) : list (oid + string) :=
  match x with
  | inr _ => []
  | inl o => localbases h o
  end.

Section mro.
  (** [mro.mro(cls, getbases)], the linearization. *)
Variable mro_mro :
    (oid + string → list (oid + string)) → oid → res (list (oid + string)).

  (** The local function [init_finalbaseobjects] of [compute_mro]; [d] is
      the number of nested calls still allowed. The accumulators of the
      [for] loop are [fbo] and [fb]. *)
Fixpoint init_finalbaseobjects (d : nat) (cls o : oid) (path : list oid)
      : M unit :=
    match d with
    | 0 => throw RecursionError
    | S d' =>
        if bool_decide (o ∈ path) then
          match list_index cls path with
          | None => throw (ValueError "list.index(x): x not in list")
          | Some k =>
              let+ names := lift (λ s, rmapM (fullName (objects s))
                                         (drop k path ++ [cls])) in
              throw (ValueError
                ("Cycle found while computing inheritance hierarchy: "
                 +:+ sep_join " -> " names))
          end
        else
          let path := path ++ [o] in
          let+ ob := lift (λ s, getobj (objects s) o) in
          match _finalbaseobjects ob with
          | Some _ => ret tt
          | None =>
              match rawbases ob with
              | [] => ret tt
              | _ :: _ =>
                  let fix loop (i : nat) (l : list (string * option oid))
                      (fbo : list (option oid)) (fb : list string)
                      : M (list (option oid) * list string) :=
                    match l with
                    | [] => ret (fbo, fb)
                    | (str_base, Some base) :: l' =>
                        let+ bn := lift (λ s, fullName (objects s) base) in
                        init_finalbaseobjects d' cls base path ;;
                        loop (S i) l' (fbo ++ [Some base]) (fb ++ [bn])
                    | (str_base, None) :: l' =>
                        match parent ob with
                        | None => throw AttributeError
                        | Some par =>
                            let+ resolved :=
                              lift (λ s, resolveName d' s par str_base) in
                            let+ is_cls :=
                              lift (λ s, Ok (isinstance_Class (objects s) resolved)) in
                            match resolved, is_cls with
                            | Some base, true =>
                                let+ bn := lift (λ s, fullName (objects s) base) in
                                init_finalbaseobjects d' cls base path ;;
                                loop (S i) l' (fbo ++ [Some base]) (fb ++ [bn])
                            | _, _ =>
                                match _initialbases ob !! i with
                                | None => throw IndexError
                                | Some ib =>
                                    loop (S i) l' (fbo ++ [None]) (fb ++ [ib])
                                end
                            end
                        end
                    end in
                  let+ r := loop 0 (zip (rawbases ob) (_initialbaseobjects ob))
                              [] [] in
                  modify (update o (set_finalbases (Some r.1) (Some r.2)))
              end
          end
    end.

  (** [compute_mro] *)
Definition compute_mro (d : nat) (cls : oid) : M (list (oid + string)) :=
    init_finalbaseobjects d cls cls [] ;;
    lift (λ s, mro_mro (getbases (objects s)) cls).

  (** [Class._init_mro] *)
Definition _init_mro (d : nat) (self : oid) : M unit :=
    λ s, match compute_mro d self s with
         | Return m s' => Return tt (update self (set_mro (Some m)) s')
         | Throw (ValueError e) s' =>
             (report self e "mro" 0 (-1)%Z ;;
              let+ l := lift (λ s, allbases (objects s) self true) in
              modify (update self (set_mro (Some (map inl l))))) s'
         | Throw e s' => Throw e s'
         end.
End mro.

(** ** model.py: constructors *)

(** [_find_dunder_constructor] *)
Definition _find_dunder_constructor (h : heap) (cls : oid) : res (option oid) :=
  let is_function (o : oid) :=
    match h !! o with
    | Some ob => is_Function (py_class ob)
    | None => false
    end in
  let* _new := find h cls "__new__" in
  match _new with
  | Some f =>
      if is_function f then Ok (Some f) else Ok None
  | None =>
      let* _init := find h cls "__init__" in
      match _init with
      | Some f => if is_function f then Ok (Some f) else Ok None
      | None => Ok None
      end
  end.

(** [self.constructors.append(f)] *)
Definition append_constructor (self f : oid) : M unit :=
  modify (update self (λ o, set_constructors (constructors o ++ [f]) o)).

(** One round of the [for fun in self.contents.values()] loop of
    [Class._init_constructors]. *)
Definition _init_constructors_round (d : nat) (self fun_ : oid) : M unit :=
  let+ fob := lift (λ s, getobj (objects s) fun_) in
  if negb (is_Function (py_class fob)) then ret tt
  else if negb (bool_decide (kind fob = Some STATIC_METHOD)
                || bool_decide (kind fob = Some CLASS_METHOD)) then ret tt
  else
    match pydict.get "return" (annotations fob) with
    | None => ret tt
    | Some ann =>
        let+ m := lift (λ s, module (objects s) self) in
        let+ return_ann :=
          lift (λ s, astutils.node2fullname (expandName d s m) ann) in
        let+ self_name := lift (λ s, fullName (objects s) self) in
        if bool_decide (return_ann = Some self_name)
           || bool_decide (return_ann = Some "typing.Self")
           || bool_decide (return_ann = Some "typing_extensions.Self")
        then append_constructor self fun_
        else ret tt
    end.

(** [Class._init_constructors]. Its last statement,
    [epydoc2stan.populate_constructors_extra_info(self)], writes the
    [extra_info] of the class, which the model does not keep. *)
Definition _init_constructors (d : nat) (self : oid) : M unit :=
  let+ dunder_constructor :=
    lift (λ s, _find_dunder_constructor (objects s) self) in
  (match dunder_constructor with
   | Some f => append_constructor self f
   | None => ret tt
   end) ;;
  let+ ob := lift (λ s, getobj (objects s) self) in
  for_each (_init_constructors_round d self) (pydict.values (contents ob)).

End model.

(** * Specification-level definitions *)

Import model.

(** The value and the final state of a computation. *)
Definition result {A} (r : outcome A) : option A :=
  match r with Return a _ => Some a | Throw _ _ => None end.

(** Modelled from the spec: [qnmatch.qnmatch], whose source is not part of
    the files at hand. The spec calls the rules "glob-style": here [*]
    stands for any run of characters, [?] for any one character, every
    other character for itself, and the pattern has to cover the whole
    name. *)
Fixpoint glob (pat : string) : string → bool :=
  match pat with
  | EmptyString => λ s, bool_decide (s = EmptyString)
  | String c pat' =>
      if bool_decide (c = "*"%char) then
        fix star (s : string) : bool :=
          glob pat' s
          || match s with
             | EmptyString => false
             | String _ s' => star s'
             end
      else
        λ s, match s with
             | EmptyString => false
             | String c' s' =>
                 (bool_decide (c = "?"%char) || bool_decide (c = c'))
                 && glob pat' s'
             end
  end.

Definition qnmatch_glob (name pattern : string) : bool := glob pattern name.

(** A documentable with the attributes [__init__] and [setup] give it. *)
Definition mk_doc (c : pyclass) (nm : string) (par parMod : option oid)
    (k : DocumentableKind) (cont : pydict.t oid) : Documentable :=
  mkDocumentable c nm par parMod None (Some k) 0 0 cont [] false PROCESSED
    None [] [] [] None None None [] [].

(** A system around a given store, index and list of roots, with the
    verbosity [System()] sets when it gets no options. *)
Definition mk_sys (h : heap) (idx : list (string * oid)) (roots : list oid)
    (privacy : list (PrivacyClass * string)) : System :=
  mkSystem h (list_to_map idx) ∅ roots [] [] 0 0 false [] ∅ 3%Z privacy [] [] false.

(** ** Example systems *)

(** [pkg/mod/_impl.py] with two functions, and a script [__main__.py]. *)
Definition privacy_heap : heap :=
  list_to_map [
    (0, mk_doc PackageT "pkg" None None PACKAGE [("mod", 1); ("__main__", 5)]);
    (1, mk_doc PackageT "mod" (Some 0) None PACKAGE [("_impl", 2)]);
    (2, mk_doc ModuleT "_impl" (Some 1) None MODULE [("thing", 3); ("other", 4)]);
    (3, mk_doc FunctionT "thing" (Some 2) (Some 2) FUNCTION []);
    (4, mk_doc FunctionT "other" (Some 2) (Some 2) FUNCTION []);
    (5, mk_doc ModuleT "__main__" (Some 0) None MODULE [])
  ].

Definition privacy_rules : list (PrivacyClass * string) :=
  [(PRIVATE, "*._impl"); (PUBLIC, "pkg.mod._impl.thing")].

Definition privacy_sys : System :=
  mk_sys privacy_heap
    [("pkg", 0); ("pkg.mod", 1); ("pkg.mod._impl", 2);
     ("pkg.mod._impl.thing", 3); ("pkg.mod._impl.other", 4);
     ("pkg.__main__", 5)]
    [0] privacy_rules.

(** The same system when the user declares [pkg.__main__] public. *)
Definition main_public_sys : System :=
  mk_sys privacy_heap
    [("pkg", 0); ("pkg.__main__", 5)] [0]
    [(PUBLIC, "pkg.__main__"); (PUBLIC, "*")].

(** ** Annotations *)

(** The union of [a] and the expressions of [rest], nested to the left:
    [((a | b) | c) | ...]. *)
Definition bitor_chain (a : ast.expr) (rest : list ast.expr) : ast.expr :=
  foldl (λ acc x, ast.BinOp acc ast.BitOr x) a rest.

(** [Optional[int]] and [Union[int, None]] as the parser hands them over. *)
Definition Optional_int : ast.expr :=
  ast.Subscript (ast.Name "Optional") (ast.Name "int").

Definition Union_int_None : ast.expr :=
  ast.Subscript (ast.Name "Union")
    (ast.Tuple [ast.Name "int"; ast.Constant ast.CNone]).

(** The name expansion of a module that starts with
    [from typing import Optional, Union]. *)
Definition typing_imports (nm : string) : string :=
  if bool_decide (nm = "Optional") then "typing.Optional"
  else if bool_decide (nm = "Union") then "typing.Union"
  else nm.

(** ** Views of the object store *)

(** Two stores agree on [f] when they hold the same objects and [f] cannot
    tell the objects apart. *)
Definition heap_agree {B} (f : Documentable → B) (h h' : heap) : Prop :=
  ∀ o, f <$> (h !! o) = f <$> (h' !! o).

(** What [fullName] reads of an object. *)
Definition skeleton (ob : Documentable) : string * option oid :=
  (name ob, parent ob).

(** Everything but the list of constructors. *)
Definition but_constructors (ob : Documentable) : Documentable :=
  set_constructors [] ob.

(** ** Constructors *)

(** Following the spec's words: [f] is a static or class method whose
    return annotation, expanded in the module of [cls], is the full name
    of [cls] or one of the two [Self] names. *)
Definition returns_instance (d : nat) (s : System) (cls f : oid) : bool :=
  match objects s !! f with
  | None => false
  | Some fob =>
      is_Function (py_class fob)
      && (bool_decide (kind fob = Some STATIC_METHOD)
          || bool_decide (kind fob = Some CLASS_METHOD))
      && match pydict.get "return" (annotations fob) with
         | None => false
         | Some ann =>
             match module (objects s) cls, fullName (objects s) cls with
             | Ok m, Ok self_name =>
                 match astutils.node2fullname (expandName d s m) ann with
                 | Ok return_ann =>
                     bool_decide (return_ann = Some self_name)
                     || bool_decide (return_ann = Some "typing.Self")
                     || bool_decide (return_ann = Some "typing_extensions.Self")
                 | Raise _ => false
                 end
             | _, _ => false
             end
         end
  end.

(** The reads the loop of [_init_constructors] makes for [f] succeed. *)
Definition annotation_expands (d : nat) (s : System) (m f : oid) : Prop :=
  ∃ fob, objects s !! f = Some fob
    ∧ ∀ ann, is_Function (py_class fob) = true →
        (kind fob = Some STATIC_METHOD ∨ kind fob = Some CLASS_METHOD) →
        pydict.get "return" (annotations fob) = Some ann →
        ∃ r, astutils.node2fullname (expandName d s m) ann = Ok r.

Definition option_list {A} (o : option A) : list A :=
  match o with Some x => [x] | None => [] end.

(** A module [m] with [class Base] (which defines [__init__]) and
    [class Derived(Base)] with three decorated methods:
    [create(cls) -> Derived] and [helper(cls) -> int] are class methods,
    [build() -> Self] is a static method; [m] imports [Self] from
    [typing]. The classes are as post-processing leaves their MRO. *)
Definition ctor_heap : heap :=
  list_to_map [
    (0, mkDocumentable ModuleT "m" None None None (Some MODULE) 0 0
          [("Base", 1); ("Derived", 3)] [("Self", "typing.Self")]
          false PROCESSED (Some "") [] [] [] None None None [] []);
    (1, mkDocumentable ClassT "Base" (Some 0) (Some 0) None (Some CLASS) 1 0
          [("__init__", 2)] [] false PROCESSED None
          [] [] [] None None (Some [inl 1]) [] []);
    (2, mkDocumentable FunctionT "__init__" (Some 1) (Some 0) None
          (Some METHOD) 2 0 [] [] false PROCESSED None
          [] [] [] None None None [] [("self", None)]);
    (3, mkDocumentable ClassT "Derived" (Some 0) (Some 0) None (Some CLASS) 4 0
          [("create", 4); ("build", 5); ("helper", 6)] [] false PROCESSED None
          ["Base"] ["m.Base"] [Some 1] (Some [Some 1]) (Some ["m.Base"])
          (Some [inl 3; inl 1]) [] []);
    (4, mkDocumentable FunctionT "create" (Some 3) (Some 0) None
          (Some CLASS_METHOD) 6 0 [] [] false PROCESSED None
          [] [] [] None None None []
          [("cls", None); ("return", Some (ast.Name "Derived"))]);
    (5, mkDocumentable FunctionT "build" (Some 3) (Some 0) None
          (Some STATIC_METHOD) 9 0 [] [] false PROCESSED None
          [] [] [] None None None []
          [("return", Some (ast.Name "Self"))]);
    (6, mkDocumentable FunctionT "helper" (Some 3) (Some 0) None
          (Some CLASS_METHOD) 12 0 [] [] false PROCESSED None
          [] [] [] None None None []
          [("cls", None); ("return", Some (ast.Name "int"))])
  ].

Definition ctor_sys : System :=
  mk_sys ctor_heap
    [("m", 0); ("m.Base", 1); ("m.Base.__init__", 2); ("m.Derived", 3);
     ("m.Derived.create", 4); ("m.Derived.build", 5); ("m.Derived.helper", 6)]
    [0] [].

(** The constructors of the object [cls] in the state [s]. *)
Definition constructors_of (s : System) (cls : oid) : list oid :=
  match objects s !! cls with
  | Some ob => constructors ob
  | None => []
  end.

(** ** Inheritance *)

(** A class object as [visit_ClassDef] leaves it, before post-processing:
    the raw base expressions, the expanded names of the bases and the base
    objects that could be resolved when the class was built. *)
Definition mk_class (nm : string) (par : oid) (line : nat)
    (raw initial : list string) (initialobjs : list (option oid)) : Documentable :=
  mkDocumentable ClassT nm (Some par) (Some par) None (Some CLASS) line 0 []
    [] false PROCESSED None raw initial initialobjs None None None [] [].

(** The module [m] with [class A(B): pass] followed by
    [class B(A): pass]: when [A] was built, [B] did not exist yet. *)
Definition cycle_heap : heap :=
  list_to_map [
    (0, mkDocumentable ModuleT "m" None None None (Some MODULE) 0 0
          [("A", 1); ("B", 2)] [] false PROCESSED (Some "") [] [] [] None
          None None [] []);
    (1, mk_class "A" 0 1 ["B"] ["B"] [None]);
    (2, mk_class "B" 0 3 ["A"] ["m.A"] [Some 1])
  ].

Definition cycle_sys : System :=
  mk_sys cycle_heap [("m", 0); ("m.A", 1); ("m.B", 2)] [0] [].

(** The [_mro] of the object [cls] in the state [s]. *)
Definition mro_of (s : System) (cls : oid) : option (list (oid + string)) :=
  match objects s !! cls with
  | Some ob => _mro ob
  | None => None
  end.

(** A linearization that is never reached when the hierarchy is cyclic. *)
Definition no_linearization
    (getbases : oid + string → list (oid + string)) (cls : oid)
    : res (list (oid + string)) :=
  Raise (LookupError "mro.mro").

(** ** Reporting *)

(** [s'] is [s] but for what [System.msg] writes. *)
Definition reporting_only (s s' : System) : Prop :=
  s' = set_reporting (violations s') (needsnl s') (once_msgs s') (stdout s')
         (msg_log s') s.

(** What [System.msg] adds to the output for a message that the verbosity
    lets through. *)
Definition printed (s : System) (text : string) : list string :=
  (if needsnl s then stdout s ++ [newline] else stdout s) ++ [text; newline].

(** The line number [Documentable.report] shows when it gets no offset. *)
Definition shown_lineno (section : string) (ob : Documentable) : string :=
  let n := if bool_decide (section = "docstring")
              || bool_decide (section = "resolve_identifier_xref")
           then (if docstring_lineno ob =? 0 then linenumber ob
                 else docstring_lineno ob)
           else linenumber ob in
  if n =? 0 then "???" else pystr.str_of_nat (n + 0).

(** The text [Documentable.report] hands to [System.msg]. *)
Definition report_text (dsc : string) (section : string) (ob : Documentable)
    (descr : string) : string :=
  dsc +:+ ":" +:+ shown_lineno section ob +:+ ": " +:+ descr.

(** ** Duplicate modules *)

(** A module object before it is processed; [c] tells an extension module
    from a source module. *)
Definition mk_module (pkg c : bool) (nm : string) (par : option oid)
    (path : string) (cont : pydict.t oid) : Documentable :=
  mkDocumentable (if pkg then PackageT else ModuleT) nm par None (Some path)
    (Some (if pkg then PACKAGE else MODULE)) 0 0 cont [] c UNPROCESSED None
    [] [] [] None None None [] [].

(** Two extension modules for the same name, [ext.abi3.so] and [ext.so],
    the first one registered, the second one just created. *)
Definition two_ext_sys : System :=
  mkSystem
    (list_to_map [(0, mk_module false true "ext" None "ext.abi3.so" []);
                  (1, mk_module false true "ext" None "ext.so" [])])
    (list_to_map [("ext", 0)]) (list_to_map [("ext", 0)]) [0] [0] [] 1 0
    false [] ∅ 3%Z [] [] [] false.

(** ** Subtrees *)

(** The object [o] and everything below it in [contents], parents before
    children, in the order of the dictionaries. *)
Fixpoint descendants_go (n : nat) (h : heap) (o : oid) : res (list oid) :=
  match n with
  | 0 => Raise RecursionError
  | S n' =>
      let* ob := getobj h o in
      let* ls := rmapM (descendants_go n' h) (pydict.values (contents ob)) in
      Ok (o :: concat ls)
  end.

Definition descendants (h : heap) (o : oid) : res (list oid) :=
  descendants_go (S (size h)) h o.

(** The shape the four recursive functions over a subtree share: do
    something with the full name of the object, then go through its
    contents. *)
Fixpoint walk_go (act : string → oid → M unit) (n : nat) (o : oid) : M unit :=
  match n with
  | 0 => throw RecursionError
  | S n' =>
      let+ fn := lift (λ s, fullName (objects s) o) in
      act fn o ;;
      let+ ob := lift (λ s, getobj (objects s) o) in
      for_each (walk_go act n') (pydict.values (contents ob))
  end.

(** [act] applied to the objects of a list one after the other, each with
    its full name, leaving the store as it is. *)
Inductive runs (act : string → oid → M unit)
    : list oid → System → System → Prop :=
  | runs_nil s : runs act [] s s
  | runs_cons o l s s1 s2 fn :
      fullName (objects s) o = Ok fn →
      act fn o s = Return tt s1 →
      objects s1 = objects s →
      runs act l s1 s2 →
      runs act (o :: l) s s2.

(** [s'] is [s] but for the index. *)
Definition index_only (s s' : System) : Prop :=
  s' = set_allobjects (allobjects s') s.

(** The members of [L] other than [root] have their parent in [L]. *)
Definition closed_under_parent (h : heap) (L : list oid) (root : oid) : Prop :=
  ∀ x, x ∈ L → x ≠ root →
    ∃ xob q, h !! x = Some xob ∧ parent xob = Some q ∧ q ∈ L.

(** Every member of [L] is in the index under its full name. *)
Definition indexed (s : System) (L : list oid) : Prop :=
  ∀ x, x ∈ L →
    ∃ k, fullName (objects s) x = Ok k ∧ allobjects s !! k = Some x.

(** Everything but the contents. *)
Definition but_contents (ob : Documentable) : Documentable :=
  set_contents [] ob.

(** ** Duplicate definitions *)

(** The module [mod] with a class [C] that has a method [m], and a second
    class [C] of the same module, created and not yet added. The name
    [mod.C 0] is already taken by an earlier duplicate. *)
Definition dup_heap : heap :=
  list_to_map [
    (0, mkDocumentable ModuleT "mod" None None None (Some MODULE) 0 0
          [("C", 1)] [] false PROCESSING (Some "") [] [] [] None None None
          [] []);
    (1, mkDocumentable ClassT "C" (Some 0) (Some 0) None (Some CLASS) 5 0
          [("m", 2)] [] false PROCESSED None [] [] [] None None None [] []);
    (2, mkDocumentable FunctionT "m" (Some 1) (Some 0) None (Some METHOD) 6 0
          [] [] false PROCESSED None [] [] [] None None None [] []);
    (3, mkDocumentable ClassT "C" (Some 0) (Some 0) None (Some CLASS) 9 0
          [] [] false PROCESSED None [] [] [] None None None [] []);
    (4, mkDocumentable ClassT "C 0" (Some 0) (Some 0) None (Some CLASS) 2 0
          [] [] false PROCESSED None [] [] [] None None None [] [])
  ].

Definition dup_sys : System :=
  mk_sys dup_heap
    [("mod", 0); ("mod.C", 1); ("mod.C.m", 2); ("mod.C 0", 4)] [0] [].

(** ** Consistent systems *)

(** What [System.addObject] and the builders maintain, and what
    [expandName] relies on: parent chains end, only modules have no
    parent, the members of an object and the classes of an MRO are
    objects of the system, the index leads to objects of the system, and
    every root object is in the index under its name. *)
Definition known (h : heap) (o : oid) : bool := bool_decide (is_Some (h !! o)).

Definition known_class (h : heap) (x : oid + string) : bool :=
  match x with
  | inl b => known h b
  | inr _ => true
  end.

Definition object_ok (h : heap) (o : oid) (ob : Documentable) : bool :=
  is_ok (fullName h o)
  && match parent ob with
     | None => is_Module (py_class ob)
     | Some _ => true
     end
  && forallb (known h) (pydict.values (contents ob))
  && (if is_Class (py_class ob) then
        match mro h o false true with
        | Ok l => forallb (known_class h) l
        | Raise _ => false
        end
      else true).

Definition root_ok (s : System) (r : oid) : bool :=
  match objects s !! r with
  | Some rob => bool_decide (is_Some (allobjects s !! name rob))
  | None => false
  end.

Definition consistent (s : System) : bool :=
  forallb (λ p, object_ok (objects s) p.1 p.2) (map_to_list (objects s))
  && forallb (root_ok s) (rootobjects s)
  && forallb (λ p, known (objects s) p.2) (map_to_list (allobjects s)).

(** What a lookup by full name may answer inside [expandName]: an object
    of the system, nothing, or the recursion limit. *)
Definition answer_ok (h : heap) (r : res (option oid)) : Prop :=
  r = Raise RecursionError ∨ r = Ok None
  ∨ ∃ o, r = Ok (Some o) ∧ is_Some (h !! o).

Definition lookup_ok (h : heap) (lookup : string → res (option oid)) : Prop :=
  ∀ fn, answer_ok h (lookup fn).

(** ** Discovering modules *)

(** What the discovery of one module hands to
    [SystemBuilder.addModuleString]. *)
Record module_source : Type := mkSource {
  src_text : string;
  src_modname : string;
  src_parent : option string;
  src_is_package : bool
}.

Definition src_fullName (d : module_source) : string :=
  match src_parent d with
  | None => src_modname d
  | Some pn => pn +:+ "." +:+ src_modname d
  end.

Definition add_source (d : module_source) : M unit :=
  addModuleString (src_text d) (src_modname d) (src_parent d)
    (src_is_package d).

Definition add_sources (ds : list module_source) : M unit :=
  for_each add_source ds.

(** Every module is discovered after its parent, which is a package. *)
Fixpoint parents_first (seen ds : list module_source) : bool :=
  match ds with
  | [] => true
  | d :: ds' =>
      match src_parent d with
      | None => true
      | Some pn =>
          existsb (λ e, bool_decide (src_fullName e = pn) && src_is_package e)
            seen
      end && parents_first (d :: seen) ds'
  end.

(** ** Processing modules on demand *)

Section on_demand.
  (** [builder.processModuleAST] calls [System.getProcessedModule] for the
      modules the tree refers to, which calls [System.processModule],
      which calls the builder again. [build] is the builder, given the
      [getProcessedModule] it calls; [n] bounds how deep builders are
      nested. *)
Variable parse : oid → M bool.
Variable build : (string → M (option oid)) → oid → M unit.
Variable introspect : oid → M unit.
Variable postProcess : M unit.

Fixpoint processModuleAST_within (n : nat) (mod_ : oid) : M unit :=
    match n with
    | 0 => throw RecursionError
    | S n' =>
        build (getProcessedModule parse (processModuleAST_within n') introspect)
          mod_
    end.

  (** The modules [ds] are registered in this order, then [System.process]
      runs. Every nested builder takes a module out of the queue, so the
      nesting is at most [length ds] deep, and so is the loop of
      [process]. *)
Definition build_system (ds : list module_source) : M unit :=
    add_sources ds ;;
    process parse (processModuleAST_within (S (length ds))) introspect
      postProcess (S (length ds)).
End on_demand.

Definition index_keys (r : outcome unit) : list string :=
  (map_to_list (allobjects (final_state r))).*1.

(** The system built from modules without definitions: parsing gives a
    tree, and neither the builder nor the post-processors do anything. *)
Definition build_empty (ds : list module_source) : outcome unit :=
  build_system (λ _, ret true) (λ _ _, ret tt) (λ _, ret tt) (ret tt) ds
    (new_System 0 [] false).

(** The modules [ds] are in the index under their full names, and nothing
    else is; each of them waits in the queue with its text, and no module
    is being processed. *)
Definition discovered (s : System) (ds : list module_source) : Prop :=
  dom (allobjects s) = list_to_set (src_fullName <$> ds)
  ∧ NoDup (unprocessed_modules s)
  ∧ processing_modules s = []
  ∧ (∀ d, d ∈ ds →
      ∃ o ob, allobjects s !! src_fullName d = Some o
              ∧ objects s !! o = Some ob
              ∧ fullName (objects s) o = Ok (src_fullName d)
              ∧ py_class ob = (if src_is_package d then PackageT else ModuleT)
              ∧ state ob = UNPROCESSED
              ∧ is_Some (_py_string ob)
              ∧ _is_c_module ob = false
              ∧ o ∈ unprocessed_modules s)
  ∧ (∀ o, o ∈ unprocessed_modules s →
      ∃ d, d ∈ ds ∧ allobjects s !! src_fullName d = Some o).

(** What the scheduling reads of an object. *)
Definition standing (ob : Documentable)
    : string * option oid * pyclass * ProcessingState * bool * option string :=
  (name ob, parent ob, py_class ob, state ob, _is_c_module ob, _py_string ob).

Section scheduling.
  (** The full names of the modules of the system, whether the text of a
      module gives a tree, and the full names of what a module defines. *)
Variable names : gset string.
Variable parses : string → bool.
Variable defs : string → gset string.

  (** The object [o] is the source module with the full name [nm]. *)
Definition module_at (s : System) (nm : string) (o : oid)
      (ob : Documentable) : Prop :=
    allobjects s !! nm = Some o
    ∧ objects s !! o = Some ob
    ∧ fullName (objects s) o = Ok nm
    ∧ is_Module (py_class ob) = true
    ∧ _is_c_module ob = false
    ∧ is_Some (_py_string ob).

  (** The state between two steps of the processing:
      - every module of the system is in the index;
      - the queue lists, once each, the modules that are [UNPROCESSED];
      - a module that is [PROCESSING] is one whose text gave no tree, or its
        builder is running, and then it is on the stack;
      - a module that is [PROCESSED] has all its definitions in the index;
      - the index holds modules and definitions of modules whose
        processing has started, and nothing else;
      - a module object in the index is a module of the system;
      - the index leads to objects of the system. *)
Record scheduled (s : System) : Prop := mkScheduled {
    sch_modules : ∀ nm, nm ∈ names → ∃ o ob, module_at s nm o ob;
    sch_nodup : NoDup (unprocessed_modules s);
    sch_queue : ∀ o, o ∈ unprocessed_modules s ↔
      ∃ nm ob, nm ∈ names ∧ module_at s nm o ob ∧ state ob = UNPROCESSED;
    sch_processing : ∀ nm o ob, nm ∈ names → module_at s nm o ob →
      state ob = PROCESSING →
      parses nm = false ∨ nm ∈ processing_modules s;
    sch_processed : ∀ nm o ob, nm ∈ names → module_at s nm o ob →
      state ob = PROCESSED →
      parses nm = true ∧ defs nm ⊆ dom (allobjects s);
    sch_index : ∀ k, is_Some (allobjects s !! k) →
      k ∈ names
      ∨ ∃ nm o ob, nm ∈ names ∧ module_at s nm o ob
                   ∧ state ob ≠ UNPROCESSED ∧ parses nm = true
                   ∧ k ∈ defs nm;
    sch_module_keys : ∀ k o ob, allobjects s !! k = Some o →
      objects s !! o = Some ob → is_Module (py_class ob) = true → k ∈ names;
    sch_objects : ∀ k o, allobjects s !! k = Some o → is_Some (objects s !! o)
  }.

  (** From [s] to [s'] modules were processed, and nothing else happened
      to the schedule: the stack is as it was, no module was queued, the
      modules are in the index as before, no key has left the index, and
      what is new in the index is a definition of a module that was
      waiting, or one of [own]. *)
Definition advances (own : gset string) (s s' : System) : Prop :=
    processing_modules s' = processing_modules s
    ∧ sublist (unprocessed_modules s') (unprocessed_modules s)
    ∧ (∀ nm, nm ∈ names → allobjects s' !! nm = allobjects s !! nm)
    ∧ dom (allobjects s) ⊆ dom (allobjects s')
    ∧ ∀ k, is_Some (allobjects s' !! k) →
        is_Some (allobjects s !! k) ∨ k ∈ own
        ∨ ∃ nm o, nm ∈ names ∧ allobjects s !! nm = Some o
                  ∧ o ∈ unprocessed_modules s ∧ k ∈ defs nm.

  (** No two modules define the same full name, and no module defines the
      full name of a module. *)
Definition defs_apart : Prop :=
    (∀ nm, nm ∈ names → defs nm ## names)
    ∧ ∀ nm nm', nm ∈ names → nm' ∈ names → nm ≠ nm' → defs nm ## defs nm'.

  (** [parse] answers whether the text gives a tree, and reports. *)
Definition parser_ok (parse : oid → M bool) : Prop :=
    ∀ s nm o ob, nm ∈ names → module_at s nm o ob →
      ∃ s', parse o s = Return (parses nm) s' ∧ reporting_only s s'.

  (** What the builder may expect of the [getProcessedModule] it is
      given, as long as at most [m] modules are queued: it returns, the
      schedule is in order afterwards, and the module it answers is no
      longer [UNPROCESSED]. *)
Definition callback_ok (m : nat) (cb : string → M (option oid)) : Prop :=
    ∀ modname s, scheduled s → length (unprocessed_modules s) ≤ m →
      ∃ r s', cb modname s = Return r s' ∧ scheduled s' ∧ advances ∅ s s'
              ∧ match r with
                | Some o =>
                    ∃ ob, allobjects s' !! modname = Some o
                          ∧ objects s' !! o = Some ob
                          ∧ is_Module (py_class ob) = true
                          ∧ state ob ≠ UNPROCESSED
                | None =>
                    ∀ o ob, allobjects s' !! modname = Some o →
                            objects s' !! o = Some ob →
                            is_Module (py_class ob) = false
                end.

  (** What is expected of the builder: called for a module whose tree it
      builds for the first time (the module is [PROCESSING] and on top of
      the stack, none of its definitions is in the index), with a
      [getProcessedModule] as above, it returns, has put the definitions
      of the module into the index, and leaves the schedule in order;
      apart from these definitions the index has grown only by what the
      calls of [getProcessedModule] added. *)
Definition builder_ok
      (build : (string → M (option oid)) → oid → M unit) : Prop :=
    ∀ m cb nm o ob s,
      callback_ok m cb → nm ∈ names → parses nm = true →
      scheduled s → module_at s nm o ob → state ob = PROCESSING →
      last (processing_modules s) = Some nm →
      defs nm ## dom (allobjects s) →
      length (unprocessed_modules s) ≤ m →
      ∃ s', build cb o s = Return tt s' ∧ scheduled s'
            ∧ advances (defs nm) s s'
            ∧ defs nm ⊆ dom (allobjects s').

  (** The post-processors return, leave the schedule in order and add
      nothing to the index. *)
Definition post_ok (postProcess : M unit) : Prop :=
    ∀ s, scheduled s → unprocessed_modules s = [] →
      ∃ s', postProcess s = Return tt s' ∧ scheduled s' ∧ advances ∅ s s'.

  (** The keys of the index when every module has been processed. *)
Definition final_index : gset string :=
    names ∪ ⋃ ((λ nm, if parses nm then defs nm else ∅) <$> elements names).

  (** Every module has been processed: no module waits or is being
      built, a module whose text gave a tree is [PROCESSED], and one whose
      text gave none was left [PROCESSING]. *)
Definition all_processed (s : System) : Prop :=
    unprocessed_modules s = [] ∧ processing_modules s = []
    ∧ ∀ nm, nm ∈ names →
        ∃ o ob, module_at s nm o ob
                ∧ state ob = (if parses nm then PROCESSED else PROCESSING).
End scheduling.

(** ** A builder for imports and classes *)

(** Modelled from the spec: the part of the Object-Model Builder that the
    scheduling of modules and the inheritance of classes depend on (§4.2,
    §4.3, §4.4). The tree of a module is a list of statements
    [from m import a, b] and [class C(B1, B2): pass]. An import first has
    the module it names processed, then enters the imported names in the
    alias table of the importing module. A class definition creates the
    class with its raw bases, their expanded names and the base objects
    that resolve to a class at this moment (the first, best-effort pass),
    and registers it with [addObject]. *)
Inductive statement : Type :=
  | ImportFrom (modname : string) (imported : list string)
  | ClassDef (nm : string) (bases : list string).

Section building.
  (** The tree of the module of a full name, the depth of calls name
      resolution is allowed, and [System.getProcessedModule]. *)
Variable trees : string → list statement.
Variable d : nat.
Variable getProcessedModule : string → M (option oid).

Definition visit_ImportFrom (mod_ : oid) (modname : string)
      (imported : list string) : M unit :=
    getProcessedModule modname ;;
    modify (update mod_ (λ o,
      set_localNameToFullName_map
        (foldl (λ m x, pydict.set x (modname +:+ "." +:+ x) m)
               (_localNameToFullName_map o) imported) o)).

Definition visit_ClassDef (mod_ : oid) (nm : string) (bases : list string)
      : M unit :=
    let+ initialbases := lift (λ s, rmapM (expandName d s mod_) bases) in
    let+ resolved := lift (λ s, rmapM (resolveName d s mod_) bases) in
    let+ initialbaseobjects :=
      lift (λ s, Ok (map (λ r, if isinstance_Class (objects s) r then r
                               else None) resolved)) in
    let+ cls := alloc (mk_class nm mod_ 0 bases initialbases
                         initialbaseobjects) in
    addObject cls.

Definition visit_statement (mod_ : oid) (st : statement) : M unit :=
    match st with
    | ImportFrom modname imported => visit_ImportFrom mod_ modname imported
    | ClassDef nm bases => visit_ClassDef mod_ nm bases
    end.

Definition build_module (mod_ : oid) : M unit :=
    let+ fn := lift (λ s, fullName (objects s) mod_) in
    for_each (visit_statement mod_) (trees fn).
End building.

(** Modelled from the spec: the post-processing pass that computes the
    method resolution order of every class of the index (§4.4), one class
    after the other as the index enumerates them. *)
Definition init_mros
    (mro_mro : (oid + string → list (oid + string)) → oid
               → res (list (oid + string)))
    (d : nat) : M unit :=
  let+ classes :=
    lift (λ s, Ok (filter (λ o, isinstance_Class (objects s) (Some o) = true)
                     (map_to_list (allobjects s)).*2)) in
  for_each (_init_mro mro_mro d) classes.

(** The system built from the modules [ds] with the trees [trees], on a
    new system. *)
Definition build_example (trees : string → list statement)
    (ds : list module_source) : outcome unit :=
  build_system (λ _, ret true) (λ cb, build_module trees 8 cb) (λ _, ret tt)
    (init_mros no_linearization 8) ds (new_System 0 [] false).

(** The full names in the MRO of the class with the full name [cls]. *)
Definition mro_names (r : outcome unit) (cls : string) : option (list string) :=
  let s := final_state r in
  match allobjects s !! cls with
  | None => None
  | Some c =>
      match mro_of s c with
      | None => None
      | Some l =>
          Some (map (λ x, match x with
                          | inl o => match fullName (objects s) o with
                                     | Ok k => k
                                     | Raise _ => "?"
                                     end
                          | inr k => k
                          end) l)
      end
  end.

(** The package [p], found twice, and its module [p.a]; a module [q] next
    to the package. *)
Definition src_p : module_source := mkSource "" "p" None true.
Definition src_p_a : module_source := mkSource "" "a" (Some "p") false.
Definition src_q : module_source := mkSource "" "q" None false.

(** The classes a tree defines, the full names they get in the module
    [fn], and whether all of them are without bases. *)
Definition class_names (sts : list statement) : list string :=
  omap (λ st, match st with
              | ClassDef c _ => Some c
              | ImportFrom _ _ => None
              end) sts.

Definition defined_in (fn : string) (sts : list statement) : gset string :=
  list_to_set ((λ c, fn +:+ "." +:+ c) <$> class_names sts).

Definition no_bases (sts : list statement) : bool :=
  forallb (λ st, match st with
                 | ClassDef _ [] => true
                 | ClassDef _ (_ :: _) => false
                 | ImportFrom _ _ => true
                 end) sts.

(** [p/a.py] defines [class A], and [q.py] has [from p.a import A] and
    [class B]. *)
Definition trees_p_q (fn : string) : list statement :=
  if bool_decide (fn = "p.a") then [ClassDef "A" []]
  else if bool_decide (fn = "q") then [ImportFrom "p.a" ["A"]; ClassDef "B" []]
  else [].

Definition defs_p_q (fn : string) : gset string :=
  defined_in fn (trees_p_q fn).

(** [a.py] with [from b import B] and [class A(B)], and [b.py] with
    [from a import A] and [class B(A)]. *)
Definition src_a : module_source := mkSource "" "a" None false.
Definition src_b : module_source := mkSource "" "b" None false.

Definition trees_cycle (fn : string) : list statement :=
  if bool_decide (fn = "a") then [ImportFrom "b" ["B"]; ClassDef "A" ["B"]]
  else if bool_decide (fn = "b") then [ImportFrom "a" ["A"]; ClassDef "B" ["A"]]
  else [].

(** ** Moving an object *)

(** The name [k] is [a] or lies below it. *)
Definition under (a k : string) : bool :=
  bool_decide (k = a) || pystr.startswith k (a +:+ ".").

(** No key of the index is [a] or lies below it. *)
Definition location_free (s : System) (a : string) : bool :=
  forallb (λ p, negb (under a p.1)) (map_to_list (allobjects s)).

(** The root object the loop of [System.objForFullName] stops at. *)
Fixpoint first_root (h : heap) (roots : list oid) (nm : string) : option oid :=
  match roots with
  | [] => None
  | r :: roots' =>
      match h !! r with
      | Some rob =>
          if bool_decide (name rob = nm) then Some r else first_root h roots' nm
      | None => None
      end
  end.

(** An object that is reached by name from a root object: it and the
    objects above it are modules or classes with names without dots, each
    is a member of its parent under its name and is in the index under its
    full name, and the topmost one is the first root object of its name. *)
Inductive anchored (s : System) : oid → Prop :=
  | anchored_root r rob :
      objects s !! r = Some rob →
      parent rob = None →
      is_CanContainImportsDocumentable (py_class rob) = true →
      pystr.dotfree (name rob) = true →
      first_root (objects s) (rootobjects s) (name rob) = Some r →
      anchored s r
  | anchored_child c cob p pob fn :
      objects s !! c = Some cob →
      parent cob = Some p →
      objects s !! p = Some pob →
      anchored s p →
      pydict.get (name cob) (contents pob) = Some c →
      is_CanContainImportsDocumentable (py_class cob) = true →
      pystr.dotfree (name cob) = true →
      fullName (objects s) c = Ok fn →
      allobjects s !! fn = Some c →
      anchored s c.

(** The package [pkg] with the modules [a] and [b]; [a] has a class [C]
    with a method [m]. *)
Definition move_pkg : Documentable :=
  mkDocumentable PackageT "pkg" None None None (Some PACKAGE) 0 0
    [("a", 1); ("b", 2)] [] false PROCESSED (Some "") [] [] [] None None
    None [] [].

Definition move_a : Documentable :=
  mkDocumentable ModuleT "a" (Some 0) None None (Some MODULE) 0 0
    [("C", 3)] [] false PROCESSED (Some "") [] [] [] None None None [] [].

Definition move_b : Documentable :=
  mkDocumentable ModuleT "b" (Some 0) None None (Some MODULE) 0 0
    [] [] false PROCESSED (Some "") [] [] [] None None None [] [].

Definition move_C : Documentable :=
  mkDocumentable ClassT "C" (Some 1) (Some 1) None (Some CLASS) 3 0
    [("m", 4)] [] false PROCESSED None [] [] [] None None None [] [].

Definition move_m : Documentable :=
  mkDocumentable FunctionT "m" (Some 3) (Some 1) None (Some METHOD) 4 0
    [] [] false PROCESSED None [] [] [] None None None [] [].

Definition move_heap : heap :=
  list_to_map [(0, move_pkg); (1, move_a); (2, move_b); (3, move_C);
               (4, move_m)].

Definition move_sys : System :=
  mk_sys move_heap
    [("pkg", 0); ("pkg.a", 1); ("pkg.b", 2); ("pkg.a.C", 3);
     ("pkg.a.C.m", 4)] [0] [].

(** What [reparent] does to the object it moves, to the parent it leaves
    and to the parent it joins. *)
Definition moved_to (new_parent : oid) (new_name : string)
    (o : Documentable) : Documentable :=
  set_name new_name
    (set_parentMod (Some new_parent) (set_parent (Some new_parent) o)).

Definition without_member (old_name : string) (o : Documentable)
    : Documentable :=
  set_contents (pydict.del old_name (contents o)) o.

Definition with_alias (old_name full : string) (o : Documentable)
    : Documentable :=
  set_localNameToFullName_map
    (pydict.set old_name full (_localNameToFullName_map o)) o.

Definition with_member (new_name : string) (x : oid) (o : Documentable)
    : Documentable :=
  set_contents (pydict.set new_name x (contents o)) o.

Definition moved_heap (h : heap) (self old_parent new_parent : oid)
    (old_name new_name new_full : string) : heap :=
  alter (with_member new_name self) new_parent
    (alter (with_alias old_name new_full) old_parent
       (alter (without_member old_name) old_parent
          (alter (moved_to new_parent new_name) self h))).

(** The package [p] with its module [p.a], both registered and waiting to
    be processed, and a second package [p], found later and just
    created. *)
Definition twice_found_sys : System :=
  mkSystem
    (list_to_map [(0, mk_module true false "p" None "p/__init__.py" [("a", 1)]);
                  (1, mk_module false false "a" (Some 0) "p/a.py" []);
                  (2, mk_module true false "p" None "q/p/__init__.py" [])])
    (list_to_map [("p", 0); ("p.a", 1)]) (list_to_map [("p", 0); ("p.a", 1)])
    [0] [0; 1] [] 2 0 false [] ∅ 3%Z [] [] [] false.

(** The same, once the processing of the first package has begun: it has
    left the queue. *)
Definition begun_sys : System :=
  update 0 (set_state PROCESSING)
    (set_unprocessed_modules [1] twice_found_sys).

(** A module [mod] and a function [f] created for it and not yet added. *)
Definition unadded_mod : Documentable :=
  mkDocumentable ModuleT "mod" None None None (Some MODULE) 0 0 [] [] false
    PROCESSING (Some "") [] [] [] None None None [] [].

Definition unadded_f : Documentable :=
  mkDocumentable FunctionT "f" (Some 0) (Some 0) None (Some FUNCTION) 2 0 []
    [] false PROCESSED None [] [] [] None None None [] [].

Definition unadded_sys : System :=
  mk_sys (list_to_map [(0, unadded_mod); (1, unadded_f)]) [("mod", 0)] [0] [].

(** The modules of the example in the docstring of [expandName]: [mod1]
    imports [External] from [external_location] and defines
    [class Local]; [mod2] imports [External] from [mod1] as
    [RenamedExternal] and [mod1] as [renamed_mod], and defines
    [class E]. *)
Definition import_mod1 : Documentable :=
  mkDocumentable ModuleT "mod1" None None None (Some MODULE) 0 0
    [("Local", 2)] [("External", "external_location.External")] false
    PROCESSED (Some "") [] [] [] None None None [] [].

Definition import_mod2 : Documentable :=
  mkDocumentable ModuleT "mod2" None None None (Some MODULE) 0 0
    [("E", 3)]
    [("RenamedExternal", "external_location.External");
     ("renamed_mod", "mod1")] false
    PROCESSED (Some "") [] [] [] None None None [] [].

Definition import_sys : System :=
  mk_sys
    (list_to_map [(0, import_mod1); (1, import_mod2);
                  (2, mk_class "Local" 0 3 [] [] []);
                  (3, mk_class "E" 1 4 [] [] [])])
    [("mod1", 0); ("mod2", 1); ("mod1.Local", 2); ("mod2.E", 3)] [0; 1] [].

(** The name expansion of a module that starts with
    [from typing import List, Optional, Union] and [import typing]. *)
Definition typing_List_imports (nm : string) : string :=
  if bool_decide (nm = "List") then "typing.List" else typing_imports nm.

(** [Optional[List[int]]] and [typing.Dict[str, int]] as the parser hands
    them over. *)
Definition Optional_List_int : ast.expr :=
  ast.Subscript (ast.Name "Optional")
    (ast.Subscript (ast.Name "List") (ast.Name "int")).

Definition typing_Dict_str_int : ast.expr :=
  ast.Subscript (ast.Attribute (ast.Name "typing") "Dict")
    (ast.Tuple [ast.Name "str"; ast.Name "int"]).

(** The system of [privacy_sys] after the privacy of [pkg.mod._impl] has
    been asked for, when the rules are then replaced by one that declares
    [pkg.mod._impl] public. *)
Definition rules_changed_sys : System :=
  set_privacyClassCache {[ "pkg.mod._impl" := PRIVATE ]}
    (mk_sys privacy_heap
       [("pkg", 0); ("pkg.mod", 1); ("pkg.mod._impl", 2);
        ("pkg.mod._impl.thing", 3); ("pkg.mod._impl.other", 4);
        ("pkg.__main__", 5)]
       [0] [(PUBLIC, "pkg.mod._impl")]).

(** ** Inferred types *)

(** The sequence [l] is not empty and each of its elements gets the plain
    annotation [t]. *)
Definition uniform (l : list astutils.pyvalue) (t : string) : Prop :=
  l ≠ []
  ∧ Forall (λ e, astutils._annotation_for_value e = Some (ast.Name t)) l.

(** The package [p] with its module [p.a], registered, and a plain module
    [p] (a file [p.py] found in another directory), just created. *)
Definition package_then_module_sys : System :=
  mkSystem
    (list_to_map [(0, mk_module true false "p" None "p/__init__.py" [("a", 1)]);
                  (1, mk_module false false "a" (Some 0) "p/a.py" []);
                  (2, mk_module false false "p" None "q/p.py" [])])
    (list_to_map [("p", 0); ("p.a", 1)]) (list_to_map [("p", 0); ("p.a", 1)])
    [0] [0; 1] [] 2 0 false [] ∅ 3%Z [] [] [] false.

(** Modelled from the spec: a front end for a source that does not parse.
    The failure is reported as a diagnostic against the module and no
    tree comes out. *)
Definition parse_failure (mod_ : oid) : M bool :=
  report mod_ "cannot parse file" "parsing" 0 (-1)%Z ;; ret false.

(** ** The meaning of a name, following the spec's words *)

(** Following the spec's words: the bare name [nm] looked up from the
    object [o], searching the scope chain outward. A member of a module
    or class means the member; a name the module or class has imported
    means the full name it was imported as; a class hands a name it does
    not bind, and a function or attribute every name, to the scope
    around it; a module leaves a name it does not bind as it is. *)
Inductive scope_lookup (h : heap) : oid → string → string → Prop :=
  | scope_member o ob nm c full :
      h !! o = Some ob →
      is_CanContainImportsDocumentable (py_class ob) = true →
      pydict.get nm (contents ob) = Some c →
      fullName h c = Ok full →
      scope_lookup h o nm full
  | scope_import o ob nm full :
      h !! o = Some ob →
      is_CanContainImportsDocumentable (py_class ob) = true →
      pydict.get nm (contents ob) = None →
      pydict.get nm (_localNameToFullName_map ob) = Some full →
      scope_lookup h o nm full
  | scope_unbound o ob nm :
      h !! o = Some ob →
      is_Module (py_class ob) = true →
      pydict.get nm (contents ob) = None →
      pydict.get nm (_localNameToFullName_map ob) = None →
      scope_lookup h o nm nm
  | scope_outward o ob par nm full :
      h !! o = Some ob →
      is_Module (py_class ob) = false →
      (is_Class (py_class ob) = true →
       pydict.get nm (contents ob) = None
       ∧ pydict.get nm (_localNameToFullName_map ob) = None) →
      parent ob = Some par →
      scope_lookup h par nm full →
      scope_lookup h o nm full.

(** The member called [nm] of the first class of the linearization [l]
    that has one. *)
Inductive inherited_member (h : heap) (nm : string)
    : list (oid + string) → option oid → Prop :=
  | inherited_none : inherited_member h nm [] None
  | inherited_here b bob l x :
      h !! b = Some bob →
      pydict.get nm (contents bob) = Some x →
      inherited_member h nm (inl b :: l) (Some x)
  | inherited_later b bob l r :
      h !! b = Some bob →
      pydict.get nm (contents bob) = None →
      inherited_member h nm l r →
      inherited_member h nm (inl b :: l) r.

(** What the component [p] at position [i] of a dotted name means from
    the object [obj] reached so far: [Some full] when it is resolved to
    the full name [full], [None] when it cannot be resolved. The first
    component is always taken as the scope chain gives it; a later
    component that the scope chain leaves as it is may still be a member
    that the class [obj] inherits. *)
Inductive component (h : heap) (obj : oid) (i : nat) (p : string)
    : option string → Prop :=
  | component_found full :
      scope_lookup h obj p full →
      full ≠ p ∨ i = 0 →
      component h obj i p (Some full)
  | component_inherited ob l x full :
      scope_lookup h obj p p →
      i ≠ 0 →
      h !! obj = Some ob →
      is_Class (py_class ob) = true →
      mro h obj false true = Ok l →
      inherited_member h p l (Some x) →
      fullName h x = Ok full →
      full ≠ p →
      component h obj i p (Some full)
  | component_unresolved :
      scope_lookup h obj p p →
      i ≠ 0 →
      (∀ ob l x full,
         h !! obj = Some ob → is_Class (py_class ob) = true →
         mro h obj false true = Ok l →
         inherited_member h p l (Some x) →
         fullName h x = Ok full → full = p) →
      component h obj i p None.

(** Following the spec's words: the expansion of the components [parts],
    the first of them at position [i], from the object [obj]. One
    component is resolved at a time and the walk goes on from the object
    known under the full name it resolves to. As soon as a component
    cannot be resolved the result is the full name of the object reached
    so far, a dot, and the components that are left; when a component
    resolves to a full name under which no object is known, or the lookup
    of that name runs into the recursion limit, the result is that full
    name and the components after it. *)
Inductive expansion (lookup : string → res (option oid)) (h : heap)
    : oid → nat → list string → string → Prop :=
  | expansion_unresolved obj i p rest on :
      component h obj i p None →
      fullName h obj = Ok on →
      expansion lookup h obj i (p :: rest)
        (pystr.join ((on +:+ "." +:+ p) :: rest))
  | expansion_unknown obj i p rest full :
      component h obj i p (Some full) →
      lookup full = Ok None ∨ lookup full = Raise RecursionError →
      expansion lookup h obj i (p :: rest) (pystr.join (full :: rest))
  | expansion_last obj i p full nxt :
      component h obj i p (Some full) →
      lookup full = Ok (Some nxt) →
      expansion lookup h obj i [p] (pystr.join [full])
  | expansion_next obj i p q rest full nxt r :
      component h obj i p (Some full) →
      lookup full = Ok (Some nxt) →
      expansion lookup h nxt (S i) (q :: rest) r →
      expansion lookup h obj i (p :: q :: rest) r.

(** The name [nm] expands to [r] from the object [ctx]. *)
Definition expands (d : nat) (s : System) (ctx : oid) (nm r : string) : Prop :=
  expansion (λ fn, objForFullName d s fn false) (objects s) ctx 0
    (pystr.split nm) r.

(** The system [_handleDuplicateModule] leaves when the package [p],
    whose processing has begun, is found a second time. *)
Definition half_removed_sys : System :=
  final_state (_handleDuplicateModule 0 2 begun_sys).

(** * Theorems *)

(** ** Stores that look alike *)

Section agree.
Context {B : Type} (f : Documentable → B).

Lemma heap_agree_refl h : heap_agree f h h.
  Proof. by intros o. Qed.

Lemma heap_agree_sym h h' : heap_agree f h h' → heap_agree f h' h.
  Proof. intros H o. by rewrite H. Qed.

Lemma heap_agree_trans h1 h2 h3 :
    heap_agree f h1 h2 → heap_agree f h2 h3 → heap_agree f h1 h3.
  Proof. intros H1 H2 o. by rewrite H1, H2. Qed.

Lemma heap_agree_dom h h' : heap_agree f h h' → dom h = dom h'.
  Proof.
    intros H. apply set_eq. intros o. rewrite !elem_of_dom.
    specialize (H o). split; intros [x Hx]; rewrite Hx in H; simpl in H.
    - destruct (h' !! o); [eauto|done].
    - destruct (h !! o); [eauto|done].
  Qed.

Lemma heap_agree_size h h' : heap_agree f h h' → size h = size h'.
  Proof.
    intros H. rewrite <- !size_dom. by rewrite (heap_agree_dom _ _ H).
  Qed.

Lemma heap_agree_getobj h h' o :
    heap_agree f h h' →
    match getobj h o, getobj h' o with
    | Ok ob, Ok ob' => f ob = f ob'
    | Raise e, Raise e' => e = e'
    | _, _ => False
    end.
  Proof.
    intros H. specialize (H o). unfold getobj.
    destruct (h !! o), (h' !! o); simpl in H; by simplify_eq.
  Qed.

  (** Changing an object without changing what [f] sees of it. *)
Lemma heap_agree_alter h o g :
    (∀ ob, f (g ob) = f ob) → heap_agree f h (alter g o h).
  Proof.
    intros Hg o'. destruct (decide (o = o')) as [->|Hne].
    - rewrite lookup_alter_eq. destruct (h !! o'); simpl; [by rewrite Hg|done].
    - by rewrite lookup_alter_ne.
  Qed.
End agree.

Lemma fullName_go_agree n h h' o :
  heap_agree skeleton h h' → fullName_go n h o = fullName_go n h' o.
Proof.
  intros H. revert o. induction n as [|n IH]; intros o; [done|].
  simpl. pose proof (heap_agree_getobj skeleton h h' o H) as Ho.
  destruct (getobj h o) as [ob|e], (getobj h' o) as [ob'|e']; try done; simpl.
  - unfold skeleton in Ho. injection Ho as Hn Hp. rewrite Hn, Hp.
    destruct (parent ob'); [|done]. by rewrite IH.
  - by rewrite Ho.
Qed.

Lemma fullName_agree h h' o :
  heap_agree skeleton h h' → fullName h o = fullName h' o.
Proof.
  intros H. unfold fullName. rewrite (heap_agree_size _ _ _ H).
  by apply fullName_go_agree.
Qed.

Lemma but_constructors_skeleton h h' :
  heap_agree but_constructors h h' → heap_agree skeleton h h'.
Proof.
  intros H o. specialize (H o).
  destruct (h !! o) as [ob|], (h' !! o) as [ob'|]; simpl in *; try done.
  injection H; intros. unfold skeleton. congruence.
Qed.

(** ** Reading does not look at the constructors *)

Section reads.
Variables h h' : heap.
Hypothesis Hagree : heap_agree but_constructors h h'.

Lemma getobj_but_constructors o :
    (∃ ob ob', getobj h o = Ok ob ∧ getobj h' o = Ok ob'
               ∧ but_constructors ob = but_constructors ob')
    ∨ (∃ e, getobj h o = Raise e ∧ getobj h' o = Raise e).
  Proof.
    pose proof (heap_agree_getobj but_constructors h h' o Hagree) as Ho.
    destruct (getobj h o) as [ob|e], (getobj h' o) as [ob'|e']; try done.
    - left. by exists ob, ob'.
    - right. exists e. by rewrite Ho.
  Qed.

Lemma lookup_but_constructors o :
    match h !! o, h' !! o with
    | Some ob, Some ob' => but_constructors ob = but_constructors ob'
    | None, None => True
    | _, _ => False
    end.
  Proof.
    pose proof (Hagree o) as Ho.
    destruct (h !! o), (h' !! o); simpl in Ho; try done.
    congruence.
  Qed.

Lemma size_but_constructors : size h = size h'.
  Proof. by apply (heap_agree_size but_constructors). Qed.

Lemma fullName_but_constructors o : fullName h o = fullName h' o.
  Proof. by apply fullName_agree, but_constructors_skeleton. Qed.

Lemma _localNameToFullName_go_but_constructors n o nm :
    _localNameToFullName_go n h o nm = _localNameToFullName_go n h' o nm.
  Proof.
    revert o. induction n as [|n IH]; intros o; [done|]. simpl.
    destruct (getobj_but_constructors o)
      as [(ob & ob' & -> & -> & E)|(e & -> & ->)]; [|done].
    simpl. injection E; intros.
    repeat match goal with H : ?f ob = ?f ob' |- _ => rewrite H; clear H end.
    destruct (py_class ob'); rewrite ?fullName_but_constructors; try done;
      destruct (pydict.get nm (contents ob')); rewrite ?fullName_but_constructors;
      try done;
      destruct (pydict.get nm (_localNameToFullName_map ob')); try done;
      destruct (parent ob'); try done; by rewrite ?IH.
  Qed.

Lemma _localNameToFullName_but_constructors o nm :
    _localNameToFullName h o nm = _localNameToFullName h' o nm.
  Proof.
    unfold _localNameToFullName. rewrite size_but_constructors.
    apply _localNameToFullName_go_but_constructors.
  Qed.

Lemma allbases_go_but_constructors n c b :
    allbases_go n h c b = allbases_go n h' c b.
  Proof.
    revert c b. induction n as [|n IH]; intros c b; [done|]. simpl.
    destruct (getobj_but_constructors c)
      as [(ob & ob' & -> & -> & E)|(e & -> & ->)]; [|done].
    simpl.
    assert (Hb : baseobjects ob = baseobjects ob').
    { unfold baseobjects. injection E; intros.
      by repeat match goal with H : ?f ob = ?f ob' |- _ => rewrite H; clear H end. }
    rewrite Hb.
    match goal with
    | |- rbind ?a _ = rbind ?b _ => assert (Hover : a = b); [|by rewrite Hover]
    end.
    clear Hb. generalize (baseobjects ob'). intros bs.
    induction bs as [|[x|] bs IHbs]; [done| |apply IHbs].
    by rewrite IH, IHbs.
  Qed.

Lemma allbases_but_constructors c b : allbases h c b = allbases h' c b.
  Proof.
    unfold allbases. rewrite size_but_constructors.
    apply allbases_go_but_constructors.
  Qed.

Lemma mro_but_constructors c e i : mro h c e i = mro h' c e i.
  Proof.
    unfold mro. rewrite allbases_but_constructors.
    destruct (getobj_but_constructors c)
      as [(ob & ob' & -> & -> & E)|(e' & -> & ->)]; [|done].
    cbn [rbind]. injection E; intros.
    by repeat match goal with H : ?f ob = ?f ob' |- _ => rewrite H; clear H end.
  Qed.

Lemma find_in_but_constructors l nm : find_in h l nm = find_in h' l nm.
  Proof.
    induction l as [|[b|x] l IH]; [done| |done]. simpl.
    destruct (getobj_but_constructors b)
      as [(ob & ob' & -> & -> & E)|(e' & -> & ->)]; [|done].
    simpl. injection E; intros.
    repeat match goal with H : ?f ob = ?f ob' |- _ => rewrite H; clear H end.
    by rewrite IH.
  Qed.

Lemma find_but_constructors c nm : find h c nm = find h' c nm.
  Proof.
    unfold find. rewrite mro_but_constructors.
    destruct (mro h' c false true); [|done]. simpl.
    apply find_in_but_constructors.
  Qed.

Lemma _find_dunder_constructor_but_constructors c :
    _find_dunder_constructor h c = _find_dunder_constructor h' c.
  Proof.
    assert (Hfun : ∀ f, match h !! f with
                        | Some ob => is_Function (py_class ob)
                        | None => false
                        end
                        = match h' !! f with
                          | Some ob => is_Function (py_class ob)
                          | None => false
                          end).
    { intros f. pose proof (lookup_but_constructors f) as Hf.
      destruct (h !! f) as [ob|], (h' !! f) as [ob'|]; try done.
      injection Hf; intros. congruence. }
    unfold _find_dunder_constructor. rewrite !find_but_constructors.
    destruct (find h' c "__new__") as [[f|]|]; simpl; [by rewrite Hfun| |done].
    destruct (find h' c "__init__") as [[f|]|]; simpl; [by rewrite Hfun|done..].
  Qed.

Lemma module_but_constructors o : module h o = module h' o.
  Proof.
    unfold module.
    destruct (getobj_but_constructors o)
      as [(ob & ob' & -> & -> & E)|(e' & -> & ->)]; [|done].
    simpl. injection E; intros.
    by repeat match goal with H : ?f ob = ?f ob' |- _ => rewrite H; clear H end.
  Qed.

Lemma expandName_part_but_constructors obj i p :
    expandName_part h obj i p = expandName_part h' obj i p.
  Proof.
    unfold expandName_part.
    rewrite _localNameToFullName_but_constructors.
    destruct (_localNameToFullName h' obj p) as [fn|]; [|done]. simpl.
    destruct (bool_decide (fn = p) && negb (i =? 0)); [|done].
    destruct (getobj_but_constructors obj)
      as [(ob & ob' & -> & -> & E)|(e' & -> & ->)]; [|done].
    simpl. injection E; intros.
    repeat match goal with H : ?f ob = ?f ob' |- _ => rewrite H; clear H end.
    rewrite find_but_constructors, (fullName_but_constructors obj).
    destruct (is_Class (py_class ob')); [|done].
    destruct (find h' obj p) as [[x|]|]; try done. simpl.
    by rewrite (fullName_but_constructors x).
  Qed.

Lemma expandName_loop_but_constructors lookup lookup' obj i parts :
    (∀ fn, lookup fn = lookup' fn) →
    expandName_loop lookup h obj i parts = expandName_loop lookup' h' obj i parts.
  Proof.
    intros Hl. revert obj i. induction parts as [|p rest IH]; intros obj i; [done|].
    simpl. rewrite expandName_part_but_constructors.
    destruct (expandName_part h' obj i p) as [[fn brk]|]; [|done]. simpl.
    destruct brk; [done|]. rewrite Hl.
    destruct (lookup' fn) as [[nxt|]|]; try done.
    destruct rest; [done|]. apply IH.
  Qed.
End reads.

Lemma objForFullName_but_constructors d s s' fn r :
  heap_agree but_constructors (objects s) (objects s') →
  allobjects s = allobjects s' →
  rootobjects s = rootobjects s' →
  objForFullName d s fn r = objForFullName d s' fn r.
Proof.
  intros Hh Ha Hr. revert fn r. induction d as [|d IH]; intros fn r; [done|].
  simpl. rewrite Ha, Hr.
  destruct (allobjects s' !! fn); [done|].
  clear Hr. generalize (rootobjects s'). intros roots.
  induction roots as [|root roots IHroots]; [done|].
  destruct (getobj_but_constructors _ _ Hh root)
    as [(ob & ob' & -> & -> & E)|(e' & -> & ->)]; [|done].
  simpl. injection E; intros.
  repeat match goal with H : ?f ob = ?f ob' |- _ => rewrite H; clear H end.
  destruct (bool_decide _); [|apply IHroots].
  destruct ((pystr.split1 fn).2); [|done].
  rewrite (expandName_loop_but_constructors _ _ Hh _
             (λ fn0, objForFullName d s' fn0 false)); [done|].
  intros fn0. apply IH.
Qed.

Lemma expandName_but_constructors d s s' ctx nm :
  heap_agree but_constructors (objects s) (objects s') →
  allobjects s = allobjects s' →
  rootobjects s = rootobjects s' →
  expandName d s ctx nm = expandName d s' ctx nm.
Proof.
  intros Hh Ha Hr. unfold expandName.
  apply expandName_loop_but_constructors; [done|].
  intros fn. by apply objForFullName_but_constructors.
Qed.

(** ** Reporting *)

Lemma reporting_only_refl s : reporting_only s s.
Proof. by destruct s. Qed.

Lemma reporting_only_trans s1 s2 s3 :
  reporting_only s1 s2 → reporting_only s2 s3 → reporting_only s1 s3.
Proof.
  unfold reporting_only. intros H12 H23.
  rewrite H23 at 1. rewrite H12 at 1. reflexivity.
Qed.

Lemma reporting_only_fields s s' :
  reporting_only s s' →
  objects s' = objects s ∧ allobjects s' = allobjects s
  ∧ modules s' = modules s ∧ rootobjects s' = rootobjects s
  ∧ unprocessed_modules s' = unprocessed_modules s
  ∧ processing_modules s' = processing_modules s
  ∧ module_count s' = module_count s
  ∧ _privacyClassCache s' = _privacyClassCache s
  ∧ options_verbosity s' = options_verbosity s
  ∧ options_privacy s' = options_privacy s.
Proof. intros ->. by split_and!. Qed.

(** [System.progress] writes to the output only: nothing is logged or
    counted, and on a stream that is no terminal, or with a verbosity
    other than 0, nothing happens at all. *)
Lemma progress_spec section i n text s :
  ∃ s', progress section i n text s = Return tt s'
        ∧ reporting_only s s'
        ∧ msg_log s' = msg_log s
        ∧ violations s' = violations s
        ∧ once_msgs s' = once_msgs s
        ∧ (stdout_isatty s = false → s' = s).
Proof.
  unfold progress.
  destruct ((options_verbosity s =? 0)%Z && stdout_isatty s)%bool eqn:Htty.
  - eexists. split; [reflexivity|]. split_and!; try done.
    intros Hno. rewrite Hno, andb_false_r in Htty. done.
  - exists s. split_and!; try done. apply reporting_only_refl.
Qed.

(** [System.msg] without [once]: the message is logged, counted as a
    violation when its threshold is negative, and printed when the
    verbosity lies between the thresholds. *)
Lemma msg_spec section text thresh s :
  ∃ s', msg section text thresh 100 false true false s = Return tt s'
        ∧ reporting_only s s'
        ∧ msg_log s' = msg_log s ++ [mkMessage section text thresh]
        ∧ violations s' = (if (thresh <? 0)%Z then S (violations s)
                           else violations s)
        ∧ stdout s' = (if ((thresh <=? options_verbosity s)%Z
                           && (options_verbosity s <=? 100)%Z)%bool
                       then printed s text else stdout s).
Proof.
  unfold msg, printed. simpl.
  destruct ((thresh <=? options_verbosity s)%Z
            && (options_verbosity s <=? 100)%Z)%bool.
  - eexists. split; [reflexivity|]. split_and!; try done.
    simpl. rewrite andb_true_r. destruct (needsnl s); simpl;
      by rewrite <- ?app_assoc.
  - eexists. split; [reflexivity|]. by split_and!.
Qed.

(** [Documentable.report] without a line offset. *)
Lemma report_spec o ob dsc descr section thresh s :
  objects s !! o = Some ob →
  description (objects s) o = Ok dsc →
  report o descr section 0 thresh s
  = msg section (report_text dsc section ob descr) thresh 100
      false true false s.
Proof.
  intros Hob Hdsc. unfold report, bind, lift, getobj, ret.
  rewrite Hob. unfold report_text, shown_lineno.
  set (n := if bool_decide (section = "docstring")
               || bool_decide (section = "resolve_identifier_xref")
            then _ else _).
  destruct (n =? 0) eqn:Hn; simpl; by rewrite Hdsc.
Qed.

(** The proofs below run the state-passing code by unfolding the monad and
    rewriting with what is known of the reads; the reads themselves stay
    folded. *)
Arguments fullName : simpl never.
Arguments _localNameToFullName : simpl never.
Arguments allbases : simpl never.
Arguments mro : simpl never.
Arguments find : simpl never.
Arguments resolveName : simpl never.
Arguments expandName : simpl never.
Arguments objForFullName : simpl never.
Arguments description : simpl never.
Arguments module : simpl never.
Arguments repr : simpl never.
Arguments free_index : simpl never.
Arguments pystr.str_of_nat : simpl never.

(** ** Strings *)

Lemma str_cons_app x (a b : string) : String x a +:+ b = String x (a +:+ b).
Proof. reflexivity. Qed.

Lemma str_nil_app (b : string) : "" +:+ b = b.
Proof. reflexivity. Qed.

Lemma str_app_assoc (a b c : string) : (a +:+ b) +:+ c = a +:+ (b +:+ c).
Proof.
  induction a as [|x a IH]; [done|]. rewrite !str_cons_app. by f_equal.
Qed.

Lemma str_app_nil_r (a : string) : a +:+ "" = a.
Proof.
  induction a as [|x a IH]; [done|]. rewrite str_cons_app. by f_equal.
Qed.

Lemma str_app_length (a b : string) :
  String.length (a +:+ b) = String.length a + String.length b.
Proof.
  induction a as [|x a IH]; [done|]. rewrite str_cons_app. simpl. by f_equal.
Qed.

Lemma str_app_inv_head (a b c : string) : a +:+ b = a +:+ c → b = c.
Proof.
  induction a as [|x a IH]; [done|]. rewrite !str_cons_app.
  intros [= H]. auto.
Qed.

Lemma str_app_ne_longer (a b : string) : b ≠ "" → a ≠ a +:+ b.
Proof.
  intros Hb E. apply (f_equal String.length) in E.
  rewrite str_app_length in E. destruct b; [done|]. simpl in E. lia.
Qed.

Lemma dotfree_app (a b : string) :
  pystr.dotfree (a +:+ b) = pystr.dotfree a && pystr.dotfree b.
Proof.
  induction a as [|x a IH]; [done|]. rewrite str_cons_app. simpl.
  rewrite IH. by rewrite andb_assoc.
Qed.

Lemma dotfree_dotted_cons (a b : string) :
  pystr.dotfree (a +:+ String "." b) = false.
Proof. rewrite dotfree_app. simpl. by rewrite andb_false_r. Qed.

Lemma dotfree_dotted (a b : string) : pystr.dotfree (a +:+ "." +:+ b) = false.
Proof. apply dotfree_dotted_cons. Qed.

(** The text after the last dot determines the text before it. *)
Lemma last_component_inj (x y n m : string) :
  pystr.dotfree n = true → pystr.dotfree m = true →
  x +:+ "." +:+ n = y +:+ "." +:+ m → x = y ∧ n = m.
Proof.
  intros Hn Hm. revert y. induction x as [|c x IH]; intros [|c' y];
    rewrite ?str_cons_app, ?str_nil_app.
  - by intros [= ->].
  - intros [= <- ->]. by rewrite (dotfree_dotted_cons y m) in Hn.
  - intros [= -> <-]. by rewrite (dotfree_dotted_cons x n) in Hm.
  - intros [= -> E]. destruct (IH y E) as [-> ->]. done.
Qed.

Lemma dotfree_not_dotted (n y m : string) :
  pystr.dotfree n = true → n ≠ y +:+ "." +:+ m.
Proof. intros Hn ->. by rewrite dotfree_dotted in Hn. Qed.

(** ** Full names *)

Lemma fullName_go_mono n m h o k :
  fullName_go n h o = Ok k → n ≤ m → fullName_go m h o = Ok k.
Proof.
  revert m o k. induction n as [|n IH]; intros m o k; [done|].
  intros H Hle. destruct m as [|m]; [lia|]. simpl in *.
  destruct (getobj h o) as [ob|]; [|done]. simpl in *.
  destruct (parent ob) as [p|]; [|done].
  destruct (fullName_go n h p) as [kp|] eqn:Hp; [|done].
  by rewrite (IH m p kp Hp) by lia.
Qed.

Lemma fullName_go_det n m h o k k' :
  fullName_go n h o = Ok k → fullName_go m h o = Ok k' → k = k'.
Proof.
  intros H1 H2.
  pose proof (fullName_go_mono n (n `max` m) h o k H1 ltac:(lia)) as E1.
  pose proof (fullName_go_mono m (n `max` m) h o k' H2 ltac:(lia)) as E2.
  congruence.
Qed.

Lemma fullName_go_inv n h o k :
  fullName_go (S n) h o = Ok k →
  ∃ ob, h !! o = Some ob
        ∧ match parent ob with
          | None => k = name ob
          | Some p => ∃ kp, fullName_go n h p = Ok kp
                            ∧ k = kp +:+ "." +:+ name ob
          end.
Proof.
  simpl. unfold getobj. destruct (h !! o) as [ob|]; [|done]. simpl.
  intros H. exists ob. split; [done|].
  destruct (parent ob) as [p|]; [|by injection H].
  destruct (fullName_go n h p) as [kp|]; [|done].
  exists kp. split; [done|]. by injection H.
Qed.

Lemma fullName_inv h o k :
  fullName h o = Ok k →
  ∃ ob, h !! o = Some ob
        ∧ match parent ob with
          | None => k = name ob
          | Some p => ∃ kp, fullName h p = Ok kp
                            ∧ k = kp +:+ "." +:+ name ob
          end.
Proof.
  intros H. destruct (fullName_go_inv _ _ _ _ H) as (ob & Hob & Hp).
  exists ob. split; [done|].
  destruct (parent ob) as [p|]; [|done].
  destruct Hp as (kp & Hkp & ->). exists kp. split; [|done].
  unfold fullName. eapply fullName_go_mono; [exact Hkp|lia].
Qed.

(** Changing an object that is not on the way up from [o] leaves the full
    name of [o] alone. Objects on the way up have shorter full names. *)
Lemma fullName_go_alter_off_chain n h x g o k :
  fullName_go n h o = Ok k →
  (∀ m kx, fullName_go m h x = Ok kx → String.length k < String.length kx) →
  fullName_go n (alter g x h) o = Ok k.
Proof.
  revert o k. induction n as [|n IH]; intros o k H Hx; [done|].
  assert (o ≠ x) as Hne.
  { intros ->. specialize (Hx _ _ H). lia. }
  destruct (fullName_go_inv _ _ _ _ H) as (ob & Hob & Hp).
  simpl. unfold getobj. rewrite lookup_alter_ne by done. rewrite Hob. simpl.
  destruct (parent ob) as [p|]; [|by subst].
  destruct Hp as (kp & Hkp & ->).
  rewrite (IH p kp Hkp); [done|].
  intros m kx Hm. specialize (Hx m kx Hm).
  rewrite !str_app_length in Hx. lia.
Qed.

(** Whether a full name can be computed depends on the parents only. *)
Lemma fullName_go_shape n h h' o :
  heap_agree parent h h' →
  is_ok (fullName_go n h o) = is_ok (fullName_go n h' o).
Proof.
  intros H. revert o. induction n as [|n IH]; intros o; [done|]. simpl.
  pose proof (heap_agree_getobj parent h h' o H) as Ho.
  destruct (getobj h o) as [ob|], (getobj h' o) as [ob'|]; try done. simpl.
  rewrite Ho. destruct (parent ob') as [p|]; [|done].
  specialize (IH p).
  by destruct (fullName_go n h p), (fullName_go n h' p).
Qed.

(** In a set of objects that holds the parent of each of its members but
    [root], every full name starts with the full name of [root]. *)
Lemma fullName_go_under n h (L : list oid) root kroot o k :
  (∀ x, x ∈ L → x ≠ root →
     ∃ xob q, h !! x = Some xob ∧ parent xob = Some q ∧ q ∈ L) →
  fullName h root = Ok kroot →
  o ∈ L →
  fullName_go n h o = Ok k →
  (o = root ∧ k = kroot) ∨ (o ≠ root ∧ ∃ sfx, k = kroot +:+ "." +:+ sfx).
Proof.
  intros Hclosed Hroot. revert o k.
  induction n as [|n IH]; intros o k Ho Hk; [done|].
  destruct (decide (o = root)) as [->|Hne].
  - left. split; [done|]. by eapply fullName_go_det.
  - right. split; [done|].
    destruct (Hclosed o Ho Hne) as (xob & q & Hob & Hq & HqL).
    destruct (fullName_go_inv _ _ _ _ Hk) as (ob & Hob' & Hp).
    rewrite Hob in Hob'. injection Hob' as <-. rewrite Hq in Hp.
    destruct Hp as (kp & Hkp & ->).
    destruct (IH q kp HqL Hkp) as [[-> ->]|[_ [sfx ->]]].
    + by exists (name xob).
    + exists (sfx +:+ "." +:+ name xob). by rewrite !str_app_assoc.
Qed.

(** ** Walking a subtree *)

Lemma for_each_ext {A} (f g : A → M unit) l s :
  (∀ x s, f x s = g x s) → for_each f l s = for_each g l s.
Proof.
  intros H. revert s. induction l as [|x l IH]; intros s; [done|].
  simpl. unfold bind. rewrite H. destruct (g x s); [apply IH|done].
Qed.

Lemma _remove_go_walk n o s :
  _remove_go n o s = walk_go (λ fn _, del_allobjects fn) n o s.
Proof.
  revert o s. induction n as [|n IH]; intros o s; [done|].
  simpl. unfold bind.
  destruct (lift _ s) as [fn s1|]; [|done].
  destruct (del_allobjects fn s1) as [[] s2|]; [|done].
  destruct (lift _ s2) as [ob s3|]; [|done].
  by apply for_each_ext.
Qed.

Lemma _handle_reparenting_pre_go_walk n o s :
  _handle_reparenting_pre_go n o s = walk_go (λ fn _, del_allobjects fn) n o s.
Proof.
  revert o s. induction n as [|n IH]; intros o s; [done|].
  simpl. unfold bind.
  destruct (lift _ s) as [fn s1|]; [|done].
  destruct (del_allobjects fn s1) as [[] s2|]; [|done].
  destruct (lift _ s2) as [ob s3|]; [|done].
  by apply for_each_ext.
Qed.

Lemma readd_go_walk n o s :
  readd_go n o s = walk_go set_allobject n o s.
Proof.
  revert o s. induction n as [|n IH]; intros o s; [done|].
  simpl. unfold bind.
  destruct (lift _ s) as [fn s1|]; [|done].
  destruct (set_allobject fn o s1) as [[] s2|]; [|done].
  destruct (lift _ s2) as [ob s3|]; [|done].
  by apply for_each_ext.
Qed.

Lemma _handle_reparenting_post_go_walk n o s :
  _handle_reparenting_post_go n o s = walk_go set_allobject n o s.
Proof.
  revert o s. induction n as [|n IH]; intros o s; [done|].
  simpl. unfold bind.
  destruct (lift _ s) as [fn s1|]; [|done].
  destruct (set_allobject fn o s1) as [[] s2|]; [|done].
  destruct (lift _ s2) as [ob s3|]; [|done].
  by apply for_each_ext.
Qed.

Section runs.
Variable act : string → oid → M unit.

Lemma runs_objects l s s' : runs act l s s' → objects s' = objects s.
Proof. induction 1 as [|o l s s1 s2 fn _ _ H1 _ IH]; [done|]. congruence. Qed.

Lemma runs_app_inv l1 l2 s s' :
  runs act (l1 ++ l2) s s' → ∃ sm, runs act l1 s sm ∧ runs act l2 sm s'.
Proof.
  revert s. induction l1 as [|o l1 IH]; intros s H.
  - exists s. split; [constructor|done].
  - inversion H as [|? ? ? s1 ? fn Hfn Hact Hobj Hrest]; subst.
    destruct (IH s1 Hrest) as (sm & H1 & H2).
    exists sm. split; [|done]. by econstructor.
Qed.

Lemma runs_app l1 l2 s sm s' :
  runs act l1 s sm → runs act l2 sm s' → runs act (l1 ++ l2) s s'.
Proof.
  induction 1 as [|o l s s1 s2 fn Hfn Hact Hobj _ IH]; [done|].
  intros H2. simpl. econstructor; eauto.
Qed.

(** A walk does to the subtree what [runs] does to the list of its
    members. *)
Lemma walk_go_run n o s L s' :
  descendants_go n (objects s) o = Ok L →
  runs act L s s' →
  walk_go act n o s = Return tt s'.
Proof.
  revert o s L s'. induction n as [|n IH]; intros o s L s' HL Hruns; [done|].
  simpl in HL. unfold getobj in HL.
  destruct (objects s !! o) as [ob|] eqn:Hob; [|done]. simpl in HL.
  destruct (rmapM (descendants_go n (objects s)) (pydict.values (contents ob)))
    as [ls|] eqn:Hls; [|done].
  simpl in HL. injection HL as <-.
  inversion Hruns as [|? ? ? s1 ? fn Hfn Hact Hobj Hrest]; subst.
  simpl. unfold bind, lift. rewrite Hfn, Hact.
  unfold getobj. rewrite Hobj, Hob.
  rewrite <- Hobj in Hls. clear Hfn Hact Hob Hruns Hobj.
  revert ls s1 Hls Hrest.
  induction (pydict.values (contents ob)) as [|c cs IHcs];
    intros ls s1 Hls Hrest.
  - simpl in Hls. injection Hls as <-. simpl in Hrest.
    by inversion Hrest.
  - simpl in Hls.
    destruct (descendants_go n (objects s1) c) as [l1|] eqn:Hl1; [|done].
    simpl in Hls.
    destruct (rmapM (descendants_go n (objects s1)) cs) as [ls'|] eqn:Hls';
      [|done].
    simpl in Hls. injection Hls as <-. simpl in Hrest.
    destruct (runs_app_inv _ _ _ _ Hrest) as (sm & H1 & H2).
    simpl. unfold bind. rewrite (IH c s1 l1 sm Hl1 H1).
    apply (IHcs ls' sm); [|done].
    by rewrite (runs_objects _ _ _ H1).
Qed.
End runs.

Lemma index_only_refl s : index_only s s.
Proof. by destruct s. Qed.

Lemma index_only_trans s1 s2 s3 :
  index_only s1 s2 → index_only s2 s3 → index_only s1 s3.
Proof.
  unfold index_only. intros H12 H23. rewrite H23 at 1. rewrite H12 at 1.
  reflexivity.
Qed.

Lemma index_only_objects s s' : index_only s s' → objects s' = objects s.
Proof. by intros ->. Qed.

(** Whether some member of a list has a given full name can be decided. *)
Lemma classic_in (L : list oid) (s : System) (k : string) :
  (∃ y, y ∈ L ∧ fullName (objects s) y = Ok k)
  ∨ (∀ y, y ∈ L → fullName (objects s) y ≠ Ok k).
Proof.
  induction L as [|o L [(y & Hy & Hk)|IH]].
  - right. intros y Hy. by apply elem_of_nil in Hy.
  - left. exists y. split; [by right|done].
  - destruct (fullName (objects s) o) as [ko|e] eqn:Ho.
    + destruct (decide (ko = k)) as [->|Hne].
      * left. exists o. split; [by left|done].
      * right. intros y Hy. apply elem_of_cons in Hy as [->|Hy]; [|by apply IH].
        rewrite Ho. congruence.
    + right. intros y Hy. apply elem_of_cons in Hy as [->|Hy]; [|by apply IH].
      by rewrite Ho.
Qed.

(** Deleting the full names of a list of different objects, each of them
    indexed, takes exactly these names out of the index. *)
Lemma del_runs L s :
  NoDup L → indexed s L →
  ∃ s', runs (λ fn _, del_allobjects fn) L s s'
        ∧ index_only s s'
        ∧ (∀ k x, x ∈ L → fullName (objects s) x = Ok k →
             allobjects s' !! k = None)
        ∧ (∀ k, (∀ x, x ∈ L → fullName (objects s) x ≠ Ok k) →
             allobjects s' !! k = allobjects s !! k).
Proof.
  revert s. induction L as [|o L IH]; intros s Hnd Hidx.
  - exists s. split; [constructor|]. split; [apply index_only_refl|].
    split; [|done]. intros k x Hx. by apply elem_of_nil in Hx.
  - apply NoDup_cons in Hnd as [Ho HndL].
    destruct (Hidx o) as (ko & Hko & Hlook); [by left|].
    set (s1 := set_allobjects (delete ko (allobjects s)) s).
    assert (Hdel : del_allobjects ko s = Return tt s1).
    { unfold del_allobjects. by rewrite Hlook. }
    assert (Hidx1 : indexed s1 L).
    { intros x Hx. destruct (Hidx x) as (k & Hk & Hkx); [by right|].
      exists k. split; [done|]. simpl.
      rewrite lookup_delete_ne; [done|].
      intros ->. rewrite Hlook in Hkx. injection Hkx as ->. done. }
    destruct (IH s1 HndL Hidx1) as (s' & Hruns & Honly & Hin & Hout).
    exists s'. split; [by econstructor|]. split; [|split].
    + eapply index_only_trans; [|exact Honly].
      unfold index_only, s1. by destruct s.
    + intros k x Hx Hk.
      apply elem_of_cons in Hx as [->|Hx]; [|by apply (Hin k x)].
      assert (k = ko) as -> by congruence.
      destruct (classic_in L s ko) as [(y & Hy & Hky)|Hno].
      * by apply (Hin ko y).
      * rewrite Hout by done. simpl. apply lookup_delete_eq.
    + intros k Hno. rewrite Hout.
      * simpl. apply lookup_delete_ne. intros ->. by apply (Hno o); [left|].
      * intros x Hx. apply Hno. by right.
Qed.

(** Setting the index at the full names of a list of objects leaves the
    other names alone and, where a name belongs to one member only, ends
    with this member under it. *)
Lemma ins_runs L s :
  (∀ x, x ∈ L → ∃ k, fullName (objects s) x = Ok k) →
  ∃ s', runs set_allobject L s s'
        ∧ index_only s s'
        ∧ (∀ k, (∀ x, x ∈ L → fullName (objects s) x ≠ Ok k) →
             allobjects s' !! k = allobjects s !! k)
        ∧ (∀ x k, x ∈ L → fullName (objects s) x = Ok k →
             (∀ y, y ∈ L → fullName (objects s) y = Ok k → y = x) →
             allobjects s' !! k = Some x).
Proof.
  revert s. induction L as [|o L IH]; intros s Hnames.
  - exists s. split; [constructor|]. split; [apply index_only_refl|].
    split; [done|]. intros x k Hx. by apply elem_of_nil in Hx.
  - destruct (Hnames o) as (ko & Hko); [by left|].
    set (s1 := set_allobjects (<[ko := o]> (allobjects s)) s).
    assert (Hset : set_allobject ko o s = Return tt s1) by done.
    destruct (IH s1) as (s' & Hruns & Honly & Hout & Hin).
    { intros x Hx. apply Hnames. by right. }
    exists s'. split; [by econstructor|]. split; [|split].
    + eapply index_only_trans; [|exact Honly].
      unfold index_only, s1. by destruct s.
    + intros k Hno. rewrite Hout.
      * simpl. apply lookup_insert_ne. intros ->. by apply (Hno o); [left|].
      * intros x Hx. apply Hno. by right.
    + intros x k Hx Hk Huniq.
      destruct (classic_in L s k) as [(y & Hy & Hky)|Hno].
      * assert (y = x) as -> by (apply Huniq; [by right|done]).
        apply (Hin x k Hy Hk). intros z Hz Hkz. apply Huniq; [by right|done].
      * apply elem_of_cons in Hx as [->|Hx]; [|by destruct (Hno x Hx)].
        rewrite Hout by done. simpl.
        assert (k = ko) as -> by congruence.
        apply lookup_insert_eq.
Qed.

(** ** The free index of a duplicate *)

Lemma dup_key_inj full i j : dup_key full i = dup_key full j → i = j.
Proof.
  unfold dup_key, pystr.str_of_nat. intros E.
  apply str_app_inv_head in E. rewrite !str_cons_app, !str_nil_app in E.
  injection E as E. by apply (inj pretty) in E.
Qed.

Lemma dup_key_longer full i : dup_key full i ≠ full.
Proof.
  unfold dup_key. intros E. symmetry in E. revert E.
  apply str_app_ne_longer. by rewrite str_cons_app.
Qed.

Lemma free_index_exists (all : gmap string oid) full :
  ∃ j, j < S (size all) ∧ all !! dup_key full j = None.
Proof.
  set (l := seq 0 (S (size all))).
  destruct (decide (Exists (λ j, all !! dup_key full j = None) l))
    as [Hex|Hno].
  - apply Exists_exists in Hex as (j & Hj & Hfree).
    exists j. split; [|done]. apply elem_of_seq in Hj. lia.
  - exfalso. apply not_Exists_Forall in Hno; [|apply _].
    assert (Hsub : (list_to_set (map (dup_key full) l) : gset string)
                   ⊆ dom all).
    { intros k Hk. apply elem_of_list_to_set, list_elem_of_fmap in Hk
        as (j & -> & Hj).
      rewrite Forall_forall in Hno. specialize (Hno j Hj). simpl in Hno.
      apply elem_of_dom. by destruct (all !! dup_key full j). }
    apply subseteq_size in Hsub.
    rewrite size_list_to_set, size_dom in Hsub.
    + rewrite length_map in Hsub. unfold l in Hsub.
      rewrite length_seq in Hsub. lia.
    + apply NoDup_fmap_2; [|apply NoDup_seq].
      intros i j. apply dup_key_inj.
Qed.

Lemma free_index_go_spec n (all : gmap string oid) full i :
  (∃ j, i ≤ j < i + n ∧ all !! dup_key full j = None) →
  all !! dup_key full (free_index_go n all full i) = None
  ∧ ∀ j, i ≤ j < free_index_go n all full i →
         is_Some (all !! dup_key full j).
Proof.
  revert i. induction n as [|n IH]; intros i (j & Hj & Hfree); [lia|].
  simpl. destruct (all !! dup_key full i) as [x|] eqn:Hi.
  - destruct (IH (S i)) as [Hr Hbelow].
    { exists j. split; [|done].
      assert (j ≠ i) by (intros ->; congruence). lia. }
    split; [done|]. intros j' Hj'.
    destruct (decide (j' = i)) as [->|Hne]; [by rewrite Hi|].
    apply Hbelow. lia.
  - split; [done|]. intros j' Hj'. lia.
Qed.

Lemma free_index_spec (all : gmap string oid) full :
  all !! dup_key full (free_index all full) = None
  ∧ ∀ j, j < free_index all full → is_Some (all !! dup_key full j).
Proof.
  unfold free_index.
  destruct (free_index_go_spec (S (size all)) all full 0) as [H1 H2].
  - destruct (free_index_exists all full) as (j & Hj & Hfree).
    exists j. split; [lia|done].
  - split; [done|]. intros j Hj. apply H2. lia.
Qed.



(** ** Privacy *)

Section privacy_facts.
Variable qnmatch : string → string → bool.

Lemma find_rev_last {A} (P : A → bool) (l1 l2 : list A) (x : A) :
    P x = true →
    (∀ y, y ∈ l2 → P y = false) →
    List.find P (rev (l1 ++ x :: l2)) = Some x.
  Proof.
    intros Hx Hl2. rewrite rev_app_distr. simpl rev.
    induction l2 as [|y l2 IH] using rev_ind; simpl.
    - by rewrite Hx.
    - rewrite rev_app_distr. simpl.
      rewrite (Hl2 y) by (apply elem_of_app; right; apply list_elem_of_singleton; done).
      apply IH. intros z Hz. apply Hl2, elem_of_app. by left.
  Qed.

Lemma find_none_all {A} (P : A → bool) (l : list A) :
    (∀ y, y ∈ l → P y = false) → List.find P (rev l) = None.
  Proof.
    intros H. induction l as [|y l IH] using rev_ind; [done|].
    rewrite rev_app_distr. simpl.
    rewrite (H y) by (apply elem_of_app; right; apply list_elem_of_singleton; done).
    apply IH. intros z Hz. apply H, elem_of_app. by left.
  Qed.

  (** What [System.privacyClass] answers on a cache miss, in terms of the
      two searches. *)
Lemma System_privacyClass_miss s ob o fn k :
    objects s !! ob = Some o →
    fullName (objects s) ob = Ok fn →
    _privacyClassCache s !! fn = None →
    kind o = Some k →
    ∀ p,
      p = match last_exact_match (options_privacy s) fn with
          | Some priv => priv
          | None =>
              match last_qnmatch qnmatch (options_privacy s) fn with
              | Some priv => priv
              | None =>
                  if pystr.startswith (name o) "_"
                     && negb (pystr.startswith (name o) "__"
                              && pystr.endswith (name o) "__")
                  then PRIVATE else PUBLIC
              end
          end →
      System_privacyClass qnmatch ob s
      = Return p (set_privacyClassCache (<[fn := p]> (_privacyClassCache s)) s).
  Proof.
    intros Hob Hfn Hmiss Hk p ->.
    unfold System_privacyClass, bind, lift, getobj, ret, modify.
    rewrite Hfn. simpl. rewrite Hmiss, Hob, Hk. reflexivity.
  Qed.
End privacy_facts.

(** C10: a module whose local name is [__main__] is PRIVATE, whatever the
    rules, the matcher and the cache say, and asking leaves the system as
    it was. *)
Theorem C10_main_module_private
    (qnmatch : string → string → bool) (s : System) (ob : oid)
    (o : Documentable) :
  objects s !! ob = Some o →
  is_Module (py_class o) = true →
  name o = "__main__" →
  privacyClass qnmatch ob s = Return PRIVATE s.
Proof.
  intros Hob Hmod Hname.
  unfold privacyClass, bind, lift, getobj, ret.
  rewrite Hob, Hmod, Hname. reflexivity.
Qed.

Lemma C10_main_module_private_witness :
  privacyClass qnmatch_glob 5 main_public_sys = Return PRIVATE main_public_sys.
Proof.
  apply (C10_main_module_private qnmatch_glob main_public_sys 5
           (mk_doc ModuleT "__main__" (Some 0) None MODULE [])).
  - vm_compute. reflexivity.
  - reflexivity.
  - reflexivity.
Defined.

(** C9, as stated, fails for [pkg.mod._impl.other]: no rule names it, the
    pattern [*._impl] does not cover the whole name, and [other] has no
    leading underscore, so it is PUBLIC. *)
Lemma C9_counterexample :
  result (privacyClass qnmatch_glob 4 privacy_sys) = Some PUBLIC
  ∧ result (privacyClass qnmatch_glob 4 privacy_sys) ≠ Some PRIVATE.
Proof. split; [vm_compute; reflexivity | vm_compute; discriminate]. Qed.

(** C9, amended: on a cache miss an object with a kind gets the class of
    the last rule whose pattern is its full name; without such a rule, of
    the last rule whose pattern matches its full name; without any, PRIVATE
    if its name starts with an underscore and is not a dunder, PUBLIC
    otherwise. With the rules [(PRIVATE, "*._impl")] and
    [(PUBLIC, "pkg.mod._impl.thing")], [pkg.mod._impl.thing] is PUBLIC
    and so is [pkg.mod._impl.other], while [pkg.mod._impl] is PRIVATE. *)
Theorem C9_privacy_precedence
    (qnmatch : string → string → bool) (s : System) (ob : oid)
    (o : Documentable) (fn : string) (k : DocumentableKind) :
  objects s !! ob = Some o →
  fullName (objects s) ob = Ok fn →
  _privacyClassCache s !! fn = None →
  kind o = Some k →
  (∀ l1 l2 priv,
     options_privacy s = l1 ++ (priv, fn) :: l2 →
     (∀ r, r ∈ l2 → r.2 ≠ fn) →
     result (System_privacyClass qnmatch ob s) = Some priv)
  ∧ (∀ l1 l2 priv pat,
       (∀ r, r ∈ options_privacy s → r.2 ≠ fn) →
       options_privacy s = l1 ++ (priv, pat) :: l2 →
       qnmatch fn pat = true →
       (∀ r, r ∈ l2 → qnmatch fn r.2 = false) →
       result (System_privacyClass qnmatch ob s) = Some priv)
  ∧ ((∀ r, r ∈ options_privacy s → r.2 ≠ fn ∧ qnmatch fn r.2 = false) →
     result (System_privacyClass qnmatch ob s)
     = Some (if pystr.startswith (name o) "_"
                && negb (pystr.startswith (name o) "__"
                         && pystr.endswith (name o) "__")
             then PRIVATE else PUBLIC))
  ∧ result (privacyClass qnmatch_glob 3 privacy_sys) = Some PUBLIC
  ∧ result (privacyClass qnmatch_glob 4 privacy_sys) = Some PUBLIC
  ∧ result (privacyClass qnmatch_glob 2 privacy_sys) = Some PRIVATE.
Proof.
  intros Hob Hfn Hmiss Hk.
  pose proof (System_privacyClass_miss qnmatch s ob o fn k Hob Hfn Hmiss Hk)
    as Hrun.
  assert (Hexact_none : (∀ r, r ∈ options_privacy s → r.2 ≠ fn) →
            last_exact_match (options_privacy s) fn = None).
  { intros Hno. unfold last_exact_match.
    rewrite find_none_all; [done|].
    intros y Hy. apply bool_decide_eq_false. intros E. by apply (Hno y Hy). }
  split_and!.
  - intros l1 l2 priv Hrules Hl2.
    erewrite Hrun; [reflexivity|].
    unfold last_exact_match. rewrite Hrules.
    rewrite (find_rev_last _ l1 l2 (priv, fn)); [done | | ].
    + by apply bool_decide_eq_true.
    + intros y Hy. apply bool_decide_eq_false. intros E.
      by apply (Hl2 y Hy).
  - intros l1 l2 priv pat Hno Hrules Hmatch Hl2.
    erewrite Hrun; [reflexivity|].
    rewrite (Hexact_none Hno).
    unfold last_qnmatch. rewrite Hrules.
    by rewrite (find_rev_last _ l1 l2 (priv, pat)).
  - intros Hno.
    erewrite Hrun; [reflexivity|].
    rewrite Hexact_none by (intros r Hr; apply (Hno r Hr)).
    unfold last_qnmatch.
    rewrite find_none_all; [done|].
    intros y Hy. apply (Hno y Hy).
  - vm_compute. reflexivity.
  - vm_compute. reflexivity.
  - vm_compute. reflexivity.
Qed.

Lemma C9_privacy_precedence_witness :
  result (System_privacyClass qnmatch_glob 3 privacy_sys) = Some PUBLIC.
Proof.
  assert (Hob : objects privacy_sys !! 3
                = Some (mk_doc FunctionT "thing" (Some 2) (Some 2) FUNCTION []))
    by (vm_compute; reflexivity).
  assert (Hfn : fullName (objects privacy_sys) 3 = Ok "pkg.mod._impl.thing")
    by (vm_compute; reflexivity).
  assert (Hmiss : _privacyClassCache privacy_sys !! "pkg.mod._impl.thing" = None)
    by (vm_compute; reflexivity).
  destruct (C9_privacy_precedence qnmatch_glob privacy_sys 3 _
              "pkg.mod._impl.thing" FUNCTION Hob Hfn Hmiss eq_refl)
    as [Hexact _].
  apply (Hexact [(PRIVATE, "*._impl")] [] PUBLIC).
  - reflexivity.
  - intros r Hr. by apply elem_of_nil in Hr.
Defined.

(** ** Annotation rewriting *)

Section annotation_facts.
Import ast astutils.
Variable expand : string → string.

Lemma unsnoc_snoc {A} (l : list A) (x : A) : unsnoc (l ++ [x]) = Some (l, x).
  Proof. induction l as [|y l IH]; simpl; [done|]. by rewrite IH. Qed.

Lemma bitor_go_snoc n (a b : expr) (rest : list expr) :
    length rest < n →
    _union_args_to_bitor_go n (a :: b :: rest) = Ok (bitor_chain a (b :: rest)).
  Proof.
    revert n. induction rest as [|c rest IH] using rev_ind; intros n Hn.
    - destruct n; [lia|]. reflexivity.
    - rewrite length_app in Hn. simpl in Hn.
      destruct n as [|n]; [lia|].
      cbn [_union_args_to_bitor_go].
      replace (a :: b :: rest ++ [c]) with ((a :: b :: rest) ++ [c]) by done.
      rewrite unsnoc_snoc.
      rewrite length_app. simpl length.
      replace (1 <? S (S (length rest)) + 1) with true
        by (symmetry; apply Nat.ltb_lt; lia).
      simpl negb. cbv iota.
      replace (S (S (length rest)) =? 1) with false
        by (symmetry; apply Nat.eqb_neq; lia).
      rewrite IH by lia. simpl.
      unfold bitor_chain.
      replace (b :: rest ++ [c]) with ((b :: rest) ++ [c]) by done.
      by rewrite foldl_app.
  Qed.

Lemma union_args_chain (a b : expr) (rest : list expr) :
    _union_args_to_bitor (a :: b :: rest) = Ok (bitor_chain a (b :: rest)).
  Proof. unfold _union_args_to_bitor. apply bitor_go_snoc. simpl. lia. Qed.

Lemma visit_Tuple elts :
    visit expand (Tuple elts)
    = rbind (rmapM (visit expand) elts) (λ elts', Ok (Tuple elts')).
  Proof.
    simpl. f_equal.
    induction elts as [|x xs IH]; [done|].
    simpl. destruct (visit expand x); [|done]. simpl.
    by rewrite IH.
  Qed.

Lemma visit_List elts :
    visit expand (List elts)
    = rbind (rmapM (visit expand) elts) (λ elts', Ok (List elts')).
  Proof.
    simpl. f_equal.
    induction elts as [|x xs IH]; [done|].
    simpl. destruct (visit expand x); [|done]. simpl.
    by rewrite IH.
  Qed.

Lemma rmapM_Forall2 {A B} (f : A → res B) l l' :
    Forall2 (λ x x', f x = Ok x') l l' → rmapM f l = Ok l'.
  Proof.
    induction 1 as [|x x' l l' Hx _ IH]; [done|].
    simpl. by rewrite Hx, IH.
  Qed.

Lemma rmapM_total {A B} (f : A → res B) l :
    Forall (λ x, ∃ y, f x = Ok y) l → ∃ l', rmapM f l = Ok l'.
  Proof.
    induction 1 as [|x l [y Hy] _ [l' IH]]; [by exists []|].
    exists (y :: l'). simpl. by rewrite Hy, IH.
  Qed.

Lemma rmapM_length {A B} (f : A → res B) l l' :
    rmapM f l = Ok l' → length l' = length l.
  Proof.
    revert l'. induction l as [|x l IH]; intros l'; simpl.
    - by intros [= <-].
    - destruct (f x); [|done]. simpl.
      destruct (rmapM f l) as [r|]; [|done]. simpl.
      intros [= <-]. simpl. by rewrite (IH r).
  Qed.

  (** Induction on expressions that reaches the elements of tuples and
      lists. *)
Lemma expr_nested_ind (P : expr → Prop) :
    (∀ id, P (Name id)) →
    (∀ v a, P v → P (Attribute v a)) →
    (∀ v s, P v → P s → P (Subscript v s)) →
    (∀ elts, Forall P elts → P (Tuple elts)) →
    (∀ elts, Forall P elts → P (List elts)) →
    (∀ c, P (Constant c)) →
    (∀ l op r, P l → P r → P (BinOp l op r)) →
    ∀ e, P e.
  Proof.
    intros HN HA HS HT HL HC HB.
    fix IH 1. intros [id|v a|v s|elts|elts|c|l op r].
    - apply HN.
    - apply HA, IH.
    - apply HS; apply IH.
    - apply HT. induction elts as [|x xs IHxs]; constructor; [apply IH|apply IHxs].
    - apply HL. induction elts as [|x xs IHxs]; constructor; [apply IH|apply IHxs].
    - apply HC.
    - apply HB; apply IH.
  Qed.

Lemma visit_Subscript_post_total value slice :
    ∃ e, visit_Subscript_post expand value slice = Ok e.
  Proof.
    unfold visit_Subscript_post.
    case_bool_decide.
    - destruct slice as [| | |args| | |]; simpl; eauto.
      destruct args as [|a [|b rest]]; simpl; eauto.
      rewrite union_args_chain. eauto.
    - case_bool_decide; [|eauto].
      destruct (is_annotation_node slice); eauto.
  Qed.

Lemma visit_total e : ∃ e', visit expand e = Ok e'.
  Proof.
    induction e as [id|v a IHv|v s [v' Hv] [s' Hs]|elts IH|elts IH|c|l op r [l' Hl] [r' Hr]]
      using expr_nested_ind.
    - simpl. eauto.
    - simpl. eauto.
    - simpl. rewrite Hv, Hs. simpl. apply visit_Subscript_post_total.
    - rewrite visit_Tuple. destruct (rmapM_total _ _ IH) as [l' ->]. simpl. eauto.
    - rewrite visit_List. destruct (rmapM_total _ _ IH) as [l' ->]. simpl. eauto.
    - simpl. eauto.
    - simpl. rewrite Hl, Hr. simpl. eauto.
  Qed.

Hypothesis expand_Union : expand "Union" = "typing.Union".
Hypothesis expand_Optional : expand "Optional" = "typing.Optional".

Lemma visit_Name_Union : visit expand (Name "Union") = Ok (Name "Union").
  Proof.
    simpl. unfold visit_Name, _node2fullname. simpl.
    by rewrite expand_Union.
  Qed.

Lemma visit_Name_Optional : visit expand (Name "Optional") = Ok (Name "Optional").
  Proof.
    simpl. unfold visit_Name, _node2fullname. simpl.
    by rewrite expand_Optional.
  Qed.

Lemma visit_Union_args a b rest a' b' rest' :
    visit expand a = Ok a' → visit expand b = Ok b' →
    Forall2 (λ x x', visit expand x = Ok x') rest rest' →
    visit expand (Subscript (Name "Union") (Tuple (a :: b :: rest)))
    = Ok (bitor_chain a' (b' :: rest')).
  Proof.
    intros Ha Hb Hrest.
    change (visit expand (Subscript (Name "Union") (Tuple (a :: b :: rest))))
      with (rbind (visit expand (Name "Union")) (λ value',
              rbind (visit expand (Tuple (a :: b :: rest))) (λ slice',
                visit_Subscript_post expand value' slice'))).
    rewrite visit_Name_Union, visit_Tuple. simpl rbind at 1.
    simpl rmapM. rewrite Ha, Hb. simpl.
    rewrite (rmapM_Forall2 _ _ _ Hrest). simpl.
    unfold visit_Subscript_post, _node2fullname. simpl.
    rewrite expand_Union. simpl.
    apply union_args_chain.
  Qed.

Lemma visit_Optional_arg X X' :
    visit expand X = Ok X' → is_annotation_node X' = true →
    visit expand (Subscript (Name "Optional") X)
    = Ok (BinOp X' BitOr (Constant CNone)).
  Proof.
    intros HX Hann.
    change (visit expand (Subscript (Name "Optional") X))
      with (rbind (visit expand (Name "Optional")) (λ value',
              rbind (visit expand X) (λ slice',
                visit_Subscript_post expand value' slice'))).
    rewrite visit_Name_Optional, HX. simpl.
    unfold visit_Subscript_post, _node2fullname. simpl.
    rewrite expand_Optional. simpl.
    by rewrite Hann.
  Qed.
End annotation_facts.



(** ** Constructors *)

Lemma find_in_first h l1 b l2 bob nm f :
  (∀ x, x ∈ l1 → ∃ xob, h !! x = Some xob
                        ∧ pydict.get nm (contents xob) = None) →
  h !! b = Some bob →
  pydict.get nm (contents bob) = Some f →
  find_in h (map inl (l1 ++ b :: l2)) nm = Ok (Some f).
Proof.
  intros Hl1 Hb Hf. induction l1 as [|x l1 IH]; simpl.
  - unfold getobj. rewrite Hb. simpl. by rewrite Hf.
  - destruct (Hl1 x) as (xob & Hx & Hnone); [by left|].
    unfold getobj. rewrite Hx. simpl. rewrite Hnone.
    apply IH. intros y Hy. apply Hl1. by right.
Qed.

Lemma find_in_none h l nm :
  (∀ x, x ∈ l → ∃ xob, h !! x = Some xob
                       ∧ pydict.get nm (contents xob) = None) →
  find_in h (map inl l) nm = Ok None.
Proof.
  intros Hl. induction l as [|x l IH]; simpl; [done|].
  destruct (Hl x) as (xob & Hx & Hnone); [by left|].
  unfold getobj. rewrite Hx. simpl. rewrite Hnone.
  apply IH. intros y Hy. apply Hl. by right.
Qed.


Lemma but_constructors_set_constructors v ob :
  but_constructors (set_constructors v ob) = but_constructors ob.
Proof. reflexivity. Qed.

Lemma update_constructors_agree s cls g :
  (∀ ob, but_constructors (g ob) = but_constructors ob) →
  heap_agree but_constructors (objects s) (objects (update cls g s)).
Proof. intros Hg. by apply heap_agree_alter. Qed.

Lemma constructors_of_update s cls g ob :
  objects s !! cls = Some ob →
  constructors_of (update cls g s) cls = constructors (g ob).
Proof.
  intros Hob. unfold constructors_of, update. simpl.
  by rewrite lookup_alter_eq, Hob.
Qed.

Lemma constructors_of_agree s s' cls :
  heap_agree but_constructors (objects s) (objects s') →
  is_Some (objects s !! cls) → is_Some (objects s' !! cls).
Proof.
  intros H [ob Hob]. specialize (H cls). rewrite Hob in H.
  destruct (objects s' !! cls); [eauto|done].
Qed.

Section constructors_loop.
Variables (d : nat) (s0 : System) (cls m : oid) (self_name : string).
Hypothesis Hmodule : module (objects s0) cls = Ok m.
Hypothesis Hself : fullName (objects s0) cls = Ok self_name.

Lemma _init_constructors_round_spec s f :
    heap_agree but_constructors (objects s0) (objects s) →
    allobjects s0 = allobjects s →
    rootobjects s0 = rootobjects s →
    annotation_expands d s0 m f →
    _init_constructors_round d cls f s
    = Return tt (if returns_instance d s0 cls f
                 then update cls (λ o, set_constructors (constructors o ++ [f]) o) s
                 else s).
  Proof.
    intros Hh Ha Hr (fob & Hfob & Hexp).
    unfold _init_constructors_round, returns_instance, bind, lift, ret.
    rewrite Hfob.
    destruct (getobj_but_constructors _ _ Hh f)
      as [(ob & ob' & Hg & -> & E)|(e & Hg & _)];
      unfold getobj in Hg; rewrite Hfob in Hg; [|done].
    injection Hg as <-.
    injection E; intros.
    repeat match goal with H : ?g fob = ?g ob' |- _ => rewrite <- H; clear H end.
    destruct (is_Function (py_class fob)) eqn:Hfun; simpl; [|done].
    destruct (bool_decide (kind fob = Some STATIC_METHOD)
              || bool_decide (kind fob = Some CLASS_METHOD)) eqn:Hkind;
      simpl; [|done].
    destruct (pydict.get "return" (annotations fob)) as [ann|] eqn:Hann; [|done].
    rewrite <- (module_but_constructors _ _ Hh), Hmodule.
    assert (Hk : kind fob = Some STATIC_METHOD ∨ kind fob = Some CLASS_METHOD).
    { apply orb_true_iff in Hkind as [Hk|Hk];
        apply bool_decide_eq_true in Hk; auto. }
    destruct (Hexp ann eq_refl Hk eq_refl) as [r Hr'].
    assert (Hn : astutils.node2fullname (expandName d s m) ann
                 = astutils.node2fullname (expandName d s0 m) ann).
    { unfold astutils.node2fullname.
      destruct (astutils.node2dottedname ann); [|done].
      by rewrite (expandName_but_constructors d s0 s). }
    rewrite Hn, Hr'.
    rewrite <- (fullName_but_constructors _ _ Hh), Hself.
    unfold append_constructor, modify.
    by destruct (bool_decide (r = Some self_name)
                 || bool_decide (r = Some "typing.Self")
                 || bool_decide (r = Some "typing_extensions.Self")).
  Qed.

Lemma _init_constructors_loop_spec l s :
    heap_agree but_constructors (objects s0) (objects s) →
    allobjects s0 = allobjects s →
    rootobjects s0 = rootobjects s →
    (∀ f, f ∈ l → annotation_expands d s0 m f) →
    ∃ s', for_each (_init_constructors_round d cls) l s = Return tt s'
          ∧ heap_agree but_constructors (objects s0) (objects s')
          ∧ allobjects s0 = allobjects s'
          ∧ rootobjects s0 = rootobjects s'
          ∧ constructors_of s' cls
            = constructors_of s cls
              ++ List.filter (returns_instance d s0 cls) l.
  Proof.
    revert s. induction l as [|f l IH]; intros s Hh Ha Hr Hl.
    - exists s. simpl. by rewrite app_nil_r.
    - simpl. unfold bind.
      rewrite (_init_constructors_round_spec s f Hh Ha Hr)
        by (apply Hl; by left).
      assert (Hcls : is_Some (objects s !! cls)).
      { apply (constructors_of_agree s0); [done|].
        unfold module, getobj in Hmodule.
        destruct (objects s0 !! cls); [eauto|done]. }
      destruct Hcls as [ob Hob].
      destruct (returns_instance d s0 cls f) eqn:Hq.
      + set (s1 := update cls _ s).
        destruct (IH s1) as (s' & Hrun & Hh' & Ha' & Hr' & Hc).
        * eapply heap_agree_trans; [exact Hh|].
          by apply update_constructors_agree.
        * done.
        * done.
        * intros g Hg. apply Hl. by right.
        * exists s'. split_and!; try done.
          rewrite Hc. unfold s1.
          rewrite (constructors_of_update _ _ _ ob Hob). simpl.
          unfold constructors_of at 1. rewrite Hob.
          by rewrite <- app_assoc.
      + destruct (IH s) as (s' & Hrun & Hh' & Ha' & Hr' & Hc); try done.
        * intros g Hg. apply Hl. by right.
        * exists s'. by split_and!.
  Qed.
End constructors_loop.

(** C7, as stated, fails: [Derived] defines neither [__new__] nor
    [__init__], and the constructor found for it is the [__init__] of
    its base class, which is not in the namespace of [Derived]. *)
Lemma C7_counterexample :
  _find_dunder_constructor ctor_heap 3 = Ok (Some 2)
  ∧ bool_decide (2 ∈ pydict.values [("create", 4); ("build", 5); ("helper", 6)])
    = false
  ∧ ctor_heap !! 3
    = Some (mkDocumentable ClassT "Derived" (Some 0) (Some 0) None (Some CLASS)
              4 0 [("create", 4); ("build", 5); ("helper", 6)] [] false
              PROCESSED None ["Base"] ["m.Base"] [Some 1] (Some [Some 1])
              (Some ["m.Base"]) (Some [inl 3; inl 1]) [] [])
  ∧ constructors_of (final_state (_init_constructors 5 3 ctor_sys)) 3
    = [2; 4; 5].
Proof.
  split_and!; vm_compute; reflexivity.
Qed.

(** C7, amended: the dunder constructor is looked up along the MRO of the
    class, the class itself first and then its bases, so a class that
    defines none gets the one it inherits. It is the first [__new__] of
    the MRO when that is a function; with a [__new__] that is no function
    there is none; with no [__new__] in the whole MRO it is the first
    [__init__] of the MRO when that is a function. After it the
    constructors are the methods among the class's own contents, in the
    order of the contents, that are static or class methods whose return
    annotation expands to the full name of the class or to [typing.Self]
    or [typing_extensions.Self]. *)
Theorem C7_constructor_detection :
  (∀ h cls l1 b l2 bob f fob,
     mro h cls false true = Ok (map inl (l1 ++ b :: l2)) →
     (∀ x, x ∈ l1 → ∃ xob, h !! x = Some xob
                           ∧ pydict.get "__new__" (contents xob) = None) →
     h !! b = Some bob →
     pydict.get "__new__" (contents bob) = Some f →
     h !! f = Some fob →
     _find_dunder_constructor h cls
     = Ok (if is_Function (py_class fob) then Some f else None))
  ∧ (∀ h cls l1 b l2 bob f fob,
       mro h cls false true = Ok (map inl (l1 ++ b :: l2)) →
       (∀ x, x ∈ l1 ++ b :: l2 →
          ∃ xob, h !! x = Some xob
                 ∧ pydict.get "__new__" (contents xob) = None) →
       (∀ x, x ∈ l1 → ∃ xob, h !! x = Some xob
                             ∧ pydict.get "__init__" (contents xob) = None) →
       h !! b = Some bob →
       pydict.get "__init__" (contents bob) = Some f →
       h !! f = Some fob →
       _find_dunder_constructor h cls
       = Ok (if is_Function (py_class fob) then Some f else None))
  ∧ (∀ d s cls ob m self_name dunder,
       objects s !! cls = Some ob →
       module (objects s) cls = Ok m →
       fullName (objects s) cls = Ok self_name →
       _find_dunder_constructor (objects s) cls = Ok dunder →
       (∀ f, f ∈ pydict.values (contents ob) → annotation_expands d s m f) →
       ∃ s', _init_constructors d cls s = Return tt s'
             ∧ constructors_of s' cls
               = constructors ob ++ option_list dunder
                 ++ List.filter (returns_instance d s cls)
                      (pydict.values (contents ob))).
Proof.
  split_and!.
  - intros h cls l1 b l2 bob f fob Hmro Hl1 Hb Hnew Hf.
    unfold _find_dunder_constructor, find. rewrite Hmro. simpl.
    rewrite (find_in_first h l1 b l2 bob "__new__" f Hl1 Hb Hnew). simpl.
    rewrite Hf. by destruct (is_Function (py_class fob)).
  - intros h cls l1 b l2 bob f fob Hmro Hnonew Hl1 Hb Hinit Hf.
    unfold _find_dunder_constructor, find. rewrite Hmro. simpl.
    rewrite (find_in_none h (l1 ++ b :: l2) "__new__" Hnonew). simpl.
    rewrite (find_in_first h l1 b l2 bob "__init__" f Hl1 Hb Hinit). simpl.
    rewrite Hf. by destruct (is_Function (py_class fob)).
  - intros d s cls ob m self_name dunder Hob Hmod Hself Hdunder Hexp.
    unfold _init_constructors, bind, lift. rewrite Hdunder.
    set (s1 := match dunder with
               | Some f => update cls (λ o, set_constructors (constructors o ++ [f]) o) s
               | None => s
               end).
    assert (Hstep : (match dunder with
                     | Some f => append_constructor cls f
                     | None => ret tt
                     end) s = Return tt s1).
    { unfold s1. by destruct dunder. }
    rewrite Hstep.
    assert (Hh1 : heap_agree but_constructors (objects s) (objects s1)).
    { unfold s1. destruct dunder; [|apply heap_agree_refl].
      by apply update_constructors_agree. }
    assert (Ha1 : allobjects s = allobjects s1) by (unfold s1; by destruct dunder).
    assert (Hr1 : rootobjects s = rootobjects s1) by (unfold s1; by destruct dunder).
    assert (Hc1 : constructors_of s1 cls = constructors ob ++ option_list dunder).
    { unfold s1. destruct dunder; simpl.
      - by rewrite (constructors_of_update _ _ _ ob Hob).
      - unfold constructors_of. by rewrite Hob, app_nil_r. }
    destruct (getobj_but_constructors _ _ Hh1 cls)
      as [(ob0 & ob1 & Hg & -> & E)|(e & Hg & _)];
      unfold getobj in Hg; rewrite Hob in Hg; [|done].
    injection Hg as <-.
    assert (Hcont : contents ob1 = contents ob)
      by (injection E; intros; congruence).
    rewrite Hcont.
    destruct (_init_constructors_loop_spec d s cls m self_name Hmod Hself
                (pydict.values (contents ob)) s1 Hh1 Ha1 Hr1 Hexp)
      as (s' & Hrun & _ & _ & _ & Hc).
    exists s'. split; [done|]. by rewrite Hc, Hc1, <- app_assoc.
Qed.

Lemma C7_constructor_detection_witness :
  _find_dunder_constructor ctor_heap 3 = Ok (Some 2)
  ∧ ∃ s', _init_constructors 5 3 ctor_sys = Return tt s'
          ∧ constructors_of s' 3 = [2; 4; 5].
Proof.
  destruct C7_constructor_detection as (_ & Hinit & Hall).
  assert (H3 : ctor_heap !! 3
               = Some (mkDocumentable ClassT "Derived" (Some 0) (Some 0) None
                         (Some CLASS) 4 0
                         [("create", 4); ("build", 5); ("helper", 6)] [] false
                         PROCESSED None ["Base"] ["m.Base"] [Some 1]
                         (Some [Some 1]) (Some ["m.Base"])
                         (Some [inl 3; inl 1]) [] []))
    by (vm_compute; reflexivity).
  assert (H1 : ctor_heap !! 1
               = Some (mkDocumentable ClassT "Base" (Some 0) (Some 0) None
                         (Some CLASS) 1 0 [("__init__", 2)] [] false PROCESSED
                         None [] [] [] None None (Some [inl 1]) [] []))
    by (vm_compute; reflexivity).
  assert (H2 : ctor_heap !! 2
               = Some (mkDocumentable FunctionT "__init__" (Some 1) (Some 0)
                         None (Some METHOD) 2 0 [] [] false PROCESSED None
                         [] [] [] None None None [] [("self", None)]))
    by (vm_compute; reflexivity).
  assert (Hm : mro ctor_heap 3 false true = Ok (map inl ([3] ++ 1 :: [])))
    by (vm_compute; reflexivity).
  assert (Hn : ∀ x, x ∈ [3] ++ 1 :: [] →
            ∃ xob, ctor_heap !! x = Some xob
                   ∧ pydict.get "__new__" (contents xob) = None).
  { intros x Hx.
    apply elem_of_cons in Hx as [->|Hx]; [eauto|].
    apply elem_of_cons in Hx as [->|Hx]; [eauto|].
    by apply elem_of_nil in Hx. }
  assert (Hi : ∀ x, x ∈ [3] →
            ∃ xob, ctor_heap !! x = Some xob
                   ∧ pydict.get "__init__" (contents xob) = None).
  { intros x Hx.
    apply elem_of_cons in Hx as [->|Hx]; [eauto|].
    by apply elem_of_nil in Hx. }
  pose proof (Hinit ctor_heap 3 [3] 1 [] _ 2 _ Hm Hn Hi H1 eq_refl H2) as Hd.
  simpl in Hd.
  split; [exact Hd|].
  destruct (Hall 5 ctor_sys 3 _ 0 "m.Derived" (Some 2) H3) as (s' & Hrun & Hc).
  - vm_compute. reflexivity.
  - vm_compute. reflexivity.
  - exact Hd.
  - intros f Hf. simpl in Hf.
    repeat (apply elem_of_cons in Hf as [->|Hf];
            [eexists; split; [vm_compute; reflexivity|];
             intros ann _ _ Hann; vm_compute in Hann; injection Hann as <-;
             eexists; vm_compute; reflexivity|]).
    by apply elem_of_nil in Hf.
  - exists s'. split; [exact Hrun|].
    rewrite Hc. vm_compute. reflexivity.
Defined.

(** ** Inheritance *)

Lemma size_pos_lookup (h : heap) o ob : h !! o = Some ob → ∃ n, size h = S n.
Proof.
  intros Ho. destruct (size h) as [|n] eqn:Hs; [|eauto].
  apply map_size_empty_iff in Hs. subst h. by rewrite lookup_empty in Ho.
Qed.

Lemma allbases_go_unresolved n h c ob :
  h !! c = Some ob → baseobjects ob = [None] →
  allbases_go (S n) h c true = Ok [c].
Proof.
  intros Hc Hb. simpl. unfold getobj. rewrite Hc. simpl. by rewrite Hb.
Qed.

Lemma allbases_unresolved h c ob :
  h !! c = Some ob → baseobjects ob = [None] → allbases h c true = Ok [c].
Proof. intros. unfold allbases. by eapply allbases_go_unresolved. Qed.

Lemma allbases_one_base h c ob b bob :
  h !! c = Some ob → baseobjects ob = [Some b] →
  h !! b = Some bob → baseobjects bob = [None] →
  allbases h c true = Ok [c; b].
Proof.
  intros Hc Hcb Hb Hbb. unfold allbases.
  destruct (size_pos_lookup h c ob Hc) as [n ->].
  simpl. unfold getobj. rewrite Hc. simpl. rewrite Hcb, Hb. simpl.
  by rewrite Hbb.
Qed.

Lemma mro_of_update_set_mro s s' c ob v :
  objects s' = objects s → objects s !! c = Some ob →
  mro_of (update c (set_mro v) s') c = v.
Proof.
  intros Hobj Hc. unfold mro_of, update. simpl.
  by rewrite lookup_alter_eq, Hobj, Hc.
Qed.

Section cyclic_bases.
Variable mro_mro :
  (oid + string → list (oid + string)) → oid → res (list (oid + string)).

(** The fallback once [compute_mro] has raised its [ValueError]. *)
Lemma _init_mro_fallback d s c ob dsc what l :
  objects s !! c = Some ob →
  description (objects s) c = Ok dsc →
  compute_mro mro_mro d c s = Throw (ValueError what) s →
  allbases (objects s) c true = Ok l →
  ∃ s1, _init_mro mro_mro d c s = Return tt s1
        ∧ mro_of s1 c = Some (map inl l)
        ∧ msg_log s1
          = msg_log s ++ [mkMessage "mro" (report_text dsc "mro" ob what) (-1)%Z]
        ∧ violations s1 = S (violations s)
        ∧ allobjects s1 = allobjects s.
Proof.
  intros Hc Hdsc Hcompute Hall.
  unfold _init_mro. rewrite Hcompute. unfold bind.
  rewrite (report_spec c ob dsc what "mro" (-1)%Z s Hc Hdsc).
  destruct (msg_spec "mro" (report_text dsc "mro" ob what) (-1)%Z s)
    as (s' & -> & Hro & Hlog & Hviol & _).
  apply reporting_only_fields in Hro as (Hobj & Hidx & _).
  unfold lift. rewrite Hobj, Hall. unfold modify.
  eexists. split; [reflexivity|]. split_and!.
  - by rewrite (mro_of_update_set_mro s s' c ob).
  - done.
  - done.
  - done.
Qed.

(** The class whose base could not be resolved when it was built. *)
Lemma _init_mro_unresolved_base e s A B oa ob pa ra rb na nb dsc :
  A ≠ B → objects s !! A = Some oa → objects s !! B = Some ob →
  py_class ob = ClassT →
  _finalbaseobjects oa = None → _finalbaseobjects ob = None →
  rawbases oa = [ra] → _initialbaseobjects oa = [None] → parent oa = Some pa →
  rawbases ob = [rb] → _initialbaseobjects ob = [Some A] →
  resolveName (S (S e)) s pa ra = Ok (Some B) →
  fullName (objects s) A = Ok na → fullName (objects s) B = Ok nb →
  description (objects s) A = Ok dsc →
  ∃ s1, _init_mro mro_mro (S (S (S e))) A s = Return tt s1
        ∧ mro_of s1 A = Some [inl A]
        ∧ msg_log s1
          = msg_log s ++
            [mkMessage "mro"
               (report_text dsc "mro" oa
                  ("Cycle found while computing inheritance hierarchy: "
                   +:+ na +:+ " -> " +:+ nb +:+ " -> " +:+ na)) (-1)%Z]
        ∧ violations s1 = S (violations s)
        ∧ allobjects s1 = allobjects s.
Proof.
  intros Hne HA HB HclsB HfA HfB HrA HiA HpA HrB HiB Hres HnA HnB Hdsc.
  apply (_init_mro_fallback _ s A oa dsc _ [A] HA Hdsc).
  - unfold compute_mro. simpl.
    unfold bind, lift, ret, throw, modify, getobj. simpl.
    rewrite HA. simpl.
    rewrite HfA, HrA, HiA. simpl. rewrite HpA, Hres. simpl.
    unfold isinstance_Class. rewrite HB, HclsB. simpl. rewrite HnB.
    rewrite bool_decide_eq_false_2
      by (rewrite list_elem_of_singleton; congruence).
    rewrite HB. simpl. rewrite HfB, HrB, HiB. simpl. rewrite HnA.
    rewrite bool_decide_eq_true_2 by (apply elem_of_cons; by left).
    rewrite bool_decide_eq_true_2 by done. simpl.
    by rewrite HnA, HnB.
  - apply (allbases_unresolved _ A oa HA).
    unfold baseobjects. by rewrite HfA.
Qed.

(** The class whose base was there when it was built. *)
Lemma _init_mro_resolved_base e s A B oa ob pa ra rb na nb dsc :
  A ≠ B → objects s !! A = Some oa → objects s !! B = Some ob →
  py_class ob = ClassT →
  _finalbaseobjects oa = None → _finalbaseobjects ob = None →
  rawbases oa = [ra] → _initialbaseobjects oa = [None] → parent oa = Some pa →
  rawbases ob = [rb] → _initialbaseobjects ob = [Some A] →
  resolveName (S e) s pa ra = Ok (Some B) →
  fullName (objects s) A = Ok na → fullName (objects s) B = Ok nb →
  description (objects s) B = Ok dsc →
  ∃ s1, _init_mro mro_mro (S (S (S e))) B s = Return tt s1
        ∧ mro_of s1 B = Some [inl B; inl A]
        ∧ msg_log s1
          = msg_log s ++
            [mkMessage "mro"
               (report_text dsc "mro" ob
                  ("Cycle found while computing inheritance hierarchy: "
                   +:+ nb +:+ " -> " +:+ na +:+ " -> " +:+ nb)) (-1)%Z]
        ∧ violations s1 = S (violations s)
        ∧ allobjects s1 = allobjects s.
Proof.
  intros Hne HA HB HclsB HfA HfB HrA HiA HpA HrB HiB Hres HnA HnB Hdsc.
  apply (_init_mro_fallback _ s B ob dsc _ [B; A] HB Hdsc).
  - unfold compute_mro. simpl.
    unfold bind, lift, ret, throw, modify, getobj. simpl.
    rewrite HB. simpl.
    rewrite HfB, HrB, HiB. simpl. rewrite HnA.
    rewrite bool_decide_eq_false_2
      by (rewrite list_elem_of_singleton; congruence).
    rewrite HA. simpl. rewrite HfA, HrA, HiA. simpl. rewrite HpA, Hres. simpl.
    unfold isinstance_Class. rewrite HB, HclsB. simpl. rewrite HnB.
    rewrite bool_decide_eq_true_2 by (apply elem_of_cons; by left).
    rewrite bool_decide_eq_true_2 by done. simpl.
    by rewrite HnA, HnB.
  - apply (allbases_one_base _ B ob A oa HB); [|done|].
    + unfold baseobjects. by rewrite HfB.
    + unfold baseobjects. by rewrite HfA.
Qed.
End cyclic_bases.

(** C8, as stated, fails for [class A(B)] followed by [class B(A)]: the
    cycle is reported and the computation ends, but the fallback
    ordering of [A] is [A] alone. *)
Lemma C8_counterexample :
  mro_of (final_state (_init_mro no_linearization 5 1 cycle_sys)) 1
  = Some [inl 1]
  ∧ bool_decide (inl 2 ∈ ([inl 1] : list (oid + string))) = false.
Proof. split; vm_compute; reflexivity. Qed.

(** C8, amended: for two classes [A] and [B] whose single bases name each
    other, where the base of [A] was unresolved when [A] was built and
    resolves to [B] afterwards, and the base of [B] was resolved to [A]
    when [B] was built, [_init_mro] returns for both classes once three
    nested calls are allowed, whatever the linearization is; each time it
    reports the cycle, as a violation, and stores a non-empty fallback
    ordering that starts with the class and repeats no class: [A] alone
    for [A], and [B] followed by [A] for [B]. *)
Theorem C8_cyclic_bases_fallback
    (mro_mro : (oid + string → list (oid + string)) → oid
               → res (list (oid + string)))
    (e : nat) (s : System) (A B : oid) (oa ob : Documentable) (pa : oid)
    (ra rb na nb : string) :
  A ≠ B → objects s !! A = Some oa → objects s !! B = Some ob →
  py_class ob = ClassT →
  _finalbaseobjects oa = None → _finalbaseobjects ob = None →
  rawbases oa = [ra] → _initialbaseobjects oa = [None] → parent oa = Some pa →
  rawbases ob = [rb] → _initialbaseobjects ob = [Some A] →
  resolveName (S e) s pa ra = Ok (Some B) →
  resolveName (S (S e)) s pa ra = Ok (Some B) →
  fullName (objects s) A = Ok na → fullName (objects s) B = Ok nb →
  (∀ dsc, description (objects s) A = Ok dsc →
     ∃ s1, _init_mro mro_mro (S (S (S e))) A s = Return tt s1
           ∧ mro_of s1 A = Some [inl A]
           ∧ msg_log s1
             = msg_log s ++
               [mkMessage "mro"
                  (report_text dsc "mro" oa
                     ("Cycle found while computing inheritance hierarchy: "
                      +:+ na +:+ " -> " +:+ nb +:+ " -> " +:+ na)) (-1)%Z]
           ∧ violations s1 = S (violations s))
  ∧ (∀ dsc, description (objects s) B = Ok dsc →
       ∃ s1, _init_mro mro_mro (S (S (S e))) B s = Return tt s1
             ∧ mro_of s1 B = Some [inl B; inl A]
             ∧ msg_log s1
               = msg_log s ++
                 [mkMessage "mro"
                    (report_text dsc "mro" ob
                       ("Cycle found while computing inheritance hierarchy: "
                        +:+ nb +:+ " -> " +:+ na +:+ " -> " +:+ nb)) (-1)%Z]
             ∧ violations s1 = S (violations s)).
Proof.
  intros Hne HA HB HclsB HfA HfB HrA HiA HpA HrB HiB Hres1 Hres2 HnA HnB. split.
  - intros dsc Hdsc.
    destruct (_init_mro_unresolved_base mro_mro e s A B oa ob pa ra rb na nb dsc)
      as (s1 & H1 & H2 & H3 & H4 & _); try done.
    exists s1. by split_and!.
  - intros dsc Hdsc.
    destruct (_init_mro_resolved_base mro_mro e s A B oa ob pa ra rb na nb dsc)
      as (s1 & H1 & H2 & H3 & H4 & _); try done.
    exists s1. by split_and!.
Qed.

Lemma C8_cyclic_bases_fallback_witness :
  (∃ s1, _init_mro no_linearization 3 1 cycle_sys = Return tt s1
         ∧ mro_of s1 1 = Some [inl 1]
         ∧ violations s1 = 1)
  ∧ (∃ s1, _init_mro no_linearization 3 2 cycle_sys = Return tt s1
           ∧ mro_of s1 2 = Some [inl 2; inl 1]
           ∧ violations s1 = 1).
Proof.
  assert (HA : objects cycle_sys !! 1 = Some (mk_class "A" 0 1 ["B"] ["B"] [None]))
    by (vm_compute; reflexivity).
  assert (HB : objects cycle_sys !! 2
               = Some (mk_class "B" 0 3 ["A"] ["m.A"] [Some 1]))
    by (vm_compute; reflexivity).
  destruct (C8_cyclic_bases_fallback no_linearization 0 cycle_sys 1 2
              (mk_class "A" 0 1 ["B"] ["B"] [None])
              (mk_class "B" 0 3 ["A"] ["m.A"] [Some 1]) 0
              "B" "A" "m.A" "m.B") as [H1 H2];
    try done; try (vm_compute; reflexivity).
  split.
  - destruct (H1 "m") as (s1 & Hrun & Hmro & _ & Hviol);
      [vm_compute; reflexivity|].
    exists s1. by split_and!.
  - destruct (H2 "m") as (s1 & Hrun & Hmro & _ & Hviol);
      [vm_compute; reflexivity|].
    exists s1. by split_and!.
Defined.

(** ** Duplicate modules *)

(** C5, the code at the input where it departs from the claim: when the
    module registered first is an extension module and the duplicate is
    no package, [_handleDuplicateModule] reports the duplicate and
    changes nothing else, whether the duplicate is a source module or an
    extension module itself. With two extension modules the one added
    last does not win: the index still holds the first and the second is
    not registered. *)
Theorem C5_first_c_module_kept (s : System) (first dup : oid)
    (fob dob : Documentable) (first_str dsc : string) :
  objects s !! first = Some fob →
  objects s !! dup = Some dob →
  _is_c_module fob = true →
  is_Package (py_class dob) = false →
  repr (objects s) first = Ok first_str →
  description (objects s) dup = Ok dsc →
  ∃ s', _handleDuplicateModule first dup s = Return tt s'
        ∧ reporting_only s s'
        ∧ allobjects s' = allobjects s
        ∧ unprocessed_modules s' = unprocessed_modules s
        ∧ msg_log s'
          = msg_log s ++
            [mkMessage "parsing"
               (report_text dsc "parsing" dob ("duplicate " +:+ first_str)) 1%Z].
Proof.
  intros Hf Hd Hc Hpkg Hrepr Hdsc.
  unfold _handleDuplicateModule, bind, lift, getobj.
  rewrite Hf, Hd, Hrepr.
  rewrite (report_spec dup dob dsc _ "parsing" 1%Z s Hd Hdsc).
  destruct (msg_spec "parsing"
              (report_text dsc "parsing" dob ("duplicate " +:+ first_str)) 1%Z s)
    as (s' & -> & Hro & Hlog & _).
  rewrite Hc, Hpkg. simpl.
  exists s'. split; [done|].
  pose proof (reporting_only_fields _ _ Hro) as (_ & Ha & _ & _ & Hu & _).
  by split_and!.
Qed.

Lemma C5_first_c_module_kept_witness :
  ∃ s', _handleDuplicateModule 0 1 two_ext_sys = Return tt s'
        ∧ allobjects s' = allobjects two_ext_sys
        ∧ allobjects s' !! "ext" = Some 0.
Proof.
  destruct (C5_first_c_module_kept two_ext_sys 0 1
              (mk_module false true "ext" None "ext.abi3.so" [])
              (mk_module false true "ext" None "ext.so" [])
              "Module 'ext'" "ext.so")
    as (s' & Hrun & _ & Ha & _); try (vm_compute; reflexivity).
  exists s'. split_and!; [done..|]. rewrite Ha. vm_compute. reflexivity.
Defined.

(** ** Subtrees and changes of the store *)

Lemma but_contents_skeleton h h' :
  heap_agree but_contents h h' → heap_agree skeleton h h'.
Proof.
  intros H o. specialize (H o).
  destruct (h !! o) as [ob|], (h' !! o) as [ob'|]; simpl in *; try done.
  injection H; intros. unfold skeleton. congruence.
Qed.

Lemma skeleton_parent h h' :
  heap_agree skeleton h h' → heap_agree parent h h'.
Proof.
  intros H o. specialize (H o).
  destruct (h !! o) as [ob|], (h' !! o) as [ob'|]; simpl in *; try done.
  injection H; intros. congruence.
Qed.

Lemma module_but_contents h h' o :
  heap_agree but_contents h h' → module h o = module h' o.
Proof.
  intros H. unfold module.
  pose proof (heap_agree_getobj but_contents h h' o H) as Ho.
  destruct (getobj h o) as [ob|e], (getobj h' o) as [ob'|e']; try done.
  - simpl. injection Ho; intros.
    by repeat match goal with H : ?f ob = ?f ob' |- _ => rewrite H; clear H end.
  - by rewrite Ho.
Qed.

Lemma description_but_contents h h' o :
  heap_agree but_contents h h' → description h o = description h' o.
Proof.
  intros H. unfold description.
  rewrite (module_but_contents h h' o H).
  pose proof (heap_agree_getobj but_contents h h' o H) as Ho.
  destruct (getobj h o) as [ob|e], (getobj h' o) as [ob'|e']; try done.
  - simpl. injection Ho; intros.
    repeat match goal with H : ?f ob = ?f ob' |- _ => rewrite H; clear H end.
    destruct (source_path ob'); [done|].
    destruct (module h' o) as [m|]; [|done]. simpl.
    by apply fullName_agree, but_contents_skeleton.
  - by rewrite Ho.
Qed.

Lemma repr_but_contents h h' o :
  heap_agree but_contents h h' → repr h o = repr h' o.
Proof.
  intros H. unfold repr.
  rewrite (fullName_agree h h' o (but_contents_skeleton _ _ H)).
  pose proof (heap_agree_getobj but_contents h h' o H) as Ho.
  destruct (getobj h o) as [ob|e], (getobj h' o) as [ob'|e']; try done.
  - simpl. injection Ho; intros.
    by repeat match goal with H : ?f ob = ?f ob' |- _ => rewrite H; clear H end.
  - by rewrite Ho.
Qed.

Lemma rmapM_ext {A B} (f g : A → res B) l :
  (∀ x, x ∈ l → f x = g x) → rmapM f l = rmapM g l.
Proof.
  induction l as [|x l IH]; intros H; [done|]. simpl.
  rewrite (H x) by (by left). destruct (g x); [|done]. simpl.
  rewrite IH; [done|]. intros y Hy. apply H. by right.
Qed.

Lemma rmapM_elem {A B} (f : A → res B) l ls x :
  rmapM f l = Ok ls → x ∈ l → ∃ y, f x = Ok y ∧ y ∈ ls.
Proof.
  revert ls. induction l as [|a l IH]; intros ls H Hx.
  - by apply elem_of_nil in Hx.
  - simpl in H. destruct (f a) as [b|] eqn:Hb; [|done]. simpl in H.
    destruct (rmapM f l) as [bs|] eqn:Hbs; [|done]. simpl in H.
    injection H as <-.
    apply elem_of_cons in Hx as [->|Hx].
    + exists b. split; [done|by left].
    + destruct (IH bs eq_refl Hx) as (y & Hy & Hin).
      exists y. split; [done|by right].
Qed.

Lemma elem_of_concat {A} (x : A) (ls : list (list A)) :
  x ∈ concat ls ↔ ∃ l, x ∈ l ∧ l ∈ ls.
Proof.
  induction ls as [|l ls IH]; simpl.
  - split; [intros H; by apply elem_of_nil in H|].
    intros (l & _ & H). by apply elem_of_nil in H.
  - rewrite elem_of_app, IH. split.
    + intros [H|(l' & H1 & H2)].
      * exists l. split; [done|by left].
      * exists l'. split; [done|by right].
    + intros (l' & H1 & H2). apply elem_of_cons in H2 as [->|H2]; [by left|].
      right. eauto.
Qed.

(** The subtree depends on the contents only. *)
Lemma descendants_go_agree n h h' o :
  heap_agree contents h h' → descendants_go n h o = descendants_go n h' o.
Proof.
  intros H. revert o. induction n as [|n IH]; intros o; [done|]. simpl.
  pose proof (heap_agree_getobj contents h h' o H) as Ho.
  destruct (getobj h o) as [ob|e], (getobj h' o) as [ob'|e']; try done.
  - simpl. rewrite Ho. by rewrite (rmapM_ext _ (descendants_go n h')).
  - by rewrite Ho.
Qed.

Lemma descendants_agree h h' o :
  heap_agree contents h h' → descendants h o = descendants h' o.
Proof.
  intros H. unfold descendants. rewrite (heap_agree_size _ _ _ H).
  by apply descendants_go_agree.
Qed.

(** Changing an object outside the subtree leaves the subtree alone. *)
Lemma descendants_go_alter_off n h x g o L :
  descendants_go n h o = Ok L → x ∉ L →
  descendants_go n (alter g x h) o = Ok L.
Proof.
  revert o L. induction n as [|n IH]; intros o L HL Hx; [done|].
  simpl in *. unfold getobj in *.
  destruct (h !! o) as [ob|] eqn:Hob; [|done]. simpl in HL.
  destruct (rmapM (descendants_go n h) (pydict.values (contents ob)))
    as [ls|] eqn:Hls; [|done].
  simpl in HL. injection HL as <-.
  rewrite lookup_alter_ne by (intros ->; apply Hx; by left).
  rewrite Hob. simpl.
  rewrite (rmapM_ext _ (descendants_go n h)); [by rewrite Hls|].
  intros c Hc.
  destruct (rmapM_elem _ _ _ c Hls Hc) as (l & Hl & Hin).
  rewrite Hl. apply IH; [done|].
  intros Hxl. apply Hx. right. apply elem_of_concat. eauto.
Qed.

Lemma descendants_alter_off h x g o L :
  descendants h o = Ok L → x ∉ L → descendants (alter g x h) o = Ok L.
Proof.
  unfold descendants. intros HL Hx.
  assert (size (alter g x h) = size h) as ->.
  { rewrite <- !size_dom. by rewrite dom_alter_L. }
  by apply descendants_go_alter_off.
Qed.

Lemma descendants_head h o L : descendants h o = Ok L → o ∈ L.
Proof.
  unfold descendants. simpl.
  destruct (getobj h o); [|done]. simpl.
  destruct (rmapM _ _); [|done]. simpl. intros [= <-]. by left.
Qed.

Lemma closed_under_parent_agree h h' L root :
  heap_agree parent h h' →
  closed_under_parent h L root → closed_under_parent h' L root.
Proof.
  intros H Hc x Hx Hne. destruct (Hc x Hx Hne) as (xob & q & Hob & Hq & HqL).
  specialize (H x). rewrite Hob in H.
  destruct (h' !! x) as [xob'|]; [|done]. simpl in H.
  exists xob', q. split; [done|]. split; [congruence|done].
Qed.

(** The full names in a subtree are at least as long as the one of its
    root, and longer for the other members. *)
Lemma fullName_under h L root kroot o k :
  closed_under_parent h L root →
  fullName h root = Ok kroot →
  o ∈ L →
  fullName h o = Ok k →
  (o = root ∧ k = kroot) ∨ (o ≠ root ∧ ∃ sfx, k = kroot +:+ "." +:+ sfx).
Proof. intros Hc Hr Ho Hk. by eapply fullName_go_under. Qed.

Lemma fullName_under_length h L root kroot o k :
  closed_under_parent h L root →
  fullName h root = Ok kroot →
  o ∈ L →
  fullName h o = Ok k →
  String.length kroot ≤ String.length k.
Proof.
  intros Hc Hr Ho Hk.
  destruct (fullName_under h L root kroot o k Hc Hr Ho Hk)
    as [[_ ->]|[_ [sfx ->]]]; [done|].
  rewrite str_app_length. lia.
Qed.

(** ** Running the state-passing code *)

Lemma bind_Return {A B} (m : M A) (k : A → M B) s a s1 :
  m s = Return a s1 → bind m k s = k a s1.
Proof. unfold bind. by intros ->. Qed.

Lemma bind_Throw {A B} (m : M A) (k : A → M B) s e s1 :
  m s = Throw e s1 → bind m k s = Throw e s1.
Proof. unfold bind. by intros ->. Qed.

Lemma bind_lift {A B} (f : System → res A) (k : A → M B) s a :
  f s = Ok a → bind (lift f) k s = k a s.
Proof. unfold bind, lift. by intros ->. Qed.

Lemma bind_modify {B} (f : System → System) (k : unit → M B) s :
  bind (modify f) k s = k tt (f s).
Proof. reflexivity. Qed.

Lemma bind_ret {A B} (a : A) (k : A → M B) s : bind (ret a) k s = k a s.
Proof. reflexivity. Qed.

(** ** Duplicates *)

Lemma size_alter (h : heap) g x : size (alter g x h) = size h.
Proof. rewrite <- !size_dom. by rewrite dom_alter_L. Qed.

Lemma fullName_renamed hb obj ob prev pob full sfx :
  hb !! obj = Some ob → fullName hb obj = Ok full →
  hb !! prev = Some pob → fullName hb prev = Ok full →
  pystr.dotfree (name ob) = true → pystr.dotfree (name pob) = true →
  fullName (alter (set_name (name ob +:+ sfx)) prev hb) prev
  = Ok (full +:+ sfx).
Proof.
  intros Hob Hfull Hpob Hpfull Hdo Hdp.
  destruct (fullName_inv _ _ _ Hfull) as (ob' & Hob' & Hop).
  rewrite Hob in Hob'. injection Hob' as <-.
  pose proof Hpfull as Hpf. unfold fullName in Hpf.
  destruct (fullName_go_inv _ _ _ _ Hpf) as (pob' & Hpob' & Hpp).
  rewrite Hpob in Hpob'. injection Hpob' as <-.
  unfold fullName. rewrite size_alter. simpl.
  unfold getobj. rewrite lookup_alter_eq, Hpob. simpl.
  destruct (parent pob) as [pp|].
  - destruct Hpp as (kpp & Hkpp & ->).
    rewrite (fullName_go_alter_off_chain _ _ _ _ _ kpp Hkpp).
    + simpl. destruct (parent ob) as [p|].
      * destruct Hop as (ko & _ & E).
        apply last_component_inj in E as [-> ->]; [|done..].
        by rewrite !str_app_assoc.
      * exfalso. rewrite <- Hop in Hdo. by rewrite dotfree_dotted in Hdo.
    + intros m kx Hm.
      rewrite (fullName_go_det _ _ _ _ _ _ Hm Hpf).
      rewrite !str_app_length. simpl. lia.
  - subst full. destruct (parent ob) as [p|].
    + destruct Hop as (ko & _ & E). exfalso.
      rewrite E in Hdp. by rewrite dotfree_dotted in Hdp.
    + by rewrite Hop.
Qed.

Lemma handleDuplicate_spec sb obj ob prev pob full L dsc :
  objects sb !! obj = Some ob →
  fullName (objects sb) obj = Ok full →
  allobjects sb !! full = Some prev →
  objects sb !! prev = Some pob →
  fullName (objects sb) prev = Ok full →
  pystr.dotfree (name ob) = true → pystr.dotfree (name pob) = true →
  descendants (objects sb) prev = Ok L →
  NoDup L → indexed sb L → closed_under_parent (objects sb) L prev →
  description (objects sb) obj = Ok dsc →
  ∃ s', handleDuplicate obj sb = Return tt s'
        ∧ allobjects s' !! full = Some obj
        ∧ allobjects s' !! dup_key full (free_index (allobjects sb) full)
          = Some prev
        ∧ objects s'
          = alter (set_name (name ob +:+ " " +:+ pystr.str_of_nat
                               (free_index (allobjects sb) full)))
              prev (objects sb)
        ∧ fullName (objects s') prev
          = Ok (dup_key full (free_index (allobjects sb) full))
        ∧ msg_log s'
          = msg_log sb ++
            [mkMessage "parsing"
               (report_text dsc "parsing" ob
                  ("duplicate " +:+ class_name (py_class pob) +:+ " "
                   +:+ pystr.repr full)) 1%Z]
        ∧ stdout s'
          = (if ((1 <=? options_verbosity sb)%Z
                 && (options_verbosity sb <=? 100)%Z)%bool
             then printed sb
                    (report_text dsc "parsing" ob
                       ("duplicate " +:+ class_name (py_class pob) +:+ " "
                        +:+ pystr.repr full))
             else stdout sb)
        ∧ violations s' = violations sb
        ∧ rootobjects s' = rootobjects sb.
Proof.
  intros Hob Hfull Hidx Hpob Hpfull Hdo Hdp Hdesc Hnd Hind Hclosed Hdsc.
  set (i := free_index (allobjects sb) full).
  set (text := report_text dsc "parsing" ob
                 ("duplicate " +:+ class_name (py_class pob) +:+ " "
                  +:+ pystr.repr full)).
  unfold handleDuplicate.
  rewrite (bind_lift _ _ _ full) by done.
  rewrite (bind_lift _ _ _ i) by done.
  rewrite (bind_lift _ _ _ prev) by (by rewrite Hidx).
  rewrite (bind_lift _ _ _ (class_name (py_class pob) +:+ " " +:+ pystr.repr full)).
  2:{ unfold repr, getobj. by rewrite Hpob, Hpfull. }
  destruct (msg_spec "parsing" text 1%Z sb) as (sr & Hmsg & Hro & Hlog & Hviol & Hout).
  rewrite (bind_Return _ _ _ tt sr).
  2:{ by rewrite (report_spec obj ob dsc _ "parsing" 1%Z sb Hob Hdsc). }
  pose proof (reporting_only_fields _ _ Hro) as (Hobj_r & Hall_r & _ & Hroot_r & _).
  (* _remove *)
  destruct (del_runs L sr Hnd) as (sd & Hruns_d & Honly_d & Hdel_in & Hdel_out).
  { intros x Hx. rewrite Hobj_r, Hall_r. by apply Hind. }
  rewrite (bind_Return _ _ _ tt sd).
  2:{ unfold _remove. rewrite _remove_go_walk.
      apply (walk_go_run _ _ _ _ L); [|done].
      rewrite Hobj_r. exact Hdesc. }
  pose proof (index_only_objects _ _ Honly_d) as Hobj_d.
  rewrite (bind_lift _ _ _ ob) by (unfold getobj; by rewrite Hobj_d, Hobj_r, Hob).
  rewrite bind_modify.
  set (nn := name ob +:+ " " +:+ pystr.str_of_nat i).
  set (sn := update prev (set_name nn) sd).
  assert (Hobj_n : objects sn = alter (set_name nn) prev (objects sb)).
  { unfold sn, update. simpl. by rewrite Hobj_d, Hobj_r. }
  assert (Hagree_c : heap_agree contents (objects sb) (objects sn)).
  { rewrite Hobj_n. by apply heap_agree_alter. }
  assert (Hagree_p : heap_agree parent (objects sb) (objects sn)).
  { rewrite Hobj_n. by apply heap_agree_alter. }
  assert (Hprev_n : fullName (objects sn) prev = Ok (dup_key full i)).
  { rewrite Hobj_n. unfold nn, dup_key.
    by apply (fullName_renamed _ obj ob prev pob). }
  assert (Hnames_n : ∀ x, x ∈ L → ∃ k, fullName (objects sn) x = Ok k).
  { intros x Hx. destruct (Hind x Hx) as (k & Hk & _).
    unfold fullName in *.
    pose proof (fullName_go_shape (S (size (objects sb))) _ _ x Hagree_p) as Hs.
    rewrite Hk in Hs. rewrite <- (heap_agree_size _ _ _ Hagree_p).
    destruct (fullName_go _ (objects sn) x) as [k'|]; [eauto|done]. }
  destruct (ins_runs L sn Hnames_n) as (si & Hruns_i & Honly_i & Hins_out & Hins_in).
  rewrite (bind_Return _ _ _ tt si).
  2:{ unfold readd. rewrite readd_go_walk.
      apply (walk_go_run _ _ _ _ L); [|done].
      change (descendants (objects sn) prev = Ok L).
      rewrite <- (descendants_agree _ _ _ Hagree_c). exact Hdesc. }
  pose proof (index_only_objects _ _ Honly_i) as Hobj_i.
  eexists. split; [reflexivity|].
  simpl. split_and!.
  - apply lookup_insert_eq.
  - rewrite lookup_insert_ne by (intros E; symmetry in E; by apply dup_key_longer in E).
    apply (Hins_in prev); [by eapply descendants_head|done|].
    intros y Hy Hky.
    destruct (fullName_under (objects sn) L prev _ y _
                (closed_under_parent_agree _ _ _ _ Hagree_p Hclosed)
                Hprev_n Hy Hky) as [[-> _]|[_ [sfx E]]]; [done|].
    exfalso. revert E. apply str_app_ne_longer. by rewrite str_cons_app.
  - by rewrite Hobj_i.
  - by rewrite Hobj_i.
  - rewrite Honly_i. simpl. unfold sn. simpl. rewrite Honly_d. simpl. done.
  - rewrite Honly_i. simpl. unfold sn. simpl. rewrite Honly_d. simpl. done.
  - rewrite Honly_i. simpl. unfold sn. simpl. rewrite Honly_d. simpl. done.
  - rewrite Honly_i. simpl. unfold sn. simpl. rewrite Honly_d. simpl. done.
Qed.


Lemma shown_lineno_but_contents section ob ob' :
  but_contents ob = but_contents ob' →
  shown_lineno section ob = shown_lineno section ob'.
Proof.
  intros E. unfold shown_lineno. injection E; intros.
  by repeat match goal with H : ?f ob = ?f ob' |- _ => rewrite H; clear H end.
Qed.

Lemma lookup_agree_but_contents h h' o ob :
  heap_agree but_contents h h' → h !! o = Some ob →
  ∃ ob', h' !! o = Some ob' ∧ but_contents ob = but_contents ob'.
Proof.
  intros H Ho. specialize (H o). rewrite Ho in H.
  destruct (h' !! o) as [ob'|]; [|done]. simpl in H.
  exists ob'. split; [done|]. congruence.
Qed.

(** The state [addObject] is in when it comes to [handleDuplicate]: the
    object is attached to its parent or to the roots, and nothing else
    has changed but [modules]. *)
Lemma addObject_attach s obj ob full :
  objects s !! obj = Some ob →
  (parent ob = None → is_Module (py_class ob) = true) →
  fullName (objects s) obj = Ok full →
  ∃ sb, (∀ first,
           allobjects s !! full = Some first →
           addObject obj s
           = (if bool_decide (obj = first) then ret tt else handleDuplicate obj) sb)
        ∧ allobjects sb = allobjects s
        ∧ msg_log sb = msg_log s ∧ stdout sb = stdout s
        ∧ needsnl sb = needsnl s
        ∧ violations sb = violations s
        ∧ options_verbosity sb = options_verbosity s
        ∧ match parent ob with
          | Some p =>
              objects sb
              = alter (λ pob, set_contents
                                (pydict.set (name ob) obj (contents pob)) pob)
                  p (objects s)
          | None => objects sb = objects s
          end.
Proof.
  intros Hob Hroot Hfull.
  set (sa := if is_Module (py_class ob)
             then set_modules (<[full := obj]> (modules s)) s else s).
  assert (Hobj_a : objects sa = objects s) by (unfold sa; by destruct (is_Module _)).
  set (sb := match parent ob with
             | Some p =>
                 update p (λ pob, set_contents
                                    (pydict.set (name ob) obj (contents pob)) pob) sa
             | None => set_rootobjects (rootobjects sa ++ [obj]) sa
             end).
  assert (Hagree : heap_agree but_contents (objects s) (objects sb)).
  { unfold sb. destruct (parent ob); simpl; rewrite Hobj_a.
    - by apply heap_agree_alter.
    - apply heap_agree_refl. }
  exists sb. split; [|split_and!].
  - intros first Hfirst. unfold addObject.
    rewrite (bind_lift _ _ _ ob) by (unfold getobj; by rewrite Hob).
    rewrite (bind_Return _ _ _ tt sa).
    2:{ unfold sa. destruct (is_Module (py_class ob)); [|done].
        by rewrite (bind_lift _ _ _ full). }
    rewrite (bind_Return _ _ _ tt sb).
    2:{ unfold sb. destruct (parent ob); [done|].
        by rewrite Hroot. }
    rewrite (bind_lift _ _ _ full).
    2:{ by rewrite <- (fullName_agree _ _ _ (but_contents_skeleton _ _ Hagree)). }
    rewrite (bind_Return _ _ _ first sb); [done|].
    assert (allobjects sb = allobjects s) as ->; [|by rewrite Hfirst].
    unfold sb, sa. by destruct (parent ob), (is_Module (py_class ob)).
  - unfold sb, sa. by destruct (parent ob), (is_Module (py_class ob)).
  - unfold sb, sa. by destruct (parent ob), (is_Module (py_class ob)).
  - unfold sb, sa. by destruct (parent ob), (is_Module (py_class ob)).
  - unfold sb, sa. by destruct (parent ob), (is_Module (py_class ob)).
  - unfold sb, sa. by destruct (parent ob), (is_Module (py_class ob)).
  - unfold sb, sa. by destruct (parent ob), (is_Module (py_class ob)).
  - unfold sb. destruct (parent ob); simpl; by rewrite Hobj_a.
Qed.

(** C1: adding an object whose full name is taken by another object [prev]
    (which is in the index, with everything below it, under its full
    name) returns; it picks the first counter [i] for which the full name
    followed by a blank and [i] is not a key; afterwards the full name
    leads to the new object, the disambiguated key leads to [prev], whose
    full name it now is, and the reporting sink has received exactly one
    more message, which names the class and the full name of the earlier
    definition at the location of the new one; the message is printed
    when the verbosity is between 1 and 100. *)
Theorem C1_duplicate_second_wins (s : System) (obj prev : oid)
    (ob pob : Documentable) (full dsc : string) (L : list oid) :
  objects s !! obj = Some ob →
  (parent ob = None → is_Module (py_class ob) = true) →
  fullName (objects s) obj = Ok full →
  allobjects s !! full = Some prev →
  prev ≠ obj →
  objects s !! prev = Some pob →
  fullName (objects s) prev = Ok full →
  pystr.dotfree (name ob) = true →
  pystr.dotfree (name pob) = true →
  descendants (objects s) prev = Ok L →
  NoDup L →
  indexed s L →
  closed_under_parent (objects s) L prev →
  description (objects s) obj = Ok dsc →
  ∃ s' i,
    addObject obj s = Return tt s'
    ∧ allobjects s !! dup_key full i = None
    ∧ (∀ j, j < i → is_Some (allobjects s !! dup_key full j))
    ∧ allobjects s' !! full = Some obj
    ∧ allobjects s' !! dup_key full i = Some prev
    ∧ fullName (objects s') prev = Ok (dup_key full i)
    ∧ msg_log s'
      = msg_log s ++
        [mkMessage "parsing"
           (report_text dsc "parsing" ob
              ("duplicate " +:+ class_name (py_class pob) +:+ " "
               +:+ pystr.repr full)) 1%Z]
    ∧ stdout s'
      = (if ((1 <=? options_verbosity s)%Z
             && (options_verbosity s <=? 100)%Z)%bool
         then printed s
                (report_text dsc "parsing" ob
                   ("duplicate " +:+ class_name (py_class pob) +:+ " "
                    +:+ pystr.repr full))
         else stdout s).
Proof.
  intros Hob Hroot Hfull Hidx Hne Hpob Hpfull Hdo Hdp Hdesc Hnd Hind Hclosed Hdsc.
  destruct (addObject_attach s obj ob full Hob Hroot Hfull)
    as (sb & Hrun & Hall_b & Hlog_b & Hout_b & Hnl_b & Hviol_b & Hverb_b & Hobj_b).
  rewrite (Hrun prev Hidx).
  rewrite bool_decide_eq_false_2 by congruence.
  assert (Hagree : heap_agree but_contents (objects s) (objects sb)).
  { destruct (parent ob); rewrite Hobj_b.
    - by apply heap_agree_alter.
    - apply heap_agree_refl. }
  pose proof (but_contents_skeleton _ _ Hagree) as Hskel.
  destruct (lookup_agree_but_contents _ _ _ _ Hagree Hob) as (ob_b & Hob_b & Eob).
  destruct (lookup_agree_but_contents _ _ _ _ Hagree Hpob) as (pob_b & Hpob_b & Epob).
  assert (Hname_o : name ob_b = name ob) by (injection Eob; intros; congruence).
  assert (Hname_p : name pob_b = name pob) by (injection Epob; intros; congruence).
  assert (Hcls_p : py_class pob_b = py_class pob)
    by (injection Epob; intros; congruence).
  assert (Hdesc_b : descendants (objects sb) prev = Ok L).
  { destruct (parent ob) as [p|] eqn:Hp; rewrite Hobj_b; [|done].
    apply descendants_alter_off; [done|].
    intros HpL.
    destruct (fullName_inv _ _ _ Hfull) as (ob' & Hob' & Hop).
    rewrite Hob in Hob'. injection Hob' as <-. rewrite Hp in Hop.
    destruct Hop as (kp & Hkp & E).
    pose proof (fullName_under_length _ _ _ _ _ _ Hclosed Hpfull HpL Hkp) as Hlen.
    rewrite E in Hlen. rewrite !str_app_length in Hlen. simpl in Hlen. lia. }
  destruct (handleDuplicate_spec sb obj ob_b prev pob_b full L dsc)
    as (s' & Hhd & Hnew & Hold & _ & Hprev' & Hlog & Hout & _); try done.
  - by rewrite <- (fullName_agree _ _ _ Hskel).
  - by rewrite Hall_b.
  - by rewrite <- (fullName_agree _ _ _ Hskel).
  - by rewrite Hname_o.
  - by rewrite Hname_p.
  - intros x Hx. destruct (Hind x Hx) as (k & Hk & Hkx).
    exists k. rewrite <- (fullName_agree _ _ _ Hskel), Hall_b. done.
  - by apply (closed_under_parent_agree (objects s)), Hclosed;
      apply skeleton_parent.
  - by rewrite <- (description_but_contents _ _ _ Hagree).
  - rewrite Hall_b in Hold, Hprev'.
    destruct (free_index_spec (allobjects s) full) as [Hfree Hbelow].
    exists s', (free_index (allobjects s) full).
    assert (Htext : report_text dsc "parsing" ob_b
                      ("duplicate " +:+ class_name (py_class pob_b) +:+ " "
                       +:+ pystr.repr full)
                    = report_text dsc "parsing" ob
                        ("duplicate " +:+ class_name (py_class pob) +:+ " "
                         +:+ pystr.repr full)).
    { unfold report_text.
      by rewrite Hcls_p, (shown_lineno_but_contents _ ob ob_b). }
    rewrite Htext in Hlog, Hout.
    split_and!; try done.
    + by rewrite Hlog, Hlog_b.
    + rewrite Hout, Hverb_b, Hout_b. unfold printed.
      by rewrite Hnl_b, Hout_b.
Qed.

Lemma C1_duplicate_second_wins_witness :
  ∃ s', addObject 3 dup_sys = Return tt s'
        ∧ allobjects s' !! "mod.C" = Some 3
        ∧ allobjects s' !! "mod.C 1" = Some 1
        ∧ length (msg_log s') = 1.
Proof.
  assert (Hind : indexed dup_sys [1; 2]).
  { intros x Hx.
    apply elem_of_cons in Hx as [->|Hx];
      [exists "mod.C"; split; vm_compute; reflexivity|].
    apply elem_of_cons in Hx as [->|Hx];
      [exists "mod.C.m"; split; vm_compute; reflexivity|].
    by apply elem_of_nil in Hx. }
  assert (Hclosed : closed_under_parent (objects dup_sys) [1; 2] 1).
  { intros x Hx Hne.
    apply elem_of_cons in Hx as [->|Hx]; [done|].
    apply elem_of_cons in Hx as [->|Hx]; [|by apply elem_of_nil in Hx].
    eexists _, 1. split; [vm_compute; reflexivity|].
    split; [reflexivity|by left]. }
  assert (Hnd : NoDup [1; 2]).
  { apply NoDup_cons. split; [|apply NoDup_singleton].
    intros H. apply list_elem_of_singleton in H. discriminate. }
  destruct (C1_duplicate_second_wins dup_sys 3 1
              (mkDocumentable ClassT "C" (Some 0) (Some 0) None (Some CLASS)
                 9 0 [] [] false PROCESSED None [] [] [] None None None [] [])
              (mkDocumentable ClassT "C" (Some 0) (Some 0) None (Some CLASS)
                 5 0 [("m", 2)] [] false PROCESSED None [] [] [] None None
                 None [] [])
              "mod.C" "mod" [1; 2])
    as (s' & i & Hrun & Hfree & Hbelow & Hnew & Hold & _ & Hlog & _);
    try done; try (vm_compute; reflexivity).
  assert (i = 1) as ->.
  { destruct i as [|[|i]]; [|done|].
    - vm_compute in Hfree. discriminate.
    - destruct (Hbelow 1) as [x Hx]; [lia|]. vm_compute in Hx. discriminate. }
  exists s'. split_and!; try done.
  rewrite Hlog. reflexivity.
Defined.
(** ** Expanding names *)

Lemma split_nonempty s : pystr.split s ≠ [].
Proof.
  destruct s as [|c s]; [done|]. simpl.
  destruct (pystr.is_dot c); [done|]. by destruct (pystr.split s).
Qed.

Lemma split1_no_dot s a : pystr.split1 s = (a, None) → a = s.
Proof.
  revert a. induction s as [|c s IH]; intros a; simpl.
  - by intros [= <-].
  - destruct (pystr.is_dot c); [done|].
    destruct (pystr.split1 s) as [h t]. intros [= <- ->]. f_equal. by apply IH.
Qed.

Section consistent.
Context (s : System) (Hs : consistent s = true).

Lemma consistent_object o ob :
  objects s !! o = Some ob → object_ok (objects s) o ob = true.
Proof.
  intros Ho. unfold consistent in Hs.
  apply andb_prop in Hs as [H _]. apply andb_prop in H as [H _].
  rewrite forallb_forall in H.
  apply (H (o, ob)). apply list_elem_of_In. by apply elem_of_map_to_list.
Qed.

Lemma consistent_root r :
  r ∈ rootobjects s →
  ∃ rob, objects s !! r = Some rob ∧ is_Some (allobjects s !! name rob).
Proof.
  intros Hr. unfold consistent in Hs.
  apply andb_prop in Hs as [H _]. apply andb_prop in H as [_ H].
  rewrite forallb_forall in H.
  apply list_elem_of_In, H in Hr. unfold root_ok in Hr.
  destruct (objects s !! r) as [rob|]; [|done].
  exists rob. split; [done|]. by apply bool_decide_eq_true in Hr.
Qed.

Lemma consistent_index k o :
  allobjects s !! k = Some o → is_Some (objects s !! o).
Proof.
  intros Hk. unfold consistent in Hs.
  apply andb_prop in Hs as [_ H].
  rewrite forallb_forall in H.
  assert (In (k, o) (map_to_list (allobjects s))) as Hin
    by by apply list_elem_of_In, elem_of_map_to_list.
  apply H in Hin. by apply bool_decide_eq_true in Hin.
Qed.

Lemma consistent_fullName o :
  is_Some (objects s !! o) → ∃ k, fullName (objects s) o = Ok k.
Proof.
  intros [ob Ho]. pose proof (consistent_object o ob Ho) as H.
  unfold object_ok in H.
  repeat (apply andb_prop in H as [H _]).
  destruct (fullName (objects s) o) as [k|]; [by exists k|done].
Qed.

Lemma consistent_contents o ob nm c :
  objects s !! o = Some ob → pydict.get nm (contents ob) = Some c →
  is_Some (objects s !! c).
Proof.
  intros Ho Hc. pose proof (consistent_object o ob Ho) as H.
  unfold object_ok in H.
  apply andb_prop in H as [H _]. apply andb_prop in H as [_ H].
  rewrite forallb_forall in H.
  assert (In c (pydict.values (contents ob))) as Hin.
  { clear -Hc. unfold pydict.values. induction (contents ob) as [|[k v] l IH];
      [done|]. simpl in *. case_bool_decide.
    - left. congruence.
    - right. by apply IH. }
  apply H in Hin. by apply bool_decide_eq_true in Hin.
Qed.
End consistent.

Section expand.
Context (s : System) (Hs : consistent s = true).
Local Abbreviation h := (objects s).

Lemma consistent_parent o ob :
  h !! o = Some ob → parent ob = None →
  py_class ob = ModuleT ∨ py_class ob = PackageT.
Proof.
  intros Ho Hp. pose proof (consistent_object s Hs o ob Ho) as H.
  unfold object_ok in H.
  apply andb_prop in H as [H _]. apply andb_prop in H as [H _].
  apply andb_prop in H as [_ H]. rewrite Hp in H.
  destruct (py_class ob); auto; done.
Qed.

Lemma _localNameToFullName_go_total n o k nm :
  fullName_go n h o = Ok k → ∃ r, _localNameToFullName_go n h o nm = Ok r.
Proof.
  revert o k. induction n as [|n IH]; intros o k; [done|]. simpl.
  unfold getobj. destruct (h !! o) as [ob|] eqn:Ho; [|done]. simpl.
  assert (Hmember : ∀ c, pydict.get nm (contents ob) = Some c →
                         ∃ r, fullName h c = Ok r).
  { intros c Hc. apply (consistent_fullName s Hs).
    by apply (consistent_contents s Hs o ob nm c). }
  destruct (parent ob) as [p|] eqn:Hp.
  - destruct (fullName_go n h p) as [kp|] eqn:Hkp; [|done]. intros _.
    destruct (IH p kp Hkp) as [r Hr]. rewrite Hr.
    destruct (py_class ob); eauto;
      (destruct (pydict.get nm (contents ob)) as [c|]; [by apply Hmember|]);
      destruct (pydict.get nm (_localNameToFullName_map ob)); eauto.
  - intros _.
    destruct (consistent_parent o ob Ho Hp) as [-> | ->];
      (destruct (pydict.get nm (contents ob)) as [c|]; [by apply Hmember|]);
      destruct (pydict.get nm (_localNameToFullName_map ob)); eauto.
Qed.

Lemma _localNameToFullName_total o nm :
  is_Some (h !! o) → ∃ r, _localNameToFullName h o nm = Ok r.
Proof.
  intros Ho. destruct (consistent_fullName s Hs o Ho) as [k Hk].
  by apply (_localNameToFullName_go_total _ _ k).
Qed.

Lemma find_in_total l nm :
  forallb (known_class h) l = true →
  Forall (λ x, is_external x = false) l →
  ∃ r, find_in h l nm = Ok r ∧ ∀ x, r = Some x → is_Some (h !! x).
Proof.
  induction l as [|[b|e] l IH]; intros Hk Hext; simpl.
  - exists None. by split.
  - apply andb_prop in Hk as [Hb Hk]. apply bool_decide_eq_true in Hb.
    destruct Hb as [bob Hb]. unfold getobj. rewrite Hb. simpl.
    destruct (pydict.get nm (contents bob)) as [x|] eqn:Hx.
    + exists (Some x). split; [done|]. intros ? [= <-].
      by apply (consistent_contents s Hs b bob nm x).
    + apply IH; [done|]. by inversion Hext.
  - inversion Hext; subst. done.
Qed.

Lemma find_total o ob nm :
  h !! o = Some ob → is_Class (py_class ob) = true →
  ∃ r, find h o nm = Ok r ∧ ∀ x, r = Some x → is_Some (h !! x).
Proof.
  intros Ho Hc. pose proof (consistent_object s Hs o ob Ho) as H.
  unfold object_ok in H. apply andb_prop in H as [_ H]. rewrite Hc in H.
  unfold find. destruct (mro h o false true) as [l|] eqn:Hl; [|done]. simpl.
  apply find_in_total; [done|].
  unfold mro in Hl. unfold getobj in Hl. rewrite Ho in Hl. simpl in Hl.
  destruct (_mro ob) as [m|].
  - injection Hl as <-. apply Forall_forall. intros x Hx.
    by apply list_elem_of_filter in Hx as [Hx _].
  - destruct (allbases h o true) as [bs|]; [|done]. injection Hl as <-.
    apply Forall_forall. intros x Hx. apply list_elem_of_fmap in Hx as (y & -> & _).
    done.
Qed.

Lemma expandName_part_total obj i p :
  is_Some (h !! obj) →
  ∃ full brk, expandName_part h obj i p = Ok (full, brk)
    ∧ (brk = true →
       i ≠ 0 ∧ ∃ on, fullName h obj = Ok on ∧ full = on +:+ "." +:+ p).
Proof.
  intros Hobj. unfold expandName_part.
  destruct (_localNameToFullName_total obj p Hobj) as [fn ->]. simpl.
  destruct (bool_decide (fn = p) && negb (i =? 0)) eqn:Hcond;
    [|by exists fn, false].
  apply andb_prop in Hcond as [_ Hi].
  apply negb_true_iff, Nat.eqb_neq in Hi.
  destruct Hobj as [ob Hob]. unfold getobj. rewrite Hob. simpl.
  destruct (consistent_fullName s Hs obj (mk_is_Some _ _ Hob)) as [on Hon].
  assert (Hfinal : ∀ fn',
            ∃ full brk,
              (if bool_decide (fn' = p)
               then let* on := fullName h obj in Ok (on +:+ "." +:+ p, true)
               else Ok (fn', false)) = Ok (full, brk)
              ∧ (brk = true →
                 i ≠ 0 ∧ ∃ on, fullName h obj = Ok on ∧ full = on +:+ "." +:+ p)).
  { intros fn'. case_bool_decide.
    - rewrite Hon. simpl. exists (on +:+ "." +:+ p), true. split; [done|].
      intros _. split; [done|]. by exists on.
    - by exists fn', false. }
  destruct (is_Class (py_class ob)) eqn:Hc; [|apply Hfinal].
  destruct (find_total obj ob p Hob Hc) as (r & -> & Hr). simpl.
  destruct r as [x|]; [|apply Hfinal].
  destruct (consistent_fullName s Hs x (Hr x eq_refl)) as [kx ->]. simpl.
  apply Hfinal.
Qed.

Lemma expandName_loop_total lookup parts :
  lookup_ok h lookup →
  ∀ obj i, parts ≠ [] → is_Some (h !! obj) →
  ∃ k obj' p full brk,
    parts !! k = Some p
    ∧ is_Some (h !! obj')
    ∧ expandName_part h obj' (i + k) p = Ok (full, brk)
    ∧ expandName_loop lookup h obj i parts
      = Ok (pystr.join (full :: drop (S k) parts))
    ∧ (brk = true →
       i + k ≠ 0 ∧ ∃ on, fullName h obj' = Ok on ∧ full = on +:+ "." +:+ p)
    ∧ (brk = true ∨ S k = length parts ∨ lookup full = Ok None
       ∨ lookup full = Raise RecursionError).
Proof.
  intros Hl. induction parts as [|p rest IH]; intros obj i Hne Hobj; [done|].
  simpl.
  destruct (expandName_part_total obj i p Hobj) as (full & brk & Hpart & Hbrk).
  rewrite Hpart. simpl.
  assert (Hhere : ∀ stop : brk = true ∨ S 0 = length (p :: rest)
                           ∨ lookup full = Ok None
                           ∨ lookup full = Raise RecursionError,
            ∃ k obj' p' full' brk',
              (p :: rest) !! k = Some p'
              ∧ is_Some (h !! obj')
              ∧ expandName_part h obj' (i + k) p' = Ok (full', brk')
              ∧ Ok (pystr.join (full :: rest))
                = Ok (pystr.join (full' :: drop (S k) (p :: rest)))
              ∧ (brk' = true →
                 i + k ≠ 0
                 ∧ ∃ on, fullName h obj' = Ok on ∧ full' = on +:+ "." +:+ p')
              ∧ (brk' = true ∨ S k = length (p :: rest)
                 ∨ lookup full' = Ok None
                 ∨ lookup full' = Raise RecursionError)).
  { intros stop. exists 0, obj, p, full, brk. rewrite Nat.add_0_r.
    split_and!; try done. }
  destruct brk; [apply Hhere; by left|].
  destruct (Hl full) as [E | [E | (nxt & E & Hnxt)]]; rewrite E.
  - apply Hhere. auto.
  - apply Hhere. auto.
  - destruct rest as [|p2 rest]; [apply Hhere; auto|].
    destruct (IH nxt (S i) ltac:(done) Hnxt)
      as (k & obj' & p' & full' & brk' & Hk & Ho' & Hp' & Hrun & Hb' & Hstop).
    exists (S k), obj', p', full', brk'.
    replace (i + S k) with (S i + k) by lia.
    split_and!; try done.
    all: destruct Hstop as [?|[?|?]]; auto; right; left; simpl in *; lia.
Qed.

Lemma objForFullName_lookup_ok d : lookup_ok h (λ fn, objForFullName d s fn false).
Proof.
  induction d as [|d IH]; intros fn; [by left|].
  unfold objForFullName; fold objForFullName.
  destruct (allobjects s !! fn) as [o|] eqn:Hfn.
  { right. right. exists o. split; [done|]. by apply (consistent_index s Hs fn). }
  pose proof (consistent_root s Hs) as Hroots.
  revert Hroots. generalize (rootobjects s). intros roots.
  induction roots as [|r roots IHr]; intros Hroots; [by right; left|].
  destruct (Hroots r) as (rob & Hrob & Hkey); [by left|].
  unfold getobj at 1. rewrite Hrob. cbn [rbind].
  case_bool_decide as Hname.
  - destruct (pystr.split1 fn) as [a [rest|]] eqn:Hsplit; cbn [fst snd] in *.
    + destruct (expandName_loop_total (λ fn0, objForFullName d s fn0 false)
                  (pystr.split rest) IH r 0 (split_nonempty rest)
                  (mk_is_Some _ _ Hrob))
        as (k & obj' & p' & full' & brk' & _ & _ & _ & Hrun & _).
      rewrite Hrun.
      generalize (pystr.join (full' :: drop (S k) (pystr.split rest))).
      intros e. cbn [rbind]. destruct (allobjects s !! e) as [o|] eqn:Ho.
      * right. right. exists o. split; [done|].
        by apply (consistent_index s Hs _ _ Ho).
      * by right; left.
    + apply split1_no_dot in Hsplit. subst a. rewrite Hname in Hkey.
      rewrite Hfn in Hkey. by destruct Hkey.
  - apply IHr. intros x Hx. apply Hroots. by right.
Qed.

End expand.

(** *** The expansion the code computes is the one the words describe *)

Section meaning.
Context (h : heap).

Lemma _localNameToFullName_go_sound n o nm r :
  _localNameToFullName_go n h o nm = Ok r → scope_lookup h o nm r.
Proof.
  revert o r. induction n as [|n IH]; intros o r; [done|]. simpl.
  unfold getobj. destruct (h !! o) as [ob|] eqn:Ho; [|done]. simpl.
  assert (Hout : is_Module (py_class ob) = false →
            (is_Class (py_class ob) = true →
             pydict.get nm (contents ob) = None
             ∧ pydict.get nm (_localNameToFullName_map ob) = None) →
            match parent ob with
            | Some p => _localNameToFullName_go n h p nm
            | None => Raise AttributeError
            end = Ok r → scope_lookup h o nm r).
  { intros Hm Hc Hrun. destruct (parent ob) as [p|] eqn:Hp; [|done].
    eapply scope_outward; eauto. }
  destruct (py_class ob) eqn:Hcls.
  1,2: destruct (pydict.get nm (contents ob)) as [c|] eqn:Hc;
       [intros Hfull; eapply scope_member; eauto; by rewrite Hcls|];
       destruct (pydict.get nm (_localNameToFullName_map ob)) as [full|] eqn:Ha;
       intros [= <-];
       [eapply scope_import; eauto; by rewrite Hcls
       |eapply scope_unbound; eauto; by rewrite Hcls].
  - destruct (pydict.get nm (contents ob)) as [c|] eqn:Hc;
      [intros Hfull; eapply scope_member; eauto; by rewrite Hcls|].
    destruct (pydict.get nm (_localNameToFullName_map ob)) as [full|] eqn:Ha.
    + intros [= <-]. eapply scope_import; eauto. by rewrite Hcls.
    + apply Hout; [done|by intros _].
  - by apply Hout.
  - by apply Hout.
Qed.

Lemma scope_lookup_unique o nm r r' :
  scope_lookup h o nm r → scope_lookup h o nm r' → r = r'.
Proof.
  intros H. revert r'.
  induction H as [o ob nm c full Ho Hk Hc Hf|o ob nm full Ho Hk Hc Ha
                 |o ob nm Ho Hm Hc Ha|o ob par nm full Ho Hm Hcls Hp _ IH];
    intros r' H'.
  - inversion H' as [? ob' ? c' ? Ho' _ Hc' Hf'|? ob' ? ? Ho' _ Hc' _
                    |? ob' ? Ho' _ Hc' _|? ob' ? ? ? Ho' Hm' Hcls' _ _]; subst;
      rewrite Ho in Ho'; injection Ho' as <-; try congruence.
    destruct (py_class ob); try done.
    destruct (Hcls' eq_refl). congruence.
  - inversion H' as [? ob' ? c' ? Ho' _ Hc' Hf'|? ob' ? ? Ho' _ Hc' Ha'
                    |? ob' ? Ho' _ Hc' Ha'|? ob' ? ? ? Ho' Hm' Hcls' _ _]; subst;
      rewrite Ho in Ho'; injection Ho' as <-; try congruence.
    destruct (py_class ob); try done.
    destruct (Hcls' eq_refl). congruence.
  - inversion H' as [? ob' ? c' ? Ho' _ Hc' Hf'|? ob' ? ? Ho' _ Hc' Ha'
                    |? ob' ? Ho' _ Hc' Ha'|? ob' ? ? ? Ho' Hm' Hcls' _ _]; subst;
      rewrite Ho in Ho'; injection Ho' as <-; congruence.
  - inversion H' as [? ob' ? c' ? Ho' Hk' Hc' Hf'|? ob' ? ? Ho' Hk' Hc' Ha'
                    |? ob' ? Ho' Hm' Hc' Ha'|? ob' par' ? ? Ho' Hm' Hcls' Hp' Hl'];
      subst; rewrite Ho in Ho'; injection Ho' as <-.
    + destruct (py_class ob); try done. destruct (Hcls eq_refl). congruence.
    + destruct (py_class ob); try done. destruct (Hcls eq_refl). congruence.
    + congruence.
    + rewrite Hp in Hp'. injection Hp' as <-. by apply IH.
Qed.

Lemma find_in_sound l nm r :
  find_in h l nm = Ok r → inherited_member h nm l r.
Proof.
  induction l as [|[b|e] l IH]; simpl.
  - intros [= <-]. constructor.
  - unfold getobj. destruct (h !! b) as [bob|] eqn:Hb; [|done]. simpl.
    destruct (pydict.get nm (contents bob)) as [x|] eqn:Hx.
    + intros [= <-]. by eapply inherited_here.
    + intros Hr. eapply inherited_later; eauto.
  - done.
Qed.

Lemma inherited_member_unique l nm r r' :
  inherited_member h nm l r → inherited_member h nm l r' → r = r'.
Proof.
  induction 1 as [|b bob l x Hb Hx|b bob l r Hb Hx _ IH]; intros H';
    inversion H'; subst; try done; try congruence.
  by apply IH.
Qed.

Lemma component_unique obj i p r r' :
  component h obj i p r → component h obj i p r' → r = r'.
Proof.
  intros H H'.
  destruct H as [full Hl Hc|ob l x full Hl Hi Ho Hcls Hm Hin Hf Hne|Hl Hi Hno];
    destruct H' as [full' Hl' Hc'|ob' l' x' full' Hl' Hi' Ho' Hcls' Hm' Hin' Hf' Hne'
                   |Hl' Hi' Hno'].
  - f_equal. by eapply scope_lookup_unique.
  - pose proof (scope_lookup_unique _ _ _ _ Hl Hl') as ->. by destruct Hc.
  - pose proof (scope_lookup_unique _ _ _ _ Hl Hl') as ->. by destruct Hc.
  - pose proof (scope_lookup_unique _ _ _ _ Hl Hl') as <-. by destruct Hc'.
  - rewrite Ho in Ho'. injection Ho' as <-. rewrite Hm in Hm'.
    injection Hm' as <-.
    pose proof (inherited_member_unique _ _ _ _ Hin Hin') as [= <-]. congruence.
  - by destruct (Hne (Hno' ob l x full Ho Hcls Hm Hin Hf)).
  - pose proof (scope_lookup_unique _ _ _ _ Hl Hl') as <-. by destruct Hc'.
  - by destruct (Hne' (Hno ob' l' x' full' Ho' Hcls' Hm' Hin' Hf')).
  - done.
Qed.

Lemma expandName_part_sound obj i p full brk :
  expandName_part h obj i p = Ok (full, brk) →
  if brk then
    component h obj i p None
    ∧ ∃ on, fullName h obj = Ok on ∧ full = on +:+ "." +:+ p
  else component h obj i p (Some full).
Proof.
  unfold expandName_part.
  destruct (_localNameToFullName h obj p) as [fn|] eqn:Hfn; [|done].
  apply _localNameToFullName_go_sound in Hfn. cbn [rbind].
  destruct (bool_decide (fn = p) && negb (i =? 0)) eqn:Hcond.
  2:{ intros [= <- <-]. apply component_found; [done|].
      apply andb_false_iff in Hcond as [Hc|Hc].
      - left. by apply bool_decide_eq_false in Hc.
      - right. apply negb_false_iff in Hc. by apply Nat.eqb_eq in Hc. }
  apply andb_prop in Hcond as [Hp Hi].
  apply bool_decide_eq_true in Hp. subst fn.
  apply negb_true_iff, Nat.eqb_neq in Hi.
  unfold getobj. destruct (h !! obj) as [ob|] eqn:Hob; [|done]. cbn [rbind].
  assert (Hstop : component h obj i p None →
            (let* on := fullName h obj in Ok (on +:+ "." +:+ p, true))
            = Ok (full, brk) →
            if brk then
              component h obj i p None
              ∧ ∃ on, fullName h obj = Ok on ∧ full = on +:+ "." +:+ p
            else component h obj i p (Some full)).
  { intros Hc. destruct (fullName h obj) as [on|]; [|done]. simpl.
    intros [= <- <-]. split; [done|]. by exists on. }
  destruct (is_Class (py_class ob)) eqn:Hcls.
  - unfold find. destruct (mro h obj false true) as [l|] eqn:Hl; [|done].
    cbn [rbind]. destruct (find_in h l p) as [r|] eqn:Hr; [|done].
    apply find_in_sound in Hr. cbn [rbind].
    destruct r as [x|].
    + destruct (fullName h x) as [fx|] eqn:Hfx; [|done]. cbn [rbind].
      case_bool_decide as Hfxp.
      * apply Hstop. apply component_unresolved; [done..|].
        intros ob' l' x' full' Hob' _ Hl' Hin' Hf'.
        rewrite Hl in Hl'. injection Hl' as <-.
        pose proof (inherited_member_unique _ _ _ _ Hr Hin') as [= <-].
        congruence.
      * intros [= <- <-]. by eapply component_inherited.
    + cbn [rbind]. rewrite bool_decide_eq_true_2 by done.
      apply Hstop. apply component_unresolved; [done..|].
      intros ob' l' x' full' Hob' _ Hl' Hin' Hf'.
      rewrite Hl in Hl'. injection Hl' as <-.
      by pose proof (inherited_member_unique _ _ _ _ Hr Hin').
  - cbn [rbind]. rewrite bool_decide_eq_true_2 by done.
    apply Hstop. apply component_unresolved; [done..|].
    intros ob' l' x' full' Hob'. rewrite Hob in Hob'. injection Hob' as <-.
    by rewrite Hcls.
Qed.

Lemma expandName_loop_sound lookup parts :
  ∀ obj i r, expandName_loop lookup h obj i parts = Ok r →
    expansion lookup h obj i parts r.
Proof.
  induction parts as [|p rest IH]; intros obj i r; [done|].
  cbn [expandName_loop].
  destruct (expandName_part h obj i p) as [[full brk]|] eqn:Hpart; [|done].
  apply expandName_part_sound in Hpart. cbn [rbind].
  destruct brk.
  - destruct Hpart as (Hc & on & Hon & ->). intros [= <-].
    by apply expansion_unresolved.
  - destruct (lookup full) as [[nxt|]|e] eqn:Hl.
    + destruct rest as [|q rest].
      * intros [= <-]. by eapply expansion_last.
      * intros Hrun. eapply expansion_next; eauto.
    + intros [= <-]. apply expansion_unknown; auto.
    + destruct e; try done. intros [= <-]. apply expansion_unknown; auto.
Qed.

Lemma expansion_unique lookup parts :
  ∀ obj i r r', expansion lookup h obj i parts r →
    expansion lookup h obj i parts r' → r = r'.
Proof.
  intros obj i r r' H. revert r'.
  induction H as [obj i p rest on Hc Hon|obj i p rest full Hc Hl
                 |obj i p full nxt Hc Hl|obj i p q rest full nxt r Hc Hl _ IH];
    intros r' H'.
  - inversion H' as [? ? ? ? on' Hc' Hon'|? ? ? ? full' Hc' Hl'
                    |? ? ? full' nxt' Hc' Hl'|? ? ? ? ? full' nxt' ? Hc' Hl' Hr'];
      subst;
      try (by pose proof (component_unique _ _ _ _ _ Hc Hc')).
    congruence.
  - inversion H' as [? ? ? ? on' Hc' Hon'|? ? ? ? full' Hc' Hl'
                    |? ? ? full' nxt' Hc' Hl'|? ? ? ? ? full' nxt' ? Hc' Hl' Hr'];
      subst;
      try (by pose proof (component_unique _ _ _ _ _ Hc Hc'));
      pose proof (component_unique _ _ _ _ _ Hc Hc') as [= <-];
      try done; destruct Hl; congruence.
  - inversion H' as [? ? ? ? on' Hc' Hon'|? ? ? ? full' Hc' Hl'
                    |? ? ? full' nxt' Hc' Hl'|? ? ? ? ? full' nxt' ? Hc' Hl' Hr'];
      subst;
      try (by pose proof (component_unique _ _ _ _ _ Hc Hc'));
      pose proof (component_unique _ _ _ _ _ Hc Hc') as [= <-];
      try done; destruct Hl'; congruence.
  - inversion H' as [? ? ? ? on' Hc' Hon'|? ? ? ? full' Hc' Hl'
                    |? ? ? full' nxt' Hc' Hl'|? ? ? ? ? full' nxt' ? Hc' Hl' Hr'];
      subst;
      try (by pose proof (component_unique _ _ _ _ _ Hc Hc'));
      pose proof (component_unique _ _ _ _ _ Hc Hc') as [= <-].
    + destruct Hl'; congruence.
    + rewrite Hl in Hl'. injection Hl' as <-. by apply IH.
Qed.

End meaning.

(** C4, as stated, fails: [expandName] can raise. When the package [p],
    whose processing has begun, is found a second time,
    [_handleDuplicateModule] raises [ValueError] after it has taken [p]
    out of the index; [p] is still a root object, and in the system left
    behind the expansion of the name [p] from the module [p.a] raises
    [IndexError]. *)
Lemma C4_counterexample :
  _handleDuplicateModule 0 2 begun_sys
  = Throw (ValueError "list.remove(x): x not in list") half_removed_sys
  ∧ is_Some (objects half_removed_sys !! 1)
  ∧ consistent half_removed_sys = false
  ∧ expandName 5 half_removed_sys 1 "p" = Raise IndexError.
Proof.
  split_and!; [vm_compute; reflexivity|vm_compute; eexists; reflexivity
              |vm_compute; reflexivity|vm_compute; reflexivity].
Qed.

(** C4, amended: in a consistent system, for every object [ctx] of the
    system, every name [nm] and every recursion allowance [d],
    [expandName] returns a string, and the string is the one expansion of
    [nm] from [ctx]: the components are resolved one at a time, each from
    the object known under the full name the one before resolved to; when
    a component cannot be resolved the result is the full name of the
    object reached so far, a dot, and the components that are left; when
    a component resolves to a full name under which no object is known,
    or whose lookup runs into the recursion limit, the result is that
    full name followed by the components after it. *)
Theorem C4_expandName_returns_expansion (d : nat) (s : System) (ctx : oid)
    (nm : string) :
  consistent s = true →
  is_Some (objects s !! ctx) →
  ∃ r, expandName d s ctx nm = Ok r
       ∧ expands d s ctx nm r
       ∧ ∀ r', expands d s ctx nm r' → r' = r.
Proof.
  intros Hs Hctx.
  destruct (expandName_loop_total s Hs (λ fn, objForFullName d s fn false)
              (pystr.split nm) (objForFullName_lookup_ok s Hs d) ctx 0
              (split_nonempty nm) Hctx)
    as (k & obj & p & full & brk & _ & _ & _ & Hrun & _).
  eexists. split; [exact Hrun|].
  apply expandName_loop_sound in Hrun. split; [exact Hrun|].
  intros r' Hr'. by apply (expansion_unique _ _ _ _ _ _ _ Hr' Hrun).
Qed.

Lemma C4_expandName_returns_expansion_witness :
  expandName 5 dup_sys 2 "C.m.x.y" = Ok "mod.C.m.x.y"
  ∧ expands 5 dup_sys 2 "C.m.x.y" "mod.C.m.x.y".
Proof.
  destruct (C4_expandName_returns_expansion 5 dup_sys 2 "C.m.x.y")
    as (r & Hrun & Hexp & _).
  - vm_compute. reflexivity.
  - vm_compute. eexists. reflexivity.
  - assert (r = "mod.C.m.x.y") as ->.
    { vm_compute in Hrun. by injection Hrun. }
    split; [vm_compute; reflexivity|exact Hexp].
Defined.
(** ** Discovering modules *)

Lemma fullName_go_insert_fresh n (h : heap) x xob o k :
  h !! x = None → fullName_go n h o = Ok k →
  fullName_go n (<[x := xob]> h) o = Ok k.
Proof.
  intros Hx. revert o k. induction n as [|n IH]; intros o k; [done|]. simpl.
  unfold getobj. destruct (h !! o) as [ob|] eqn:Ho; [|done].
  assert (o ≠ x) by congruence.
  rewrite lookup_insert_ne by done. rewrite Ho. simpl.
  destruct (parent ob) as [p|]; [|done].
  destruct (fullName_go n h p) as [kp|] eqn:Hkp; [|done].
  by rewrite (IH p kp Hkp).
Qed.

Lemma fullName_insert_fresh (h : heap) x xob o k :
  h !! x = None → fullName h o = Ok k → fullName (<[x := xob]> h) o = Ok k.
Proof.
  intros Hx Hk. unfold fullName in *.
  apply (fullName_go_mono (S (size h))); [|rewrite map_size_insert_None by done; lia].
  by apply fullName_go_insert_fresh.
Qed.

Lemma fullName_go_S n (h : heap) o :
  fullName_go (S n) h o
  = let* ob := getobj h o in
    match parent ob with
    | None => Ok (name ob)
    | Some p => let* pn := fullName_go n h p in Ok (pn +:+ "." +:+ name ob)
    end.
Proof. reflexivity. Qed.

Lemma fullName_insert_child (h : heap) x xob p kp :
  h !! x = None → parent xob = Some p → fullName h p = Ok kp →
  fullName (<[x := xob]> h) x = Ok (kp +:+ "." +:+ name xob).
Proof.
  intros Hx Hp Hkp. unfold fullName.
  rewrite map_size_insert_None by done. rewrite fullName_go_S.
  unfold getobj. rewrite lookup_insert_eq. cbn [rbind]. rewrite Hp.
  rewrite (fullName_go_insert_fresh _ h x xob p kp Hx Hkp). done.
Qed.

Lemma fullName_insert_root (h : heap) x xob :
  parent xob = None → fullName (<[x := xob]> h) x = Ok (name xob).
Proof.
  intros Hp. unfold fullName. rewrite fullName_go_S.
  unfold getobj. rewrite lookup_insert_eq. cbn [rbind]. by rewrite Hp.
Qed.

Lemma addObject_fresh s obj ob full :
  objects s !! obj = Some ob →
  (parent ob = None → is_Module (py_class ob) = true) →
  fullName (objects s) obj = Ok full →
  allobjects s !! full = None →
  ∃ s', addObject obj s = Return tt s'
        ∧ allobjects s' = <[full := obj]> (allobjects s)
        ∧ heap_agree but_contents (objects s) (objects s')
        ∧ unprocessed_modules s' = unprocessed_modules s.
Proof.
  intros Hob Hroot Hfull Hnone.
  set (sa := if is_Module (py_class ob)
             then set_modules (<[full := obj]> (modules s)) s else s).
  assert (Hobj_a : objects sa = objects s) by (unfold sa; by destruct (is_Module _)).
  set (sb := match parent ob with
             | Some p =>
                 update p (λ pob, set_contents
                                    (pydict.set (name ob) obj (contents pob)) pob) sa
             | None => set_rootobjects (rootobjects sa ++ [obj]) sa
             end).
  assert (Hagree : heap_agree but_contents (objects s) (objects sb)).
  { unfold sb. destruct (parent ob); simpl; rewrite Hobj_a.
    - by apply heap_agree_alter.
    - apply heap_agree_refl. }
  assert (Hall : allobjects sb = allobjects s).
  { unfold sb, sa. by destruct (parent ob), (is_Module (py_class ob)). }
  exists (set_allobjects (<[full := obj]> (allobjects sb)) sb). split_and!.
  - unfold addObject.
    rewrite (bind_lift _ _ _ ob) by (unfold getobj; by rewrite Hob).
    rewrite (bind_Return _ _ _ tt sa).
    2:{ unfold sa. destruct (is_Module (py_class ob)); [|done].
        by rewrite (bind_lift _ _ _ full). }
    rewrite (bind_Return _ _ _ tt sb).
    2:{ unfold sb. destruct (parent ob); [done|]. by rewrite Hroot. }
    rewrite (bind_lift _ _ _ full).
    2:{ by rewrite <- (fullName_agree _ _ _ (but_contents_skeleton _ _ Hagree)). }
    rewrite (bind_Return _ _ _ obj (set_allobjects (<[full := obj]> (allobjects sb)) sb)).
    2:{ by rewrite Hall, Hnone. }
    by rewrite bool_decide_eq_true_2.
  - simpl. by rewrite Hall.
  - done.
  - unfold sb, sa. by destruct (parent ob), (is_Module (py_class ob)).
Qed.

(** [addObject] for a name that is free, with all it changes. *)
Lemma addObject_fresh_full (s : System) (obj : oid) (ob : Documentable)
    (full : string) :
  objects s !! obj = Some ob →
  (parent ob = None → is_Module (py_class ob) = true) →
  fullName (objects s) obj = Ok full →
  allobjects s !! full = None →
  ∃ s', addObject obj s = Return tt s'
        ∧ allobjects s' = <[full := obj]> (allobjects s)
        ∧ objects s'
          = match parent ob with
            | Some p => alter (with_member (name ob) obj) p (objects s)
            | None => objects s
            end
        ∧ rootobjects s'
          = match parent ob with
            | Some _ => rootobjects s
            | None => rootobjects s ++ [obj]
            end
        ∧ modules s'
          = (if is_Module (py_class ob) then <[full := obj]> (modules s)
             else modules s)
        ∧ unprocessed_modules s' = unprocessed_modules s
        ∧ processing_modules s' = processing_modules s
        ∧ module_count s' = module_count s
        ∧ violations s' = violations s
        ∧ msg_log s' = msg_log s
        ∧ stdout s' = stdout s.
Proof.
  intros Hob Hroot Hfull Hnone.
  set (sa := if is_Module (py_class ob)
             then set_modules (<[full := obj]> (modules s)) s else s).
  assert (Hobj_a : objects sa = objects s) by (unfold sa; by destruct (is_Module _)).
  set (sb := match parent ob with
             | Some p => update p (with_member (name ob) obj) sa
             | None => set_rootobjects (rootobjects sa ++ [obj]) sa
             end).
  assert (Hagree : heap_agree but_contents (objects s) (objects sb)).
  { unfold sb. destruct (parent ob); simpl; rewrite Hobj_a.
    - by apply heap_agree_alter.
    - apply heap_agree_refl. }
  assert (Hall : allobjects sb = allobjects s).
  { unfold sb, sa. by destruct (parent ob), (is_Module (py_class ob)). }
  exists (set_allobjects (<[full := obj]> (allobjects sb)) sb).
  split; [|split_and!].
  - unfold addObject.
    rewrite (bind_lift _ _ _ ob) by (unfold getobj; by rewrite Hob).
    rewrite (bind_Return _ _ _ tt sa).
    2:{ unfold sa. destruct (is_Module (py_class ob)); [|done].
        by rewrite (bind_lift _ _ _ full). }
    rewrite (bind_Return _ _ _ tt sb).
    2:{ unfold sb. destruct (parent ob); [done|]. by rewrite Hroot. }
    rewrite (bind_lift _ _ _ full).
    2:{ by rewrite <- (fullName_agree _ _ _ (but_contents_skeleton _ _ Hagree)). }
    rewrite (bind_Return _ _ _ obj (set_allobjects (<[full := obj]> (allobjects sb)) sb)).
    2:{ by rewrite Hall, Hnone. }
    by rewrite bool_decide_eq_true_2.
  - simpl. by rewrite Hall.
  - unfold sb. destruct (parent ob); simpl; by rewrite Hobj_a.
  - unfold sb, sa. by destruct (parent ob), (is_Module (py_class ob)).
  - unfold sb, sa. by destruct (parent ob), (is_Module (py_class ob)).
  - unfold sb, sa. by destruct (parent ob), (is_Module (py_class ob)).
  - unfold sb, sa. by destruct (parent ob), (is_Module (py_class ob)).
  - unfold sb, sa. by destruct (parent ob), (is_Module (py_class ob)).
  - unfold sb, sa. by destruct (parent ob), (is_Module (py_class ob)).
  - unfold sb, sa. by destruct (parent ob), (is_Module (py_class ob)).
  - unfold sb, sa. by destruct (parent ob), (is_Module (py_class ob)).
Qed.

Lemma but_contents_py_class ob ob' :
  but_contents ob = but_contents ob' → py_class ob = py_class ob'.
Proof. intros E. by apply (f_equal py_class) in E. Qed.

Lemma but_contents_module ob ob' :
  but_contents ob = but_contents ob' →
  state ob = state ob' ∧ _py_string ob = _py_string ob'
  ∧ _is_c_module ob = _is_c_module ob'.
Proof.
  intros E. split_and!.
  - by apply (f_equal state) in E.
  - by apply (f_equal _py_string) in E.
  - by apply (f_equal _is_c_module) in E.
Qed.

Lemma add_source_spec s seen d :
  discovered s seen →
  src_fullName d ∉ (src_fullName <$> seen) →
  match src_parent d with
  | None => True
  | Some pn => ∃ e, e ∈ seen ∧ src_fullName e = pn ∧ src_is_package e = true
  end →
  ∃ s', add_source d s = Return tt s' ∧ discovered s' (d :: seen)
        ∧ length (unprocessed_modules s') = S (length (unprocessed_modules s)).
Proof.
  intros (Hdom & Hnd & Hstack & Hreg & Hq) Hnew Hpar.
  set (o := fresh (dom (objects s))).
  assert (Ho : objects s !! o = None) by (apply not_elem_of_dom, is_fresh).
  assert (Hfree : allobjects s !! src_fullName d = None).
  { apply not_elem_of_dom. rewrite Hdom. by rewrite elem_of_list_to_set. }
  assert (∃ par,
            (match src_parent d with
             | None => ret None
             | Some pn =>
                 let+ p := lift (λ s, match allobjects s !! pn with
                                      | Some p => Ok p
                                      | None => Raise (KeyError pn)
                                      end) in
                 let+ pob := lift (λ s, getobj (objects s) p) in
                 if is_Package (py_class pob) then ret (Some p)
                 else throw AssertionError
             end) s = Return par s
            ∧ match par with
              | None => src_parent d = None
              | Some p => ∃ pn, src_parent d = Some pn
                                ∧ fullName (objects s) p = Ok pn
              end) as (par & Hrun_par & Hpar').
  { destruct (src_parent d) as [pn|]; [|by exists None].
    destruct Hpar as (e & He & <- & Hpkg).
    destruct (Hreg e He) as (p & pob & Hp & Hpob & Hpn & Hcls & _).
    exists (Some p). split; [|by eexists].
    rewrite (bind_lift _ _ _ p) by by rewrite Hp.
    rewrite (bind_lift _ _ _ pob) by (unfold getobj; by rewrite Hpob).
    by rewrite Hcls, Hpkg. }
  unfold add_source, addModuleString.
  rewrite (bind_Return _ _ _ par s Hrun_par).
  set (ob := new_module (src_is_package d) (src_modname d) par None (objects s)).
  rewrite (bind_lift _ _ _ ob) by done.
  rewrite (bind_Return (alloc ob) _ s o
             (set_objects (<[o := ob]> (objects s)) s) eq_refl).
  rewrite bind_modify.
  match goal with |- context [update o ?g] => set (g0 := g) end.
  set (s2 := update o g0 (set_objects (<[o := ob]> (objects s)) s)).
  assert (Hobj2 : objects s2 = <[o := g0 ob]> (objects s)).
  { unfold s2, update. simpl. by rewrite alter_insert_eq. }
  assert (Hall2 : allobjects s2 = allobjects s) by done.
  assert (Hfn2 : fullName (objects s2) o = Ok (src_fullName d)).
  { rewrite Hobj2. unfold src_fullName. destruct par as [p|].
    - destruct Hpar' as (pn & -> & Hpn).
      by rewrite (fullName_insert_child _ o (g0 ob) p pn).
    - rewrite Hpar'. by rewrite fullName_insert_root. }
  unfold _addUnprocessedModule. generalize (S (size (allobjects s2))). intros n.
  cbn [_addUnprocessedModule_go].
  rewrite (bind_lift _ _ _ (g0 ob)).
  2:{ unfold getobj. by rewrite Hobj2, lookup_insert_eq. }
  cbn [g0 ob new_module state]. rewrite bool_decide_eq_true_2 by done.
  cbn [negb].
  rewrite (bind_lift _ _ _ _ Hfn2).
  rewrite (bind_lift _ _ _ None) by by rewrite Hall2, Hfree.
  rewrite bind_modify.
  set (s3 := set_unprocessed_modules (unprocessed_modules s2 ++ [o]) s2).
  destruct (addObject_fresh_full s3 o (g0 ob) (src_fullName d))
    as (s4 & Hrun4 & Hall4 & Hobj4 & _ & _ & Hqueue4 & Hstack4 & _); try done.
  { change (objects s3) with (objects s2). by rewrite Hobj2, lookup_insert_eq. }
  { simpl. intros Hp. by destruct (src_is_package d). }
  assert (Hagree4 : heap_agree but_contents (objects s2) (objects s4)).
  { rewrite Hobj4. change (objects s3) with (objects s2).
    destruct (parent (g0 ob)); [|apply heap_agree_refl].
    by apply heap_agree_alter. }
  change (allobjects s3) with (allobjects s) in Hall4.
  change (unprocessed_modules s3) with (unprocessed_modules s ++ [o]) in Hqueue4.
  change (processing_modules s3) with (processing_modules s) in Hstack4.
  rewrite (bind_Return _ _ _ tt s4 Hrun4).
  destruct (progress_spec "analyzeModule" (Z.of_nat (size (allobjects s4))) None
              "modules and packages discovered" s4)
    as (s5 & Hrun5 & Hro5 & _).
  rewrite (bind_Return _ _ _ tt s5) by exact Hrun5.
  pose proof (reporting_only_fields _ _ Hro5)
    as (Hobj5 & Hall5 & _ & _ & Hq5 & Hst5 & _).
  exists (set_module_count (S (module_count s5)) s5). split; [done|].
  unfold discovered.
  change (unprocessed_modules (set_module_count (S (module_count s5)) s5))
    with (unprocessed_modules s5).
  change (allobjects (set_module_count (S (module_count s5)) s5))
    with (allobjects s5).
  change (objects (set_module_count (S (module_count s5)) s5))
    with (objects s5).
  change (processing_modules (set_module_count (S (module_count s5)) s5))
    with (processing_modules s5).
  rewrite Hq5, Hall5, Hobj5, Hst5. clear Hrun5 Hro5 Hq5 Hall5 Hobj5 Hst5.
  rewrite Hall4.
  pose proof (but_contents_skeleton _ _ Hagree4) as Hskel4.
  assert (Hkeep : ∀ x xob, objects s !! x = Some xob →
            ∃ xob4, objects s4 !! x = Some xob4
                    ∧ but_contents xob = but_contents xob4
                    ∧ ∀ k, fullName (objects s) x = Ok k →
                           fullName (objects s4) x = Ok k).
  { intros x xob Hx. assert (x ≠ o) by congruence.
    destruct (lookup_agree_but_contents _ _ x xob Hagree4)
      as (xob4 & Hxob4 & E4); [by rewrite Hobj2, lookup_insert_ne|].
    exists xob4. split_and!; try done. intros k Hk.
    rewrite <- (fullName_agree _ _ _ Hskel4). rewrite Hobj2.
    by apply fullName_insert_fresh. }
  destruct (lookup_agree_but_contents _ _ o (g0 ob) Hagree4)
    as (ob4 & Hob4 & E4); [by rewrite Hobj2, lookup_insert_eq|].
  assert (Hfn4 : fullName (objects s4) o = Ok (src_fullName d))
    by by rewrite <- (fullName_agree _ _ _ Hskel4).
  assert (Hndq : NoDup (unprocessed_modules s ++ [o])).
  { apply NoDup_app. split_and!; [done| |apply NoDup_singleton].
    intros x Hx Hxo. apply list_elem_of_singleton in Hxo as ->.
    destruct (Hq o Hx) as (e & He & Hidx).
    destruct (Hreg e He) as (o' & ob' & Hidx' & Hob' & _). congruence. }
  split_and!.
  - rewrite dom_insert_L, Hdom. simpl. done.
  - by rewrite Hqueue4.
  - by rewrite Hstack4.
  - intros d' Hd'. apply elem_of_cons in Hd' as [->|Hd'].
    + exists o, ob4. rewrite lookup_insert_eq.
      destruct (but_contents_module _ _ E4) as (E1 & E2 & E3).
      rewrite <- (but_contents_py_class _ _ E4), <- E1, <- E2, <- E3.
      split_and!; try done.
      rewrite Hqueue4. apply elem_of_app. right. by apply list_elem_of_singleton.
    + destruct (Hreg d' Hd')
        as (o' & ob' & Hidx & Hob' & Hfn' & Hcls' & Hst' & Hpy' & Hc' & Hin').
      assert (src_fullName d' ≠ src_fullName d).
      { intros E. apply Hnew. rewrite <- E. apply list_elem_of_fmap. by exists d'. }
      destruct (Hkeep o' ob' Hob') as (ob'4 & Hob'4 & E'4 & Hfn'4).
      destruct (but_contents_module _ _ E'4) as (E1 & E2 & E3).
      exists o', ob'4. rewrite lookup_insert_ne by done.
      rewrite <- (but_contents_py_class _ _ E'4), <- E1, <- E2, <- E3.
      split_and!; auto.
      rewrite Hqueue4. apply elem_of_app. by left.
  - rewrite Hqueue4. intros x Hx. apply elem_of_app in Hx as [Hx|Hx].
    + destruct (Hq x Hx) as (e & He & Hidx). exists e. split; [by right|].
      rewrite lookup_insert_ne; [done|].
      intros E. apply Hnew. rewrite E. apply list_elem_of_fmap. by exists e.
    + apply list_elem_of_singleton in Hx as ->. exists d. split; [by left|].
      by rewrite lookup_insert_eq.
  - rewrite Hqueue4, length_app. simpl. lia.
Qed.

Lemma parents_first_cons seen d ds :
  parents_first seen (d :: ds) = true →
  match src_parent d with
  | None => True
  | Some pn => ∃ e, e ∈ seen ∧ src_fullName e = pn ∧ src_is_package e = true
  end ∧ parents_first (d :: seen) ds = true.
Proof.
  simpl. intros H. apply andb_prop in H as [H1 H2]. split; [|done].
  destruct (src_parent d) as [pn|]; [|done].
  apply existsb_exists in H1 as (e & He & Hc).
  apply andb_prop in Hc as [Hn Hp]. apply bool_decide_eq_true in Hn.
  exists e. split_and!; try done. by apply list_elem_of_In.
Qed.

Lemma add_sources_spec ds :
  ∀ seen s,
    discovered s seen →
    NoDup ((src_fullName <$> ds) ++ (src_fullName <$> seen)) →
    parents_first seen ds = true →
    ∃ s', add_sources ds s = Return tt s'
          ∧ discovered s' (reverse ds ++ seen)
          ∧ length (unprocessed_modules s')
            = length (unprocessed_modules s) + length ds.
Proof.
  induction ds as [|d ds IH]; intros seen s Hdisc Hnd Hpf.
  { exists s. split_and!; try done; simpl; lia. }
  apply parents_first_cons in Hpf as [Hpar Hpf].
  rewrite fmap_cons in Hnd. simpl in Hnd.
  apply NoDup_cons in Hnd as [Hd Hnd].
  destruct (add_source_spec s seen d Hdisc) as (s1 & Hrun1 & Hdisc1 & Hlen1);
    [|done|].
  { intros Hin. apply Hd. apply elem_of_app. by right. }
  destruct (IH (d :: seen) s1 Hdisc1) as (s' & Hrun & Hdisc' & Hlen');
    [|done|].
  { rewrite fmap_cons. apply NoDup_app in Hnd as (Hnd1 & Hdisj & Hnd2).
    apply NoDup_app. split_and!; [done| |].
    - intros x Hx Hx'. apply elem_of_cons in Hx' as [->|Hx'].
      + apply Hd. apply elem_of_app. by left.
      + by apply (Hdisj x).
    - apply NoDup_cons. split; [|done].
      intros Hin. apply Hd. apply elem_of_app. by right. }
  exists s'. split_and!; try done.
  - unfold add_sources. simpl. by rewrite (bind_Return _ _ _ tt s1 Hrun1).
  - by rewrite reverse_cons, <- app_assoc.
  - rewrite Hlen', Hlen1. simpl. lia.
Qed.
(** ** The schedule of the modules *)

Lemma list_remove_spec x l l' :
  list_remove x l = Some l' → NoDup l →
  NoDup l' ∧ (∀ y, y ∈ l' ↔ y ∈ l ∧ y ≠ x) ∧ length l = S (length l')
  ∧ sublist l' l.
Proof.
  revert l'. induction l as [|y l IH]; intros l' Hrem Hnd; [done|].
  apply NoDup_cons in Hnd as [Hy Hnd]. simpl in Hrem.
  case_bool_decide as Hyx.
  - injection Hrem as <-. subst y. split_and!; try done.
    + intros z. rewrite elem_of_cons. split.
      * intros Hz. split; [by right|]. by intros ->.
      * by intros [[->|Hz] Hne].
    + by apply sublist_cons.
  - destruct (list_remove x l) as [r|] eqn:Hr; [|done]. injection Hrem as <-.
    destruct (IH r eq_refl Hnd) as (Hnd' & Hmem & Hlen & Hsub).
    split_and!.
    + apply NoDup_cons. split; [|done]. intros Hin. apply Hy. by apply Hmem.
    + intros z. rewrite !elem_of_cons, Hmem. split.
      * intros [->|[Hz Hne]]; [by split; [left|]|by split; [right|]].
      * intros [[->|Hz] Hne]; [by left|right; by split].
    + simpl. by rewrite Hlen.
    + by apply sublist_skip.
Qed.

Lemma list_remove_elem x l :
  x ∈ l → is_Some (list_remove x l).
Proof.
  induction l as [|y l IH]; intros Hx; [by apply elem_of_nil in Hx|].
  simpl. case_bool_decide as Hyx; [done|].
  apply elem_of_cons in Hx as [->|Hx]; [done|].
  destruct (IH Hx) as [r ->]. done.
Qed.

Lemma heap_agree_lookup {B} (f : Documentable → B) (h h' : heap) o ob :
  heap_agree f h h' → h !! o = Some ob →
  ∃ ob', h' !! o = Some ob' ∧ f ob = f ob'.
Proof.
  intros H Ho. specialize (H o). rewrite Ho in H.
  destruct (h' !! o) as [ob'|]; simpl in H; [|done].
  exists ob'. split; [done|]. by injection H.
Qed.

Lemma standing_skeleton h h' :
  heap_agree standing h h' → heap_agree skeleton h h'.
Proof.
  intros H o. specialize (H o).
  destruct (h !! o) as [ob|], (h' !! o) as [ob'|]; simpl in *; try done.
  unfold standing in H. unfold skeleton. simplify_eq. congruence.
Qed.

Section schedule.
Variable names : gset string.
Variable parses : string → bool.
Variable defs : string → gset string.

Abbreviation sched := (scheduled names parses defs).
Abbreviation adv := (advances names defs ∅).

Lemma module_at_fun s nm o ob o' ob' :
  module_at s nm o ob → module_at s nm o' ob' → o = o' ∧ ob = ob'.
Proof.
  intros (Hi & Ho & _) (Hi' & Ho' & _).
  assert (o = o') as -> by congruence. split; [done|congruence].
Qed.

Lemma module_at_name s nm nm' o ob ob' :
  module_at s nm o ob → module_at s nm' o ob' → nm = nm'.
Proof. intros (_ & _ & Hf & _) (_ & _ & Hf' & _). congruence. Qed.

  (** The same index over a store that looks the same. *)
Lemma module_at_agree s s' nm o ob :
  allobjects s' = allobjects s →
  heap_agree standing (objects s) (objects s') →
  module_at s nm o ob →
  ∃ ob', module_at s' nm o ob' ∧ standing ob = standing ob'.
Proof.
  intros Hall Hag (Hi & Ho & Hf & Hm & Hc & Hp).
  destruct (heap_agree_lookup _ _ _ o ob Hag Ho) as (ob' & Ho' & Hst).
  exists ob'. split; [|done].
  unfold standing in Hst. simplify_eq.
  unfold module_at. rewrite Hall.
  rewrite <- (fullName_agree _ _ _ (standing_skeleton _ _ Hag)).
  split_and!; try done; congruence.
Qed.

Lemma standing_state ob ob' : standing ob = standing ob' → state ob = state ob'.
Proof. unfold standing. intros H. by simplify_eq. Qed.

Lemma standing_py_class ob ob' :
  standing ob = standing ob' → py_class ob = py_class ob'.
Proof. unfold standing. intros H. by simplify_eq. Qed.

Lemma scheduled_agree s s' :
  allobjects s' = allobjects s →
  unprocessed_modules s' = unprocessed_modules s →
  processing_modules s' = processing_modules s →
  heap_agree standing (objects s) (objects s') →
  sched s → sched s'.
Proof.
  intros Hall Hq Hst Hag [H1 H2 H3 H4 H5 H6 H7 H8].
  pose proof (heap_agree_sym _ _ _ Hag) as Hag'.
  assert (Hback : ∀ nm o ob', module_at s' nm o ob' →
            ∃ ob, module_at s nm o ob ∧ standing ob = standing ob').
  { intros nm o ob' Hm.
    destruct (module_at_agree s' s nm o ob') as (ob & Hm' & E); try done.
    exists ob. by split. }
  constructor.
  - intros nm Hnm. destruct (H1 nm Hnm) as (o & ob & Hm).
    destruct (module_at_agree s s' nm o ob) as (ob' & Hm' & _); try done.
    by exists o, ob'.
  - by rewrite Hq.
  - intros o. rewrite Hq, H3. split.
    + intros (nm & ob & Hnm & Hm & Hs).
      destruct (module_at_agree s s' nm o ob) as (ob' & Hm' & E); try done.
      exists nm, ob'. split_and!; try done.
      by rewrite <- (standing_state _ _ E).
    + intros (nm & ob' & Hnm & Hm & Hs).
      destruct (Hback nm o ob' Hm) as (ob & Hm' & E).
      exists nm, ob. split_and!; try done.
      by rewrite (standing_state _ _ E).
  - intros nm o ob' Hnm Hm Hs. rewrite Hst.
    destruct (Hback nm o ob' Hm) as (ob & Hm' & E).
    apply (H4 nm o ob); try done. by rewrite (standing_state _ _ E).
  - intros nm o ob' Hnm Hm Hs. rewrite Hall.
    destruct (Hback nm o ob' Hm) as (ob & Hm' & E).
    apply (H5 nm o ob); try done. by rewrite (standing_state _ _ E).
  - intros k Hk. rewrite Hall in Hk.
    destruct (H6 k Hk) as [Hn|(nm & o & ob & Hnm & Hm & Hs & Hp & Hd)]; [by left|].
    right. destruct (module_at_agree s s' nm o ob) as (ob' & Hm' & E); try done.
    exists nm, o, ob'. split_and!; try done.
    by rewrite <- (standing_state _ _ E).
  - intros k o ob' Hk Ho Hm. rewrite Hall in Hk.
    destruct (heap_agree_lookup _ _ _ o ob' Hag' Ho) as (ob & Hob & E).
    apply (H7 k o ob); try done. by rewrite <- (standing_py_class _ _ E).
  - intros k o Hk. rewrite Hall in Hk.
    destruct (H8 k o Hk) as [ob Hob].
    destruct (heap_agree_lookup _ _ _ o ob Hag Hob) as (ob' & Hob' & _).
    by exists ob'.
Qed.

Lemma scheduled_reporting_only s s' :
  reporting_only s s' → sched s → sched s'.
Proof.
  intros Hro.
  pose proof (reporting_only_fields _ _ Hro)
    as (Hobj & Hall & _ & _ & Hq & Hst & _).
  apply scheduled_agree; try done. rewrite Hobj. apply heap_agree_refl.
Qed.

Lemma advances_refl own s : advances names defs own s s.
Proof. split_and!; try done. intros k Hk. by left. Qed.

Lemma advances_trans own s1 s2 s3 :
  advances names defs own s1 s2 → advances names defs own s2 s3 →
  advances names defs own s1 s3.
Proof.
  intros (Hs & Hq & Hi & Hd & Hk) (Hs' & Hq' & Hi' & Hd' & Hk'). split_and!.
  - congruence.
  - by etrans.
  - intros nm Hnm. rewrite Hi', Hi; done.
  - by etrans.
  - intros k Hin3.
    destruct (Hk' k Hin3) as [Hin2|[Hown|(nm & o & Hnm & Hidx & Hin & Hdf)]].
    + by apply Hk.
    + right. by left.
    + right. right. exists nm, o. split_and!; try done.
      * by rewrite <- (Hi nm Hnm).
      * by apply (elem_of_sublist _ _ _ Hin).
Qed.

Lemma advances_mono own own' s s' :
  own ⊆ own' → advances names defs own s s' → advances names defs own' s s'.
Proof.
  intros Hsub (Hs & Hq & Hi & Hd & Hk). split_and!; try done.
  intros k Hin. destruct (Hk k Hin) as [?|[Hown|?]]; auto.
Qed.

Lemma advances_reporting_only own s s' :
  reporting_only s s' → advances names defs own s s'.
Proof.
  intros Hro.
  pose proof (reporting_only_fields _ _ Hro)
    as (Hobj & Hall & _ & _ & Hq & Hst & _).
  split_and!; [done|by rewrite Hq|by rewrite Hall|by rewrite Hall|].
  intros k Hk. left. by rewrite <- Hall.
Qed.

  (** One module goes from one state to the next. *)
Lemma scheduled_restate s s' nm o ob st :
  sched s → nm ∈ names → module_at s nm o ob →
  allobjects s' = allobjects s →
  objects s' = alter (set_state st) o (objects s) →
  st ≠ UNPROCESSED →
  NoDup (unprocessed_modules s') →
  (∀ x, x ∈ unprocessed_modules s' ↔ x ∈ unprocessed_modules s ∧ x ≠ o) →
  (∀ nm', nm' ≠ nm → nm' ∈ processing_modules s →
          nm' ∈ processing_modules s') →
  (st = PROCESSING → parses nm = false ∨ nm ∈ processing_modules s') →
  (st = PROCESSED → parses nm = true ∧ defs nm ⊆ dom (allobjects s)) →
  sched s'.
Proof.
  intros [H1 H2 H3 H4 H5 H6 H7 H8] Hnm Hmod Hall Hobj Hst Hnd Hq Hstack
    Hing Hed.
  assert (Hskel : heap_agree skeleton (objects s) (objects s')).
  { rewrite Hobj. by apply heap_agree_alter. }
  assert (Hfwd : ∀ nm' o' ob', module_at s nm' o' ob' →
            module_at s' nm' o'
              (if decide (o' = o) then set_state st ob' else ob')).
  { intros nm' o' ob' (Hi & Ho & Hf & Hm & Hc & Hp).
    unfold module_at. rewrite Hall, <- (fullName_agree _ _ _ Hskel), Hobj.
    destruct (decide (o' = o)) as [->|Hne].
    - rewrite lookup_alter_eq, Ho. by split_and!.
    - rewrite lookup_alter_ne by done. by split_and!. }
  assert (Hback : ∀ nm' o' ob'', module_at s' nm' o' ob'' →
            ∃ ob', module_at s nm' o' ob'
                   ∧ ob'' = (if decide (o' = o) then set_state st ob' else ob')).
  { intros nm' o' ob'' (Hi & Ho & Hf & Hm & Hc & Hp).
    rewrite Hall in Hi. rewrite <- (fullName_agree _ _ _ Hskel) in Hf.
    rewrite Hobj in Ho. destruct (decide (o' = o)) as [->|Hne].
    - rewrite lookup_alter_eq in Ho.
      destruct (objects s !! o) as [ob'|] eqn:Hob'; [|done].
      simpl in Ho. injection Ho as <-. exists ob'. split; [|done].
      unfold module_at. by split_and!.
    - rewrite lookup_alter_ne in Ho by done. exists ob''. split; [|done].
      unfold module_at. by split_and!. }
  assert (Hsame : ∀ nm' o' ob', module_at s nm' o' ob' → o' = o → nm' = nm).
  { intros nm' o' ob' Hm ->. by apply (module_at_name s nm' nm o ob' ob). }
  constructor.
  - intros nm' Hnm'. destruct (H1 nm' Hnm') as (o' & ob' & Hm).
    eexists _, _. by apply Hfwd.
  - done.
  - intros x. rewrite Hq, H3. split.
    + intros [(nm' & ob' & Hnm' & Hm & Hs) Hne].
      exists nm', ob'. split_and!; try done.
      specialize (Hfwd _ _ _ Hm). by rewrite decide_False in Hfwd.
    + intros (nm' & ob'' & Hnm' & Hm & Hs).
      destruct (Hback _ _ _ Hm) as (ob' & Hm' & ->).
      destruct (decide (x = o)) as [->|Hne]; [done|].
      split; [|done]. by exists nm', ob'.
  - intros nm' o' ob'' Hnm' Hm Hs.
    destruct (Hback _ _ _ Hm) as (ob' & Hm' & ->).
    destruct (decide (o' = o)) as [->|Hne].
    + rewrite (Hsame _ _ _ Hm' eq_refl). by apply Hing.
    + destruct (H4 nm' o' ob' Hnm' Hm' Hs) as [Hp|Hin]; [by left|].
      right. apply Hstack; [|done]. intros ->.
      destruct (module_at_fun _ _ _ _ _ _ Hm' Hmod). done.
  - intros nm' o' ob'' Hnm' Hm Hs. rewrite Hall.
    destruct (Hback _ _ _ Hm) as (ob' & Hm' & ->).
    destruct (decide (o' = o)) as [->|Hne].
    + rewrite (Hsame _ _ _ Hm' eq_refl). by apply Hed.
    + by apply (H5 nm' o' ob').
  - intros k Hk. rewrite Hall in Hk.
    destruct (H6 k Hk) as [Hn|(nm' & o' & ob' & Hnm' & Hm & Hs & Hp & Hd)];
      [by left|].
    right. eexists nm', o', _. split_and!; [done|by apply Hfwd| |done|done].
    by destruct (decide (o' = o)).
  - intros k o' ob'' Hk Ho Hm. rewrite Hall in Hk. rewrite Hobj in Ho.
    destruct (decide (o' = o)) as [->|Hne].
    + rewrite lookup_alter_eq in Ho.
      destruct (objects s !! o) as [ob'|] eqn:Hob'; [|done].
      simpl in Ho. injection Ho as <-. by apply (H7 k o ob').
    + rewrite lookup_alter_ne in Ho by done. by apply (H7 k o' ob'').
  - intros k o' Hk. rewrite Hall in Hk. rewrite Hobj.
    destruct (H8 k o' Hk) as [ob' Hob'].
    destruct (decide (o' = o)) as [->|Hne].
    + rewrite lookup_alter_eq, Hob'. done.
    + rewrite lookup_alter_ne by done. done.
Qed.

Variable parse : oid → M bool.
Variable build : (string → M (option oid)) → oid → M unit.
Variable introspect : oid → M unit.
Hypothesis Hapart : defs_apart names defs.
Hypothesis Hparse : parser_ok names parses parse.
Hypothesis Hbuild : builder_ok names parses defs build.

  (** When the processing of a module starts, none of its definitions is
      in the index. *)
Lemma defs_fresh s nm o ob :
  sched s → nm ∈ names → module_at s nm o ob → state ob = UNPROCESSED →
  defs nm ## dom (allobjects s).
Proof.
  intros Hs Hnm Hmod Hst k Hk Hdom. apply elem_of_dom in Hdom.
  destruct Hapart as [Hnames Hdefs].
  destruct (sch_index _ _ _ _ Hs k Hdom)
    as [Hn|(nm' & o' & ob' & Hnm' & Hm' & Hs' & Hp' & Hd')].
  - by apply (Hnames nm Hnm k).
  - destruct (decide (nm = nm')) as [<-|Hne].
    + destruct (module_at_fun _ _ _ _ _ _ Hmod Hm') as [_ <-]. done.
    + by apply (Hdefs nm nm' Hnm Hnm' Hne k).
Qed.

Lemma processModule_scheduled m cb pm s nm o ob :
  callback_ok names parses defs m cb →
  (∀ x s, pm x s = build cb x s) →
  sched s → nm ∈ names → module_at s nm o ob → state ob = UNPROCESSED →
  length (unprocessed_modules s) ≤ S m →
  ∃ s', processModule parse pm introspect o s = Return tt s'
        ∧ sched s' ∧ adv s s'
        ∧ length (unprocessed_modules s') < length (unprocessed_modules s)
        ∧ o ∉ unprocessed_modules s'.
Proof.
  intros Hcb Hpm Hs Hnm Hmod Hst Hlen.
  pose proof Hmod as (Hidx & Hob & Hfn & Hcls & Hc & [text Hpy]).
  assert (Hin : o ∈ unprocessed_modules s).
  { apply (sch_queue _ _ _ _ Hs). by exists nm, ob. }
  destruct (list_remove_elem _ _ Hin) as [queue' Hrem].
  destruct (list_remove_spec _ _ _ Hrem (sch_nodup _ _ _ _ Hs))
    as (Hnd' & Hmem' & Hlen' & Hsub').
  set (s1 := set_unprocessed_modules queue'
               (update o (set_state PROCESSING) s)).
  assert (Hskel1 : heap_agree skeleton (objects s) (objects s1)).
  { unfold s1. simpl. by apply heap_agree_alter. }
  assert (Hmod1 : module_at s1 nm o (set_state PROCESSING ob)).
  { unfold module_at. rewrite <- (fullName_agree _ _ _ Hskel1).
    unfold s1. simpl. rewrite lookup_alter_eq, Hob.
    split_and!; try done; by exists text. }
  destruct (Hparse s1 nm o _ Hnm Hmod1) as (s2 & Hrun2 & Hro2).
  pose proof (reporting_only_fields _ _ Hro2)
    as (Hobj2 & Hall2 & _ & _ & Hq2 & Hstack2 & _).
  assert (Hstart : processModule parse pm introspect o s
            = bind (if parses nm then
                      let+ fn1 := lift (λ s, fullName (objects s) o) in
                      modify (λ s, set_processing_modules
                                     (processing_modules s ++ [fn1]) s) ;;
                      (match _py_string ob with
                       | None =>
                           let+ stack := lift (λ s, Ok (processing_modules s)) in
                           msg "processModule" ("processing " +:+ repr_list stack)
                             1%Z 100%Z false true false
                       | Some _ => ret tt
                       end) ;;
                      pm o ;;
                      modify (update o (set_state PROCESSED)) ;;
                      let+ fn' := lift (λ s, fullName (objects s) o) in
                      pop_processing fn'
                    else ret tt)
                (λ _ s, progress "process"
                         (Z.of_nat (module_count s)
                          - Z.of_nat (length (unprocessed_modules s)))%Z
                         (Some (module_count s))
                         ("modules processed, "
                          +:+ pystr.str_of_nat (violations s) +:+ " warnings") s)
                s2).
  { unfold processModule.
    rewrite (bind_lift _ _ _ ob) by (unfold getobj; by rewrite Hob).
    rewrite Hst. rewrite bool_decide_eq_true_2 by done. cbn [negb].
    rewrite (bind_lift _ _ _ (unprocessed_modules s)) by done.
    rewrite Hrem. rewrite !bind_modify. fold s1.
    rewrite (bind_Return _ _ _ tt s1).
    2:{ rewrite Hpy. by destruct (source_path ob). }
    rewrite Hc. unfold bind at 1. unfold bind at 1. rewrite Hrun2. done. }
  rewrite Hstart. clear Hstart.
  destruct (parses nm) eqn:Hp.
  - (* the text gives a tree *)
    set (s3 := set_processing_modules (processing_modules s2 ++ [nm]) s2).
    assert (Hmod3 : module_at s3 nm o (set_state PROCESSING ob)).
    { unfold module_at, s3. simpl. rewrite Hobj2, Hall2. exact Hmod1. }
    assert (Hs3 : sched s3).
    { apply (scheduled_restate s s3 nm o ob PROCESSING Hs Hnm Hmod).
      - unfold s3. simpl. by rewrite Hall2.
      - unfold s3. simpl. by rewrite Hobj2.
      - done.
      - unfold s3. simpl. by rewrite Hq2.
      - unfold s3. simpl. by rewrite Hq2.
      - intros nm' _ Hin'. unfold s3. simpl. rewrite Hstack2.
        apply elem_of_app. by left.
      - intros _. right. unfold s3. simpl. apply elem_of_app. right.
        by apply list_elem_of_singleton.
      - done. }
    destruct (Hbuild m cb nm o (set_state PROCESSING ob) s3)
      as (s4 & Hrun4 & Hs4 & (Hstack4 & Hsub4 & Hidx4 & Hdom4 & Hnew4) & Hdefs4); try done.
    { unfold s3. simpl. by rewrite last_snoc. }
    { unfold s3. simpl. rewrite Hall2.
      by apply (defs_fresh s nm o ob). }
    { unfold s3. simpl. rewrite Hq2. simpl. lia. }
    assert (Hmod4 : ∃ ob4, module_at s4 nm o ob4).
    { destruct (sch_modules _ _ _ _ Hs4 nm Hnm) as (o4 & ob4 & Hm4).
      assert (o4 = o) as ->.
      { destruct Hm4 as (Hi4 & _). rewrite (Hidx4 nm Hnm) in Hi4.
        destruct Hmod3 as (Hi3 & _). congruence. }
      by exists ob4. }
    destruct Hmod4 as (ob4 & Hmod4).
    set (s5 := update o (set_state PROCESSED) s4).
    assert (Hskel5 : heap_agree skeleton (objects s4) (objects s5)).
    { unfold s5. simpl. by apply heap_agree_alter. }
    set (s6 := set_processing_modules (processing_modules s2) s5).
    destruct (progress_spec "process"
                (Z.of_nat (module_count s6)
                 - Z.of_nat (length (unprocessed_modules s6)))%Z
                (Some (module_count s6))
                ("modules processed, " +:+ pystr.str_of_nat (violations s6)
                 +:+ " warnings") s6)
      as (s7 & Hrun7 & Hro7 & _).
    pose proof (reporting_only_fields _ _ Hro7)
      as (Hobj7 & Hall7 & _ & _ & Hq7 & Hstack7 & _).
    assert (Ho4 : o ∉ unprocessed_modules s4).
    { intros Hin4.
      assert (Hin3 : o ∈ queue').
      { apply (elem_of_sublist _ _ _ Hin4). unfold s3 in Hsub4.
        simpl in Hsub4. by rewrite Hq2 in Hsub4. }
      apply Hmem' in Hin3 as [_ Hne]. done. }
    exists s7. split_and!.
    + rewrite (bind_Return _ _ _ tt s6); [exact Hrun7|].
      rewrite (bind_lift _ _ _ nm).
      2:{ by destruct Hmod3 as (_ & _ & Hf3 & _). }
      rewrite bind_modify. fold s3. rewrite Hpy, bind_ret.
      rewrite (bind_Return _ _ _ tt s4) by by rewrite Hpm.
      rewrite bind_modify. fold s5.
      rewrite (bind_lift _ _ _ nm).
      2:{ rewrite <- (fullName_agree _ _ _ Hskel5).
          by destruct Hmod4 as (_ & _ & Hf4 & _). }
      unfold pop_processing.
      change (processing_modules s5) with (processing_modules s4).
      rewrite Hstack4. unfold s3. simpl.
      rewrite unsnoc_snoc. by rewrite bool_decide_eq_true_2.
    + apply (scheduled_restate s4 s7 nm o ob4 PROCESSED Hs4 Hnm Hmod4).
      * by rewrite Hall7.
      * by rewrite Hobj7.
      * done.
      * rewrite Hq7. simpl. by apply (sch_nodup _ _ _ _ Hs4).
      * intros x. rewrite Hq7. simpl. split; [|by intros [? _]].
        intros Hx. split; [done|]. by intros ->.
      * intros nm' Hne Hin'. rewrite Hstack7. simpl.
        rewrite Hstack4 in Hin'. unfold s3 in Hin'. simpl in Hin'.
        apply elem_of_app in Hin' as [Hin'|Hin']; [done|].
        by apply list_elem_of_singleton in Hin'.
      * done.
      * intros _. by split.
    + split_and!.
      * rewrite Hstack7. simpl. unfold s1 in Hstack2. by simpl in Hstack2.
      * rewrite Hq7. simpl. etrans; [exact Hsub4|].
        unfold s3. simpl. by rewrite Hq2.
      * intros nm' Hnm'. rewrite Hall7. simpl.
        rewrite (Hidx4 nm' Hnm'). unfold s3. simpl. by rewrite Hall2.
      * rewrite Hall7. simpl. unfold s3 in Hdom4. simpl in Hdom4.
        by rewrite Hall2 in Hdom4.
      * intros k Hk. rewrite Hall7 in Hk. simpl in Hk.
        destruct (Hnew4 k Hk) as [Hold|[Hown|(nm' & o' & Hnm' & Hi' & Hin' & Hd')]].
        -- left. unfold s3 in Hold. simpl in Hold. by rewrite Hall2 in Hold.
        -- right. right. by exists nm, o.
        -- right. right. exists nm', o'. unfold s3 in Hi', Hin'.
           simpl in Hi', Hin'. rewrite Hall2 in Hi'. rewrite Hq2 in Hin'.
           simpl in Hin'. split_and!; try done.
           by apply (elem_of_sublist _ _ _ Hin').
    + rewrite Hq7. simpl.
      apply sublist_length in Hsub4. unfold s3 in Hsub4. simpl in Hsub4.
      rewrite Hq2 in Hsub4. simpl in Hsub4. lia.
    + by rewrite Hq7.
  - (* the text gives no tree *)
    rewrite bind_ret.
    destruct (progress_spec "process"
                (Z.of_nat (module_count s2)
                 - Z.of_nat (length (unprocessed_modules s2)))%Z
                (Some (module_count s2))
                ("modules processed, " +:+ pystr.str_of_nat (violations s2)
                 +:+ " warnings") s2)
      as (s3 & Hrun3 & Hro3 & _).
    pose proof (reporting_only_fields _ _ Hro3)
      as (Hobj3 & Hall3 & _ & _ & Hq3 & Hstack3 & _).
    exists s3. split_and!; [done| | | |].
    + apply (scheduled_restate s s3 nm o ob PROCESSING Hs Hnm Hmod).
      * by rewrite Hall3, Hall2.
      * by rewrite Hobj3, Hobj2.
      * done.
      * by rewrite Hq3, Hq2.
      * intros x. by rewrite Hq3, Hq2.
      * intros nm' _ Hin'. by rewrite Hstack3, Hstack2.
      * intros _. by left.
      * done.
    + split_and!.
      * by rewrite Hstack3, Hstack2.
      * by rewrite Hq3, Hq2.
      * intros nm' _. by rewrite Hall3, Hall2.
      * by rewrite Hall3, Hall2.
      * intros k Hk. left. by rewrite Hall3, Hall2 in Hk.
    + rewrite Hq3, Hq2. simpl. lia.
    + rewrite Hq3, Hq2. simpl. intros Hin'. by apply Hmem' in Hin' as [_ Hne].
Qed.

Lemma getProcessedModule_scheduled m pm :
  (∀ s nm o ob, sched s → nm ∈ names → module_at s nm o ob →
     state ob = UNPROCESSED → length (unprocessed_modules s) ≤ m →
     ∃ s', processModule parse pm introspect o s = Return tt s'
           ∧ sched s' ∧ adv s s' ∧ o ∉ unprocessed_modules s') →
  callback_ok names parses defs m (getProcessedModule parse pm introspect).
Proof.
  intros Hpm modname s Hs Hlen. unfold getProcessedModule.
  destruct (allobjects s !! modname) as [o|] eqn:Hidx.
  2:{ rewrite (bind_lift _ _ _ None) by by rewrite Hidx.
      exists None, s. split_and!; [done|done|apply advances_refl|].
      intros o ob Ho. congruence. }
  rewrite (bind_lift _ _ _ (Some o)) by by rewrite Hidx.
  destruct (sch_objects _ _ _ _ Hs modname o Hidx) as [ob Hob].
  rewrite (bind_lift _ _ _ ob) by (unfold getobj; by rewrite Hob).
  destruct (is_Module (py_class ob)) eqn:Hcls; cbn [negb].
  2:{ exists None, s. split_and!; [done|done|apply advances_refl|].
      intros o' ob' Ho' Hob'. congruence. }
  assert (Hnm : modname ∈ names)
    by by apply (sch_module_keys _ _ _ _ Hs modname o ob).
  assert (Hmod : module_at s modname o ob).
  { destruct (sch_modules _ _ _ _ Hs modname Hnm) as (o' & ob' & Hm).
    pose proof Hm as (Hi' & Ho' & _).
    assert (o' = o) as -> by congruence.
    assert (ob' = ob) as -> by congruence. done. }
  assert (∃ s', (if bool_decide (state ob = UNPROCESSED)
                 then processModule parse pm introspect o else ret tt) s
                = Return tt s'
                ∧ sched s' ∧ adv s s' ∧ o ∉ unprocessed_modules s')
    as (s' & Hrun & Hs' & Hadv & Hout).
  { case_bool_decide as Hst.
    - by apply (Hpm s modname o ob).
    - exists s. split_and!; [done|done|apply advances_refl|].
      intros Hin. apply (sch_queue _ _ _ _ Hs) in Hin
        as (nm' & ob' & _ & (_ & Hob' & _) & Hst').
      congruence. }
  rewrite (bind_Return _ _ _ tt s' Hrun).
  destruct (sch_modules _ _ _ _ Hs' modname Hnm) as (o' & ob' & Hmod').
  assert (o' = o) as ->.
  { destruct Hmod' as (Hi' & _). destruct Hadv as (_ & _ & Hkeep & _ & _).
    rewrite (Hkeep modname Hnm) in Hi'. congruence. }
  pose proof Hmod' as (Hi' & Hob' & _ & Hcls' & _).
  rewrite (bind_lift _ _ _ ob') by (unfold getobj; by rewrite Hob').
  assert (Hst' : state ob' ≠ UNPROCESSED).
  { intros Hst'. apply Hout. apply (sch_queue _ _ _ _ Hs').
    by exists modname, ob'. }
  rewrite bool_decide_eq_false_2 by done.
  exists (Some o), s'. split_and!; try done. by exists ob'.
Qed.

  (** [getProcessedModule] with builders nested at most [j] deep is good
      for [j] queued modules. *)
Lemma getProcessedModule_within j :
  callback_ok names parses defs j
    (getProcessedModule parse
       (processModuleAST_within parse build introspect j) introspect).
Proof.
  induction j as [|j IH]; apply getProcessedModule_scheduled.
  - intros s nm o ob Hs Hnm Hmod Hst Hlen.
    assert (Hin : o ∈ unprocessed_modules s).
    { apply (sch_queue _ _ _ _ Hs). by exists nm, ob. }
    destruct (unprocessed_modules s); [by apply elem_of_nil in Hin|].
    simpl in Hlen. lia.
  - intros s nm o ob Hs Hnm Hmod Hst Hlen.
    destruct (processModule_scheduled j _
                (processModuleAST_within parse build introspect (S j))
                s nm o ob IH) as (s' & Hrun & Hs' & Hadv & _ & Hout);
      try done.
    by exists s'.
Qed.

Section loop.
Variable postProcess : M unit.
Hypothesis Hpost : post_ok names parses defs postProcess.

Lemma process_scheduled m cb pm :
  callback_ok names parses defs m cb →
  (∀ x s, pm x s = build cb x s) →
  ∀ n s, sched s → length (unprocessed_modules s) ≤ S m →
    length (unprocessed_modules s) < n →
    ∃ s', process parse pm introspect postProcess n s = Return tt s'
          ∧ sched s' ∧ adv s s' ∧ unprocessed_modules s' = [].
Proof.
  intros Hcb Hpm. induction n as [|n IH]; intros s Hs Hm Hn; [lia|].
  cbn [process].
  destruct (unprocessed_modules s) as [|o q] eqn:Hq.
  - rewrite (bind_lift _ _ _ []) by by rewrite Hq.
    destruct (Hpost s Hs Hq) as (s' & Hrun & Hs' & Hadv).
    exists s'. split_and!; try done.
    destruct Hadv as (_ & Hsub & _). rewrite Hq in Hsub.
    by apply sublist_nil_r in Hsub.
  - rewrite (bind_lift _ _ _ (o :: q)) by by rewrite Hq.
    assert (Hin : o ∈ unprocessed_modules s) by (rewrite Hq; by left).
    apply (sch_queue _ _ _ _ Hs) in Hin as (nm & ob & Hnm & Hmod & Hst).
    destruct (processModule_scheduled m cb pm s nm o ob Hcb Hpm Hs Hnm Hmod Hst)
      as (s1 & Hrun1 & Hs1 & Hadv1 & Hlen1 & _); [by rewrite Hq|].
    rewrite (bind_Return _ _ _ tt s1 Hrun1).
    rewrite Hq in Hlen1.
    destruct (IH s1 Hs1) as (s' & Hrun & Hs' & Hadv & Hq'); [lia|lia|].
    exists s'. split_and!; try done. by apply (advances_trans ∅ s s1 s').
Qed.
End loop.

  (** When nothing waits and nothing is being built, the index holds the
      modules and the definitions of those that have a tree, and every
      module has been processed. *)
Lemma scheduled_all_processed s :
  sched s → unprocessed_modules s = [] → processing_modules s = [] →
  dom (allobjects s) = final_index names parses defs
  ∧ all_processed names parses s.
Proof.
  intros Hs Hq Hstack.
  assert (Hstate : ∀ nm, nm ∈ names →
            ∃ o ob, module_at s nm o ob
                    ∧ state ob = (if parses nm then PROCESSED else PROCESSING)).
  { intros nm Hnm. destruct (sch_modules _ _ _ _ Hs nm Hnm) as (o & ob & Hmod).
    exists o, ob. split; [done|].
    destruct (state ob) eqn:Hst.
    - assert (Hin : o ∈ unprocessed_modules s).
      { apply (sch_queue _ _ _ _ Hs). by exists nm, ob. }
      rewrite Hq in Hin. by apply elem_of_nil in Hin.
    - destruct (sch_processing _ _ _ _ Hs nm o ob Hnm Hmod Hst) as [->|Hin];
        [done|].
      rewrite Hstack in Hin. by apply elem_of_nil in Hin.
    - destruct (sch_processed _ _ _ _ Hs nm o ob Hnm Hmod Hst) as [-> _]. done. }
  split; [|by split_and!].
  apply set_eq. intros k. unfold final_index.
  rewrite elem_of_union, elem_of_union_list, elem_of_dom. split.
  - intros Hk.
    destruct (sch_index _ _ _ _ Hs k Hk)
      as [Hn|(nm & o & ob & Hnm & Hmod & Hst & Hp & Hd)]; [by left|].
    right. exists (defs nm). split; [|done].
    apply list_elem_of_fmap. exists nm. rewrite Hp. split; [done|].
    by apply elem_of_elements.
  - intros [Hnm|(X & HX & Hk)].
    + destruct (sch_modules _ _ _ _ Hs k Hnm) as (o & ob & Hi & _). by exists o.
    + apply list_elem_of_fmap in HX as (nm & -> & Hnm).
      apply elem_of_elements in Hnm.
      destruct (parses nm) eqn:Hp; [|by apply elem_of_empty in Hk].
      destruct (Hstate nm Hnm) as (o & ob & Hmod & Hst). rewrite Hp in Hst.
      destruct (sch_processed _ _ _ _ Hs nm o ob Hnm Hmod Hst) as [_ Hsub].
      apply elem_of_dom. by apply Hsub.
Qed.
End schedule.

(** After the discovery every module waits to be processed. *)
Lemma discovered_scheduled names parses defs s ds :
  names = list_to_set (src_fullName <$> ds) →
  discovered s ds → scheduled names parses defs s.
Proof.
  intros -> (Hdom & Hnd & Hstack & Hreg & Hq).
  assert (Hentry : ∀ nm, nm ∈ (list_to_set (src_fullName <$> ds) : gset string) →
            ∃ o ob, module_at s nm o ob ∧ state ob = UNPROCESSED
                    ∧ o ∈ unprocessed_modules s).
  { intros nm Hnm. apply elem_of_list_to_set, list_elem_of_fmap in Hnm
      as (d & -> & Hd).
    destruct (Hreg d Hd) as (o & ob & Hi & Hob & Hf & Hcls & Hst & Hpy & Hc & Hin).
    exists o, ob. split_and!; try done.
    unfold module_at. split_and!; try done.
    rewrite Hcls. by destruct (src_is_package d). }
  assert (Hkey : ∀ k o, allobjects s !! k = Some o →
            k ∈ (list_to_set (src_fullName <$> ds) : gset string)).
  { intros k o Hk. rewrite <- Hdom. apply elem_of_dom. by exists o. }
  assert (Hunp : ∀ nm o ob, module_at s nm o ob → state ob = UNPROCESSED).
  { intros nm o ob Hmod. pose proof Hmod as (Hi & _).
    destruct (Hentry nm (Hkey nm o Hi)) as (o' & ob' & Hmod' & Hst' & _).
    by destruct (module_at_fun _ _ _ _ _ _ Hmod Hmod') as [_ ->]. }
  constructor.
  - intros nm Hnm. destruct (Hentry nm Hnm) as (o & ob & Hmod & _).
    by exists o, ob.
  - done.
  - intros o. split.
    + intros Hin. destruct (Hq o Hin) as (d & Hd & Hi).
      destruct (Hentry (src_fullName d)) as (o' & ob' & Hmod' & Hst' & _).
      { apply elem_of_list_to_set, list_elem_of_fmap. by exists d. }
      pose proof Hmod' as (Hi' & _). assert (o' = o) as -> by congruence.
      exists (src_fullName d), ob'. split_and!; try done.
      apply elem_of_list_to_set, list_elem_of_fmap. by exists d.
    + intros (nm & ob & Hnm & Hmod & Hst).
      destruct (Hentry nm Hnm) as (o' & ob' & Hmod' & _ & Hin').
      by destruct (module_at_fun _ _ _ _ _ _ Hmod Hmod') as [-> _].
  - intros nm o ob _ Hmod Hst. rewrite (Hunp _ _ _ Hmod) in Hst. done.
  - intros nm o ob _ Hmod Hst. rewrite (Hunp _ _ _ Hmod) in Hst. done.
  - intros k [o Hk]. left. by apply (Hkey k o).
  - intros k o ob Hk _ _. by apply (Hkey k o).
  - intros k o Hk. destruct (Hentry k (Hkey k o Hk)) as (o' & ob' & Hmod' & _).
    destruct Hmod' as (Hi' & Hob' & _). assert (o' = o) as -> by congruence.
    by exists ob'.
Qed.

(** ** A builder that keeps to the schedule *)

Section building.
Variable names : gset string.
Variable parses : string → bool.
Variable defs : string → gset string.
Hypothesis Hapart : defs_apart names defs.

Abbreviation sched := (scheduled names parses defs).

  (** A step that leaves the modules as they are and adds definitions of
      modules whose processing has started. *)
Lemma scheduled_transfer s s' :
  sched s →
  (∀ nm o ob, nm ∈ names → module_at s nm o ob →
     ∃ ob', module_at s' nm o ob' ∧ state ob' = state ob) →
  unprocessed_modules s' = unprocessed_modules s →
  processing_modules s' = processing_modules s →
  dom (allobjects s) ⊆ dom (allobjects s') →
  (∀ k, is_Some (allobjects s' !! k) →
     is_Some (allobjects s !! k)
     ∨ ∃ nm o ob, nm ∈ names ∧ module_at s nm o ob
                  ∧ state ob ≠ UNPROCESSED ∧ parses nm = true ∧ k ∈ defs nm) →
  (∀ k o ob, allobjects s' !! k = Some o → objects s' !! o = Some ob →
     is_Module (py_class ob) = true → k ∈ names) →
  (∀ k o, allobjects s' !! k = Some o → is_Some (objects s' !! o)) →
  sched s'.
Proof.
  intros [H1 H2 H3 H4 H5 H6 H7 H8] Hfwd Hq Hstack Hdom Hnew Hkeys Hobjs.
  assert (Hback : ∀ nm o ob', nm ∈ names → module_at s' nm o ob' →
            ∃ ob, module_at s nm o ob ∧ state ob' = state ob).
  { intros nm o ob' Hnm Hm'. destruct (H1 nm Hnm) as (o1 & ob1 & Hm1).
    destruct (Hfwd nm o1 ob1 Hnm Hm1) as (ob1' & Hm1' & Hst1).
    destruct (module_at_fun _ _ _ _ _ _ Hm' Hm1') as [-> ->]. by exists ob1. }
  constructor.
  - intros nm Hnm. destruct (H1 nm Hnm) as (o & ob & Hm).
    destruct (Hfwd nm o ob Hnm Hm) as (ob' & Hm' & _). by exists o, ob'.
  - by rewrite Hq.
  - intros o. rewrite Hq, H3. split.
    + intros (nm & ob & Hnm & Hm & Hst).
      destruct (Hfwd nm o ob Hnm Hm) as (ob' & Hm' & Hst').
      exists nm, ob'. split_and!; try done. congruence.
    + intros (nm & ob' & Hnm & Hm' & Hst').
      destruct (Hback nm o ob' Hnm Hm') as (ob & Hm & Hst).
      exists nm, ob. split_and!; try done. congruence.
  - intros nm o ob' Hnm Hm' Hst'. rewrite Hstack.
    destruct (Hback nm o ob' Hnm Hm') as (ob & Hm & Hst).
    apply (H4 nm o ob); try done. congruence.
  - intros nm o ob' Hnm Hm' Hst'.
    destruct (Hback nm o ob' Hnm Hm') as (ob & Hm & Hst).
    destruct (H5 nm o ob) as [Hp Hsub]; try done; [congruence|].
    split; [done|]. by etrans.
  - intros k Hk.
    assert (Hlift : ∀ nm o ob, nm ∈ names → module_at s nm o ob →
              state ob ≠ UNPROCESSED → parses nm = true → k ∈ defs nm →
              ∃ nm o ob, nm ∈ names ∧ module_at s' nm o ob
                         ∧ state ob ≠ UNPROCESSED ∧ parses nm = true
                         ∧ k ∈ defs nm).
    { intros nm o ob Hnm Hm Hst Hp Hd.
      destruct (Hfwd nm o ob Hnm Hm) as (ob' & Hm' & Hst').
      exists nm, o, ob'. split_and!; try done. congruence. }
    destruct (Hnew k Hk) as [Hold|(nm & o & ob & Hnm & Hm & Hst & Hp & Hd)].
    + destruct (H6 k Hold) as [Hn|(nm & o & ob & Hnm & Hm & Hst & Hp & Hd)];
        [by left|right].
      by apply (Hlift nm o ob).
    + right. by apply (Hlift nm o ob).
  - done.
  - done.
Qed.

  (** [class c: pass] in the module [nm]. *)
Lemma visit_ClassDef_scheduled d s nm o ob c :
  sched s → nm ∈ names → parses nm = true →
  module_at s nm o ob → state ob ≠ UNPROCESSED →
  nm +:+ "." +:+ c ∈ defs nm →
  allobjects s !! (nm +:+ "." +:+ c) = None →
  ∃ s', visit_ClassDef d o c [] s = Return tt s'
        ∧ sched s' ∧ advances names defs (defs nm) s s'
        ∧ dom (allobjects s') = {[ nm +:+ "." +:+ c ]} ∪ dom (allobjects s).
Proof.
  intros Hs Hnm Hp Hmod Hst Hk Hfree.
  pose proof Hmod as (Hidx & Hob & Hfn & Hcls & Hc & Hpy).
  set (k := nm +:+ "." +:+ c) in *.
  set (cid := fresh (dom (objects s))).
  assert (Hcid : objects s !! cid = None) by (apply not_elem_of_dom, is_fresh).
  set (cob := mk_class c o 0 [] [] []).
  set (sa := set_objects (<[cid := cob]> (objects s)) s).
  assert (Hfna : fullName (objects sa) cid = Ok k).
  { unfold sa. simpl. by apply (fullName_insert_child _ cid cob o nm). }
  destruct (addObject_fresh_full sa cid cob k)
    as (s' & Hrun & Hall & Hobj & _ & _ & Hq & Hstack & _); try done.
  { unfold sa. simpl. by rewrite lookup_insert_eq. }
  change (allobjects sa) with (allobjects s) in Hall.
  change (unprocessed_modules sa) with (unprocessed_modules s) in Hq.
  change (processing_modules sa) with (processing_modules s) in Hstack.
  change (parent cob) with (Some o) in Hobj.
  change (objects sa) with (<[cid := cob]> (objects s)) in Hobj.
  change (name cob) with c in Hobj.
  assert (Hoc : o ≠ cid) by congruence.
  assert (Hskel : heap_agree skeleton (<[cid := cob]> (objects s)) (objects s')).
  { rewrite Hobj. by apply heap_agree_alter. }
  assert (Hlook : ∀ x xob, objects s !! x = Some xob →
            ∃ xob', objects s' !! x = Some xob'
                    ∧ but_contents xob' = but_contents xob).
  { intros x xob Hx. assert (x ≠ cid) by congruence. rewrite Hobj.
    destruct (decide (x = o)) as [->|Hne].
    - rewrite lookup_alter_eq, lookup_insert_ne, Hx by done. by eexists.
    - rewrite lookup_alter_ne, lookup_insert_ne, Hx by done. by eexists. }
  assert (Hdom : dom (allobjects s') = {[ k ]} ∪ dom (allobjects s))
    by by rewrite Hall, dom_insert_L.
  exists s'. split_and!.
  - unfold visit_ClassDef.
    rewrite (bind_lift _ _ _ []) by done.
    rewrite (bind_lift _ _ _ []) by done.
    rewrite (bind_lift _ _ _ []) by done.
    by rewrite (bind_Return (alloc cob) _ s cid sa eq_refl).
  - apply (scheduled_transfer s s' Hs); try done.
    + intros nm' o' ob' Hnm' (Hi' & Ho' & Hf' & Hm' & Hc' & Hp').
      destruct (Hlook o' ob' Ho') as (ob'' & Ho'' & E).
      exists ob''. split; [|by apply (f_equal state) in E].
      unfold module_at. rewrite Hall, <- (fullName_agree _ _ _ Hskel).
      rewrite lookup_insert_ne by congruence.
      rewrite (fullName_insert_fresh _ cid cob o' nm' Hcid Hf').
      split_and!; try done.
      * apply (f_equal py_class) in E. simpl in E. congruence.
      * apply (f_equal _is_c_module) in E. simpl in E. congruence.
      * apply (f_equal _py_string) in E. simpl in E. congruence.
    + rewrite Hdom. apply union_subseteq_r.
    + intros k' Hk'. rewrite Hall in Hk'.
      destruct (decide (k' = k)) as [->|Hne].
      * right. by exists nm, o, ob.
      * left. by rewrite lookup_insert_ne in Hk'.
    + intros k' x xob Hk' Hx Hm'. rewrite Hall in Hk'.
      destruct (decide (k' = k)) as [->|Hne].
      * rewrite lookup_insert_eq in Hk'. injection Hk' as <-.
        rewrite Hobj, lookup_alter_ne, lookup_insert_eq in Hx by done.
        injection Hx as <-. done.
      * rewrite lookup_insert_ne in Hk' by done.
        destruct (sch_objects _ _ _ _ Hs k' x Hk') as [xob0 Hx0].
        destruct (Hlook x xob0 Hx0) as (xob' & Hx' & E).
        assert (xob' = xob) as -> by congruence.
        apply (sch_module_keys _ _ _ _ Hs k' x xob0); try done.
        apply (f_equal py_class) in E. simpl in E. congruence.
    + intros k' x Hk'. rewrite Hall in Hk'.
      destruct (decide (k' = k)) as [->|Hne].
      * rewrite lookup_insert_eq in Hk'. injection Hk' as <-.
        rewrite Hobj, lookup_alter_ne, lookup_insert_eq by done. done.
      * rewrite lookup_insert_ne in Hk' by done.
        destruct (sch_objects _ _ _ _ Hs k' x Hk') as [xob0 Hx0].
        destruct (Hlook x xob0 Hx0) as (xob' & Hx' & _). by exists xob'.
  - split_and!.
    + done.
    + by rewrite Hq.
    + intros nm' Hnm'. rewrite Hall.
      destruct (sch_modules _ _ _ _ Hs nm' Hnm') as (o' & ob' & Hi' & _).
      rewrite lookup_insert_ne; [done|congruence].
    + rewrite Hdom. apply union_subseteq_r.
    + intros k' Hk'. rewrite Hall in Hk'.
      destruct (decide (k' = k)) as [->|Hne].
      * right. by left.
      * left. by rewrite lookup_insert_ne in Hk'.
  - done.
Qed.

  (** The module whose builder runs stays out of the queue. *)
Lemma building_stays s s' nm o ob :
  sched s → sched s' → advances names defs ∅ s s' → nm ∈ names →
  module_at s nm o ob → state ob ≠ UNPROCESSED →
  ∃ ob', module_at s' nm o ob' ∧ state ob' ≠ UNPROCESSED.
Proof.
  intros Hs Hs' (_ & Hsub & Hkeep & _) Hnm Hmod Hst.
  destruct (sch_modules _ _ _ _ Hs' nm Hnm) as (o' & ob' & Hmod').
  assert (o' = o) as ->.
  { destruct Hmod' as (Hi' & _), Hmod as (Hi & _).
    rewrite (Hkeep nm Hnm) in Hi'. congruence. }
  exists ob'. split; [done|]. intros Hst'.
  assert (Hin' : o ∈ unprocessed_modules s').
  { apply (sch_queue _ _ _ _ Hs'). by exists nm, ob'. }
  apply (elem_of_sublist _ _ _ Hin') in Hsub.
  apply (sch_queue _ _ _ _ Hs) in Hsub as (nm1 & ob1 & _ & Hm1 & Hst1).
  destruct Hm1 as (_ & Ho1 & _), Hmod as (_ & Ho & _). congruence.
Qed.

  (** [from modname import a, b] in the module [nm]. *)
Lemma visit_ImportFrom_scheduled m cb s nm o ob modname imported :
  callback_ok names parses defs m cb →
  sched s → length (unprocessed_modules s) ≤ m → nm ∈ names →
  module_at s nm o ob → state ob ≠ UNPROCESSED →
  ∃ s', visit_ImportFrom cb o modname imported s = Return tt s'
        ∧ sched s' ∧ advances names defs ∅ s s'.
Proof.
  intros Hcb Hs Hlen Hnm Hmod Hst.
  destruct (Hcb modname s Hs Hlen) as (r & s1 & Hrun1 & Hs1 & Hadv1 & _).
  unfold visit_ImportFrom. rewrite (bind_Return _ _ _ r s1 Hrun1).
  eexists. split; [reflexivity|].
  match goal with |- context [update o ?g] => set (g0 := g) end.
  assert (Hag : heap_agree standing (objects s1) (objects (update o g0 s1))).
  { simpl. by apply heap_agree_alter. }
  split.
  - by apply (scheduled_agree names parses defs s1).
  - apply (advances_trans names defs ∅ s s1 _ Hadv1).
    destruct (advances_refl names defs ∅ s1) as (H1 & H2 & H3 & H4 & H5).
    by split_and!.
Qed.

  (** The statements of a tree whose classes have no bases. *)
Lemma visit_statements_scheduled m cb d nm o :
  callback_ok names parses defs m cb → nm ∈ names → parses nm = true →
  ∀ sts s,
    no_bases sts = true → NoDup (class_names sts) →
    (∀ c, c ∈ class_names sts →
       nm +:+ "." +:+ c ∈ defs nm ∧ allobjects s !! (nm +:+ "." +:+ c) = None) →
    sched s → (∃ ob, module_at s nm o ob ∧ state ob ≠ UNPROCESSED) →
    length (unprocessed_modules s) ≤ m →
    ∃ s', for_each (visit_statement d cb o) sts s = Return tt s'
          ∧ sched s' ∧ advances names defs (defs nm) s s'
          ∧ ∀ c, c ∈ class_names sts →
              nm +:+ "." +:+ c ∈ dom (allobjects s').
Proof.
  intros Hcb Hnm Hp. induction sts as [|st sts IH];
    intros s Hnb Hnd Hfresh Hs (ob & Hmod & Hst) Hlen.
  { exists s. split_and!; try done; [apply advances_refl|].
    intros c Hc. by apply elem_of_nil in Hc. }
  destruct Hapart as [_ Hdefs].
  destruct st as [modname imported|c bases].
  - (* an import *)
    simpl in Hnb, Hnd, Hfresh.
    destruct (visit_ImportFrom_scheduled m cb s nm o ob modname imported)
      as (s1 & Hrun1 & Hs1 & Hadv1); try done.
    destruct (building_stays s s1 nm o ob) as (ob1 & Hmod1 & Hst1); try done.
    pose proof Hadv1 as (_ & Hsub1 & _ & _ & Hnew1).
    destruct (IH s1) as (s' & Hrun & Hs' & Hadv & Hin); try done.
    { intros c Hc. destruct (Hfresh c Hc) as [Hd Hfree]. split; [done|].
      destruct (allobjects s1 !! (nm +:+ "." +:+ c)) as [x|] eqn:Hx; [|done].
      exfalso.
      destruct (Hnew1 (nm +:+ "." +:+ c))
        as [Hold|[Hown|(nm' & o' & Hnm' & Hi' & Hin' & Hd')]]; [done| | |].
      - rewrite Hfree in Hold. by destruct Hold.
      - by apply elem_of_empty in Hown.
      - destruct (decide (nm = nm')) as [<-|Hne].
        + destruct Hmod as (Hi & Ho & _). assert (o' = o) as -> by congruence.
          apply (sch_queue _ _ _ _ Hs) in Hin'
            as (nm1 & ob1' & _ & (_ & Ho1 & _) & Hst1').
          congruence.
        + by apply (Hdefs nm nm' Hnm Hnm' Hne (nm +:+ "." +:+ c)). }
    { by exists ob1. }
    { apply sublist_length in Hsub1. lia. }
    exists s'. split_and!; try done.
    + simpl. by rewrite (bind_Return _ _ _ tt s1 Hrun1).
    + apply (advances_trans names defs _ s s1); [|done].
      apply (advances_mono names defs ∅); [apply empty_subseteq|done].
  - (* a class *)
    simpl in Hnb. apply andb_prop in Hnb as [Hb Hnb].
    destruct bases; [|done].
    simpl in Hnd, Hfresh. apply NoDup_cons in Hnd as [Hc Hnd].
    destruct (Hfresh c) as [Hd Hfree]; [by left|].
    destruct (visit_ClassDef_scheduled d s nm o ob c)
      as (s1 & Hrun1 & Hs1 & Hadv1 & Hdom1); try done.
    pose proof Hadv1 as (_ & Hsub1 & Hkeep1 & _ & _).
    assert (Hmod1 : ∃ ob1, module_at s1 nm o ob1 ∧ state ob1 ≠ UNPROCESSED).
    { destruct (sch_modules _ _ _ _ Hs1 nm Hnm) as (o1 & ob1 & Hm1).
      assert (o1 = o) as ->.
      { destruct Hm1 as (Hi1 & _), Hmod as (Hi & _).
        rewrite (Hkeep1 nm Hnm) in Hi1. congruence. }
      exists ob1. split; [done|]. intros Hst1.
      assert (Hin1 : o ∈ unprocessed_modules s1).
      { apply (sch_queue _ _ _ _ Hs1). by exists nm, ob1. }
      apply (elem_of_sublist _ _ _ Hin1) in Hsub1.
      apply (sch_queue _ _ _ _ Hs) in Hsub1 as (nm2 & ob2 & _ & Hm2 & Hst2).
      destruct Hm2 as (_ & Ho2 & _), Hmod as (_ & Ho & _). congruence. }
    destruct (IH s1) as (s' & Hrun & Hs' & Hadv & Hin); try done.
    { intros c' Hc'. destruct (Hfresh c') as [Hd' Hfree']; [by right|].
      split; [done|]. apply not_elem_of_dom. rewrite Hdom1.
      apply not_elem_of_union. split; [|by apply not_elem_of_dom].
      apply not_elem_of_singleton. intros E.
      apply str_app_inv_head, str_app_inv_head in E. congruence. }
    { apply sublist_length in Hsub1. lia. }
    exists s'. split_and!; try done.
    + simpl. by rewrite (bind_Return _ _ _ tt s1 Hrun1).
    + by apply (advances_trans names defs _ s s1).
    + intros c' Hc'. apply elem_of_cons in Hc' as [->|Hc']; [|by apply Hin].
      destruct Hadv as (_ & _ & _ & Hgrow & _). apply Hgrow.
      rewrite Hdom1. apply elem_of_union. left. by apply elem_of_singleton.
Qed.

  (** The builder for imports and classes keeps to the schedule when the
      classes have no bases and [defs] says what the trees define. *)
Lemma build_module_ok trees d :
  (∀ nm, nm ∈ names → parses nm = true →
     no_bases (trees nm) = true ∧ NoDup (class_names (trees nm))
     ∧ defs nm = defined_in nm (trees nm)) →
  builder_ok names parses defs (build_module trees d).
Proof.
  intros Htrees m cb nm o ob s Hcb Hnm Hp Hs Hmod Hst Htop Hfresh Hlen.
  destruct (Htrees nm Hnm Hp) as (Hnb & Hnd & Hdefs).
  assert (Hkeys : ∀ c, c ∈ class_names (trees nm) →
            nm +:+ "." +:+ c ∈ defs nm).
  { intros c Hc. rewrite Hdefs. unfold defined_in.
    apply elem_of_list_to_set, list_elem_of_fmap. by exists c. }
  destruct (visit_statements_scheduled m cb d nm o Hcb Hnm Hp (trees nm) s)
    as (s' & Hrun & Hs' & Hadv & Hin); try done.
  { intros c Hc. split; [by apply Hkeys|]. apply not_elem_of_dom.
    intros Hdom. by apply (Hfresh (nm +:+ "." +:+ c) (Hkeys c Hc)). }
  { exists ob. split; [done|]. by rewrite Hst. }
  exists s'. split_and!; try done.
  - unfold build_module. rewrite (bind_lift _ _ _ nm); [done|].
    by destruct Hmod as (_ & _ & Hf & _).
  - rewrite Hdefs. unfold defined_in. intros k Hk.
    apply elem_of_list_to_set, list_elem_of_fmap in Hk as (c & -> & Hc).
    by apply Hin.
Qed.
End building.

(** ** Building the system in any order *)

Lemma discovered_new_System verbosity privacy isatty :
  discovered (new_System verbosity privacy isatty) [].
Proof.
  split_and!; try done.
  - apply NoDup_nil_2.
  - intros d Hd. by apply elem_of_nil in Hd.
  - intros o Ho. by apply elem_of_nil in Ho.
Qed.

(** Registering modules with pairwise different names, parents first,
    and processing them: the build returns, every module has been
    processed, and the index holds the modules and their definitions. *)
Lemma build_system_scheduled
    (parse : oid → M bool) (build : (string → M (option oid)) → oid → M unit)
    (introspect : oid → M unit) (postProcess : M unit)
    (names : gset string) (parses : string → bool) (defs : string → gset string)
    (verbosity : Z) (privacy : list (PrivacyClass * string)) (isatty : bool)
    (ds : list module_source) :
  names = list_to_set (src_fullName <$> ds) →
  NoDup (src_fullName <$> ds) →
  parents_first [] ds = true →
  defs_apart names defs →
  parser_ok names parses parse →
  builder_ok names parses defs build →
  post_ok names parses defs postProcess →
  ∃ s, build_system parse build introspect postProcess ds
         (new_System verbosity privacy isatty) = Return tt s
       ∧ dom (allobjects s) = final_index names parses defs
       ∧ all_processed names parses s.
Proof.
  intros Hnames Hnd Hpf Hapart Hparse Hbuild Hpost.
  destruct (add_sources_spec ds [] (new_System verbosity privacy isatty))
    as (s1 & Hrun1 & Hdisc1 & Hlen1).
  { apply discovered_new_System. }
  { by rewrite app_nil_r. }
  { done. }
  simpl in Hlen1.
  assert (Hs1 : scheduled names parses defs s1).
  { apply (discovered_scheduled names parses defs s1 (reverse ds ++ []));
      [|done].
    rewrite Hnames, app_nil_r. apply set_eq. intros x.
    rewrite !elem_of_list_to_set, fmap_reverse. by rewrite elem_of_reverse. }
  destruct (process_scheduled names parses defs parse build introspect
              Hapart Hparse Hbuild postProcess Hpost (length ds)
              (getProcessedModule parse
                 (processModuleAST_within parse build introspect (length ds))
                 introspect)
              (processModuleAST_within parse build introspect (S (length ds)))
              (getProcessedModule_within names parses defs parse build
                 introspect Hapart Hparse Hbuild (length ds))
              (λ _ _, eq_refl) (S (length ds)) s1 Hs1)
    as (s2 & Hrun2 & Hs2 & (Hstack2 & _) & Hq2); [lia|lia|].
  exists s2. split.
  - unfold build_system. by rewrite (bind_Return _ _ _ tt s1 Hrun1).
  - apply (scheduled_all_processed names parses defs s2 Hs2 Hq2).
    rewrite Hstack2. by destruct Hdisc1 as (_ & _ & Hstack1 & _).
Qed.




(** The systems the example builds end in are consistent: the index, the
    root objects and the members lead to objects of the system. *)
Lemma consistent_built_examples :
  consistent (final_state (build_empty [src_p; src_p_a; src_p])) = true
  ∧ consistent (final_state (build_empty [src_p; src_p; src_p_a])) = true
  ∧ consistent (final_state (build_example trees_cycle [src_a; src_b])) = true
  ∧ consistent (final_state (build_example trees_cycle [src_b; src_a])) = true
  ∧ consistent
      (final_state
         (build_system (λ _, ret true) (build_module trees_p_q 8) (λ _, ret tt)
            (ret tt) [src_q; src_p; src_p_a] (new_System 0 [] false))) = true.
Proof. split_and!; vm_compute; reflexivity. Qed.
(** ** Moving an object to a new parent *)

(** ** Dotted names *)

Lemma prefix_spec (p s : string) :
  String.prefix p s = true ↔ ∃ r, s = p +:+ r.
Proof.
  revert s. induction p as [|c p IH]; intros s.
  - split; [intros _; by exists s|by destruct s].
  - destruct s as [|c' s]; simpl.
    + split; [done|]. by intros [r Hr].
    + destruct (Ascii.ascii_dec c c') as [->|Hne].
      * rewrite IH. split; intros [r Hr]; exists r.
        -- by rewrite str_cons_app, Hr.
        -- rewrite str_cons_app in Hr. by injection Hr.
      * split; [done|]. intros [r Hr]. rewrite str_cons_app in Hr.
        injection Hr as -> _. done.
Qed.

Lemma under_spec a k :
  under a k = true ↔ k = a ∨ ∃ sfx, k = a +:+ "." +:+ sfx.
Proof.
  unfold under, pystr.startswith.
  rewrite orb_true_iff, bool_decide_eq_true, prefix_spec.
  split; (intros [H|[r Hr]]; [by left|right; exists r]).
  - by rewrite Hr, str_app_assoc.
  - by rewrite Hr, str_app_assoc.
Qed.

Lemma under_refl a : under a a = true.
Proof. apply under_spec. by left. Qed.

Lemma under_dotted a sfx : under a (a +:+ "." +:+ sfx) = true.
Proof. apply under_spec. right. by exists sfx. Qed.

Lemma under_trans a b c : under a b = true → under b c = true → under a c = true.
Proof.
  rewrite !under_spec. intros [->|[s1 ->]] [->|[s2 ->]]; eauto.
  right. exists (s1 +:+ "." +:+ s2). by rewrite !str_app_assoc.
Qed.

Lemma location_free_spec s a k o :
  location_free s a = true → allobjects s !! k = Some o → under a k = false.
Proof.
  intros H Hk. unfold location_free in H. rewrite forallb_forall in H.
  specialize (H (k, o)). simpl in H. apply negb_true_iff, H.
  by apply list_elem_of_In, elem_of_map_to_list.
Qed.

Lemma split1_dotted (a b : string) :
  pystr.dotfree a = true → pystr.split1 (a +:+ "." +:+ b) = (a, Some b).
Proof.
  induction a as [|c a IH]; intros Ha; [done|].
  rewrite str_cons_app. simpl in *.
  apply andb_prop in Ha as [Hc Ha]. apply negb_true_iff in Hc.
  rewrite Hc. by rewrite (IH Ha).
Qed.

Lemma split_dotfree (a : string) :
  pystr.dotfree a = true → pystr.split a = [a].
Proof.
  induction a as [|c a IH]; intros Ha; [done|]. simpl in *.
  apply andb_prop in Ha as [Hc Ha]. apply negb_true_iff in Hc.
  rewrite Hc. by rewrite (IH Ha).
Qed.

Lemma split_dotted (a b : string) :
  pystr.dotfree a = true →
  pystr.split (a +:+ "." +:+ b) = a :: pystr.split b.
Proof.
  induction a as [|c a IH]; intros Ha; [done|].
  rewrite str_cons_app. simpl in *.
  apply andb_prop in Ha as [Hc Ha]. apply negb_true_iff in Hc.
  rewrite Hc. by rewrite (IH Ha).
Qed.

Lemma join_cons x y l :
  pystr.join (x :: y :: l) = x +:+ "." +:+ pystr.join (y :: l).
Proof. reflexivity. Qed.

Lemma split_join l :
  l ≠ [] → Forall (λ x, pystr.dotfree x = true) l →
  pystr.split (pystr.join l) = l.
Proof.
  induction l as [|x l IH]; intros Hne Hl; [done|].
  apply Forall_cons in Hl as [Hx Hl].
  destruct l as [|y l]; [by apply split_dotfree|].
  rewrite join_cons, split_dotted by done. f_equal. by apply IH.
Qed.

Lemma join_snoc l x :
  l ≠ [] → pystr.join (l ++ [x]) = pystr.join l +:+ "." +:+ x.
Proof.
  induction l as [|y l IH]; intros Hne; [done|].
  destruct l as [|z l]; [done|].
  change ((y :: z :: l) ++ [x]) with (y :: (z :: l) ++ [x]).
  change ((z :: l) ++ [x]) with (z :: (l ++ [x])) at 1.
  rewrite join_cons. change (z :: l ++ [x]) with ((z :: l) ++ [x]).
  rewrite IH by done. rewrite join_cons. by rewrite !str_app_assoc.
Qed.

(** ** Full names and the size of the store *)

Lemma fullName_go_delete_off n (h : heap) x o k :
  fullName_go n h o = Ok k →
  (∀ m kx, fullName_go m h x = Ok kx → String.length k < String.length kx) →
  fullName_go n (delete x h) o = Ok k.
Proof.
  revert o k. induction n as [|n IH]; intros o k H Hx; [done|].
  assert (o ≠ x) as Hne.
  { intros ->. specialize (Hx _ _ H). lia. }
  simpl in *. unfold getobj in *. rewrite lookup_delete_ne by done.
  destruct (h !! o) as [ob|]; [|done]. simpl in *.
  destruct (parent ob) as [p|]; [|done].
  destruct (fullName_go n h p) as [kp|] eqn:Hkp; [|done].
  simpl in H. injection H as <-.
  rewrite (IH p kp Hkp); [done|].
  intros m kx Hm. specialize (Hx m kx Hm).
  rewrite !str_app_length in Hx. lia.
Qed.

Lemma fullName_go_delete_back n (h : heap) x o k :
  fullName_go n (delete x h) o = Ok k → fullName_go n h o = Ok k.
Proof.
  revert o k. induction n as [|n IH]; intros o k H; [done|].
  simpl in *. unfold getobj in *.
  destruct (decide (o = x)) as [->|Hne].
  - by rewrite lookup_delete_eq in H.
  - rewrite lookup_delete_ne in H by done.
    destruct (h !! o) as [ob|]; [|done]. simpl in *.
    destruct (parent ob) as [p|]; [|done].
    destruct (fullName_go n (delete x h) p) as [kp|] eqn:Hkp; [|done].
    by rewrite (IH p kp Hkp).
Qed.

(** As many calls as there are objects are enough for a full name. *)
Lemma fullName_go_size n :
  ∀ (h : heap) o k, fullName_go n h o = Ok k → fullName_go (size h) h o = Ok k.
Proof.
  induction n as [|n IH]; intros h o k H; [done|].
  pose proof H as H0. rewrite fullName_go_S in H.
  unfold getobj in H. destruct (h !! o) as [ob|] eqn:Ho; [|done].
  cbn [rbind] in H.
  assert (Hsize : size h = S (size (delete o h))).
  { rewrite <- (insert_delete_id h o ob Ho) at 1.
    rewrite map_size_insert_None by apply lookup_delete_eq. done. }
  rewrite Hsize, fullName_go_S. unfold getobj. rewrite Ho. cbn [rbind].
  destruct (parent ob) as [p|]; [|done].
  destruct (fullName_go n h p) as [kp|] eqn:Hkp; [|done].
  cbn [rbind] in H. injection H as <-.
  rewrite (fullName_go_delete_back _ h o p kp); [done|].
  apply IH. apply fullName_go_delete_off; [done|].
  intros m kx Hm.
  rewrite (fullName_go_det _ _ _ _ _ _ Hm H0).
  rewrite !str_app_length. simpl. lia.
Qed.

(** Changing an object leaves the full names alone that do not lie at or
    below its own. *)
Lemma fullName_go_alter_not_under n (h : heap) x g kx o k :
  fullName h x = Ok kx →
  fullName_go n h o = Ok k →
  under kx k = false →
  fullName_go n (alter g x h) o = Ok k.
Proof.
  intros Hx. revert o k. induction n as [|n IH]; intros o k H Hu; [done|].
  assert (o ≠ x) as Hne.
  { intros ->. rewrite (fullName_go_det _ _ _ _ _ _ H Hx) in Hu.
    by rewrite under_refl in Hu. }
  rewrite fullName_go_S in *. unfold getobj in *.
  rewrite lookup_alter_ne by done.
  destruct (h !! o) as [ob|]; [|done]. cbn [rbind] in *.
  destruct (parent ob) as [p|]; [|done].
  destruct (fullName_go n h p) as [kp|] eqn:Hkp; [|done].
  cbn [rbind] in H. injection H as <-.
  rewrite (IH p kp Hkp); [done|].
  destruct (under kx kp) eqn:Hkp_u; [|done].
  exfalso. rewrite (under_trans kx kp) in Hu; [done..|apply under_dotted].
Qed.

(** ** Moving an object *)

Section move.
Context (s : System) (self old_parent new_parent : oid).
Context (sob opob npob : Documentable) (new_name old_full new_pfull : string).
Context (L : list oid).
Local Abbreviation h := (objects s).
Local Abbreviation new_full := (new_pfull +:+ "." +:+ new_name).
Local Abbreviation h1 := (alter (moved_to new_parent new_name) self (objects s)).
Context (Hself : h !! self = Some sob) (Hparent : parent sob = Some old_parent).
Context (Hold : fullName h self = Ok old_full).
Context (HL : descendants h self = Ok L) (Hnd : NoDup L).
Context (Hidx : indexed s L) (Hclosed : closed_under_parent h L self).
Context (Hnew : h !! new_parent = Some npob).
Context (Hnewfull : fullName h new_parent = Ok new_pfull).
Context (Hoff : under old_full new_pfull = false).

Lemma move_old_parent_off : old_parent ≠ self ∧ old_parent ∉ L.
Proof.
  destruct (fullName_inv _ _ _ Hold) as (ob' & Hob' & Hop).
  rewrite Hself in Hob'. injection Hob' as <-. rewrite Hparent in Hop.
  destruct Hop as (kp & Hkp & E).
  assert (old_parent ∉ L) as HnL.
  { intros Hin.
    pose proof (fullName_under_length _ _ _ _ _ _ Hclosed Hold Hin Hkp) as Hlen.
    rewrite E, !str_app_length in Hlen. simpl in Hlen. lia. }
  split; [|done]. intros ->. apply HnL. by eapply descendants_head.
Qed.

Lemma move_new_parent_off : new_parent ∉ L.
Proof.
  intros Hin.
  destruct (fullName_under _ _ _ _ _ _ Hclosed Hold Hin Hnewfull)
    as [[_ ->]|[_ [sfx ->]]].
  - by rewrite under_refl in Hoff.
  - by rewrite under_dotted in Hoff.
Qed.

Lemma move_new_parent_name : fullName h1 new_parent = Ok new_pfull.
Proof.
  unfold fullName. rewrite size_alter.
  by apply (fullName_go_alter_not_under _ _ _ _ old_full).
Qed.

Lemma move_self_name : fullName h1 self = Ok new_full.
Proof.
  unfold fullName. rewrite size_alter, fullName_go_S.
  unfold getobj. rewrite lookup_alter_eq, Hself. cbn [fmap option_fmap option_map rbind].
  change (parent (moved_to new_parent new_name sob)) with (Some new_parent).
  rewrite <- (size_alter h (moved_to new_parent new_name) self).
  rewrite (fullName_go_size _ _ _ _ move_new_parent_name). done.
Qed.

Lemma move_closed : closed_under_parent h1 L self.
Proof.
  intros x Hx Hne. destruct (Hclosed x Hx Hne) as (xob & q & Hxob & Hq & HqL).
  exists xob, q. by rewrite lookup_alter_ne.
Qed.

Lemma move_names_go n x k :
  x ∈ L → fullName_go n h x = Ok k →
  ∃ k', fullName_go (n + S (size h)) h1 x = Ok k'.
Proof.
  revert x k. induction n as [|n IH]; intros x k Hx Hk; [done|].
  destruct (decide (x = self)) as [->|Hne].
  - exists new_full. apply (fullName_go_mono (S (size h1))); [|rewrite size_alter; lia].
    apply move_self_name.
  - destruct (Hclosed x Hx Hne) as (xob & q & Hxob & Hq & HqL).
    rewrite fullName_go_S in Hk. unfold getobj in Hk. rewrite Hxob in Hk.
    cbn [rbind] in Hk. rewrite Hq in Hk.
    destruct (fullName_go n h q) as [kq|] eqn:Hkq; [|done].
    destruct (IH q kq HqL Hkq) as [k' Hk'].
    exists (k' +:+ "." +:+ name xob).
    change (S n + S (size h)) with (S (n + S (size h))).
    rewrite fullName_go_S. unfold getobj. rewrite lookup_alter_ne by done.
    rewrite Hxob. cbn [rbind]. by rewrite Hq, Hk'.
Qed.

Lemma move_names x : x ∈ L → ∃ k, fullName h1 x = Ok k.
Proof.
  intros Hx. destruct (Hidx x Hx) as (k & Hk & _).
  destruct (move_names_go _ x k Hx Hk) as [k' Hk'].
  exists k'. unfold fullName.
  apply (fullName_go_mono (size h1)); [|lia].
  by apply (fullName_go_size _ _ _ _ Hk').
Qed.

Lemma move_under_old x k : x ∈ L → fullName h x = Ok k → under old_full k = true.
Proof.
  intros Hx Hk.
  destruct (fullName_under _ _ _ _ _ _ Hclosed Hold Hx Hk)
    as [[_ ->]|[_ [sfx ->]]]; [apply under_refl|apply under_dotted].
Qed.

Lemma move_under_new x k : x ∈ L → fullName h1 x = Ok k → under new_full k = true.
Proof.
  intros Hx Hk.
  destruct (fullName_under _ _ _ _ _ _ move_closed move_self_name Hx Hk)
    as [[_ ->]|[_ [sfx ->]]]; [apply under_refl|apply under_dotted].
Qed.

Lemma move_self_unique y :
  y ∈ L → fullName h1 y = Ok new_full → y = self.
Proof.
  intros Hy Hk.
  destruct (fullName_under _ _ _ _ _ _ move_closed move_self_name Hy Hk)
    as [[-> _]|[_ [sfx E]]]; [done|].
  exfalso. revert E. apply str_app_ne_longer. by rewrite str_cons_app.
Qed.

Context (Hopob : h !! old_parent = Some opob).
Context (Hcontainer : is_CanContainImportsDocumentable (py_class opob) = true).
Context (Hmember : pydict.mem (name sob) (contents opob) = true).
Context (Hnocoll : pydict.get new_name (contents npob) = None).

Lemma reparent_spec :
  ∃ s', reparent self new_parent new_name s = Return tt s'
        ∧ rootobjects s' = rootobjects s
        ∧ objects s'
          = moved_heap h self old_parent new_parent (name sob) new_name new_full
        ∧ allobjects s' !! new_full = Some self
        ∧ (∀ k, under old_full k = false → under new_full k = false →
             allobjects s' !! k = allobjects s !! k)
        ∧ (under new_full old_full = false → allobjects s' !! old_full = None).
Proof.
  destruct move_old_parent_off as [Hop_ne Hop_L].
  pose proof move_new_parent_off as Hnp_L.
  assert (Hself_L : self ∈ L) by by eapply descendants_head.
  unfold reparent.
  rewrite (bind_lift _ _ _ sob) by (unfold getobj; by rewrite Hself).
  rewrite (bind_lift _ _ _ npob) by (unfold getobj; by rewrite Hnew).
  rewrite Hnocoll, bind_ret.
  (* _handle_reparenting_pre *)
  destruct (del_runs L s Hnd Hidx) as (sd & Hruns_d & Honly_d & Hdel_in & Hdel_out).
  pose proof (index_only_objects _ _ Honly_d) as Hobj_d.
  rewrite (bind_Return _ _ _ tt sd).
  2:{ unfold _handle_reparenting_pre. rewrite _handle_reparenting_pre_go_walk.
      by apply (walk_go_run _ _ _ _ L). }
  rewrite (bind_lift _ _ _ sob) by (unfold getobj; by rewrite Hobj_d, Hself).
  rewrite Hparent.
  rewrite (bind_lift _ _ _ opob) by (unfold getobj; by rewrite Hobj_d, Hopob).
  rewrite Hcontainer. cbn [negb].
  rewrite bind_modify.
  set (s1 := update self _ sd).
  assert (Hobj_1 : objects s1 = h1).
  { unfold s1, update. simpl. by rewrite Hobj_d. }
  (* first _handle_reparenting_post *)
  destruct (ins_runs L s1) as (si & Hruns_i & Honly_i & Hins_out & Hins_in).
  { intros x Hx. rewrite Hobj_1. by apply (move_names). }
  pose proof (index_only_objects _ _ Honly_i) as Hobj_i.
  rewrite (bind_Return _ _ _ tt si).
  2:{ unfold _handle_reparenting_post. rewrite _handle_reparenting_post_go_walk.
      apply (walk_go_run _ _ _ _ L); [|done].
      change (descendants (objects s1) self = Ok L). rewrite Hobj_1.
      rewrite <- (descendants_agree h); [done|]. by apply heap_agree_alter. }
  rewrite (bind_lift _ _ _ opob).
  2:{ unfold getobj. rewrite Hobj_i, Hobj_1. by rewrite lookup_alter_ne, Hopob. }
  rewrite Hmember.
  rewrite bind_modify.
  set (s2 := update old_parent _ si).
  assert (Hobj_2 : objects s2 = alter (without_member (name sob)) old_parent h1).
  { unfold s2, update. simpl. by rewrite Hobj_i, Hobj_1. }
  assert (Hskel_2 : heap_agree skeleton h1 (objects s2)).
  { rewrite Hobj_2. by apply heap_agree_alter. }
  rewrite (bind_lift _ _ _ new_full).
  2:{ rewrite <- (fullName_agree _ _ _ Hskel_2). by apply move_self_name. }
  rewrite !bind_modify.
  set (s4 := update new_parent _ (update old_parent _ s2)).
  assert (Hobj_4 : objects s4
            = moved_heap h self old_parent new_parent (name sob) new_name new_full).
  { unfold s4, update. simpl. by rewrite Hobj_i, Hobj_1. }
  assert (Hskel_4 : heap_agree skeleton h1 (objects s4)).
  { rewrite Hobj_4. unfold moved_heap.
    eapply heap_agree_trans; [|by apply heap_agree_alter].
    eapply heap_agree_trans; [|by apply heap_agree_alter].
    by apply heap_agree_alter. }
  assert (Hall_4 : allobjects s4 = allobjects si) by done.
  (* second _handle_reparenting_post *)
  destruct (ins_runs L s4) as (s5 & Hruns_5 & Honly_5 & Hins_out5 & Hins_in5).
  { intros x Hx. rewrite <- (fullName_agree _ _ _ Hskel_4). by apply move_names. }
  pose proof (index_only_objects _ _ Honly_5) as Hobj_5.
  assert (Hrun5 : _handle_reparenting_post self s4 = Return tt s5).
  { unfold _handle_reparenting_post. rewrite _handle_reparenting_post_go_walk.
    apply (walk_go_run _ _ _ _ L); [|done].
    change (descendants (objects s4) self = Ok L). rewrite Hobj_4.
    unfold moved_heap.
    do 3 (apply descendants_alter_off; [|done]).
    rewrite <- (descendants_agree h); [done|]. by apply heap_agree_alter. }
  exists s5. split; [exact Hrun5|]. split_and!.
  - rewrite Honly_5. simpl. unfold s2. simpl. rewrite Honly_i. simpl.
    unfold s1. simpl. rewrite Honly_d. done.
  - by rewrite Hobj_5.
  - apply (Hins_in5 self); [done| |].
    + rewrite <- (fullName_agree _ _ _ Hskel_4). by apply move_self_name.
    + intros y Hy Hk. rewrite <- (fullName_agree _ _ _ Hskel_4) in Hk.
      by apply (move_self_unique).
  - intros k Hko Hkn.
    rewrite Hins_out5, Hall_4, Hins_out.
    + change (allobjects s1) with (allobjects sd). apply Hdel_out.
      intros x Hx Hk. by rewrite (move_under_old x k Hx Hk) in Hko.
    + intros x Hx Hk. rewrite Hobj_1 in Hk.
      by rewrite (move_under_new x k Hx Hk) in Hkn.
    + intros x Hx Hk. rewrite <- (fullName_agree _ _ _ Hskel_4) in Hk.
      by rewrite (move_under_new x k Hx Hk) in Hkn.
  - intros Hkn.
    rewrite Hins_out5, Hall_4, Hins_out.
    + change (allobjects s1) with (allobjects sd). by apply (Hdel_in _ self).
    + intros x Hx Hk. rewrite Hobj_1 in Hk.
      by rewrite (move_under_new x _ Hx Hk) in Hkn.
    + intros x Hx Hk. rewrite <- (fullName_agree _ _ _ Hskel_4) in Hk.
      by rewrite (move_under_new x _ Hx Hk) in Hkn.
Qed.
End move.

(** ** Dictionaries *)

Lemma get_set_eq {V} k (v : V) d : pydict.get k (pydict.set k v d) = Some v.
Proof.
  induction d as [|[k' v'] d IH]; simpl.
  - by rewrite bool_decide_eq_true_2.
  - case_bool_decide as E; simpl.
    + by rewrite bool_decide_eq_true_2.
    + by rewrite bool_decide_eq_false_2.
Qed.

Lemma get_set_ne {V} k k' (v : V) d :
  k ≠ k' → pydict.get k (pydict.set k' v d) = pydict.get k d.
Proof.
  intros Hne. induction d as [|[k2 v2] d IH]; simpl.
  - by rewrite bool_decide_eq_false_2.
  - case_bool_decide as E; simpl.
    + subst k2. by rewrite !bool_decide_eq_false_2.
    + by rewrite IH.
Qed.

Lemma get_del_eq {V} k (d : pydict.t V) : pydict.get k (pydict.del k d) = None.
Proof.
  unfold pydict.del, pydict.t in *. induction d as [|[k' v'] d IH]; [done|].
  rewrite filter_cons. simpl. case_decide as E; simpl; [|done].
  by rewrite bool_decide_eq_false_2.
Qed.

Lemma get_del_ne {V} k k' (d : pydict.t V) :
  k ≠ k' → pydict.get k (pydict.del k' d) = pydict.get k d.
Proof.
  intros Hne. unfold pydict.del, pydict.t in *. induction d as [|[k2 v2] d IH]; [done|].
  rewrite filter_cons. simpl. case_decide as E; simpl.
  - by rewrite IH.
  - simpl in E. subst k2. by rewrite bool_decide_eq_false_2.
Qed.

(** ** The store after a move *)

Lemma moved_skeleton (h : heap) self old_parent new_parent
    old_name new_name new_full :
  heap_agree skeleton (alter (moved_to new_parent new_name) self h)
    (moved_heap h self old_parent new_parent old_name new_name new_full).
Proof.
  unfold moved_heap.
  eapply heap_agree_trans; [|by apply heap_agree_alter].
  eapply heap_agree_trans; [|by apply heap_agree_alter].
  by apply heap_agree_alter.
Qed.

Lemma moved_lookup (h : heap) self old_parent new_parent
    old_name new_name new_full x xob :
  x ≠ self → h !! x = Some xob →
  ∃ xob', moved_heap h self old_parent new_parent old_name new_name new_full
            !! x = Some xob'
    ∧ name xob' = name xob ∧ parent xob' = parent xob
    ∧ py_class xob' = py_class xob
    ∧ contents xob'
      = (if bool_decide (x = new_parent)
         then pydict.set new_name self else id)
          ((if bool_decide (x = old_parent)
            then pydict.del old_name else id) (contents xob))
    ∧ _localNameToFullName_map xob'
      = (if bool_decide (x = old_parent)
         then pydict.set old_name new_full else id)
          (_localNameToFullName_map xob).
Proof.
  intros Hne Hx. unfold moved_heap.
  destruct (decide (x = new_parent)) as [Hnp|Hnp],
           (decide (x = old_parent)) as [Hop|Hop];
    rewrite ?(bool_decide_eq_true_2 _ Hnp), ?(bool_decide_eq_false_2 _ Hnp),
            ?(bool_decide_eq_true_2 _ Hop), ?(bool_decide_eq_false_2 _ Hop);
    try subst new_parent; try subst old_parent;
    rewrite ?lookup_alter_eq, ?lookup_alter_ne by done;
    rewrite ?lookup_alter_eq, ?lookup_alter_ne by done;
    rewrite ?lookup_alter_eq, ?lookup_alter_ne by done;
    rewrite ?lookup_alter_eq, ?lookup_alter_ne by done;
    rewrite Hx; simpl; eexists; (split; [reflexivity|]); by split_and!.
Qed.

Lemma first_root_agree (h h' : heap) roots nm :
  (∀ r, r ∈ roots → name <$> (h !! r) = name <$> (h' !! r)) →
  first_root h roots nm = first_root h' roots nm.
Proof.
  induction roots as [|r roots IH]; intros H; [done|]. simpl.
  pose proof (H r ltac:(by left)) as Hr.
  destruct (h !! r) as [rob|], (h' !! r) as [rob'|]; simpl in Hr; try done.
  injection Hr as ->. rewrite IH; [done|].
  intros x Hx. apply H. by right.
Qed.

(** ** Reaching an object by name *)

Lemma anchored_container t c :
  anchored t c →
  ∃ cob, objects t !! c = Some cob
         ∧ is_CanContainImportsDocumentable (py_class cob) = true.
Proof. destruct 1; eauto. Qed.

Lemma _localNameToFullName_member (h : heap) p pob nm c :
  h !! p = Some pob →
  is_CanContainImportsDocumentable (py_class pob) = true →
  pydict.get nm (contents pob) = Some c →
  _localNameToFullName h p nm = fullName h c.
Proof.
  intros Hp Hcls Hc. unfold _localNameToFullName. simpl.
  unfold getobj. rewrite Hp. simpl. rewrite Hc.
  by destruct (py_class pob).
Qed.

Lemma _localNameToFullName_alias (h : heap) p pob nm full :
  h !! p = Some pob →
  is_CanContainImportsDocumentable (py_class pob) = true →
  pydict.get nm (contents pob) = None →
  pydict.get nm (_localNameToFullName_map pob) = Some full →
  _localNameToFullName h p nm = Ok full.
Proof.
  intros Hp Hcls Hc Ha. unfold _localNameToFullName. simpl.
  unfold getobj. rewrite Hp. simpl. rewrite Hc, Ha.
  by destruct (py_class pob).
Qed.

Lemma expandName_part_resolved (h : heap) obj i p full :
  _localNameToFullName h obj p = Ok full → full ≠ p →
  expandName_part h obj i p = Ok (full, false).
Proof.
  intros H Hne. unfold expandName_part. rewrite H. simpl.
  by rewrite bool_decide_eq_false_2.
Qed.

Lemma anchored_walk t lookup c :
  anchored t c →
  (∀ k o, allobjects t !! k = Some o → lookup k = Ok (Some o)) →
  ∃ r rob parts,
    objects t !! r = Some rob
    ∧ first_root (objects t) (rootobjects t) (name rob) = Some r
    ∧ pystr.dotfree (name rob) = true
    ∧ Forall (λ x, pystr.dotfree x = true) parts
    ∧ fullName (objects t) c = Ok (pystr.join (name rob :: parts))
    ∧ ∀ tail, tail ≠ [] →
        expandName_loop lookup (objects t) r 0 (parts ++ tail)
        = expandName_loop lookup (objects t) c (length parts) tail.
Proof.
  intros Hc Hlookup.
  induction Hc as [r rob Hr Hp Hcls Hdot Hroot
                  |c cob p pob fn Hc Hp Hpob Hanc IH Hmem Hcls Hdot Hfn Hidx].
  - exists r, rob, []. split_and!; try done.
    unfold fullName. rewrite fullName_go_S. unfold getobj. rewrite Hr.
    cbn [rbind]. by rewrite Hp.
  - destruct IH as (r & rob & parts & Hr & Hroot & Hrdot & Hparts & Hpfull & Hwalk).
    destruct (anchored_container _ _ Hanc) as (pob' & Hpob' & Hpcls).
    rewrite Hpob in Hpob'. injection Hpob' as <-.
    assert (Hfn_eq : fn = pystr.join (name rob :: parts) +:+ "." +:+ name cob).
    { destruct (fullName_inv _ _ _ Hfn) as (cob' & Hcob' & Hshape).
      rewrite Hc in Hcob'. injection Hcob' as <-. rewrite Hp in Hshape.
      destruct Hshape as (kp & Hkp & ->). congruence. }
    exists r, rob, (parts ++ [name cob]). split_and!; try done.
    + apply Forall_app. split; [done|]. by apply Forall_singleton.
    + rewrite Hfn. f_equal. rewrite Hfn_eq.
      change (name rob :: parts ++ [name cob])
        with ((name rob :: parts) ++ [name cob]).
      by rewrite join_snoc.
    + intros tail Htail. rewrite <- app_assoc. cbn [app].
      rewrite Hwalk by done. cbn [expandName_loop].
      rewrite (expandName_part_resolved _ _ _ _ fn).
      * cbn [rbind]. rewrite (Hlookup fn c Hidx).
        destruct tail as [|t1 tail]; [done|].
        rewrite length_app. simpl. by rewrite Nat.add_1_r.
      * by rewrite (_localNameToFullName_member _ p pob _ c).
      * rewrite Hfn_eq. intros E. symmetry in E. revert E.
        by apply dotfree_not_dotted.
Qed.

Lemma dotted_ne_longer (a sfx : string) : a ≠ a +:+ "." +:+ sfx.
Proof. apply str_app_ne_longer. by rewrite str_cons_app. Qed.

Lemma not_under_prefix (a sfx : string) : under (a +:+ "." +:+ sfx) a = false.
Proof.
  destruct (under _ a) eqn:E; [|done]. exfalso.
  apply under_spec in E as [E|[x E]].
  - by apply dotted_ne_longer in E.
  - rewrite !str_app_assoc in E. revert E. apply str_app_ne_longer.
    by rewrite str_cons_app.
Qed.

Section resolve.
Context (s s' : System) (self old_parent new_parent : oid).
Context (sob npob : Documentable) (new_name old_full new_full : string).
Context (Hself : objects s !! self = Some sob).
Context (Hparent : parent sob = Some old_parent).
Context (Hold : fullName (objects s) self = Ok old_full).
Context (Hnotroot : self ∉ rootobjects s).
Context (Hnew : objects s !! new_parent = Some npob).
Context (Hnocoll : pydict.get new_name (contents npob) = None).
Context (Hfree : location_free s new_full = true).
Context (Hroots : rootobjects s' = rootobjects s).
Context (Hobj : objects s'
           = moved_heap (objects s) self old_parent new_parent (name sob)
               new_name new_full).
Context (Hframe : ∀ k, under old_full k = false → under new_full k = false →
           allobjects s' !! k = allobjects s !! k).

Lemma moved_fullName c fn :
  fullName (objects s) c = Ok fn → under old_full fn = false →
  fullName (objects s') c = Ok fn.
Proof.
  intros Hfn Hu. rewrite Hobj. rewrite <- (fullName_agree _ _ _ (moved_skeleton _ _ _ _ _ _ _)).
  unfold fullName. rewrite size_alter.
  by apply (fullName_go_alter_not_under _ _ _ _ old_full).
Qed.

Lemma anchored_moved c :
  anchored s c →
  ∀ fn sfx, fullName (objects s) c = Ok fn → old_full = fn +:+ "." +:+ sfx →
  anchored s' c.
Proof.
  induction 1 as [r rob Hr Hp Hcls Hdot Hroot
                 |c cob p pob fn0 Hc Hp Hpob Hanc IH Hmem Hcls Hdot Hfn Hidx];
    intros fn sfx Hfn' Hsfx.
  - assert (r ≠ self) as Hne by (intros ->; congruence).
    destruct (moved_lookup (objects s) self old_parent new_parent (name sob)
                new_name new_full r rob Hne Hr)
      as (rob' & Hrob' & Hn & Hpar & Hc' & _).
    rewrite <- Hobj in Hrob'.
    apply (anchored_root s' r rob'); rewrite ?Hn, ?Hpar, ?Hc'; try done.
    rewrite Hroots, <- Hroot. symmetry. apply first_root_agree.
    intros x Hx. assert (x ≠ self) by (intros ->; done).
    rewrite Hobj.
    pose proof (moved_skeleton (objects s) self old_parent new_parent
                  (name sob) new_name new_full x) as Hsk.
    rewrite lookup_alter_ne in Hsk by done.
    destruct (objects s !! x), (moved_heap _ _ _ _ _ _ _ !! x);
      simpl in *; try done.
    by injection Hsk as -> _.
  - rewrite Hfn in Hfn'. injection Hfn' as <-.
    destruct (fullName_inv _ _ _ Hfn) as (cob' & Hcob' & Hshape).
    rewrite Hc in Hcob'. injection Hcob' as <-. rewrite Hp in Hshape.
    destruct Hshape as (kp & Hkp & Efn).
    assert (Hu : under old_full fn0 = false).
    { rewrite Hsfx. apply not_under_prefix. }
    assert (c ≠ self) as Hne.
    { intros ->. rewrite Hold in Hfn. injection Hfn as ->.
      by apply dotted_ne_longer in Hsfx. }
    assert (p ≠ self) as Hpne.
    { intros ->. rewrite Hold in Hkp. injection Hkp as <-.
      rewrite Efn, !str_app_assoc in Hsfx.
      by apply dotted_ne_longer in Hsfx. }
    destruct (moved_lookup (objects s) self old_parent new_parent (name sob)
                new_name new_full c cob Hne Hc)
      as (cob' & Hcob' & Hn & Hpar & Hc' & _).
    destruct (moved_lookup (objects s) self old_parent new_parent (name sob)
                new_name new_full p pob Hpne Hpob)
      as (pob' & Hpob' & _ & _ & _ & Hcont & _).
    rewrite <- Hobj in Hcob', Hpob'.
    apply (anchored_child s' c cob' p pob' fn0);
      rewrite ?Hn, ?Hpar, ?Hc'; try done.
    + apply (IH kp (name cob +:+ "." +:+ sfx) Hkp).
      by rewrite Hsfx, Efn, !str_app_assoc.
    + assert (Hold_ne : p = old_parent → name cob ≠ name sob).
      { intros -> E.
        destruct (fullName_inv _ _ _ Hold) as (sob' & Hsob' & Hshape).
        rewrite Hself in Hsob'. injection Hsob' as <-.
        rewrite Hparent in Hshape. destruct Hshape as (kp' & Hkp' & Eold).
        rewrite Hkp in Hkp'. injection Hkp' as <-.
        rewrite <- E, <- Efn in Eold. rewrite Eold in Hsfx.
        by apply dotted_ne_longer in Hsfx. }
      assert (Hnew_ne : p = new_parent → name cob ≠ new_name).
      { intros -> E. rewrite Hnew in Hpob. injection Hpob as <-. congruence. }
      rewrite Hcont.
      destruct (decide (p = new_parent)) as [Hnp|Hnp],
               (decide (p = old_parent)) as [Hop|Hop];
        rewrite ?(bool_decide_eq_true_2 _ Hnp), ?(bool_decide_eq_false_2 _ Hnp),
                ?(bool_decide_eq_true_2 _ Hop), ?(bool_decide_eq_false_2 _ Hop);
        unfold id; rewrite ?get_set_ne, ?get_del_ne by auto; done.
    + by apply moved_fullName.
    + rewrite Hframe; [done..|].
      by apply (location_free_spec s new_full fn0 c).
Qed.
End resolve.

Lemma join_cons_nonempty x l :
  l ≠ [] → pystr.join (x :: l) = x +:+ "." +:+ pystr.join l.
Proof. by destruct l. Qed.

Lemma objForFullName_hit d t k o :
  allobjects t !! k = Some o → objForFullName (S d) t k false = Ok (Some o).
Proof. intros H. unfold objForFullName. by rewrite H. Qed.

(** The lookup of a name that is not in the index, below the first root
    object of its first component. *)
Lemma objForFullName_fallback d t rn rest r e o :
  pystr.dotfree rn = true →
  allobjects t !! (rn +:+ "." +:+ rest) = None →
  first_root (objects t) (rootobjects t) rn = Some r →
  expandName_loop (λ fn, objForFullName d t fn false) (objects t) r 0
    (pystr.split rest) = Ok e →
  allobjects t !! e = Some o →
  objForFullName (S d) t (rn +:+ "." +:+ rest) false = Ok (Some o).
Proof.
  intros Hdot Hmiss Hroot Hexp He.
  unfold objForFullName; fold objForFullName.
  rewrite Hmiss, (split1_dotted rn rest Hdot). cbn [fst snd].
  revert Hroot. generalize (rootobjects t). intros roots.
  induction roots as [|x roots IH]; intros Hroot; [done|].
  simpl in Hroot. unfold getobj at 1.
  destruct (objects t !! x) as [xob|]; [|done]. cbn [rbind].
  case_bool_decide as Hname.
  - injection Hroot as ->. rewrite Hexp. cbn [rbind]. by rewrite He.
  - by apply IH.
Qed.




(** ** More about reporting *)

(** X1: a message passed with [once=True] is dealt with once: whatever
    the first call did, a later call with [once=True] for the same section
    and text, with any thresholds, returns and leaves the system as it
    is. *)
Theorem X1_msg_once_idempotent (section text : string)
    (thresh topthresh thresh' topthresh' : Z)
    (nonl wantsnl nonl' wantsnl' : bool) (s : System) :
  let s1 := final_state (msg section text thresh topthresh nonl wantsnl true s) in
  returns (msg section text thresh topthresh nonl wantsnl true s) = true
  ∧ (section, text) ∈ once_msgs s1
  ∧ msg section text thresh' topthresh' nonl' wantsnl' true s1 = Return tt s1.
Proof.
  unfold msg. cbn [andb].
  case_bool_decide as Hin.
  - simpl. split_and!; [done..|]. by rewrite bool_decide_eq_true_2.
  - destruct ((thresh <=? options_verbosity s)%Z
              && (options_verbosity s <=? topthresh)%Z)%bool, nonl; simpl;
      (split_and!; [done|by left|];
       rewrite bool_decide_eq_true_2 by (by left); done).
Qed.

(** X2: [Documentable.report] on an object whose module and description
    are known returns for every section, offset and threshold; it hands
    one message to [System.msg] that starts with the description of the
    object and ends with the text given; it counts a violation exactly
    when the threshold is negative, whether or not the verbosity lets the
    message through; and it changes nothing but what [System.msg]
    writes: the objects, the index and the queue of modules stay as they
    are. *)
Theorem X2_report_frame (s : System) (o m : oid) (ob : Documentable)
    (dsc descr section : string) (lineno_offset : nat) (thresh : Z) :
  objects s !! o = Some ob →
  description (objects s) o = Ok dsc →
  module (objects s) o = Ok m →
  ∃ s' shown,
    report o descr section lineno_offset thresh s = Return tt s'
    ∧ msg_log s'
      = msg_log s ++
        [mkMessage section (dsc +:+ ":" +:+ shown +:+ ": " +:+ descr) thresh]
    ∧ violations s'
      = (if (thresh <? 0)%Z then S (violations s) else violations s)
    ∧ reporting_only s s'
    ∧ objects s' = objects s ∧ allobjects s' = allobjects s
    ∧ unprocessed_modules s' = unprocessed_modules s.
Proof.
  intros Hob Hdsc Hm. unfold report.
  rewrite (bind_lift _ _ _ ob) by (unfold getobj; by rewrite Hob).
  set (n := if bool_decide (section = "docstring")
               || bool_decide (section = "resolve_identifier_xref")
            then _ else _).
  assert (∃ shown,
            (if negb (n =? 0) then ret (pystr.str_of_nat (n + lineno_offset))
             else if negb (lineno_offset =? 0) then
               let+ m := lift (λ s, module (objects s) o) in
               if bool_decide (m = o) then ret (pystr.str_of_nat lineno_offset)
               else ret "???"
             else ret "???") s = Return shown s) as [shown Hshown].
  { destruct (n =? 0); simpl; [|eauto].
    destruct (lineno_offset =? 0); simpl; [eauto|].
    rewrite (bind_lift _ _ _ m) by done.
    case_bool_decide; eauto. }
  rewrite (bind_Return _ _ _ shown s Hshown).
  rewrite (bind_lift _ _ _ dsc) by done.
  destruct (msg_spec section (dsc +:+ ":" +:+ shown +:+ ": " +:+ descr) thresh s)
    as (s' & Hrun & Hro & Hlog & Hviol & _).
  exists s', shown.
  pose proof (reporting_only_fields _ _ Hro) as (H1 & H2 & _ & _ & H3 & _).
  by split_and!.
Qed.

Lemma X2_report_frame_witness :
  ∃ s', report 3 "undocumented" "docstring" 2 (-1) move_sys = Return tt s'
        ∧ violations s' = 1 ∧ allobjects s' = allobjects move_sys.
Proof.
  destruct (X2_report_frame move_sys 3 1 move_C "pkg.a" "undocumented"
              "docstring" 2 (-1))
    as (s' & shown & Hrun & _ & Hviol & _ & _ & Hall & _);
    try (vm_compute; reflexivity).
  exists s'. by split_and!.
Defined.

(** ** More about the index *)

(** X3: [System._remove] of an object takes the full names of the object
    and of everything below it out of the index, provided these objects
    are pairwise different and each is in the index under its full name;
    every other key keeps its entry and nothing but the index changes.
    The objects themselves stay in the contents of their parents. *)
Theorem X3_remove_subtree (s : System) (o : oid) (L : list oid) :
  descendants (objects s) o = Ok L →
  NoDup L →
  indexed s L →
  ∃ s', _remove o s = Return tt s'
        ∧ index_only s s'
        ∧ objects s' = objects s
        ∧ (∀ x k, x ∈ L → fullName (objects s) x = Ok k →
             allobjects s' !! k = None)
        ∧ (∀ k, (∀ x, x ∈ L → fullName (objects s) x ≠ Ok k) →
             allobjects s' !! k = allobjects s !! k).
Proof.
  intros HL Hnd Hidx.
  destruct (del_runs L s Hnd Hidx) as (s' & Hruns & Honly & Hin & Hout).
  exists s'. split_and!; try done.
  - unfold _remove. rewrite _remove_go_walk. by apply (walk_go_run _ _ _ _ L).
  - by apply index_only_objects.
  - intros x k Hx Hk. by apply (Hin k x).
Qed.

Lemma X3_remove_subtree_witness :
  ∃ s', _remove 3 move_sys = Return tt s'
        ∧ allobjects s' !! "pkg.a.C" = None
        ∧ allobjects s' !! "pkg.a.C.m" = None
        ∧ allobjects s' !! "pkg.a" = Some 1.
Proof.
  destruct (X3_remove_subtree move_sys 3 [3; 4])
    as (s' & Hrun & _ & _ & Hin & Hout).
  - vm_compute. reflexivity.
  - apply (bool_decide_unpack _). vm_compute. reflexivity.
  - intros x Hx.
    apply elem_of_cons in Hx as [->|Hx];
      [exists "pkg.a.C"; split; vm_compute; reflexivity|].
    apply elem_of_cons in Hx as [->|Hx];
      [exists "pkg.a.C.m"; split; vm_compute; reflexivity|].
    by apply elem_of_nil in Hx.
  - exists s'. split_and!; [done| | |].
    + apply (Hin 3); [by left|vm_compute; reflexivity].
    + apply (Hin 4); [right; by left|vm_compute; reflexivity].
    + rewrite Hout; [vm_compute; reflexivity|].
      intros x Hx.
      apply elem_of_cons in Hx as [->|Hx]; [by vm_compute|].
      apply elem_of_cons in Hx as [->|Hx]; [by vm_compute|].
      by apply elem_of_nil in Hx.
Defined.

Lemma _remove_missing_key (s : System) (o : oid) (fn : string) :
  fullName (objects s) o = Ok fn →
  allobjects s !! fn = None →
  _remove o s = Throw (KeyError fn) s.
Proof.
  intros Hfn Hmiss. unfold _remove. cbn [_remove_go].
  rewrite (bind_lift _ _ _ fn) by done.
  apply bind_Throw. unfold del_allobjects. by rewrite Hmiss.
Qed.

(** X4: [System._remove] does not check that a name is in the index, so it
    cannot be repeated: after it has removed an object and what is below
    it, a second call for the same object raises [KeyError] with the full
    name of the object and changes nothing. *)
Theorem X4_remove_twice (s : System) (o : oid) (L : list oid) (fn : string) :
  descendants (objects s) o = Ok L →
  NoDup L →
  indexed s L →
  fullName (objects s) o = Ok fn →
  ∃ s', _remove o s = Return tt s'
        ∧ _remove o s' = Throw (KeyError fn) s'.
Proof.
  intros HL Hnd Hidx Hfn.
  destruct (del_runs L s Hnd Hidx) as (s' & Hruns & Honly & Hin & Hout).
  exists s'. split.
  - unfold _remove. rewrite _remove_go_walk. by apply (walk_go_run _ _ _ _ L).
  - apply _remove_missing_key.
    + by rewrite (index_only_objects _ _ Honly).
    + apply (Hin fn o); [by eapply descendants_head|done].
Qed.

Lemma X4_remove_twice_witness :
  ∃ s', _remove 3 move_sys = Return tt s'
        ∧ _remove 3 s' = Throw (KeyError "pkg.a.C") s'.
Proof.
  apply (X4_remove_twice move_sys 3 [3; 4] "pkg.a.C").
  - vm_compute. reflexivity.
  - apply (bool_decide_unpack _). vm_compute. reflexivity.
  - intros x Hx.
    apply elem_of_cons in Hx as [->|Hx];
      [exists "pkg.a.C"; split; vm_compute; reflexivity|].
    apply elem_of_cons in Hx as [->|Hx];
      [exists "pkg.a.C.m"; split; vm_compute; reflexivity|].
    by apply elem_of_nil in Hx.
  - vm_compute. reflexivity.
Defined.

(** ** More about modules of the same name *)

Lemma _addUnprocessedModule_fresh (s : System) (mod_ : oid)
    (mob : Documentable) (full : string) :
  objects s !! mod_ = Some mob →
  is_Module (py_class mob) = true →
  state mob = UNPROCESSED →
  fullName (objects s) mod_ = Ok full →
  allobjects s !! full = None →
  ∃ s', _addUnprocessedModule mod_ s = Return tt s'
        ∧ allobjects s' = <[full := mod_]> (allobjects s)
        ∧ unprocessed_modules s' = unprocessed_modules s ++ [mod_]
        ∧ module_count s' = S (module_count s)
        ∧ objects s'
          = match parent mob with
            | Some p => alter (with_member (name mob) mod_) p (objects s)
            | None => objects s
            end
        ∧ msg_log s' = msg_log s.
Proof.
  intros Hmob Hmod Hstate Hfull Hfree.
  unfold _addUnprocessedModule. generalize (S (size (allobjects s))). intros n.
  cbn [_addUnprocessedModule_go].
  rewrite (bind_lift _ _ _ mob) by (unfold getobj; by rewrite Hmob).
  rewrite Hstate, bool_decide_eq_true_2 by done. cbn [negb].
  rewrite (bind_lift _ _ _ full) by done.
  rewrite (bind_lift _ _ _ None) by by rewrite Hfree.
  rewrite bind_modify.
  set (s3 := set_unprocessed_modules (unprocessed_modules s ++ [mod_]) s).
  destruct (addObject_fresh_full s3 mod_ mob full)
    as (s4 & Hrun4 & Hall4 & Hobj4 & _ & _ & Hqueue4 & _ & Hcount4 & _
        & Hlog4 & _);
    try done.
  rewrite (bind_Return _ _ _ tt s4 Hrun4).
  destruct (progress_spec "analyzeModule" (Z.of_nat (size (allobjects s4))) None
              "modules and packages discovered" s4)
    as (s5 & Hrun5 & Hro5 & Hlog5 & _).
  rewrite (bind_Return _ _ _ tt s5) by exact Hrun5.
  pose proof (reporting_only_fields _ _ Hro5)
    as (Hobj5 & Hall5 & _ & _ & Hq5 & _ & Hcount5 & _).
  exists (set_module_count (S (module_count s5)) s5). split; [done|].
  cbn [allobjects unprocessed_modules module_count objects msg_log
       set_module_count].
  rewrite Hall5, Hq5, Hcount5, Hobj5, Hlog5. split_and!; try done.
  by rewrite Hcount4.
Qed.

(** The common start of [_handleDuplicateModule]: the report. *)
Lemma _handleDuplicateModule_report (s : System) (first dup : oid)
    (fob dob : Documentable) (first_str dsc : string) :
  objects s !! first = Some fob →
  objects s !! dup = Some dob →
  repr (objects s) first = Ok first_str →
  description (objects s) dup = Ok dsc →
  ∃ sr, reporting_only s sr
        ∧ msg_log sr
          = msg_log s ++
            [mkMessage "parsing"
               (report_text dsc "parsing" dob ("duplicate " +:+ first_str)) 1%Z]
        ∧ _handleDuplicateModule first dup s
          = (if _is_c_module fob && negb (is_Package (py_class dob)) then ret tt
             else if is_Package (py_class fob) && negb (is_Package (py_class dob))
             then ret tt
             else
               _remove first ;;
               (λ s, match list_remove first (unprocessed_modules s) with
                     | Some l => Return tt (set_unprocessed_modules l s)
                     | None =>
                         Throw (ValueError "list.remove(x): x not in list") s
                     end) ;;
               _addUnprocessedModule dup) sr.
Proof.
  intros Hf Hd Hrepr Hdsc.
  destruct (msg_spec "parsing"
              (report_text dsc "parsing" dob ("duplicate " +:+ first_str)) 1%Z s)
    as (sr & Hmsg & Hro & Hlog & _).
  exists sr. split_and!; try done.
  unfold _handleDuplicateModule.
  rewrite (bind_lift _ _ _ fob) by (unfold getobj; by rewrite Hf).
  rewrite (bind_lift _ _ _ dob) by (unfold getobj; by rewrite Hd).
  rewrite (bind_lift _ _ _ first_str) by done.
  rewrite (bind_Return _ _ _ tt sr); [done|].
  by rewrite (report_spec dup dob dsc _ "parsing" 1%Z s Hd Hdsc).
Qed.

(** X5: when a package is registered and a plain module of the same full
    name is found later, the package stays: [_handleDuplicateModule]
    hands one message about the duplicate to [System.msg] and changes
    nothing else; the name still leads to the package, the queue of
    modules to process and the count of modules are as before, and the
    module found later is not registered. *)
Theorem X5_package_beats_later_module (s : System) (first dup : oid)
    (fob dob : Documentable) (full first_str dsc : string) :
  objects s !! first = Some fob →
  objects s !! dup = Some dob →
  is_Package (py_class fob) = true →
  is_Package (py_class dob) = false →
  fullName (objects s) first = Ok full →
  fullName (objects s) dup = Ok full →
  allobjects s !! full = Some first →
  (∀ k, allobjects s !! k ≠ Some dup) →
  repr (objects s) first = Ok first_str →
  description (objects s) dup = Ok dsc →
  ∃ s', _handleDuplicateModule first dup s = Return tt s'
        ∧ reporting_only s s'
        ∧ msg_log s'
          = msg_log s ++
            [mkMessage "parsing"
               (report_text dsc "parsing" dob ("duplicate " +:+ first_str)) 1%Z]
        ∧ allobjects s' !! full = Some first
        ∧ (∀ k, allobjects s' !! k ≠ Some dup)
        ∧ allobjects s' = allobjects s
        ∧ unprocessed_modules s' = unprocessed_modules s
        ∧ module_count s' = module_count s.
Proof.
  intros Hf Hd Hpf Hpd Hfull Hdfull Hidx Hnew Hrepr Hdsc.
  destruct (_handleDuplicateModule_report s first dup fob dob first_str dsc)
    as (sr & Hro & Hlog & Hrun); try done.
  rewrite Hpf, Hpd in Hrun. cbn [negb andb] in Hrun.
  rewrite andb_true_r in Hrun.
  exists sr. split.
  - rewrite Hrun. by destruct (_is_c_module fob).
  - pose proof (reporting_only_fields _ _ Hro) as (_ & Ha & _ & _ & Hu & _ & Hc & _).
    rewrite Ha. by split_and!.
Qed.

Lemma X5_package_beats_later_module_witness :
  ∃ s', _handleDuplicateModule 0 2 package_then_module_sys = Return tt s'
        ∧ length (msg_log s') = 1
        ∧ allobjects s' !! "p" = Some 0
        ∧ unprocessed_modules s' = [0; 1].
Proof.
  destruct (X5_package_beats_later_module package_then_module_sys 0 2
              (mk_module true false "p" None "p/__init__.py" [("a", 1)])
              (mk_module false false "p" None "q/p.py" [])
              "p" "Package 'p'" "q/p.py")
    as (s' & Hrun & _ & Hlog & Hkept & _ & _ & Hq & _);
    try (vm_compute; reflexivity).
  - intros k Hk.
    assert (Hin : (k, 2) ∈ map_to_list (allobjects package_then_module_sys))
      by by apply elem_of_map_to_list.
    vm_compute in Hin.
    repeat (apply elem_of_cons in Hin as [Hin|Hin]; [congruence|]).
    by apply elem_of_nil in Hin.
  - exists s'. split_and!; try done. by rewrite Hlog.
Defined.

(** X6: when neither the extension module rule nor the package rule keeps
    the module registered first, the one found later wins.
    [_handleDuplicateModule] reports the duplicate, takes the first
    module and everything registered below it out of the index, takes the
    first module, and only it, out of the queue of modules to process,
    and registers the later module: the name leads to it, it is queued
    last and the count of modules goes up by one. The modules below the
    first one stay in the queue although the index has lost them. *)
Theorem X6_later_module_wins (s : System) (first dup : oid)
    (fob dob : Documentable) (full first_str dsc : string)
    (L queue' : list oid) :
  objects s !! first = Some fob →
  objects s !! dup = Some dob →
  is_Module (py_class dob) = true →
  state dob = UNPROCESSED →
  _is_c_module fob && negb (is_Package (py_class dob)) = false →
  is_Package (py_class fob) && negb (is_Package (py_class dob)) = false →
  fullName (objects s) first = Ok full →
  fullName (objects s) dup = Ok full →
  repr (objects s) first = Ok first_str →
  description (objects s) dup = Ok dsc →
  descendants (objects s) first = Ok L →
  NoDup L →
  indexed s L →
  list_remove first (unprocessed_modules s) = Some queue' →
  ∃ s', _handleDuplicateModule first dup s = Return tt s'
        ∧ msg_log s'
          = msg_log s ++
            [mkMessage "parsing"
               (report_text dsc "parsing" dob ("duplicate " +:+ first_str)) 1%Z]
        ∧ allobjects s' !! full = Some dup
        ∧ (∀ x k, x ∈ L → fullName (objects s) x = Ok k → k ≠ full →
             allobjects s' !! k = None)
        ∧ (∀ k, (∀ x, x ∈ L → fullName (objects s) x ≠ Ok k) →
             allobjects s' !! k = allobjects s !! k)
        ∧ unprocessed_modules s' = queue' ++ [dup]
        ∧ (∀ x, x ∈ unprocessed_modules s → x ≠ first →
             x ∈ unprocessed_modules s')
        ∧ module_count s' = S (module_count s).
Proof.
  intros Hf Hd Hmod Hstate Hc Hp Hfull Hdfull Hrepr Hdsc HL Hnd Hidx Hq.
  destruct (_handleDuplicateModule_report s first dup fob dob first_str dsc)
    as (sr & Hro & Hlog_r & Hrun); try done.
  rewrite Hc, Hp in Hrun. rewrite Hrun. clear Hrun.
  pose proof (reporting_only_fields _ _ Hro)
    as (Hobj_r & Hall_r & _ & _ & Hq_r & _ & Hcount_r & _).
  destruct (del_runs L sr Hnd) as (sd & Hruns & Honly & Hin & Hout).
  { intros x Hx. rewrite Hobj_r, Hall_r. by apply Hidx. }
  pose proof (index_only_objects _ _ Honly) as Hobj_d.
  rewrite (bind_Return _ _ _ tt sd).
  2:{ unfold _remove. rewrite _remove_go_walk.
      apply (walk_go_run _ _ _ _ L); [|done]. by rewrite Hobj_r. }
  assert (Hq_d : unprocessed_modules sd = unprocessed_modules s).
  { rewrite Honly. simpl. done. }
  assert (Hcount_d : module_count sd = module_count s).
  { rewrite Honly. simpl. done. }
  assert (Hlog_d : msg_log sd = msg_log sr).
  { rewrite Honly. simpl. done. }
  set (sq := set_unprocessed_modules queue' sd).
  rewrite (bind_Return _ _ _ tt sq) by (by rewrite Hq_d, Hq).
  destruct (_addUnprocessedModule_fresh sq dup dob full)
    as (s' & Hrun' & Hall' & Hq' & Hcount' & _ & Hlog'); try done.
  - simpl. by rewrite Hobj_d, Hobj_r.
  - simpl. by rewrite Hobj_d, Hobj_r.
  - simpl. apply (Hin full first); [by eapply descendants_head|].
    by rewrite Hobj_r.
  - exists s'. split; [done|]. rewrite Hall'. simpl. split_and!.
    + rewrite Hlog'. simpl. by rewrite Hlog_d.
    + apply lookup_insert_eq.
    + intros x k Hx Hk Hne. rewrite lookup_insert_ne by done.
      apply (Hin k x Hx). by rewrite Hobj_r.
    + intros k Hno.
      assert (k ≠ full) as Hne.
      { intros ->. by apply (Hno first); [eapply descendants_head|]. }
      rewrite lookup_insert_ne by done. rewrite Hout, Hall_r; [done|].
      intros x Hx. rewrite Hobj_r. by apply Hno.
    + done.
    + intros x Hx Hne. rewrite Hq'. simpl. apply elem_of_app. left.
      clear -Hq Hx Hne. revert queue' Hq.
      induction (unprocessed_modules s) as [|y l IH]; intros queue' Hq;
        [by apply elem_of_nil in Hx|].
      simpl in Hq. case_bool_decide as Hy.
      * injection Hq as <-. subst y.
        apply elem_of_cons in Hx as [->|Hx]; done.
      * destruct (list_remove first l) as [r|]; [|done].
        injection Hq as <-.
        apply elem_of_cons in Hx as [->|Hx]; [by left|].
        right. by apply IH.
    + rewrite Hcount'. simpl. by rewrite Hcount_d.
Qed.

Lemma X6_later_module_wins_witness :
  ∃ s', _handleDuplicateModule 0 2 twice_found_sys = Return tt s'
        ∧ allobjects s' !! "p" = Some 2
        ∧ allobjects s' !! "p.a" = None
        ∧ unprocessed_modules s' = [1; 2].
Proof.
  destruct (X6_later_module_wins twice_found_sys 0 2
              (mk_module true false "p" None "p/__init__.py" [("a", 1)])
              (mk_module true false "p" None "q/p/__init__.py" [])
              "p" "Package 'p'" "q/p/__init__.py" [0; 1] [1])
    as (s' & Hrun & _ & Hnew & Hgone & _ & Hq & _);
    try (vm_compute; reflexivity).
  - apply (bool_decide_unpack _). vm_compute. reflexivity.
  - intros x Hx.
    apply elem_of_cons in Hx as [->|Hx];
      [exists "p"; split; vm_compute; reflexivity|].
    apply elem_of_cons in Hx as [->|Hx];
      [exists "p.a"; split; vm_compute; reflexivity|].
    by apply elem_of_nil in Hx.
  - exists s'. split_and!; try done.
    apply (Hgone 1 "p.a"); [right; by left|vm_compute; reflexivity|done].
Defined.

(** X7: when neither the extension module rule nor the package rule keeps
    the first module, and the first module has left the queue of modules
    to process (its processing has begun), the later module cannot take
    its place: [_handleDuplicateModule] reports the duplicate and takes
    the first module and everything below it out of the index, then
    [list.remove] raises [ValueError]. The names of the first module and
    of what is below it are left without an entry, every other key keeps
    its entry, the objects and the queue are as before, and the later
    module is not registered. *)
Theorem X7_later_module_after_processing (s : System) (first dup : oid)
    (fob dob : Documentable) (full first_str dsc : string) (L : list oid) :
  objects s !! first = Some fob →
  objects s !! dup = Some dob →
  _is_c_module fob && negb (is_Package (py_class dob)) = false →
  is_Package (py_class fob) && negb (is_Package (py_class dob)) = false →
  fullName (objects s) first = Ok full →
  repr (objects s) first = Ok first_str →
  description (objects s) dup = Ok dsc →
  descendants (objects s) first = Ok L →
  NoDup L →
  indexed s L →
  list_remove first (unprocessed_modules s) = None →
  ∃ s', _handleDuplicateModule first dup s
        = Throw (ValueError "list.remove(x): x not in list") s'
        ∧ msg_log s'
          = msg_log s ++
            [mkMessage "parsing"
               (report_text dsc "parsing" dob ("duplicate " +:+ first_str)) 1%Z]
        ∧ allobjects s' !! full = None
        ∧ (∀ x k, x ∈ L → fullName (objects s) x = Ok k →
             allobjects s' !! k = None)
        ∧ (∀ k, (∀ x, x ∈ L → fullName (objects s) x ≠ Ok k) →
             allobjects s' !! k = allobjects s !! k)
        ∧ (∀ k, allobjects s' !! k = Some dup → allobjects s !! k = Some dup)
        ∧ objects s' = objects s
        ∧ unprocessed_modules s' = unprocessed_modules s.
Proof.
  intros Hf Hd Hc Hp Hfull Hrepr Hdsc HL Hnd Hidx Hq.
  destruct (_handleDuplicateModule_report s first dup fob dob first_str dsc)
    as (sr & Hro & Hlog_r & Hrun); try done.
  rewrite Hc, Hp in Hrun. rewrite Hrun. clear Hrun.
  pose proof (reporting_only_fields _ _ Hro)
    as (Hobj_r & Hall_r & _ & _ & Hq_r & _).
  destruct (del_runs L sr Hnd) as (sd & Hruns & Honly & Hin & Hout).
  { intros x Hx. rewrite Hobj_r, Hall_r. by apply Hidx. }
  pose proof (index_only_objects _ _ Honly) as Hobj_d.
  rewrite (bind_Return _ _ _ tt sd).
  2:{ unfold _remove. rewrite _remove_go_walk.
      apply (walk_go_run _ _ _ _ L); [|done]. by rewrite Hobj_r. }
  assert (Hq_d : unprocessed_modules sd = unprocessed_modules s).
  { rewrite Honly. simpl. done. }
  assert (Hlog_d : msg_log sd = msg_log sr).
  { rewrite Honly. simpl. done. }
  exists sd. split_and!.
  - apply bind_Throw. by rewrite Hq_d, Hq.
  - by rewrite Hlog_d.
  - apply (Hin full first); [by eapply descendants_head|by rewrite Hobj_r].
  - intros x k Hx Hk. apply (Hin k x Hx). by rewrite Hobj_r.
  - intros k Hno. rewrite Hout, Hall_r; [done|].
    intros x Hx. rewrite Hobj_r. by apply Hno.
  - intros k Hk.
    destruct (classic_in L sr k) as [(y & Hy & Hyk)|Hno].
    + by rewrite (Hin k y Hy Hyk) in Hk.
    + by rewrite (Hout k Hno), Hall_r in Hk.
  - by rewrite Hobj_d.
  - done.
Qed.

Lemma X7_later_module_after_processing_witness :
  ∃ s', _handleDuplicateModule 0 2 begun_sys
        = Throw (ValueError "list.remove(x): x not in list") s'
        ∧ allobjects s' !! "p" = None
        ∧ allobjects s' !! "p.a" = None.
Proof.
  destruct (X7_later_module_after_processing begun_sys 0 2
              (set_state PROCESSING
                 (mk_module true false "p" None "p/__init__.py" [("a", 1)]))
              (mk_module true false "p" None "q/p/__init__.py" [])
              "p" "Package 'p'" "q/p/__init__.py" [0; 1])
    as (s' & Hrun & _ & Hgone & Hsub & _); try (vm_compute; reflexivity).
  - apply (bool_decide_unpack _). vm_compute. reflexivity.
  - intros x Hx.
    apply elem_of_cons in Hx as [->|Hx];
      [exists "p"; split; vm_compute; reflexivity|].
    apply elem_of_cons in Hx as [->|Hx];
      [exists "p.a"; split; vm_compute; reflexivity|].
    by apply elem_of_nil in Hx.
  - exists s'. split_and!; try done.
    apply (Hsub 1 "p.a"); [right; by left|vm_compute; reflexivity].
Defined.

(** ** More about adding and finding objects *)

(** X8: what [addObject] adds under a free name is found again: after an
    object with a name without dots has been added to a module or class,
    the name resolves from that parent to the very same object, it
    expands to the full name of the object, and the full name leads to
    the object in the index. *)
Theorem X8_addObject_then_resolveName (d : nat) (s : System) (obj p : oid)
    (ob pob : Documentable) (full : string) :
  objects s !! obj = Some ob →
  parent ob = Some p →
  objects s !! p = Some pob →
  is_CanContainImportsDocumentable (py_class pob) = true →
  pystr.dotfree (name ob) = true →
  fullName (objects s) obj = Ok full →
  allobjects s !! full = None →
  ∃ s', addObject obj s = Return tt s'
        ∧ expandName (S d) s' p (name ob) = Ok full
        ∧ resolveName (S d) s' p (name ob) = Ok (Some obj)
        ∧ objForFullName (S d) s' full false = Ok (Some obj).
Proof.
  intros Hob Hp Hpob Hcls Hdot Hfull Hfree.
  destruct (addObject_fresh_full s obj ob full)
    as (s' & Hrun & Hall & Hobj & _); try done.
  { by rewrite Hp. }
  rewrite Hp in Hobj.
  assert (Hidx : allobjects s' !! full = Some obj)
    by (rewrite Hall; apply lookup_insert_eq).
  assert (Hskel : heap_agree skeleton (objects s) (objects s')).
  { rewrite Hobj. by apply heap_agree_alter. }
  assert (Hfull' : fullName (objects s') obj = Ok full)
    by by rewrite <- (fullName_agree _ _ _ Hskel).
  assert (Hexp : expandName (S d) s' p (name ob) = Ok full).
  { unfold expandName. rewrite (split_dotfree _ Hdot). cbn [expandName_loop].
    unfold expandName_part.
    rewrite (_localNameToFullName_member _ p (with_member (name ob) obj pob)
               (name ob) obj).
    - rewrite Hfull'. cbn [rbind Nat.eqb negb]. rewrite andb_false_r.
      cbn [rbind]. by rewrite (objForFullName_hit d s' full obj Hidx).
    - by rewrite Hobj, lookup_alter_eq, Hpob.
    - done.
    - simpl. apply get_set_eq. }
  exists s'. split_and!; try done.
  - unfold resolveName. rewrite Hexp. cbn [rbind].
    by apply objForFullName_hit.
  - by apply objForFullName_hit.
Qed.

Lemma X8_addObject_then_resolveName_witness :
  ∃ s', addObject 1 unadded_sys = Return tt s'
        ∧ resolveName 1 s' 0 "f" = Ok (Some 1).
Proof.
  destruct (X8_addObject_then_resolveName 0 unadded_sys 1 0 unadded_f
              unadded_mod "mod.f")
    as (s' & Hrun & _ & Hres & _); try (vm_compute; reflexivity).
  exists s'. by split.
Defined.

(** X9: [SystemBuilder.addModuleString] looks at the parent before it
    creates anything: with a parent name that is no key of the index it
    raises [KeyError] with that name, and with a parent name that leads to
    an object that is no package it fails its assertion; in both cases the
    system is left exactly as it was. *)
Theorem X9_addModuleString_bad_parent (s : System) (text modname pn : string)
    (is_package : bool) :
  (allobjects s !! pn = None →
   addModuleString text modname (Some pn) is_package s = Throw (KeyError pn) s)
  ∧ (∀ p pob,
       allobjects s !! pn = Some p → objects s !! p = Some pob →
       is_Package (py_class pob) = false →
       addModuleString text modname (Some pn) is_package s
       = Throw AssertionError s).
Proof.
  split.
  - intros Hmiss. unfold addModuleString.
    apply bind_Throw. apply bind_Throw. unfold lift. by rewrite Hmiss.
  - intros p pob Hp Hpob Hcls. unfold addModuleString.
    apply bind_Throw.
    rewrite (bind_lift _ _ _ p) by by rewrite Hp.
    rewrite (bind_lift _ _ _ pob) by (unfold getobj; by rewrite Hpob).
    by rewrite Hcls.
Qed.

(** The loop over the root objects when none has the name looked for. *)
Lemma objForFullName_no_root d (s : System) (nm : string) (rm : bool) :
  allobjects s !! nm = None →
  (∀ r, r ∈ rootobjects s →
     ∃ rob, objects s !! r = Some rob ∧ name rob ≠ (pystr.split1 nm).1) →
  objForFullName (S d) s nm rm = Ok None.
Proof.
  intros Hmiss. unfold objForFullName; fold objForFullName. rewrite Hmiss.
  generalize (rootobjects s). intros roots.
  induction roots as [|r roots IH]; intros Hroots; [done|].
  destruct (Hroots r) as (rob & Hrob & Hname); [by left|].
  unfold getobj at 1. rewrite Hrob. cbn [rbind].
  rewrite bool_decide_eq_false_2 by done.
  apply IH. intros x Hx. apply Hroots. by right.
Qed.

(** X10: a name that is no key of the index and whose first component is
    the name of no root object is taken to be foreign:
    [System.objForFullName] returns [None] for it, and it does so even
    when it is asked to raise for a missing object. *)
Theorem X10_objForFullName_foreign (d : nat) (s : System) (nm : string)
    (raise_missing : bool) :
  allobjects s !! nm = None →
  (∀ r, r ∈ rootobjects s →
     ∃ rob, objects s !! r = Some rob ∧ name rob ≠ (pystr.split1 nm).1) →
  objForFullName (S d) s nm raise_missing = Ok None.
Proof. apply objForFullName_no_root. Qed.

Lemma X10_objForFullName_foreign_witness :
  objForFullName 1 move_sys "os.path.join" true = Ok None.
Proof.
  apply (X10_objForFullName_foreign 0 move_sys "os.path.join" true).
  - vm_compute. reflexivity.
  - intros r Hr. apply list_elem_of_singleton in Hr as ->.
    exists move_pkg. split; [vm_compute; reflexivity|]. by vm_compute.
Defined.

(** X11: for a name that is no key of the index but starts with the name
    of a root object, [System.objForFullName] expands the rest of the
    name from that root; when the expansion is no key of the index either,
    the answer is [None], or [LookupError] with the name looked for when
    the caller asked to raise for a missing object. *)
Theorem X11_objForFullName_missing (d : nat) (s : System) (rn rest e : string)
    (r : oid) :
  pystr.dotfree rn = true →
  allobjects s !! (rn +:+ "." +:+ rest) = None →
  first_root (objects s) (rootobjects s) rn = Some r →
  expandName d s r rest = Ok e →
  allobjects s !! e = None →
  objForFullName (S d) s (rn +:+ "." +:+ rest) false = Ok None
  ∧ objForFullName (S d) s (rn +:+ "." +:+ rest) true
    = Raise (LookupError (rn +:+ "." +:+ rest)).
Proof.
  intros Hdot Hmiss Hroot Hexp He.
  assert (∀ rm : bool,
            objForFullName (S d) s (rn +:+ "." +:+ rest) rm
            = if rm then Raise (LookupError (rn +:+ "." +:+ rest))
              else Ok None) as H.
  { intros rm. unfold objForFullName; fold objForFullName.
    rewrite Hmiss, (split1_dotted rn rest Hdot). cbn [fst snd].
    revert Hroot. generalize (rootobjects s). intros roots.
    induction roots as [|x roots IH]; intros Hroot; [done|].
    simpl in Hroot. unfold getobj at 1.
    destruct (objects s !! x) as [xob|]; [|done]. cbn [rbind].
    case_bool_decide as Hname.
    - injection Hroot as ->. unfold expandName in Hexp. rewrite Hexp.
      cbn [rbind]. by rewrite He.
    - by apply IH. }
  split; apply H.
Qed.

Lemma X11_objForFullName_missing_witness :
  objForFullName 3 move_sys "pkg.a.D" false = Ok None
  ∧ objForFullName 3 move_sys "pkg.a.D" true = Raise (LookupError "pkg.a.D").
Proof.
  apply (X11_objForFullName_missing 2 move_sys "pkg" "a.D" "pkg.a.D" 0);
    vm_compute; reflexivity.
Defined.

Lemma X9_addModuleString_bad_parent_witness :
  addModuleString "" "x" (Some "nope") false move_sys
  = Throw (KeyError "nope") move_sys
  ∧ addModuleString "" "x" (Some "pkg.a") false move_sys
    = Throw AssertionError move_sys.
Proof.
  destruct (X9_addModuleString_bad_parent move_sys "" "x" "nope" false)
    as [H1 _].
  destruct (X9_addModuleString_bad_parent move_sys "" "x" "pkg.a" false)
    as [_ H2].
  split; [apply H1; vm_compute; reflexivity|].
  apply (H2 1 move_a); vm_compute; reflexivity.
Defined.

(** ** More about expanding names *)

Lemma join_split (s : string) : pystr.join (pystr.split s) = s.
Proof.
  induction s as [|c s IH]; [done|]. simpl.
  unfold pystr.is_dot. case_bool_decide as Hc.
  - subst c. pose proof (split_nonempty s) as Hne.
    destruct (pystr.split s) as [|h t]; [done|].
    rewrite join_cons. by rewrite IH.
  - pose proof (split_nonempty s) as Hne.
    destruct (pystr.split s) as [|h t]; [done|].
    destruct t as [|h2 t]; simpl in *; by rewrite <- IH.
Qed.

Lemma split_head_dotfree (s : string) :
  pystr.dotfree (hd "" (pystr.split s)) = true.
Proof.
  induction s as [|c s IH]; [done|]. simpl.
  unfold pystr.is_dot. case_bool_decide as Hc; [done|].
  pose proof (split_nonempty s) as Hne.
  destruct (pystr.split s) as [|h t]; [done|]. simpl in *.
  unfold pystr.is_dot. by rewrite bool_decide_eq_false_2, IH.
Qed.

(** X12: a name whose first component means nothing where it is used
    comes back unchanged: when [_localNameToFullName] of the context
    returns the first component as it is and no object of that name is
    known, [expandName] returns the whole name, with all its
    components, as it was given. *)
Theorem X12_expandName_unknown (d : nat) (s : System) (ctx : oid)
    (nm : string) :
  _localNameToFullName (objects s) ctx (hd "" (pystr.split nm))
  = Ok (hd "" (pystr.split nm)) →
  objForFullName d s (hd "" (pystr.split nm)) false = Ok None →
  expandName d s ctx nm = Ok nm.
Proof.
  intros Hlocal Hnone. unfold expandName.
  pose proof (join_split nm) as Hjoin.
  pose proof (split_nonempty nm) as Hne.
  destruct (pystr.split nm) as [|p rest]; [done|]. simpl in Hlocal, Hnone.
  cbn [expandName_loop]. unfold expandName_part.
  rewrite Hlocal. cbn [rbind Nat.eqb negb]. rewrite andb_false_r.
  cbn [rbind]. by rewrite Hnone, Hjoin.
Qed.

Lemma X12_expandName_unknown_witness :
  expandName 2 move_sys 1 "os.path.join" = Ok "os.path.join".
Proof.
  apply (X12_expandName_unknown 2 move_sys 1 "os.path.join");
    vm_compute; reflexivity.
Defined.

(** X13: an imported name that leads outside the system expands to what
    it was imported from: when the alias table of the module or class
    maps the first component to a full name under which no object is
    known, [expandName] replaces the first component by that full name
    and keeps the other components. *)
Theorem X13_expandName_foreign_alias (d : nat) (s : System) (ctx : oid)
    (cob : Documentable) (a full rest : string) :
  objects s !! ctx = Some cob →
  is_CanContainImportsDocumentable (py_class cob) = true →
  pystr.dotfree a = true →
  pydict.get a (contents cob) = None →
  pydict.get a (_localNameToFullName_map cob) = Some full →
  objForFullName d s full false = Ok None →
  expandName d s ctx a = Ok full
  ∧ expandName d s ctx (a +:+ "." +:+ rest) = Ok (full +:+ "." +:+ rest).
Proof.
  intros Hctx Hcls Hdot Hmem Halias Hnone.
  pose proof (_localNameToFullName_alias _ _ _ _ _ Hctx Hcls Hmem Halias)
    as Hlocal.
  split; unfold expandName.
  - rewrite (split_dotfree _ Hdot). cbn [expandName_loop].
    unfold expandName_part. rewrite Hlocal.
    cbn [rbind Nat.eqb negb]. rewrite andb_false_r. cbn [rbind].
    by rewrite Hnone.
  - rewrite (split_dotted _ _ Hdot). cbn [expandName_loop].
    unfold expandName_part. rewrite Hlocal.
    cbn [rbind Nat.eqb negb]. rewrite andb_false_r. cbn [rbind].
    rewrite Hnone. f_equal.
    pose proof (split_nonempty rest) as Hne.
    rewrite join_cons_nonempty by done. by rewrite join_split.
Qed.

(** X14: an imported module followed by the name of one of its members
    expands to the full name of the member: when the alias table maps the
    first component to the full name of a known module or class and the
    second component is a member of that object, [expandName] returns
    the full name of the member. *)
Theorem X14_expandName_alias_member (d : nat) (s : System) (ctx o c : oid)
    (cob oob : Documentable) (a full p fc : string) :
  objects s !! ctx = Some cob →
  is_CanContainImportsDocumentable (py_class cob) = true →
  pystr.dotfree a = true →
  pystr.dotfree p = true →
  pydict.get a (contents cob) = None →
  pydict.get a (_localNameToFullName_map cob) = Some full →
  allobjects s !! full = Some o →
  objects s !! o = Some oob →
  is_CanContainImportsDocumentable (py_class oob) = true →
  pydict.get p (contents oob) = Some c →
  fullName (objects s) c = Ok fc →
  fc ≠ p →
  allobjects s !! fc = Some c →
  expandName (S d) s ctx (a +:+ "." +:+ p) = Ok fc
  ∧ resolveName (S d) s ctx (a +:+ "." +:+ p) = Ok (Some c).
Proof.
  intros Hctx Hcls Hda Hdp Hmem Halias Hidx Ho Hocls Hp Hfc Hne Hcidx.
  assert (Hexp : expandName (S d) s ctx (a +:+ "." +:+ p) = Ok fc).
  { unfold expandName.
    rewrite (split_dotted _ _ Hda), (split_dotfree _ Hdp).
    cbn [expandName_loop]. unfold expandName_part at 1.
    rewrite (_localNameToFullName_alias _ _ _ _ _ Hctx Hcls Hmem Halias).
    cbn [rbind Nat.eqb negb]. rewrite andb_false_r. cbn [rbind].
    rewrite (objForFullName_hit d s full o Hidx).
    rewrite (expandName_part_resolved _ _ _ _ fc).
    - cbn [rbind]. by rewrite (objForFullName_hit d s fc c Hcidx).
    - by rewrite (_localNameToFullName_member _ o oob p c).
    - done. }
  split; [done|]. unfold resolveName. rewrite Hexp. cbn [rbind].
  by apply objForFullName_hit.
Qed.

Lemma X13_expandName_foreign_alias_witness :
  expandName 2 import_sys 1 "RenamedExternal" = Ok "external_location.External"
  ∧ expandName 2 import_sys 1 "RenamedExternal.attr"
    = Ok "external_location.External.attr".
Proof.
  apply (X13_expandName_foreign_alias 2 import_sys 1 import_mod2
           "RenamedExternal" "external_location.External" "attr");
    vm_compute; reflexivity.
Defined.

Lemma X14_expandName_alias_member_witness :
  expandName 1 import_sys 1 "renamed_mod.Local" = Ok "mod1.Local"
  ∧ resolveName 1 import_sys 1 "renamed_mod.Local" = Ok (Some 2).
Proof.
  apply (X14_expandName_alias_member 0 import_sys 1 0 2 import_mod2
           import_mod1 "renamed_mod" "mod1" "Local" "mod1.Local");
    try (vm_compute; reflexivity).
  by vm_compute.
Defined.

(** X15: the name of an inherited member expands to where the member is
    defined: when the first component is a class among the members of the
    context and the second component is found neither in that class nor
    in the scopes around it, but in one of its base classes,
    [expandName] returns the full name of the member of the base class,
    and [resolveName] returns that member. *)
Theorem X15_expandName_inherited_member (d : nat) (s : System)
    (ctx cls x : oid) (cob clsob : Documentable) (cn p fcls fx : string) :
  objects s !! ctx = Some cob →
  is_CanContainImportsDocumentable (py_class cob) = true →
  pystr.dotfree cn = true →
  pystr.dotfree p = true →
  pydict.get cn (contents cob) = Some cls →
  fullName (objects s) cls = Ok fcls →
  allobjects s !! fcls = Some cls →
  objects s !! cls = Some clsob →
  is_Class (py_class clsob) = true →
  _localNameToFullName (objects s) cls p = Ok p →
  find (objects s) cls p = Ok (Some x) →
  fullName (objects s) x = Ok fx →
  fx ≠ p →
  allobjects s !! fx = Some x →
  expandName (S d) s ctx (cn +:+ "." +:+ p) = Ok fx
  ∧ resolveName (S d) s ctx (cn +:+ "." +:+ p) = Ok (Some x).
Proof.
  intros Hctx Hcls Hdc Hdp Hmem Hfcls Hclsidx Hclsob Hiscls Hlocal Hfind Hfx
    Hne Hxidx.
  assert (Hexp : expandName (S d) s ctx (cn +:+ "." +:+ p) = Ok fx).
  { unfold expandName.
    rewrite (split_dotted _ _ Hdc), (split_dotfree _ Hdp).
    cbn [expandName_loop]. unfold expandName_part at 1.
    rewrite (_localNameToFullName_member _ ctx cob cn cls Hctx Hcls Hmem).
    rewrite Hfcls.
    cbn [rbind Nat.eqb negb]. rewrite andb_false_r. cbn [rbind].
    rewrite (objForFullName_hit d s fcls cls Hclsidx).
    unfold expandName_part. rewrite Hlocal. cbn [rbind Nat.eqb negb].
    rewrite bool_decide_eq_true_2 by done. cbn [andb].
    unfold getobj. rewrite Hclsob. cbn [rbind]. rewrite Hiscls, Hfind.
    cbn [rbind]. rewrite Hfx. cbn [rbind].
    rewrite bool_decide_eq_false_2 by done. cbn [rbind].
    by rewrite (objForFullName_hit d s fx x Hxidx). }
  split; [done|]. unfold resolveName. rewrite Hexp. cbn [rbind].
  by apply objForFullName_hit.
Qed.

Lemma X15_expandName_inherited_member_witness :
  expandName 1 ctor_sys 0 "Derived.__init__" = Ok "m.Base.__init__"
  ∧ resolveName 1 ctor_sys 0 "Derived.__init__" = Ok (Some 2).
Proof.
  destruct (ctor_heap !! 0) as [mob|] eqn:Hm; [|by vm_compute in Hm].
  destruct (ctor_heap !! 3) as [dob|] eqn:Hd; [|by vm_compute in Hd].
  apply (X15_expandName_inherited_member 0 ctor_sys 0 3 2 mob dob
           "Derived" "__init__" "m.Derived" "m.Base.__init__");
    try done; try (vm_compute in Hm; injection Hm as <-; vm_compute; reflexivity);
    try (vm_compute in Hd; injection Hd as <-; vm_compute; reflexivity);
    try (vm_compute; reflexivity).
Defined.

(** ** More about annotations *)

Lemma visit_bitor_chain_fixed (expand : string → string) (l : list ast.expr) :
  ∀ a, astutils.visit expand a = Ok a →
    Forall (λ x, astutils.visit expand x = Ok x) l →
    astutils.visit expand (bitor_chain a l) = Ok (bitor_chain a l).
Proof.
  induction l as [|x l IH]; intros a Ha Hl; [done|].
  inversion Hl as [|? ? Hx Hl']; subst.
  unfold bitor_chain. cbn [foldl]. apply IH; [|done].
  simpl. by rewrite Ha, Hx.
Qed.

Lemma rmapM_fixed {A} (f : A → res A) (l : list A) :
  rmapM f l = Ok l → Forall (λ x, f x = Ok x) l.
Proof.
  induction l as [|x l IH]; [constructor|].
  simpl. destruct (f x) as [x'|] eqn:Hx; [|done]. simpl.
  destruct (rmapM f l) as [l'|] eqn:Hl; [|done]. simpl.
  intros [= -> ->]. constructor; [done|]. by apply IH.
Qed.

Lemma rmapM_idem {A} (f : A → res A) (l : list A) :
  Forall (λ x, ∀ x', f x = Ok x' → f x' = Ok x') l →
  ∀ l', rmapM f l = Ok l' → rmapM f l' = Ok l'.
Proof.
  induction 1 as [|x l Hx _ IH]; intros l'; simpl.
  - by intros [= <-].
  - destruct (f x) as [x'|] eqn:Ex; [|done]. simpl.
    destruct (rmapM f l) as [r|] eqn:El; [|done]. simpl.
    intros [= <-]. simpl. by rewrite (Hx x' eq_refl), (IH r eq_refl).
Qed.

Lemma visit_Subscript_post_fixed (expand : string → string)
    (value slice r : ast.expr) :
  astutils.visit expand value = Ok value →
  astutils.visit expand slice = Ok slice →
  astutils.visit_Subscript_post expand value slice = Ok r →
  astutils.visit expand r = Ok r.
Proof.
  intros Hv Hs Hr.
  assert (Hnode : astutils.visit expand (ast.Subscript value slice) = Ok r).
  { simpl. rewrite Hv, Hs. simpl. exact Hr. }
  revert Hr. unfold astutils.visit_Subscript_post.
  case_bool_decide as HU.
  - destruct slice as [id|v a|v sl|args|elts|c|l op rr]; cbn [astutils.is_annotation_node];
      try (by intros [= <-]).
    destruct args as [|a [|b rest]]; cbn [length Nat.ltb Nat.leb Nat.eqb].
    + by intros [= <-].
    + intros [= <-]. rewrite visit_Tuple in Hs.
      destruct (rmapM (astutils.visit expand) [a]) as [l'|] eqn:El; [|done].
      simpl in Hs. injection Hs as ->.
      apply rmapM_fixed in El. by inversion El.
    + rewrite union_args_chain. intros [= <-].
      rewrite visit_Tuple in Hs.
      destruct (rmapM (astutils.visit expand) (a :: b :: rest)) as [l'|] eqn:El;
        [|done].
      simpl in Hs. injection Hs as ->.
      apply rmapM_fixed in El. inversion El as [|? ? Ha El']; subst.
      by apply (visit_bitor_chain_fixed expand (b :: rest) a).
  - case_bool_decide as HO; [|by intros [= <-]].
    destruct (astutils.is_annotation_node slice) eqn:Hann; [|by intros [= <-]].
    rewrite (union_args_chain slice (ast.Constant ast.CNone) []).
    intros [= <-]. unfold bitor_chain. simpl. by rewrite Hs.
Qed.

(** X16: [upgrade_annotation] is idempotent, provided the names it puts in
    are not themselves taken for deprecated aliases: when the name
    expansion of the context maps none of the builtin names of
    [DEPRECATED_TYPING_ALIAS_BUILTINS] to a key of that table, upgrading
    an annotation that has been upgraded returns it unchanged. *)
Theorem X16_upgrade_annotation_idempotent (expand : string → string)
    (e e' : ast.expr) :
  (∀ k b, pydict.get k astutils.DEPRECATED_TYPING_ALIAS_BUILTINS = Some b →
          pydict.get (expand b) astutils.DEPRECATED_TYPING_ALIAS_BUILTINS = None) →
  astutils.upgrade_annotation expand e = Ok e' →
  astutils.upgrade_annotation expand e' = Ok e'.
Proof.
  intros Hb. unfold astutils.upgrade_annotation. revert e'.
  assert (Hname : ∀ n, (∃ id, n = ast.Name id) ∨ (∃ v a, n = ast.Attribute v a) →
            astutils.visit expand (astutils.visit_Name expand n)
            = Ok (astutils.visit_Name expand n)).
  { intros n Hn.
    assert (Hv : ∀ m, (∃ id, m = ast.Name id) ∨ (∃ v a, m = ast.Attribute v a) →
              astutils.visit expand m = Ok (astutils.visit_Name expand m)).
    { by intros m [[id ->]|(v & a & ->)]. }
    unfold astutils.visit_Name.
    destruct (astutils._node2fullname expand n) as [fn|] eqn:Hfn.
    - destruct (pydict.get fn astutils.DEPRECATED_TYPING_ALIAS_BUILTINS)
        as [b|] eqn:Hget.
      + cbn [astutils.visit]. unfold astutils.visit_Name.
        replace (astutils._node2fullname expand (ast.Name b))
          with (Some (expand b)) by reflexivity.
        by rewrite (Hb fn b Hget).
      + rewrite (Hv n Hn). unfold astutils.visit_Name. by rewrite Hfn, Hget.
    - rewrite (Hv n Hn). unfold astutils.visit_Name. by rewrite Hfn. }
  induction e as [id|v a _|v s IHv IHs|elts IH|elts IH|c|l op r IHl IHr]
    using expr_nested_ind; intros e'.
  - simpl. intros [= <-]. apply Hname. left. eauto.
  - simpl. intros [= <-]. apply Hname. right. eauto.
  - simpl. destruct (astutils.visit expand v) as [v'|] eqn:Ev; [|done]. simpl.
    destruct (astutils.visit expand s) as [s'|] eqn:Es; [|done]. simpl.
    apply visit_Subscript_post_fixed; [by apply IHv|by apply IHs].
  - rewrite visit_Tuple.
    destruct (rmapM (astutils.visit expand) elts) as [l'|] eqn:El; [|done].
    simpl. intros [= <-]. rewrite visit_Tuple.
    by rewrite (rmapM_idem _ _ IH l' El).
  - rewrite visit_List.
    destruct (rmapM (astutils.visit expand) elts) as [l'|] eqn:El; [|done].
    simpl. intros [= <-]. rewrite visit_List.
    by rewrite (rmapM_idem _ _ IH l' El).
  - simpl. by intros [= <-].
  - simpl. destruct (astutils.visit expand l) as [l'|] eqn:El; [|done]. simpl.
    destruct (astutils.visit expand r) as [r'|] eqn:Er; [|done]. simpl.
    intros [= <-]. simpl. by rewrite (IHl l' eq_refl), (IHr r' eq_refl).
Qed.

Lemma X16_upgrade_annotation_idempotent_witness :
  astutils.upgrade_annotation typing_List_imports
    (ast.BinOp (ast.Subscript (ast.Name "list") (ast.Name "int")) ast.BitOr
       (ast.Constant ast.CNone))
  = Ok (ast.BinOp (ast.Subscript (ast.Name "list") (ast.Name "int")) ast.BitOr
          (ast.Constant ast.CNone)).
Proof.
  apply (X16_upgrade_annotation_idempotent typing_List_imports Optional_List_int).
  - intros k b Hk. unfold astutils.DEPRECATED_TYPING_ALIAS_BUILTINS in Hk.
    simpl in Hk.
    repeat (case_bool_decide; [injection Hk as <-; reflexivity|]).
    done.
  - reflexivity.
Defined.

(** X17: a deprecated alias of [typing] in front of a subscript is
    replaced by the builtin and the subscript is kept: when the name or
    attribute [value] expands to a key of
    [DEPRECATED_TYPING_ALIAS_BUILTINS], [value] itself upgrades to the
    name of the builtin and [value[slice]] to the builtin subscripted
    with the upgraded [slice], provided the name of the builtin is not
    itself taken for [typing.Union] or [typing.Optional] by the
    context. *)
Theorem X17_upgrade_deprecated_alias (expand : string → string)
    (value slice slice' : ast.expr) (full builtin : string) :
  astutils._node2fullname expand value = Some full →
  pydict.get full astutils.DEPRECATED_TYPING_ALIAS_BUILTINS = Some builtin →
  expand builtin ≠ "typing.Union" →
  expand builtin ≠ "typing.Optional" →
  astutils.upgrade_annotation expand slice = Ok slice' →
  astutils.upgrade_annotation expand value = Ok (ast.Name builtin)
  ∧ astutils.upgrade_annotation expand (ast.Subscript value slice)
    = Ok (ast.Subscript (ast.Name builtin) slice').
Proof.
  intros Hfull Hget HU HO Hs. unfold astutils.upgrade_annotation in *.
  assert (Hv : astutils.visit expand value = Ok (ast.Name builtin)).
  { destruct value as [id|v a|v sl|args|elts|c|l op r];
      try (by unfold astutils._node2fullname in Hfull);
      cbn [astutils.visit]; unfold astutils.visit_Name;
      by rewrite Hfull, Hget. }
  split; [done|].
  cbn [astutils.visit]. rewrite Hv, Hs. cbn [rbind].
  unfold astutils.visit_Subscript_post.
  replace (astutils._node2fullname expand (ast.Name builtin))
    with (Some (expand builtin)) by reflexivity.
  rewrite bool_decide_eq_false_2 by congruence.
  by rewrite bool_decide_eq_false_2 by congruence.
Qed.

Lemma X17_upgrade_deprecated_alias_witness :
  astutils.upgrade_annotation typing_List_imports
    (ast.Attribute (ast.Name "typing") "Dict")
  = Ok (ast.Name "dict")
  ∧ astutils.upgrade_annotation typing_List_imports typing_Dict_str_int
    = Ok (ast.Subscript (ast.Name "dict")
            (ast.Tuple [ast.Name "str"; ast.Name "int"])).
Proof.
  apply (X17_upgrade_deprecated_alias typing_List_imports
           (ast.Attribute (ast.Name "typing") "Dict")
           (ast.Tuple [ast.Name "str"; ast.Name "int"])
           (ast.Tuple [ast.Name "str"; ast.Name "int"])
           "typing.Dict" "dict"); by vm_compute.
Defined.

(** X18: [Union] with a single type is that type: when [value] upgrades
    to a node that the context takes for [typing.Union],
    [value[(X,)]] upgrades to what [X] upgrades to, and so does
    [value[X]] when the upgraded [X] is a name, an attribute, a subscript
    or a binary operation; with an empty tuple the subscript is kept. *)
Theorem X18_upgrade_union_of_one (expand : string → string)
    (value value' X X' : ast.expr) :
  astutils.upgrade_annotation expand value = Ok value' →
  astutils._node2fullname expand value' = Some "typing.Union" →
  astutils.upgrade_annotation expand X = Ok X' →
  astutils.upgrade_annotation expand (ast.Subscript value (ast.Tuple [X]))
  = Ok X'
  ∧ (astutils.is_annotation_node X' = true →
     astutils.upgrade_annotation expand (ast.Subscript value X) = Ok X')
  ∧ astutils.upgrade_annotation expand (ast.Subscript value (ast.Tuple []))
    = Ok (ast.Subscript value' (ast.Tuple [])).
Proof.
  intros Hv HU HX. unfold astutils.upgrade_annotation in *.
  split_and!.
  - cbn [astutils.visit]. rewrite Hv. cbn [rbind]. rewrite HX. cbn [rbind].
    unfold astutils.visit_Subscript_post.
    by rewrite bool_decide_eq_true_2.
  - intros Hann. cbn [astutils.visit]. rewrite Hv, HX. cbn [rbind].
    unfold astutils.visit_Subscript_post.
    rewrite bool_decide_eq_true_2 by done.
    by destruct X' as [id|v a|v sl|args|elts|c|l op r].
  - cbn [astutils.visit]. rewrite Hv. cbn [rbind].
    unfold astutils.visit_Subscript_post.
    by rewrite bool_decide_eq_true_2.
Qed.

Lemma X18_upgrade_union_of_one_witness :
  astutils.upgrade_annotation typing_imports
    (ast.Subscript (ast.Name "Union") (ast.Tuple [ast.Name "int"]))
  = Ok (ast.Name "int")
  ∧ (astutils.is_annotation_node (ast.Name "int") = true →
     astutils.upgrade_annotation typing_imports
       (ast.Subscript (ast.Name "Union") (ast.Name "int"))
     = Ok (ast.Name "int"))
  ∧ astutils.upgrade_annotation typing_imports
      (ast.Subscript (ast.Name "Union") (ast.Tuple []))
    = Ok (ast.Subscript (ast.Name "Union") (ast.Tuple [])).
Proof.
  apply (X18_upgrade_union_of_one typing_imports (ast.Name "Union")
           (ast.Name "Union") (ast.Name "int") (ast.Name "int"));
    reflexivity.
Defined.

(** ** More about privacy and processing *)

Lemma System_privacyClass_sticks (qnmatch qnmatch' : string → string → bool)
    (s s1 s2 : System) (ob : oid) (p : PrivacyClass) :
  System_privacyClass qnmatch ob s = Return p s1 →
  objects s2 = objects s →
  _privacyClassCache s2 = _privacyClassCache s1 →
  (s1 = s
   ∨ ∃ fn, fullName (objects s) ob = Ok fn
           ∧ s1 = set_privacyClassCache (<[fn := p]> (_privacyClassCache s)) s)
  ∧ System_privacyClass qnmatch' ob s2 = Return p s2.
Proof.
  unfold System_privacyClass, bind, lift, getobj, ret, modify.
  intros Hrun Hobj Hcache. rewrite Hobj.
  destruct (fullName (objects s) ob) as [fn|] eqn:Hfn; [|done].
  cbv beta iota in *. rewrite Hcache.
  destruct (_privacyClassCache s !! fn) as [c|] eqn:Hc.
  - injection Hrun as -> ->. split; [by left|]. by rewrite Hc.
  - destruct (objects s !! ob) as [o|] eqn:Ho; [|done].
    cbv beta iota in Hrun.
    destruct (kind o) as [k|] eqn:Hk.
    + cbv beta iota zeta in Hrun. injection Hrun as Hp <-. split.
      * right. exists fn. by rewrite Hp.
      * cbn [_privacyClassCache set_privacyClassCache].
        by rewrite lookup_insert_eq, Hp.
    + injection Hrun as <- ->. split; [by left|].
      rewrite Hc, Hobj, Ho. cbv beta iota. by rewrite Hk.
Qed.

(** X19: an answer of [privacyClass] sticks. A call that returns changes
    at most the cache of privacy classes, where it enters the answer
    under the full name of the object; and in every state with the same
    objects and the same cache as the state it leaves, [privacyClass]
    returns the same answer and changes nothing, whatever the privacy
    rules and the matching of patterns are by then. *)
Theorem X19_privacyClass_answer_sticks (qnmatch qnmatch' : string → string → bool)
    (s s1 s2 : System) (ob : oid) (p : PrivacyClass) :
  privacyClass qnmatch ob s = Return p s1 →
  objects s2 = objects s →
  _privacyClassCache s2 = _privacyClassCache s1 →
  (s1 = s
   ∨ ∃ fn, fullName (objects s) ob = Ok fn
           ∧ s1 = set_privacyClassCache (<[fn := p]> (_privacyClassCache s)) s)
  ∧ privacyClass qnmatch' ob s2 = Return p s2.
Proof.
  intros Hrun Hobj Hcache. revert Hrun. unfold privacyClass.
  unfold bind, lift, getobj. rewrite Hobj.
  destruct (objects s !! ob) as [o|] eqn:Ho; [|done].
  destruct (is_Module (py_class o)).
  - case_bool_decide.
    + intros [= <- <-]. split; [by left|done].
    + intros Hrun. by apply (System_privacyClass_sticks qnmatch qnmatch' s s1 s2).
  - intros Hrun. by apply (System_privacyClass_sticks qnmatch qnmatch' s s1 s2).
Qed.

Lemma X19_privacyClass_answer_sticks_witness :
  privacyClass (λ _ _, false) 2 rules_changed_sys
  = Return PRIVATE rules_changed_sys.
Proof.
  apply (X19_privacyClass_answer_sticks qnmatch_glob (λ _ _, false) privacy_sys
           (set_privacyClassCache {[ "pkg.mod._impl" := PRIVATE ]} privacy_sys)
           rules_changed_sys 2 PRIVATE); by vm_compute.
Defined.

(** X20: a module whose source gives no tree is left half done. When the
    builder returns no tree for an unprocessed module of the queue, having
    done nothing but report, [processModule] returns with the module out
    of the queue and in the state [PROCESSING]; the index is as before
    and nothing is logged beyond what the builder reported. From then on
    [getProcessedModule] hands the module out as it is, without running
    the builder again, and a second [processModule] fails its first
    assertion. *)
Theorem X20_unparsable_module_left_processing
    (parse : oid → M bool) (processModuleAST introspect : oid → M unit)
    (s s2 : System) (mod_ : oid) (mob : Documentable)
    (fn : string) (queue' : list oid) :
  objects s !! mod_ = Some mob →
  is_Module (py_class mob) = true →
  state mob = UNPROCESSED →
  list_remove mod_ (unprocessed_modules s) = Some queue' →
  source_path mob ≠ None ∨ _py_string mob ≠ None →
  _is_c_module mob = false →
  fullName (objects s) mod_ = Ok fn →
  allobjects s !! fn = Some mod_ →
  parse mod_ (set_unprocessed_modules queue'
                (update mod_ (set_state PROCESSING) s)) = Return false s2 →
  reporting_only (set_unprocessed_modules queue'
                    (update mod_ (set_state PROCESSING) s)) s2 →
  ∃ s3, processModule parse processModuleAST introspect mod_ s = Return tt s3
        ∧ reporting_only s2 s3
        ∧ msg_log s3 = msg_log s2
        ∧ violations s3 = violations s2
        ∧ objects s3 !! mod_ = Some (set_state PROCESSING mob)
        ∧ allobjects s3 = allobjects s
        ∧ unprocessed_modules s3 = queue'
        ∧ getProcessedModule parse processModuleAST introspect fn s3
          = Return (Some mod_) s3
        ∧ processModule parse processModuleAST introspect mod_ s3
          = Throw AssertionError s3.
Proof.
  intros Hob Hmod Hst Hq Hsrc Hc Hfn Hidx Hparse Hro2.
  set (s1 := set_unprocessed_modules queue'
               (update mod_ (set_state PROCESSING) s)) in *.
  assert (Hob1 : objects s1 !! mod_ = Some (set_state PROCESSING mob)).
  { unfold s1. simpl. by rewrite lookup_alter_eq, Hob. }
  destruct (progress_spec "process"
              (Z.of_nat (module_count s2)
               - Z.of_nat (length (unprocessed_modules s2)))%Z
              (Some (module_count s2))
              ("modules processed, " +:+ pystr.str_of_nat (violations s2)
               +:+ " warnings") s2)
    as (s3 & Hrun3 & Hro3 & Hlog3 & Hviol3 & _).
  pose proof (reporting_only_fields _ _ Hro2)
    as (Hobj2 & Hall2 & _ & _ & Hq2 & _).
  pose proof (reporting_only_fields _ _ Hro3)
    as (Hobj3 & Hall3 & _ & _ & Hq3 & _).
  assert (Hob3 : objects s3 !! mod_ = Some (set_state PROCESSING mob))
    by by rewrite Hobj3, Hobj2.
  exists s3. split_and!; try done.
  - unfold processModule.
    rewrite (bind_lift _ _ _ mob) by (unfold getobj; by rewrite Hob).
    rewrite Hst. rewrite bool_decide_eq_true_2 by done. cbn [negb].
    rewrite (bind_lift _ _ _ (unprocessed_modules s)) by done.
    rewrite Hq. rewrite !bind_modify. fold s1.
    rewrite (bind_Return _ _ _ tt s1).
    2:{ destruct (source_path mob), (_py_string mob); try done.
        by destruct Hsrc. }
    rewrite Hc. rewrite (bind_Return _ _ _ tt s2); [exact Hrun3|].
    by rewrite (bind_Return _ _ _ false s2 Hparse).
  - by rewrite Hall3, Hall2.
  - by rewrite Hq3, Hq2.
  - unfold getProcessedModule.
    rewrite (bind_lift _ _ _ (Some mod_)) by by rewrite Hall3, Hall2, <- Hidx.
    rewrite (bind_lift _ _ _ (set_state PROCESSING mob))
      by (unfold getobj; by rewrite Hob3).
    change (py_class (set_state PROCESSING mob)) with (py_class mob).
    rewrite Hmod. cbn [negb].
    change (state (set_state PROCESSING mob)) with PROCESSING.
    rewrite bool_decide_eq_false_2 by done. rewrite bind_ret.
    rewrite (bind_lift _ _ _ (set_state PROCESSING mob))
      by (unfold getobj; by rewrite Hob3).
    change (state (set_state PROCESSING mob)) with PROCESSING.
    by rewrite bool_decide_eq_false_2.
  - unfold processModule.
    rewrite (bind_lift _ _ _ (set_state PROCESSING mob))
      by (unfold getobj; by rewrite Hob3).
    change (state (set_state PROCESSING mob)) with PROCESSING.
    by rewrite bool_decide_eq_false_2.
Qed.

Lemma X20_unparsable_module_left_processing_witness :
  ∃ s3, processModule parse_failure (λ _, ret tt) (λ _, ret tt) 1
          twice_found_sys = Return tt s3
        ∧ violations s3 = 1
        ∧ unprocessed_modules s3 = [0]
        ∧ getProcessedModule parse_failure (λ _, ret tt) (λ _, ret tt) "p.a" s3
          = Return (Some 1) s3
        ∧ processModule parse_failure (λ _, ret tt) (λ _, ret tt) 1 s3
          = Throw AssertionError s3.
Proof.
  destruct (X20_unparsable_module_left_processing parse_failure (λ _, ret tt)
              (λ _, ret tt) twice_found_sys
              (final_state
                 (parse_failure 1
                    (set_unprocessed_modules [0]
                       (update 1 (set_state PROCESSING) twice_found_sys))))
              1 (mk_module false false "a" (Some 0) "p/a.py" []) "p.a" [0])
    as (s3 & Hrun & _ & _ & Hviol & _ & _ & Hq & Hget & Hagain);
    try (vm_compute; reflexivity).
  - left. by vm_compute.
  - exists s3. by split_and!.
Defined.

(** ** Inferred types and the lines of docstrings *)

Section inferred_types.
Import ast astutils.

Lemma _annotation_for_elements_loop_uniform (l : list pyvalue) (t : string) :
  Forall (λ e, _annotation_for_value e = Some (Name t)) l →
  ∀ names, _annotation_for_elements_loop l names
           = Some (if l is [] then names else {[t]} ∪ names).
Proof.
  induction 1 as [|e l He _ IH]; intros names; [done|].
  cbn [_annotation_for_elements_loop]. rewrite He, IH.
  f_equal. destruct l; [done|].
  by rewrite (assoc_L (∪)), (idemp_L (∪)).
Qed.

Lemma _annotation_for_elements_loop_inv (l : list pyvalue) :
  ∀ names X, _annotation_for_elements_loop l names = Some X →
    Forall (λ e, ∃ n, _annotation_for_value e = Some (Name n) ∧ n ∈ X) l
    ∧ names ⊆ X ∧ (l = [] → X = names).
Proof.
  induction l as [|e l IH]; intros names X; cbn [_annotation_for_elements_loop].
  - intros [= <-]. by split_and!.
  - destruct (_annotation_for_value e) as [[id| | | | | |]|] eqn:He; try done.
    intros Hl. destruct (IH _ _ Hl) as (Hall & Hsub & _).
    apply union_subseteq in Hsub as [Hid Hsub].
    split_and!; [|done..].
    constructor; [|done]. exists id. split; [done|].
    by apply Hid, elem_of_singleton.
Qed.

Lemma name_of_names_Some (X : gset string) (a : expr) :
  name_of_names (Some X) = Some a ↔ ∃ t, a = Name t ∧ X = {[t]}.
Proof.
  unfold name_of_names. split.
  - destruct (elements X) as [|t [|u l]] eqn:HX; try done.
    intros [= <-]. exists t. split; [done|].
    apply set_eq. intros x.
    by rewrite <- elem_of_elements, HX, list_elem_of_singleton, elem_of_singleton.
  - intros (t & -> & ->). by rewrite elements_singleton.
Qed.

Lemma _annotation_for_elements_spec (l : list pyvalue) (a : expr) :
  _annotation_for_elements l = Some a ↔ ∃ t, a = Name t ∧ uniform l t.
Proof.
  unfold _annotation_for_elements, uniform. split.
  - destruct (_annotation_for_elements_loop l ∅) as [X|] eqn:Hl; [|done].
    intros (t & -> & ->)%name_of_names_Some. exists t. split; [done|].
    destruct (_annotation_for_elements_loop_inv _ _ _ Hl) as (Hall & _ & Hnil).
    split.
    + intros ->. by apply (non_empty_singleton_L (C:=gset string) t), Hnil.
    + eapply Forall_impl; [exact Hall|].
      intros e (n & Hn & Hin). apply elem_of_singleton in Hin. by subst.
  - intros (t & -> & Hne & Hall).
    rewrite (_annotation_for_elements_loop_uniform l t Hall).
    apply name_of_names_Some. exists t. split; [done|].
    destruct l; [done|]. by rewrite (right_id_L ∅ (∪)).
Qed.

Lemma _annotation_for_value_sequence (l : list pyvalue) :
  _annotation_for_value (VList l)
  = container_annotation "list" (_annotation_for_elements l)
  ∧ _annotation_for_value (VTuple l)
    = container_annotation "tuple" (_annotation_for_elements l)
  ∧ _annotation_for_value (VSet l)
    = container_annotation "set" (_annotation_for_elements l).
Proof.
  unfold _annotation_for_elements. cbn [_annotation_for_value type_name].
  assert (Hloop : ∀ names,
    (fix loop (sequence : list pyvalue) (names : gset string) {struct sequence}
       : option (gset string) :=
       match sequence with
       | [] => Some names
       | elem :: rest =>
           match _annotation_for_value elem with
           | Some (Name id) => loop rest ({[id]} ∪ names)
           | _ => None
           end
       end) l names = _annotation_for_elements_loop l names).
  { induction l as [|e l IH]; intros names; [done|].
    cbn [_annotation_for_elements_loop].
    destruct (_annotation_for_value e) as [[id| | | | | |]|]; try done. }
  by rewrite Hloop.
Qed.

Lemma _annotation_for_value_dict (items : list (pyvalue * pyvalue)) :
  _annotation_for_value (VDict items)
  = container_annotation "dict"
      match _annotation_for_elements items.*2 with
      | None => None
      | Some ann_value =>
          match _annotation_for_elements items.*1 with
          | Some ann_elem => Some (Tuple [ann_elem; ann_value])
          | None => None
          end
      end.
Proof.
  unfold _annotation_for_elements. cbn [_annotation_for_value type_name].
  assert (Hkeys : ∀ items names,
    (fix loop_keys (items : list (pyvalue * pyvalue)) (names : gset string)
       {struct items} : option (gset string) :=
       match items with
       | [] => Some names
       | (elem, _) :: rest =>
           match _annotation_for_value elem with
           | Some (Name id) => loop_keys rest ({[id]} ∪ names)
           | _ => None
           end
       end) items names = _annotation_for_elements_loop items.*1 names).
  { clear. intros items. induction items as [|[k v] l IH]; intros names; [done|].
    cbn [fmap list_fmap fst _annotation_for_elements_loop].
    destruct (_annotation_for_value k) as [[id| | | | | |]|]; try done. }
  assert (Hvalues : ∀ items names,
    (fix loop_values (items : list (pyvalue * pyvalue)) (names : gset string)
       {struct items} : option (gset string) :=
       match items with
       | [] => Some names
       | (_, elem) :: rest =>
           match _annotation_for_value elem with
           | Some (Name id) => loop_values rest ({[id]} ∪ names)
           | _ => None
           end
       end) items names = _annotation_for_elements_loop items.*2 names).
  { clear. intros items. induction items as [|[k v] l IH]; intros names; [done|].
    cbn [fmap list_fmap snd _annotation_for_elements_loop].
    destruct (_annotation_for_value v) as [[id| | | | | |]|]; try done. }
  by rewrite (Hkeys items), (Hvalues items).
Qed.

(** X21: [_annotation_for_elements] gives an annotation exactly for a
    sequence that is not empty and whose elements all get one and the
    same plain name as their annotation; the annotation is then that
    name. An empty sequence, elements of different types, an element
    [None] and an element whose annotation is subscripted all give
    [None]. *)
Theorem X21_annotation_for_elements_uniform (l : list pyvalue) (a : expr) :
  _annotation_for_elements l = Some a ↔ ∃ t, a = Name t ∧ uniform l t.
Proof. apply _annotation_for_elements_spec. Qed.

(** X22: the annotation inferred for a list, a set or a tuple is the name
    of the container subscripted with the type of its elements when the
    elements are uniform ([list[t]], [set[t]], [tuple[t, ...]]), and the
    plain name of the container in every other case. *)
Theorem X22_annotation_for_sequence (l : list pyvalue) :
  (∃ t, uniform l t
        ∧ _annotation_for_value (VList l)
          = Some (Subscript (Name "list") (Name t))
        ∧ _annotation_for_value (VSet l)
          = Some (Subscript (Name "set") (Name t))
        ∧ _annotation_for_value (VTuple l)
          = Some (Subscript (Name "tuple")
                    (Tuple [Name t; Constant CEllipsis])))
  ∨ ((∀ t, ¬ uniform l t)
     ∧ _annotation_for_value (VList l) = Some (Name "list")
     ∧ _annotation_for_value (VSet l) = Some (Name "set")
     ∧ _annotation_for_value (VTuple l) = Some (Name "tuple")).
Proof.
  destruct (_annotation_for_value_sequence l) as (-> & -> & ->).
  destruct (_annotation_for_elements l) as [a|] eqn:Hl.
  - apply _annotation_for_elements_spec in Hl as (t & -> & Hu).
    left. by exists t.
  - right. split; [|done]. intros t Hu.
    assert (_annotation_for_elements l = Some (Name t)) as Hl'
      by (apply _annotation_for_elements_spec; eauto).
    congruence.
Qed.

(** X23: the annotation inferred for a [dict] is [dict[k, v]] when the
    keys are uniform of type [k] and the values are uniform of type [v],
    and plain [dict] in every other case, also when only the keys or only
    the values are uniform. *)
Theorem X23_annotation_for_dict (items : list (pyvalue * pyvalue)) :
  (∃ k v, uniform items.*1 k ∧ uniform items.*2 v
          ∧ _annotation_for_value (VDict items)
            = Some (Subscript (Name "dict") (Tuple [Name k; Name v])))
  ∨ ((∀ k v, ¬ (uniform items.*1 k ∧ uniform items.*2 v))
     ∧ _annotation_for_value (VDict items) = Some (Name "dict")).
Proof.
  rewrite _annotation_for_value_dict.
  destruct (_annotation_for_elements items.*2) as [av|] eqn:Hv.
  - apply _annotation_for_elements_spec in Hv as (v & -> & Hv).
    destruct (_annotation_for_elements items.*1) as [ak|] eqn:Hk.
    + apply _annotation_for_elements_spec in Hk as (k & -> & Hk).
      left. by exists k, v.
    + right. split; [|done]. intros k v' [Hk' _].
      assert (_annotation_for_elements items.*1 = Some (Name k)) as Hk''
        by (apply _annotation_for_elements_spec; eauto).
      congruence.
  - right. split; [|done]. intros k v [_ Hv'].
    assert (_annotation_for_elements items.*2 = Some (Name v)) as Hv''
      by (apply _annotation_for_elements_spec; eauto).
    congruence.
Qed.

End inferred_types.

Lemma skip_blank_lines_shift (isspace : ascii → bool) (doc : string) :
  ∀ n, astutils.skip_blank_lines isspace doc n
       = (n + astutils.skip_blank_lines isspace doc 0)%Z.
Proof.
  induction doc as [|ch rest IH]; intros n; cbn [astutils.skip_blank_lines].
  - lia.
  - case_bool_decide.
    + rewrite (IH (n + 1)%Z), (IH (0 + 1)%Z). lia.
    + destruct (isspace ch); cbn [negb]; [apply IH|lia].
Qed.

Lemma skip_blank_lines_bounds (isspace : ascii → bool) (doc : string) :
  (0 ≤ astutils.skip_blank_lines isspace doc 0 ≤ astutils.count_newlines doc)%Z.
Proof.
  induction doc as [|ch rest IH];
    cbn [astutils.skip_blank_lines astutils.count_newlines]; [lia|].
  case_bool_decide.
  - rewrite skip_blank_lines_shift. lia.
  - destruct (isspace ch); cbn [negb]; lia.
Qed.

(** X24: the two conventions for the line of a docstring agree.
    [extract_docstring_linenum] returns the same line when the node
    carries the last line of the string and [_string_lineno_is_end] is
    set as when it carries the first line and the flag is not set,
    provided the last line is the first line plus the number of newlines
    of the text; and the line returned lies between the first and the
    last line of the string. *)
Theorem X24_extract_docstring_linenum_conventions (isspace : ascii → bool)
    (doc : string) (first : Z) :
  astutils.extract_docstring_linenum true isspace doc
    (first + astutils.count_newlines doc)
  = astutils.extract_docstring_linenum false isspace doc first
  ∧ (first ≤ astutils.extract_docstring_linenum false isspace doc first
     ≤ first + astutils.count_newlines doc)%Z.
Proof.
  unfold astutils.extract_docstring_linenum.
  pose proof (skip_blank_lines_bounds isspace doc).
  split.
  - f_equal. lia.
  - rewrite skip_blank_lines_shift. lia.
Qed.

(** ** Taking a subtree out of the index and putting it back *)

Lemma indexed_index_only (s s' : System) (L : list oid) :
  indexed s L → index_only s s' →
  (∀ k, (∀ x, x ∈ L → fullName (objects s) x ≠ Ok k) →
     allobjects s' !! k = allobjects s !! k) →
  (∀ x k, x ∈ L → fullName (objects s) x = Ok k →
     (∀ y, y ∈ L → fullName (objects s) y = Ok k → y = x) →
     allobjects s' !! k = Some x) →
  s' = s.
Proof.
  intros Hidx Honly Hout Hin.
  assert (Hall : allobjects s' = allobjects s).
  { apply map_eq. intros k.
    destruct (classic_in L s k) as [(x & Hx & Hk)|Hno]; [|by apply Hout].
    destruct (Hidx x Hx) as (k' & Hk' & Hlook).
    assert (k' = k) as -> by congruence.
    rewrite Hlook. apply (Hin x k Hx Hk).
    intros y Hy Hyk. destruct (Hidx y Hy) as (k'' & Hk'' & Hlook').
    assert (k'' = k) as -> by congruence. congruence. }
  rewrite Honly, Hall. by destruct s.
Qed.

Lemma put_back (s : System) (L : list oid) :
  indexed s L →
  ∃ s', runs set_allobject L s s' ∧ s' = s.
Proof.
  intros Hidx.
  destruct (ins_runs L s) as (s' & Hruns & Honly & Hout & Hin).
  { intros x Hx. destruct (Hidx x Hx) as (k & Hk & _). eauto. }
  exists s'. split; [done|]. by apply (indexed_index_only s s' L).
Qed.

Lemma take_out_put_back (s : System) (L : list oid) :
  NoDup L → indexed s L →
  ∃ s1, runs (λ fn _, del_allobjects fn) L s s1
        ∧ objects s1 = objects s
        ∧ runs set_allobject L s1 s.
Proof.
  intros Hnd Hidx.
  destruct (del_runs L s Hnd Hidx) as (s1 & Hdel & Honly1 & Hin1 & Hout1).
  pose proof (index_only_objects _ _ Honly1) as Hobj.
  destruct (ins_runs L s1) as (s2 & Hins & Honly2 & Hout2 & Hin2).
  { intros x Hx. destruct (Hidx x Hx) as (k & Hk & _). rewrite Hobj. eauto. }
  exists s1. split_and!; [done..|].
  assert (s2 = s) as <-; [|done].
  apply (indexed_index_only s s2 L); [done|by apply (index_only_trans _ s1)| |].
  - intros k Hno. rewrite Hout2, Hout1; [done..|].
    intros x Hx. rewrite Hobj. by apply Hno.
  - intros x k Hx Hk Huniq. apply Hin2; [done|by rewrite Hobj|].
    intros y Hy. rewrite Hobj. by apply Huniq.
Qed.

(** X25: putting a subtree back into the index undoes taking it out, and
    is harmless when it is repeated. For an object that is in the index
    under its full name together with everything below it, these objects
    being pairwise different, [_handle_reparenting_post] and the [readd]
    of [handleDuplicate] leave the system as it is, and
    [_handle_reparenting_pre] followed by [_handle_reparenting_post], and
    [_remove] followed by [readd], return with the system exactly as it
    was before. *)
Theorem X25_index_put_back (s : System) (o : oid) (L : list oid) :
  descendants (objects s) o = Ok L →
  NoDup L →
  indexed s L →
  _handle_reparenting_post o s = Return tt s
  ∧ readd o s = Return tt s
  ∧ (_handle_reparenting_pre o ;; _handle_reparenting_post o) s = Return tt s
  ∧ (_remove o ;; readd o) s = Return tt s.
Proof.
  intros HL Hnd Hidx.
  destruct (take_out_put_back s L Hnd Hidx) as (s1 & Hdel & Hobj & Hins).
  assert (HL1 : descendants (objects s1) o = Ok L) by by rewrite Hobj.
  split_and!.
  - destruct (put_back s L Hidx) as (s' & Hruns & ->).
    unfold _handle_reparenting_post. rewrite _handle_reparenting_post_go_walk.
    by apply (walk_go_run _ _ _ _ L).
  - destruct (put_back s L Hidx) as (s' & Hruns & ->).
    unfold readd. rewrite readd_go_walk.
    by apply (walk_go_run _ _ _ _ L).
  - rewrite (bind_Return _ _ _ tt s1).
    + unfold _handle_reparenting_post.
      rewrite _handle_reparenting_post_go_walk.
      by apply (walk_go_run _ _ _ _ L).
    + unfold _handle_reparenting_pre.
      rewrite _handle_reparenting_pre_go_walk.
      by apply (walk_go_run _ _ _ _ L).
  - rewrite (bind_Return _ _ _ tt s1).
    + unfold readd. rewrite readd_go_walk.
      by apply (walk_go_run _ _ _ _ L).
    + unfold _remove. rewrite _remove_go_walk.
      by apply (walk_go_run _ _ _ _ L).
Qed.

Lemma X25_index_put_back_witness :
  _handle_reparenting_post 3 move_sys = Return tt move_sys
  ∧ readd 3 move_sys = Return tt move_sys
  ∧ (_handle_reparenting_pre 3 ;; _handle_reparenting_post 3) move_sys
    = Return tt move_sys
  ∧ (_remove 3 ;; readd 3) move_sys = Return tt move_sys.
Proof.
  apply (X25_index_put_back move_sys 3 [3; 4]).
  - vm_compute. reflexivity.
  - apply (bool_decide_unpack _). vm_compute. reflexivity.
  - intros x Hx.
    apply elem_of_cons in Hx as [->|Hx];
      [exists "pkg.a.C"; split; vm_compute; reflexivity|].
    apply elem_of_cons in Hx as [->|Hx];
      [exists "pkg.a.C.m"; split; vm_compute; reflexivity|].
    by apply elem_of_nil in Hx.
Defined.
